(** * Ginkgo: the table DSL and the suite engine

    A shallow embedding of [table_dsl.go] (package [ginkgo]: [DescribeTable],
    [Entry], [generateTable], [validateParameters], [invokeFunction],
    [computeValue]) and of the suite engine that follows it in the same
    source file (package [internal]: [Suite], [pushSuiteNode], [runSpecs],
    [runSpec], [reportAfterEach], [runSuiteNode], [runReportAfterSuiteNode],
    [runNode], and the tree construction: [PushNode], [BuildTree], [Run]).
    The reporter, whose calls change nothing in the engine, is left out.

    Go [int] values are [Z]; every arithmetic operation of the embedded code
    stays far from the 64-bit bounds ([attempt + 1 <= maxAttempts],
    [NestingLevel - 1] under [NestingLevel > 0]), so no wrap-around occurs.
    Wall-clock fields ([StartTime], [EndTime], [RunTime]) and the captured
    stdout/stderr of the output interceptor are left out of the records: no
    control flow of the engine reads them. *)

From Stdlib Require Import List ZArith Lia Bool String.
From Stdlib Require Import Sorting.Sorted Sorting.Permutation.
Import ListNotations.
Local Open Scope Z_scope.
Set Implicit Arguments.

(** ** Package [reflect]: the fragment the table DSL inspects *)

Module reflect.

(** Go types as [reflect.Type] shows them.  A function type lists its
    parameter types; when it is variadic the last of them is the slice
    type of the variadic parameter, as in Go. *)
#[warnings="-register-all"]
Inductive Type_ : Type :=
| Bool
| Int
| String
| Interface
| Slice (elem : Type_)
| Ptr (elem : Type_)
| Func (ins : list Type_) (variadic : bool) (outs : list Type_)
| Struct (name : string).

Definition isString (t : Type_) : bool :=
  match t with String => true | _ => false end.

Definition isFunc (t : Type_) : bool :=
  match t with Func _ _ _ => true | _ => false end.

Definition isStruct (name : string) (t : Type_) : bool :=
  match t with Struct n => String.eqb n name | _ => false end.

(** [t.NumIn()], [t.In(i)], [t.IsVariadic()], [t.NumOut()], [t.Out(i)] of a
    function type and [t.Elem()] of a slice or pointer type. *)
Definition NumIn (t : Type_) : nat :=
  match t with Func ins _ _ => List.length ins | _ => O end.

Definition In_ (t : Type_) (i : nat) : Type_ :=
  match t with Func ins _ _ => nth i ins Interface | _ => Interface end.

Definition IsVariadic (t : Type_) : bool :=
  match t with Func _ variadic _ => variadic | _ => false end.

Definition NumOut (t : Type_) : nat :=
  match t with Func _ _ outs => List.length outs | _ => O end.

Definition Out (t : Type_) (i : nat) : Type_ :=
  match t with Func _ _ outs => nth i outs Interface | _ => Interface end.

Definition Elem (t : Type_) : Type_ :=
  match t with Slice elem | Ptr elem => elem | _ => t end.

(** What a Go value holds, as far as the table DSL looks: the zero value
    of its type, or some other content. *)
Inductive Data : Type :=
| ZeroData
| BoolData (b : bool)
| IntData (z : Z)
| StringData (s : string)
| OtherData (rendered : string).

(** [reflect.Value]; [Invalid] is the zero [reflect.Value]. *)
Inductive Value : Type :=
| Invalid
| Valid (t : Type_) (d : Data).

(** [reflect.Zero(t)] *)
Definition Zero (t : Type_) : Value := Valid t ZeroData.

(** [v.String()] *)
Definition Value_String (v : Value) : string :=
  match v with
  | Valid _ (StringData s) => s
  | Valid _ ZeroData => EmptyString
  | _ => "<invalid Value>"
  end.

End reflect.

(** ** Package [types] *)

Module types.

Inductive NodeType : Type :=
| NodeTypeInvalid
| NodeTypeContainer
| NodeTypeIt
| NodeTypeBeforeEach
| NodeTypeJustBeforeEach
| NodeTypeAfterEach
| NodeTypeJustAfterEach
| NodeTypeBeforeSuite
| NodeTypeSynchronizedBeforeSuite
| NodeTypeAfterSuite
| NodeTypeSynchronizedAfterSuite
| NodeTypeReportAfterEach
| NodeTypeReportAfterSuite.

Definition NodeType_eqb (a b : NodeType) : bool :=
  match a, b with
  | NodeTypeInvalid, NodeTypeInvalid
  | NodeTypeContainer, NodeTypeContainer
  | NodeTypeIt, NodeTypeIt
  | NodeTypeBeforeEach, NodeTypeBeforeEach
  | NodeTypeJustBeforeEach, NodeTypeJustBeforeEach
  | NodeTypeAfterEach, NodeTypeAfterEach
  | NodeTypeJustAfterEach, NodeTypeJustAfterEach
  | NodeTypeBeforeSuite, NodeTypeBeforeSuite
  | NodeTypeSynchronizedBeforeSuite, NodeTypeSynchronizedBeforeSuite
  | NodeTypeAfterSuite, NodeTypeAfterSuite
  | NodeTypeSynchronizedAfterSuite, NodeTypeSynchronizedAfterSuite
  | NodeTypeReportAfterEach, NodeTypeReportAfterEach
  | NodeTypeReportAfterSuite, NodeTypeReportAfterSuite => true
  | _, _ => false
  end.

(** [nt.Is(nodeTypes...)] *)
Definition NodeType_Is (nt : NodeType) (nodeTypes : list NodeType) : bool :=
  existsb (NodeType_eqb nt) nodeTypes.

Definition NodeTypesForSuiteLevelNodes : list NodeType :=
  [NodeTypeBeforeSuite; NodeTypeSynchronizedBeforeSuite; NodeTypeAfterSuite;
   NodeTypeSynchronizedAfterSuite; NodeTypeReportAfterSuite].

(** The states of a spec report; [SpecStateInvalid] is the zero value. *)
Inductive SpecState : Type :=
| SpecStateInvalid
| SpecStatePending
| SpecStateSkipped
| SpecStatePassed
| SpecStateFailed
| SpecStateAborted
| SpecStateInterrupted.

Definition SpecState_eqb (a b : SpecState) : bool :=
  match a, b with
  | SpecStateInvalid, SpecStateInvalid
  | SpecStatePending, SpecStatePending
  | SpecStateSkipped, SpecStateSkipped
  | SpecStatePassed, SpecStatePassed
  | SpecStateFailed, SpecStateFailed
  | SpecStateAborted, SpecStateAborted
  | SpecStateInterrupted, SpecStateInterrupted => true
  | _, _ => false
  end.

(** [state.Is(states...)] *)
Definition SpecState_Is (s : SpecState) (states : list SpecState) : bool :=
  existsb (SpecState_eqb s) states.

Inductive FailureNodeContext : Type :=
| FailureNodeContextInvalid
| FailureNodeIsLeafNode
| FailureNodeAtTopLevel
| FailureNodeInContainer.

Module CodeLocation.
Record t : Type := { FileName : string; LineNumber : Z }.
Definition zero : t := {| FileName := EmptyString; LineNumber := 0 |}.
End CodeLocation.

(** Errors built by [types.GinkgoErrors]: one constructor per builder the
    source calls, carrying the builder's arguments. *)
Inductive GinkgoError : Type :=
| MultipleEntryBodyFunctionsForTable (cl : CodeLocation.t)
| InvalidEntryDescription (cl : CodeLocation.t)
| TooFewParametersToTableFunction
    (expected actual : Z) (kind : string) (cl : CodeLocation.t)
| TooManyParametersToTableFunction
    (expected actual : Z) (kind : string) (cl : CodeLocation.t)
| IncorrectParameterTypeToTableFunction
    (i : Z) (expected actual : reflect.Type_) (kind : string)
    (cl : CodeLocation.t)
| IncorrectVariadicParameterTypeToTableFunction
    (expected actual : reflect.Type_) (kind : string) (cl : CodeLocation.t)
| PushingNodeInRunPhase (nodeType : NodeType) (cl : CodeLocation.t)
| SuiteNodeInNestedContext (nodeType : NodeType) (cl : CodeLocation.t)
| SuiteNodeDuringRunPhase (nodeType : NodeType) (cl : CodeLocation.t)
| MultipleBeforeSuiteNodes
    (nodeType : NodeType) (cl : CodeLocation.t)
    (earlierNodeType : NodeType) (earlierCodeLocation : CodeLocation.t)
| MultipleAfterSuiteNodes
    (nodeType : NodeType) (cl : CodeLocation.t)
    (earlierNodeType : NodeType) (earlierCodeLocation : CodeLocation.t).


(** What a body panics with: an error value ([panic(err)]) or any other
    value, kept as its [%v] rendering. *)
Inductive PanicValue : Type :=
| PanicError (err : GinkgoError)
| PanicOther (rendered : string).

Module Failure.
(** [ForwardedPanic] keeps the recovered panic value itself ([None] when
    no panic was forwarded) instead of its formatted text. *)
Record t : Type := {
  Message : string;
  Location : CodeLocation.t;
  ForwardedPanic : option PanicValue;
  FailureNodeContext : FailureNodeContext;
  FailureNodeContainerIndex : Z;
  FailureNodeLocation : CodeLocation.t;
  FailureNodeType : NodeType
}.
(** [types.Failure{}] *)
Definition zero : t :=
  {| Message := EmptyString; Location := CodeLocation.zero;
     ForwardedPanic := None;
     FailureNodeContext := FailureNodeContextInvalid;
     FailureNodeContainerIndex := 0;
     FailureNodeLocation := CodeLocation.zero;
     FailureNodeType := NodeTypeInvalid |}.
End Failure.

(** One write to the diagnostic writer.  The writer's content is kept as
    the sequence of writes: the retry notice of [runSpec], the progress
    line of [runNode], and whatever a node body prints. *)
Inductive WriterChunk : Type :=
| RetryNotice (attempt : Z)
| ProgressLine (nodeType : NodeType) (text : string) (cl : CodeLocation.t)
| BodyOutput (s : string).

Module SpecReport.
Record t : Type := {
  ContainerHierarchyTexts : list string;
  ContainerHierarchyLocations : list CodeLocation.t;
  LeafNodeType : NodeType;
  LeafNodeLocation : CodeLocation.t;
  LeafNodeText : string;
  State : SpecState;
  Failure : Failure.t;
  NumAttempts : Z;
  CapturedGinkgoWriterOutput : list WriterChunk;
  GinkgoParallelNode : Z
}.
(** [types.SpecReport{}] *)
Definition zero : t :=
  {| ContainerHierarchyTexts := []; ContainerHierarchyLocations := [];
     LeafNodeType := NodeTypeInvalid; LeafNodeLocation := CodeLocation.zero;
     LeafNodeText := EmptyString; State := SpecStateInvalid;
     Failure := Failure.zero; NumAttempts := 0;
     CapturedGinkgoWriterOutput := []; GinkgoParallelNode := 0 |}.

Definition withOutcome (s : SpecState) (f : Failure.t) (r : t) : t :=
  {| ContainerHierarchyTexts := ContainerHierarchyTexts r;
     ContainerHierarchyLocations := ContainerHierarchyLocations r;
     LeafNodeType := LeafNodeType r; LeafNodeLocation := LeafNodeLocation r;
     LeafNodeText := LeafNodeText r; State := s; Failure := f;
     NumAttempts := NumAttempts r;
     CapturedGinkgoWriterOutput := CapturedGinkgoWriterOutput r;
     GinkgoParallelNode := GinkgoParallelNode r |}.

Definition withState (s : SpecState) (r : t) : t :=
  withOutcome s (Failure r) r.

Definition withNumAttempts (n : Z) (r : t) : t :=
  {| ContainerHierarchyTexts := ContainerHierarchyTexts r;
     ContainerHierarchyLocations := ContainerHierarchyLocations r;
     LeafNodeType := LeafNodeType r; LeafNodeLocation := LeafNodeLocation r;
     LeafNodeText := LeafNodeText r; State := State r; Failure := Failure r;
     NumAttempts := n;
     CapturedGinkgoWriterOutput := CapturedGinkgoWriterOutput r;
     GinkgoParallelNode := GinkgoParallelNode r |}.

Definition withCapturedGinkgoWriterOutput (o : list WriterChunk) (r : t)
  : t :=
  {| ContainerHierarchyTexts := ContainerHierarchyTexts r;
     ContainerHierarchyLocations := ContainerHierarchyLocations r;
     LeafNodeType := LeafNodeType r; LeafNodeLocation := LeafNodeLocation r;
     LeafNodeText := LeafNodeText r; State := State r; Failure := Failure r;
     NumAttempts := NumAttempts r;
     CapturedGinkgoWriterOutput := o;
     GinkgoParallelNode := GinkgoParallelNode r |}.
End SpecReport.

Module SuiteConfig.
Record t : Type := {
  DryRun : bool;
  FailFast : bool;
  FailOnPending : bool;
  EmitSpecProgress : bool;
  FlakeAttempts : Z;
  ParallelNode : Z;
  ParallelTotal : Z
}.
End SuiteConfig.

Module PreRunStats.
Record t : Type := { TotalSpecs : Z; SpecsThatWillRun : Z }.
End PreRunStats.

Module Report.
Record t : Type := {
  SuitePath : string;
  SuiteDescription : string;
  SuiteConfig : SuiteConfig.t;
  SuiteHasProgrammaticFocus : bool;
  PreRunStats : PreRunStats.t;
  SuiteSucceeded : bool;
  SpecialSuiteFailureReasons : list string;
  SpecReports : list SpecReport.t
}.

Definition withSuiteSucceeded (b : bool) (r : t) : t :=
  {| SuitePath := SuitePath r; SuiteDescription := SuiteDescription r;
     SuiteConfig := SuiteConfig r;
     SuiteHasProgrammaticFocus := SuiteHasProgrammaticFocus r;
     PreRunStats := PreRunStats r; SuiteSucceeded := b;
     SpecialSuiteFailureReasons := SpecialSuiteFailureReasons r;
     SpecReports := SpecReports r |}.

Definition withSpecialSuiteFailureReasons (l : list string) (r : t) : t :=
  {| SuitePath := SuitePath r; SuiteDescription := SuiteDescription r;
     SuiteConfig := SuiteConfig r;
     SuiteHasProgrammaticFocus := SuiteHasProgrammaticFocus r;
     PreRunStats := PreRunStats r; SuiteSucceeded := SuiteSucceeded r;
     SpecialSuiteFailureReasons := l;
     SpecReports := SpecReports r |}.

Definition withSpecReports (l : list SpecReport.t) (r : t) : t :=
  {| SuitePath := SuitePath r; SuiteDescription := SuiteDescription r;
     SuiteConfig := SuiteConfig r;
     SuiteHasProgrammaticFocus := SuiteHasProgrammaticFocus r;
     PreRunStats := PreRunStats r; SuiteSucceeded := SuiteSucceeded r;
     SpecialSuiteFailureReasons := SpecialSuiteFailureReasons r;
     SpecReports := l |}.

(** Modelled from the spec: [Report.Add], which is declared in package
    [types] outside the sources at hand.  Partial reports of the other
    workers are combined: spec reports concatenated, success flags
    ANDed. *)
Definition Add (r other : t) : t :=
  {| SuitePath := SuitePath r; SuiteDescription := SuiteDescription r;
     SuiteConfig := SuiteConfig r;
     SuiteHasProgrammaticFocus := SuiteHasProgrammaticFocus r;
     PreRunStats := PreRunStats r;
     SuiteSucceeded := SuiteSucceeded r && SuiteSucceeded other;
     SpecialSuiteFailureReasons :=
       SpecialSuiteFailureReasons r ++ SpecialSuiteFailureReasons other;
     SpecReports := SpecReports r ++ SpecReports other |}.
End Report.

End types.

(** ** Package [internal]: the suite engine *)

Module internal.

Definition Bytes : Type := list Byte.byte.

(** *** The collaborators of the engine

    The engine talks to an interrupt handler, to a failure recorder, to the
    diagnostic writer and, in parallel runs, to the client of a coordination
    server.  Their implementations are outside the sources at hand; each is
    modelled from the spec at the interface the engine uses.  What the
    outside world decides (when an interrupt signal arrives, when a call to
    the server fails, what the other workers do) is read from an
    [Environment], indexed by a logical clock that advances by one at every
    point where the engine meets the outside world: a call to
    [interruptHandler.Status()], a node execution, a call to the client. *)

Module Environment.
Record t : Type := {
  (** an interrupt signal is delivered during this tick *)
  interruptSignal : nat -> bool;
  (** [interruptHandler.InterruptMessageWithStackTraces()] at this tick *)
  interruptMessage : nat -> string;
  (** [interruptStatus.Cause.String()] *)
  interruptCause : string;
  (** the call made to the server at this tick fails with this error *)
  commError : nat -> option string;
  (** spec indices handed to other workers just before this tick *)
  peerClaims : nat -> nat;
  (** the combined report of the other workers, when asked at this tick *)
  aggregatedNonprimaryNodesReport : nat -> types.Report.t
}.
End Environment.

(** Modelled from the spec: the state the coordination server keeps for
    SynchronizedBeforeSuite (nothing posted yet, success with the data blob,
    or failure), the shared counter that hands out spec indices, and the log
    of the fire-and-forget broadcasts. *)
Inductive BeforeSuiteState : Type :=
| BeforeSuitePending
| BeforeSuiteSucceeded (data : Bytes)
| BeforeSuiteFailed.

Inductive Post : Type :=
| PostSuiteWillBegin (report : types.Report.t)
| PostDidRun (specReport : types.SpecReport.t)
| PostAbort
| PostSuiteDidEnd (report : types.Report.t).

Module Server.
Record t : Type := {
  beforeSuiteState : BeforeSuiteState;
  counter : nat;
  posts : list Post
}.
Definition initial : t :=
  {| beforeSuiteState := BeforeSuitePending; counter := 0%nat; posts := [] |}.
End Server.

(** Modelled from the spec: the failure recorder ([Failer]), a single slot
    that absorbs the first reported failure or trapped fault and is emptied
    when drained.  [None] is the empty slot (state Passed). *)
Definition Failer : Type := option (types.SpecState * types.Failure.t).

Definition Failer_Panic (location : types.CodeLocation.t)
  (forwardedPanic : option types.PanicValue) (f : Failer) : Failer :=
  match f with
  | Some _ => f
  | None =>
      Some (types.SpecStateFailed,
            {| types.Failure.Message := "Test Panicked";
               types.Failure.Location := location;
               types.Failure.ForwardedPanic := forwardedPanic;
               types.Failure.FailureNodeContext :=
                 types.FailureNodeContextInvalid;
               types.Failure.FailureNodeContainerIndex := 0;
               types.Failure.FailureNodeLocation := types.CodeLocation.zero;
               types.Failure.FailureNodeType := types.NodeTypeInvalid |})
  end.

Definition Failer_Drain (f : Failer) : types.SpecState * types.Failure.t :=
  match f with
  | None => (types.SpecStatePassed, types.Failure.zero)
  | Some outcome => outcome
  end.

(** What a body reports to the recorder while it runs: a failure, a skip or
    an abort of the suite, with a message and a location. *)
Inductive FailerCall : Type :=
| Failer_Fail (message : string) (location : types.CodeLocation.t)
| Failer_Skip (message : string) (location : types.CodeLocation.t)
| Failer_AbortSuite (message : string) (location : types.CodeLocation.t).

Definition Failer_record (c : FailerCall) (f : Failer) : Failer :=
  match f with
  | Some _ => f
  | None =>
      let '(state, message, location) :=
        match c with
        | Failer_Fail m l => (types.SpecStateFailed, m, l)
        | Failer_Skip m l => (types.SpecStateSkipped, m, l)
        | Failer_AbortSuite m l => (types.SpecStateAborted, m, l)
        end in
      Some (state,
            {| types.Failure.Message := message;
               types.Failure.Location := location;
               types.Failure.ForwardedPanic := None;
               types.Failure.FailureNodeContext :=
                 types.FailureNodeContextInvalid;
               types.Failure.FailureNodeContainerIndex := 0;
               types.Failure.FailureNodeLocation := types.CodeLocation.zero;
               types.Failure.FailureNodeType := types.NodeTypeInvalid |})
  end.

(** [max] of the source *)
Definition max (a b : Z) : Z := if a >? b then a else b.

Inductive Phase : Type :=
| PhaseBuildTopLevel
| PhaseBuildTree
| PhaseRun.

Section Engine.

(** The state the node bodies close over: whatever the user's test code
    reads and writes. *)
Variable U : Type.

(** How a body stops: it returns, it panics with a value, or it leaves
    without returning ([finished] stays false and [recover()] is nil).  The
    location is [types.NewCodeLocationWithStackTrace(2)] at that point. *)
Inductive Exit : Type :=
| Returned
| Panicked (e : types.PanicValue) (location : types.CodeLocation.t)
| Exited (location : types.CodeLocation.t).

(** One run of a body from a given user state: how it stops, what it has
    reported to the failure recorder by then (the first report, the only
    one the recorder keeps), what it has printed to the diagnostic writer,
    the value it returns (only [SynchronizedBeforeSuiteNode1Body] returns
    one), the user state it leaves, and the user state at which an
    interrupt finds it when the engine stops waiting for it. *)
Record BodyRun : Type := {
  exit : Exit;
  recorded : option FailerCall;
  output : list string;
  returned : Bytes;
  after : U;
  midway : U
}.

Record Node : Type := {
  NodeType : types.NodeType;
  Text : string;
  CodeLocation : types.CodeLocation.t;
  NestingLevel : Z;
  MarkedFocus : bool;
  MarkedPending : bool;
  FlakeAttempts : Z;
  Body : U -> BodyRun;
  SynchronizedBeforeSuiteNode1Body : U -> BodyRun;
  SynchronizedBeforeSuiteAllNodesBody : Bytes -> U -> BodyRun;
  SynchronizedAfterSuiteAllNodesBody : U -> BodyRun;
  SynchronizedAfterSuiteNode1Body : U -> BodyRun;
  ReportAfterEachBody : types.SpecReport.t -> U -> BodyRun;
  ReportAfterSuiteBody : types.Report.t -> U -> BodyRun
}.

Definition Nodes : Type := list Node.

Record Spec : Type := { Nodes_ : Nodes; Skip : bool }.

Definition Specs : Type := list Spec.

(** The closure the engine stores in [node.Body] before it hands the node to
    [runNode]: the body given at registration, or one of the closures
    [func() { data = node.SynchronizedBeforeSuiteNode1Body() }],
    [func() { node.SynchronizedBeforeSuiteAllNodesBody(data) }],
    [node.SynchronizedAfterSuiteAllNodesBody],
    [node.SynchronizedAfterSuiteNode1Body],
    [func() { node.ReportAfterEachBody(report) }],
    [func() { node.ReportAfterSuiteBody(report) }]. *)
Inductive BodyCall : Type :=
| CallBody
| CallSynchronizedBeforeSuiteNode1Body
| CallSynchronizedBeforeSuiteAllNodesBody (data : Bytes)
| CallSynchronizedAfterSuiteAllNodesBody
| CallSynchronizedAfterSuiteNode1Body
| CallReportAfterEachBody (report : types.SpecReport.t)
| CallReportAfterSuiteBody (report : types.Report.t).

Definition invoke (node : Node) (call : BodyCall) : U -> BodyRun :=
  match call with
  | CallBody => Body node
  | CallSynchronizedBeforeSuiteNode1Body =>
      SynchronizedBeforeSuiteNode1Body node
  | CallSynchronizedBeforeSuiteAllNodesBody data =>
      SynchronizedBeforeSuiteAllNodesBody node data
  | CallSynchronizedAfterSuiteAllNodesBody =>
      SynchronizedAfterSuiteAllNodesBody node
  | CallSynchronizedAfterSuiteNode1Body =>
      SynchronizedAfterSuiteNode1Body node
  | CallReportAfterEachBody report => ReportAfterEachBody node report
  | CallReportAfterSuiteBody report => ReportAfterSuiteBody node report
  end.

(** Everything outside the [Suite] value that a run reads and writes.
    [invoked] is a ghost log of the bodies the engine has started, oldest
    first. *)
Record World : Type := {
  env : Environment.t;
  now : nat;
  user : U;
  writer : list types.WriterChunk;
  invoked : list (Node * BodyCall);
  server : Server.t
}.

Record Suite : Type := {
  topLevelContainers : Nodes;
  phase : Phase;
  suiteNodes : Nodes;
  currentSpecReport : types.SpecReport.t
}.

(** [NewSuite] *)
Definition NewSuite : Suite :=
  {| topLevelContainers := []; phase := PhaseBuildTopLevel; suiteNodes := [];
     currentSpecReport := types.SpecReport.zero |}.

Definition withCurrentSpecReport (r : types.SpecReport.t) (suite : Suite)
  : Suite :=
  {| topLevelContainers := topLevelContainers suite; phase := phase suite;
     suiteNodes := suiteNodes suite; currentSpecReport := r |}.

Definition withSuiteNodes (l : Nodes) (suite : Suite) : Suite :=
  {| topLevelContainers := topLevelContainers suite; phase := phase suite;
     suiteNodes := l; currentSpecReport := currentSpecReport suite |}.

Definition withPhase (p : Phase) (suite : Suite) : Suite :=
  {| topLevelContainers := topLevelContainers suite; phase := p;
     suiteNodes := suiteNodes suite;
     currentSpecReport := currentSpecReport suite |}.

(** *** World updates *)

Definition tick (w : World) : World :=
  {| env := env w; now := S (now w); user := user w; writer := writer w;
     invoked := invoked w; server := server w |}.

Definition withUser (u : U) (w : World) : World :=
  {| env := env w; now := now w; user := u; writer := writer w;
     invoked := invoked w; server := server w |}.

Definition withWriter (l : list types.WriterChunk) (w : World) : World :=
  {| env := env w; now := now w; user := user w; writer := l;
     invoked := invoked w; server := server w |}.

Definition withInvoked (l : list (Node * BodyCall)) (w : World) : World :=
  {| env := env w; now := now w; user := user w; writer := writer w;
     invoked := l; server := server w |}.

Definition withServer (s : Server.t) (w : World) : World :=
  {| env := env w; now := now w; user := user w; writer := writer w;
     invoked := invoked w; server := s |}.

(** [writer.Truncate()], [writer.Write], [writer.Bytes()] *)
Definition Writer_Truncate (w : World) : World := withWriter [] w.

Definition Writer_Write (chunks : list types.WriterChunk) (w : World)
  : World :=
  withWriter (writer w ++ chunks) w.

Definition Writer_Bytes (w : World) : list types.WriterChunk := writer w.

(** *** The interrupt handler

    Modelled from the spec: [InterruptHandlerInterface].  [Status()] tells
    whether an interrupt has been delivered so far and hands out the channel
    that the next interrupt fires; a channel is identified by the tick it
    was handed out at.  A nil channel never fires. *)

Definition signalledWithin (e : Environment.t) (from count : nat) : bool :=
  existsb (Environment.interruptSignal e) (seq from count).

Record InterruptStatus : Type := { Interrupted : bool; Channel : nat }.

Definition Status (w : World) : InterruptStatus * World :=
  ({| Interrupted := signalledWithin (env w) 0 (S (now w));
      Channel := S (now w) |}, tick w).

(** The channel fires no later than tick [t]. *)
Definition channelFires (e : Environment.t) (interruptChannel : option nat)
  (t : nat) : bool :=
  match interruptChannel with
  | None => false
  | Some c => signalledWithin e c (S t - c)
  end.

(** *** Methods of [Nodes] and [Spec]

    Modelled from the spec: the selection, ordering and lookup helpers of
    [Nodes], [Spec] and [Specs], declared in package [internal] outside the
    sources at hand.  The sorts are stable, as the engine relies on
    registration order inside one nesting level. *)

Definition WithType (nodeTypes : list types.NodeType) (n : Nodes) : Nodes :=
  filter (fun node => types.NodeType_Is (NodeType node) nodeTypes) n.

Fixpoint insertBefore (before : Node -> Node -> bool) (x : Node) (l : Nodes)
  : Nodes :=
  match l with
  | [] => [x]
  | y :: l' => if before y x then y :: insertBefore before x l' else x :: l
  end.

Definition sortStable (before : Node -> Node -> bool) (n : Nodes) : Nodes :=
  fold_right (insertBefore before) [] n.

Definition SortedByAscendingNestingLevel (n : Nodes) : Nodes :=
  sortStable (fun a b => NestingLevel a <? NestingLevel b) n.

Definition SortedByDescendingNestingLevel (n : Nodes) : Nodes :=
  sortStable (fun a b => NestingLevel a >? NestingLevel b) n.

Definition CopyAppend (n more : Nodes) : Nodes := n ++ more.

Definition WithinNestingLevel (deepestNestingLevel : Z) (n : Nodes) : Nodes :=
  filter (fun node => NestingLevel node <=? deepestNestingLevel) n.

(** The zero [Node]: [FirstNodeWithType] returns it when no node matches,
    and [IsZero] recognises it. *)
Definition noBody (u : U) : BodyRun :=
  {| exit := Returned; recorded := None; output := []; returned := [];
     after := u; midway := u |}.

Definition zeroNode : Node :=
  {| NodeType := types.NodeTypeInvalid; Text := EmptyString;
     CodeLocation := types.CodeLocation.zero; NestingLevel := 0;
     MarkedFocus := false; MarkedPending := false; FlakeAttempts := 0;
     Body := noBody;
     SynchronizedBeforeSuiteNode1Body := noBody;
     SynchronizedBeforeSuiteAllNodesBody := fun _ => noBody;
     SynchronizedAfterSuiteAllNodesBody := noBody;
     SynchronizedAfterSuiteNode1Body := noBody;
     ReportAfterEachBody := fun _ => noBody;
     ReportAfterSuiteBody := fun _ => noBody |}.

Definition FirstNodeWithType (nodeTypes : list types.NodeType) (n : Nodes)
  : Node :=
  hd zeroNode (WithType nodeTypes n).

Definition IsZero (node : Node) : bool :=
  types.NodeType_eqb (NodeType node) types.NodeTypeInvalid.

Definition HasNodeMarkedPending (n : Nodes) : bool := existsb MarkedPending n.

Definition Texts (n : Nodes) : list string := map Text n.

Definition CodeLocations (n : Nodes) : list types.CodeLocation.t :=
  map CodeLocation n.

Definition BestTextFor (n : Nodes) (node : Node) : string :=
  if negb (String.eqb (Text node) EmptyString) then Text node
  else
    match
      find (fun other => negb (String.eqb (Text other) EmptyString)
                         && (NestingLevel other =? NestingLevel node - 1)) n
    with
    | Some other => Text other
    | None => EmptyString
    end.

(** [spec.FlakeAttempts()]: the flake-attempt decoration of the spec, that
    of its innermost node that carries one. *)
Definition Spec_FlakeAttempts (spec : Spec) : Z :=
  fold_left (fun flakeAttempts node =>
               if FlakeAttempts node >? 0 then FlakeAttempts node
               else flakeAttempts)
            (Nodes_ spec) 0.

Definition CountWithoutSkip (specs : Specs) : Z :=
  Z.of_nat (List.length (filter (fun spec => negb (Skip spec)) specs)).

Definition HasAnySpecsMarkedPending (specs : Specs) : bool :=
  existsb (fun spec => HasNodeMarkedPending (Nodes_ spec)) specs.

(** *** [runNode] *)

(** The failure metadata [runNode] fills in before the body starts. *)
Definition failureContextFor (node : Node) : types.Failure.t :=
  let leaf :=
    types.NodeType_Is (NodeType node) [types.NodeTypeIt]
    || types.NodeType_Is (NodeType node) types.NodeTypesForSuiteLevelNodes in
  {| types.Failure.Message := EmptyString;
     types.Failure.Location := types.CodeLocation.zero;
     types.Failure.ForwardedPanic := None;
     types.Failure.FailureNodeContext :=
       if leaf then types.FailureNodeIsLeafNode
       else if NestingLevel node <=? 0 then types.FailureNodeAtTopLevel
       else types.FailureNodeInContainer;
     types.Failure.FailureNodeContainerIndex :=
       if leaf then 0
       else if NestingLevel node <=? 0 then 0
       else NestingLevel node - 1;
     types.Failure.FailureNodeLocation := CodeLocation node;
     types.Failure.FailureNodeType := NodeType node |}.

Definition withMessageLocationPanic (message : string)
  (location : types.CodeLocation.t) (forwardedPanic : option types.PanicValue)
  (f : types.Failure.t) : types.Failure.t :=
  {| types.Failure.Message := message;
     types.Failure.Location := location;
     types.Failure.ForwardedPanic := forwardedPanic;
     types.Failure.FailureNodeContext := types.Failure.FailureNodeContext f;
     types.Failure.FailureNodeContainerIndex :=
       types.Failure.FailureNodeContainerIndex f;
     types.Failure.FailureNodeLocation := types.Failure.FailureNodeLocation f;
     types.Failure.FailureNodeType := types.Failure.FailureNodeType f |}.

(** What the spawned task does: run the body, record a trapped fault when
    the body did not return, and drain the recorder. *)
Definition taskOutcome (r : BodyRun) : types.SpecState * types.Failure.t :=
  let failer : Failer :=
    match recorded r with
    | Some c => Failer_record c None
    | None => None
    end in
  Failer_Drain
    match exit r with
    | Returned => failer
    | Panicked e location => Failer_Panic location (Some e) failer
    | Exited location => Failer_Panic location None failer
    end.

(** The value the closure [func() { data = ...Node1Body() }] leaves in the
    captured variable [data]: assigned only when the body returns. *)
Definition capturedData (call : BodyCall) (r : BodyRun) : Bytes :=
  match call, exit r with
  | CallSynchronizedBeforeSuiteNode1Body, Returned => returned r
  | _, _ => []
  end.

Record NodeRun : Type := {
  outcome : types.SpecState;
  failure : types.Failure.t;
  data : Bytes
}.

(** [suite.runNode].  The [select] between the task's outcome and the
    interrupt channel is resolved by the environment: the interrupt branch
    is taken when the channel fires no later than the tick of this
    execution.  The body is started in both cases; when the interrupt wins,
    the task is left behind, its outcome is not read, its output is not
    kept, and the user state is the one the interrupt found the body in. *)
Definition runNode (node : Node) (call : BodyCall)
  (interruptChannel : option nat) (text : string)
  (suiteConfig : types.SuiteConfig.t) (w : World) : NodeRun * World :=
  let w :=
    if types.SuiteConfig.EmitSpecProgress suiteConfig then
      let text := if String.eqb text EmptyString then "TOP-LEVEL"%string
                  else text in
      Writer_Write [types.ProgressLine (NodeType node) text (CodeLocation node)]
                   w
    else w in
  let failure := failureContextFor node in
  let r := invoke node call (user w) in
  let w := withInvoked (invoked w ++ [(node, call)]) w in
  if channelFires (env w) interruptChannel (now w) then
    ({| outcome := types.SpecStateInterrupted;
        failure :=
          withMessageLocationPanic
            (Environment.interruptMessage (env w) (now w))
            (CodeLocation node) None failure;
        data := [] |},
     tick (withUser (midway r) w))
  else
    let w :=
      tick (withUser (after r)
              (Writer_Write (map types.BodyOutput (output r)) w)) in
    let '(outcome, failureFromRun) := taskOutcome r in
    if types.SpecState_eqb outcome types.SpecStatePassed then
      ({| outcome := outcome; failure := types.Failure.zero;
          data := capturedData call r |}, w)
    else
      ({| outcome := outcome;
          failure :=
            withMessageLocationPanic
              (types.Failure.Message failureFromRun)
              (types.Failure.Location failureFromRun)
              (types.Failure.ForwardedPanic failureFromRun) failure;
          data := capturedData call r |}, w).

(** *** [runSpec] *)

Definition State_ (suite : Suite) : types.SpecState :=
  types.SpecReport.State (currentSpecReport suite).

Definition withOutcome (state : types.SpecState) (failure : types.Failure.t)
  (suite : Suite) : Suite :=
  withCurrentSpecReport
    (types.SpecReport.withOutcome state failure (currentSpecReport suite))
    suite.

(** The nodes of the first loop of an attempt: BeforeEach, JustBeforeEach
    (each shallow to deep), then It. *)
Definition setupNodes (spec : Spec) : Nodes :=
  let nodes :=
    SortedByAscendingNestingLevel
      (WithType [types.NodeTypeBeforeEach] (Nodes_ spec)) in
  let nodes :=
    CopyAppend nodes
      (SortedByAscendingNestingLevel
         (WithType [types.NodeTypeJustBeforeEach] (Nodes_ spec))) in
  CopyAppend nodes (WithType [types.NodeTypeIt] (Nodes_ spec)).

(** [for _, node := range nodes { ... if State != Passed { break } }] *)
Fixpoint runSetupNodes (spec : Spec) (suiteConfig : types.SuiteConfig.t)
  (interruptChannel : nat) (nodes : Nodes)
  (deepestNestingLevelAttained : Z) (suite : Suite) (w : World)
  : Z * Suite * World :=
  match nodes with
  | [] => (deepestNestingLevelAttained, suite, w)
  | node :: rest =>
      let deepestNestingLevelAttained :=
        max deepestNestingLevelAttained (NestingLevel node) in
      let '(r, w) :=
        runNode node CallBody (Some interruptChannel)
                (BestTextFor (Nodes_ spec) node) suiteConfig w in
      let suite := withOutcome (outcome r) (failure r) suite in
      if negb (types.SpecState_eqb (State_ suite) types.SpecStatePassed)
      then (deepestNestingLevelAttained, suite, w)
      else runSetupNodes spec suiteConfig interruptChannel rest
                         deepestNestingLevelAttained suite w
  end.

(** The nodes of the second loop of an attempt. *)
Definition cleanUpNodesFor (spec : Spec) (deepestNestingLevelAttained : Z)
  : Nodes :=
  let cleanUpNodes :=
    SortedByDescendingNestingLevel
      (WithType [types.NodeTypeJustAfterEach] (Nodes_ spec)) in
  let cleanUpNodes :=
    CopyAppend cleanUpNodes
      (SortedByDescendingNestingLevel
         (WithType [types.NodeTypeAfterEach] (Nodes_ spec))) in
  WithinNestingLevel deepestNestingLevelAttained cleanUpNodes.

(** One iteration of [for _, node := range cleanUpNodes]. *)
Definition runCleanUpNode (spec : Spec) (suiteConfig : types.SuiteConfig.t)
  (node : Node) (suite : Suite) (w : World) : Suite * World :=
  let '(status, w) := Status w in
  let '(r, w) :=
    runNode node CallBody (Some (Channel status))
            (BestTextFor (Nodes_ spec) node) suiteConfig w in
  let suite :=
    if types.SpecState_eqb (State_ suite) types.SpecStatePassed
       || types.SpecState_eqb (outcome r) types.SpecStateAborted
    then withOutcome (outcome r) (failure r) suite
    else suite in
  (suite, w).

Fixpoint runCleanUpNodes (spec : Spec) (suiteConfig : types.SuiteConfig.t)
  (cleanUpNodes : Nodes) (suite : Suite) (w : World) : Suite * World :=
  match cleanUpNodes with
  | [] => (suite, w)
  | node :: rest =>
      let '(suite, w) := runCleanUpNode spec suiteConfig node suite w in
      runCleanUpNodes spec suiteConfig rest suite w
  end.

(** The body of [for attempt := 0; attempt < maxAttempts; attempt++], up to
    the two [return] tests that end it. *)
Definition runAttempt (spec : Spec) (suiteConfig : types.SuiteConfig.t)
  (attempt : Z) (suite : Suite) (w : World) : Suite * World :=
  let suite :=
    withCurrentSpecReport
      (types.SpecReport.withNumAttempts (attempt + 1)
         (currentSpecReport suite)) suite in
  let w :=
    if attempt >? 0 then Writer_Write [types.RetryNotice attempt] w else w in
  let '(interruptStatus, w) := Status w in
  let deepestNestingLevelAttained := -1 in
  let '(deepestNestingLevelAttained, suite, w) :=
    runSetupNodes spec suiteConfig (Channel interruptStatus) (setupNodes spec)
                  deepestNestingLevelAttained suite w in
  let '(suite, w) :=
    runCleanUpNodes spec suiteConfig
                    (cleanUpNodesFor spec deepestNestingLevelAttained)
                    suite w in
  let suite :=
    withCurrentSpecReport
      (types.SpecReport.withCapturedGinkgoWriterOutput (Writer_Bytes w)
         (currentSpecReport suite)) suite in
  (suite, w).

(** The attempt loop; [remaining] is [maxAttempts - attempt]. *)
Fixpoint runAttempts (spec : Spec) (suiteConfig : types.SuiteConfig.t)
  (remaining : nat) (attempt : Z) (suite : Suite) (w : World)
  : Suite * World :=
  match remaining with
  | O => (suite, w)
  | S remaining =>
      let '(suite, w) := runAttempt spec suiteConfig attempt suite w in
      if types.SpecState_eqb (State_ suite) types.SpecStatePassed
      then (suite, w)
      else
        let '(status, w) := Status w in
        if Interrupted status then (suite, w)
        else runAttempts spec suiteConfig remaining (attempt + 1) suite w
  end.

Definition maxAttemptsFor (spec : Spec) (suiteConfig : types.SuiteConfig.t)
  : Z :=
  let maxAttempts := max 1 (Spec_FlakeAttempts spec) in
  if types.SuiteConfig.FlakeAttempts suiteConfig >? 0
  then types.SuiteConfig.FlakeAttempts suiteConfig
  else maxAttempts.

Definition runSpec (spec : Spec) (suiteConfig : types.SuiteConfig.t)
  (suite : Suite) (w : World) : Suite * World :=
  if types.SuiteConfig.DryRun suiteConfig then
    (withCurrentSpecReport
       (types.SpecReport.withState types.SpecStatePassed
          (currentSpecReport suite)) suite, w)
  else
    let w := Writer_Truncate w in
    let maxAttempts := maxAttemptsFor spec suiteConfig in
    runAttempts spec suiteConfig (Z.to_nat maxAttempts) 0 suite w.

(** *** [reportAfterEach] *)

(** One iteration of [for _, node := range nodes]. *)
Definition runReportAfterEachNode (spec : Spec)
  (suiteConfig : types.SuiteConfig.t) (node : Node) (suite : Suite)
  (w : World) : Suite * World :=
  let w := Writer_Truncate w in
  let report := currentSpecReport suite in
  let '(r, w) :=
    runNode node (CallReportAfterEachBody report) None
            (BestTextFor (Nodes_ spec) node) suiteConfig w in
  let suite :=
    if types.SpecState_eqb (State_ suite) types.SpecStatePassed
       || types.SpecState_eqb (outcome r) types.SpecStateAborted
    then withOutcome (outcome r) (failure r) suite
    else suite in
  let suite :=
    withCurrentSpecReport
      (types.SpecReport.withCapturedGinkgoWriterOutput
         (types.SpecReport.CapturedGinkgoWriterOutput (currentSpecReport suite)
          ++ Writer_Bytes w)
         (currentSpecReport suite)) suite in
  (suite, w).

Fixpoint runReportAfterEachNodes (spec : Spec)
  (suiteConfig : types.SuiteConfig.t) (nodes : Nodes) (suite : Suite)
  (w : World) : Suite * World :=
  match nodes with
  | [] => (suite, w)
  | node :: rest =>
      let '(suite, w) :=
        runReportAfterEachNode spec suiteConfig node suite w in
      runReportAfterEachNodes spec suiteConfig rest suite w
  end.

Definition reportAfterEach (spec : Spec) (suiteConfig : types.SuiteConfig.t)
  (suite : Suite) (w : World) : Suite * World :=
  let nodes :=
    SortedByDescendingNestingLevel
      (WithType [types.NodeTypeReportAfterEach] (Nodes_ spec)) in
  runReportAfterEachNodes spec suiteConfig nodes suite w.

(** *** The client of the coordination server

    Modelled from the spec: [parallel_support.Client].  A call either fails
    with the communication error the environment holds for this tick, or
    acts on the server.  Broadcasts whose result the engine ignores are
    logged at the server when they arrive.  A blocking request returns once
    the answer is there; a worker that asks for the SynchronizedBeforeSuite
    data while the primary worker will never post any is told so by an
    error ([primaryGone]). *)

Definition commErrorNow (w : World) : option string :=
  Environment.commError (env w) (now w).

Definition withBeforeSuiteState (b : BeforeSuiteState) (s : Server.t)
  : Server.t :=
  {| Server.beforeSuiteState := b; Server.counter := Server.counter s;
     Server.posts := Server.posts s |}.

Definition withCounter (c : nat) (s : Server.t) : Server.t :=
  {| Server.beforeSuiteState := Server.beforeSuiteState s;
     Server.counter := c; Server.posts := Server.posts s |}.

Definition withPosts (l : list Post) (s : Server.t) : Server.t :=
  {| Server.beforeSuiteState := Server.beforeSuiteState s;
     Server.counter := Server.counter s; Server.posts := l |}.

Definition Client_Post (p : Post) (w : World) : World :=
  match commErrorNow w with
  | Some _ => tick w
  | None =>
      tick (withServer (withPosts (Server.posts (server w) ++ [p]) (server w))
                       w)
  end.

Definition Client_PostSynchronizedBeforeSuiteSucceeded (data : Bytes)
  (w : World) : option string * World :=
  match commErrorNow w with
  | Some e => (Some e, tick w)
  | None =>
      (None,
       tick (withServer
               (withBeforeSuiteState (BeforeSuiteSucceeded data) (server w))
               w))
  end.

Definition Client_PostSynchronizedBeforeSuiteFailed (w : World)
  : option string * World :=
  match commErrorNow w with
  | Some e => (Some e, tick w)
  | None =>
      (None,
       tick (withServer (withBeforeSuiteState BeforeSuiteFailed (server w)) w))
  end.

Definition beforeSuiteFailedError : string :=
  "SynchronizedBeforeSuite failed on Ginkgo parallel node 1".

Definition primaryGone : string :=
  "Ginkgo parallel node 1 went away before SynchronizedBeforeSuite completed".

Definition Client_BlockUntilSynchronizedBeforeSuiteData (w : World)
  : Bytes * option string * World :=
  match commErrorNow w with
  | Some e => ([], Some e, tick w)
  | None =>
      match Server.beforeSuiteState (server w) with
      | BeforeSuiteSucceeded data => (data, None, tick w)
      | BeforeSuiteFailed => ([], Some beforeSuiteFailedError, tick w)
      | BeforeSuitePending => ([], Some primaryGone, tick w)
      end
  end.

Definition Client_BlockUntilNonprimaryNodesHaveFinished (w : World)
  : option string * World :=
  (commErrorNow w, tick w).

Definition Client_BlockUntilAggregatedNonprimaryNodesReport (w : World)
  : types.Report.t * option string * World :=
  (Environment.aggregatedNonprimaryNodesReport (env w) (now w),
   commErrorNow w, tick w).

Definition Client_FetchNextCounter (w : World) : nat * option string * World :=
  match commErrorNow w with
  | Some e => (O, Some e, tick w)
  | None =>
      let idx :=
        (Server.counter (server w) + Environment.peerClaims (env w) (now w))%nat
      in
      (idx, None, tick (withServer (withCounter (S idx) (server w)) w))
  end.

(** *** [runSuiteNode] and [runReportAfterSuiteNode] *)

(** [suite.failureForLeafNodeWithError] *)
Definition failureForLeafNodeWithError (node : Node) (err : string)
  : types.SpecState * types.Failure.t :=
  (types.SpecStateFailed,
   {| types.Failure.Message := err;
      types.Failure.Location := CodeLocation node;
      types.Failure.ForwardedPanic := None;
      types.Failure.FailureNodeContext := types.FailureNodeIsLeafNode;
      types.Failure.FailureNodeContainerIndex := 0;
      types.Failure.FailureNodeLocation := CodeLocation node;
      types.Failure.FailureNodeType := NodeType node |}).

Definition isNil (err : option string) : bool :=
  match err with None => true | Some _ => false end.

(** The [case types.NodeTypeSynchronizedBeforeSuite] arm. *)
Definition runSynchronizedBeforeSuite (node : Node) (interruptChannel : nat)
  (suiteConfig : types.SuiteConfig.t) (suite : Suite) (w : World)
  : option string * Suite * World :=
  let '(data, err, runAllNodes, suite, w) :=
    if types.SuiteConfig.ParallelNode suiteConfig =? 1 then
      let '(r, w) :=
        runNode node CallSynchronizedBeforeSuiteNode1Body
                (Some interruptChannel) EmptyString suiteConfig w in
      let suite := withOutcome (outcome r) (failure r) suite in
      let '(err, w) :=
        if (types.SuiteConfig.ParallelTotal suiteConfig >? 1)
           && types.SpecState_Is (State_ suite) [types.SpecStatePassed]
        then Client_PostSynchronizedBeforeSuiteSucceeded (data r) w
        else if types.SuiteConfig.ParallelTotal suiteConfig >? 1
        then Client_PostSynchronizedBeforeSuiteFailed w
        else (None, w) in
      (data r, err,
       types.SpecState_Is (State_ suite) [types.SpecStatePassed] && isNil err,
       suite, w)
    else
      let '(data, err, w) := Client_BlockUntilSynchronizedBeforeSuiteData w in
      (data, err, isNil err, suite, w) in
  if runAllNodes then
    let '(r, w) :=
      runNode node (CallSynchronizedBeforeSuiteAllNodesBody data)
              (Some interruptChannel) EmptyString suiteConfig w in
    (err, withOutcome (outcome r) (failure r) suite, w)
  else (err, suite, w).

(** The [case types.NodeTypeSynchronizedAfterSuite] arm. *)
Definition runSynchronizedAfterSuite (node : Node) (interruptChannel : nat)
  (suiteConfig : types.SuiteConfig.t) (suite : Suite) (w : World)
  : option string * Suite * World :=
  let '(r, w) :=
    runNode node CallSynchronizedAfterSuiteAllNodesBody
            (Some interruptChannel) EmptyString suiteConfig w in
  let suite := withOutcome (outcome r) (failure r) suite in
  if types.SuiteConfig.ParallelNode suiteConfig =? 1 then
    let '(err, w) :=
      if types.SuiteConfig.ParallelTotal suiteConfig >? 1
      then Client_BlockUntilNonprimaryNodesHaveFinished w
      else (None, w) in
    if isNil err then
      let '(r, w) :=
        runNode node CallSynchronizedAfterSuiteNode1Body
                (Some interruptChannel) EmptyString suiteConfig w in
      let suite :=
        if types.SpecState_Is (State_ suite) [types.SpecStatePassed]
        then withOutcome (outcome r) (failure r) suite
        else suite in
      (err, suite, w)
    else (err, suite, w)
  else (None, suite, w).

Definition runSuiteNode (node : Node) (interruptChannel : nat)
  (suiteConfig : types.SuiteConfig.t) (suite : Suite) (w : World)
  : Suite * World :=
  if types.SuiteConfig.DryRun suiteConfig then
    (withCurrentSpecReport
       (types.SpecReport.withState types.SpecStatePassed
          (currentSpecReport suite)) suite, w)
  else
    let w := Writer_Truncate w in
    let '(err, suite, w) :=
      match NodeType node with
      | types.NodeTypeBeforeSuite | types.NodeTypeAfterSuite =>
          let '(r, w) :=
            runNode node CallBody (Some interruptChannel) EmptyString
                    suiteConfig w in
          (None, withOutcome (outcome r) (failure r) suite, w)
      | types.NodeTypeSynchronizedBeforeSuite =>
          runSynchronizedBeforeSuite node interruptChannel suiteConfig suite w
      | types.NodeTypeSynchronizedAfterSuite =>
          runSynchronizedAfterSuite node interruptChannel suiteConfig suite w
      | _ => (None, suite, w)
      end in
    let suite :=
      match err with
      | Some e =>
          if types.SpecState_Is (State_ suite)
               [types.SpecStateInvalid; types.SpecStatePassed]
          then
            let '(state, failure) := failureForLeafNodeWithError node e in
            withOutcome state failure suite
          else suite
      | None => suite
      end in
    (withCurrentSpecReport
       (types.SpecReport.withCapturedGinkgoWriterOutput (Writer_Bytes w)
          (currentSpecReport suite)) suite, w).

Definition runReportAfterSuiteNode (node : Node) (report : types.Report.t)
  (suiteConfig : types.SuiteConfig.t) (suite : Suite) (w : World)
  : Suite * World :=
  if types.SuiteConfig.DryRun suiteConfig then
    (withCurrentSpecReport
       (types.SpecReport.withState types.SpecStatePassed
          (currentSpecReport suite)) suite, w)
  else
    let w := Writer_Truncate w in
    let '(report, err, w) :=
      if types.SuiteConfig.ParallelTotal suiteConfig >? 1 then
        let '(aggregatedReport, err, w) :=
          Client_BlockUntilAggregatedNonprimaryNodesReport w in
        match err with
        | Some e => (report, Some e, w)
        | None => (types.Report.Add report aggregatedReport, None, w)
        end
      else (report, None, w) in
    match err with
    | Some e =>
        let '(state, failure) := failureForLeafNodeWithError node e in
        (withOutcome state failure suite, w)
    | None =>
        let '(r, w) :=
          runNode node (CallReportAfterSuiteBody report) None EmptyString
                  suiteConfig w in
        let suite := withOutcome (outcome r) (failure r) suite in
        (withCurrentSpecReport
           (types.SpecReport.withCapturedGinkgoWriterOutput (Writer_Bytes w)
              (currentSpecReport suite)) suite, w)
    end.

(** *** [runSpecs] *)

(** [types.SpecStateFailureStates], a constant of package [types] that is
    not among the sources at hand. *)
Variable SpecStateFailureStates : list types.SpecState.

Definition newline : string := String (Ascii.ascii_of_nat 10) EmptyString.

(** The closure [processSpecReport] of [runSpecs]; the reporter shows
    exactly the reports that are appended to [report.SpecReports]. *)
Definition processSpecReport (suiteConfig : types.SuiteConfig.t)
  (specReport : types.SpecReport.t) (report : types.Report.t) (w : World)
  : types.Report.t * World :=
  let w :=
    if types.SuiteConfig.ParallelTotal suiteConfig >? 1
    then Client_Post (PostDidRun specReport) w
    else w in
  let report :=
    if types.SpecState_Is (types.SpecReport.State specReport)
                          SpecStateFailureStates
    then types.Report.withSuiteSucceeded false report
    else report in
  (types.Report.withSpecReports
     (types.Report.SpecReports report ++ [specReport]) report, w).

(** The report a suite-level node starts from. *)
Definition suiteNodeReport (node : Node) (text : string)
  (suiteConfig : types.SuiteConfig.t) : types.SpecReport.t :=
  {| types.SpecReport.ContainerHierarchyTexts := [];
     types.SpecReport.ContainerHierarchyLocations := [];
     types.SpecReport.LeafNodeType := NodeType node;
     types.SpecReport.LeafNodeLocation := CodeLocation node;
     types.SpecReport.LeafNodeText := text;
     types.SpecReport.State := types.SpecStateInvalid;
     types.SpecReport.Failure := types.Failure.zero;
     types.SpecReport.NumAttempts := 0;
     types.SpecReport.CapturedGinkgoWriterOutput := [];
     types.SpecReport.GinkgoParallelNode :=
       types.SuiteConfig.ParallelNode suiteConfig |}.

(** The report a spec starts from. *)
Definition specReportFor (spec : Spec) (suiteConfig : types.SuiteConfig.t)
  : types.SpecReport.t :=
  {| types.SpecReport.ContainerHierarchyTexts :=
       Texts (WithType [types.NodeTypeContainer] (Nodes_ spec));
     types.SpecReport.ContainerHierarchyLocations :=
       CodeLocations (WithType [types.NodeTypeContainer] (Nodes_ spec));
     types.SpecReport.LeafNodeType := types.NodeTypeIt;
     types.SpecReport.LeafNodeLocation :=
       CodeLocation (FirstNodeWithType [types.NodeTypeIt] (Nodes_ spec));
     types.SpecReport.LeafNodeText :=
       Text (FirstNodeWithType [types.NodeTypeIt] (Nodes_ spec));
     types.SpecReport.State := types.SpecStateInvalid;
     types.SpecReport.Failure := types.Failure.zero;
     types.SpecReport.NumAttempts := 0;
     types.SpecReport.CapturedGinkgoWriterOutput := [];
     types.SpecReport.GinkgoParallelNode :=
       types.SuiteConfig.ParallelNode suiteConfig |}.

(** What the run loop threads from one spec to the next. *)
Record LoopState : Type := {
  report : types.Report.t;
  suiteAborted : bool;
  suite_ : Suite;
  world : World
}.

(** The state a skipped spec is reported with before its ReportAfterEach
    nodes run. *)
Definition skippedState (spec : Spec) : types.SpecState :=
  if HasNodeMarkedPending (Nodes_ spec) then types.SpecStatePending
  else types.SpecStateSkipped.

(** The body of the run loop for the spec at the index just obtained. *)
Definition runLoopSpec (spec : Spec) (suiteConfig : types.SuiteConfig.t)
  (st : LoopState) : LoopState :=
  let suite := withCurrentSpecReport (specReportFor spec suiteConfig)
                                     (suite_ st) in
  let '(skip, w) :=
    if types.SuiteConfig.FailFast suiteConfig
       && negb (types.Report.SuiteSucceeded (report st))
    then (true, world st)
    else
      let '(status, w) := Status (world st) in
      if Interrupted status || suiteAborted st then (true, w)
      else (Skip spec, w) in
  let suite :=
    if skip
    then withCurrentSpecReport
           (types.SpecReport.withState (skippedState spec)
              (currentSpecReport suite)) suite
    else suite in
  let '(suite, w) :=
    if negb skip then runSpec spec suiteConfig suite w else (suite, w) in
  let '(suite, w) := reportAfterEach spec suiteConfig suite w in
  let '(report, w) :=
    processSpecReport suiteConfig (currentSpecReport suite) (report st) w in
  let suiteAborted :=
    if types.SpecState_eqb (State_ suite) types.SpecStateAborted then true
    else suiteAborted st in
  let w :=
    if (types.SuiteConfig.ParallelTotal suiteConfig >? 1)
       && (suiteAborted
           || (types.SuiteConfig.FailFast suiteConfig
               && negb (types.Report.SuiteSucceeded report)))
    then Client_Post PostAbort w
    else w in
  {| report := report; suiteAborted := suiteAborted;
     suite_ := withCurrentSpecReport types.SpecReport.zero suite;
     world := w |}.

(** [MakeNextIndexCounter]: the server's shared counter in a parallel run,
    a local counter otherwise.  [calls] is the number of indices the local
    counter has handed out. *)
Definition nextIndex (suiteConfig : types.SuiteConfig.t) (calls : nat)
  (w : World) : nat * option string * nat * World :=
  if types.SuiteConfig.ParallelTotal suiteConfig >? 1 then
    let '(idx, err, w) := Client_FetchNextCounter w in (idx, err, calls, w)
  else (calls, None, S calls, w).

Definition withWorld (w : World) (st : LoopState) : LoopState :=
  {| report := report st; suiteAborted := suiteAborted st;
     suite_ := suite_ st; world := w |}.

Definition withReport (r : types.Report.t) (st : LoopState) : LoopState :=
  {| report := r; suiteAborted := suiteAborted st;
     suite_ := suite_ st; world := world st |}.

(** The run loop [for { idx, err := nextIndex() ... }].  Every index is
    larger than the one before, so the loop ends after at most
    [len(specs) + 1] rounds; [fuel] bounds the rounds. *)
Fixpoint runLoop (fuel : nat) (specs : Specs)
  (suiteConfig : types.SuiteConfig.t) (calls : nat) (st : LoopState)
  : LoopState :=
  match fuel with
  | O => st
  | S fuel =>
      let '(idx, err, calls, w) := nextIndex suiteConfig calls (world st) in
      match err with
      | Some e =>
          withWorld w
            (withReport
               (types.Report.withSuiteSucceeded false
                  (types.Report.withSpecialSuiteFailureReasons
                     (types.Report.SpecialSuiteFailureReasons (report st)
                      ++ [("Failed to iterate over specs:" ++ newline ++ e)
                            %string])
                     (report st))) st)
      | None =>
          match nth_error specs idx with
          | None => withWorld w st
          | Some spec =>
              runLoop fuel specs suiteConfig calls
                      (runLoopSpec spec suiteConfig (withWorld w st))
          end
      end
  end.

(** The before-suite step of [runSpecs]. *)
Definition runBeforeSuite (numSpecsThatWillBeRun : Z)
  (suiteConfig : types.SuiteConfig.t) (st : LoopState) : LoopState :=
  let '(interruptStatus, w) := Status (world st) in
  let beforeSuiteNode :=
    FirstNodeWithType
      [types.NodeTypeBeforeSuite; types.NodeTypeSynchronizedBeforeSuite]
      (suiteNodes (suite_ st)) in
  if negb (IsZero beforeSuiteNode) && negb (Interrupted interruptStatus)
     && (numSpecsThatWillBeRun >? 0)
  then
    let suite :=
      withCurrentSpecReport
        (suiteNodeReport beforeSuiteNode EmptyString suiteConfig)
        (suite_ st) in
    let '(suite, w) :=
      runSuiteNode beforeSuiteNode (Channel interruptStatus) suiteConfig
                   suite w in
    let '(report, w) :=
      processSpecReport suiteConfig (currentSpecReport suite) (report st) w in
    {| report := report; suiteAborted := suiteAborted st; suite_ := suite;
       world := w |}
  else withWorld w st.

(** The after-suite step of [runSpecs]. *)
Definition runAfterSuite (numSpecsThatWillBeRun : Z)
  (suiteConfig : types.SuiteConfig.t) (st : LoopState) : LoopState :=
  let afterSuiteNode :=
    FirstNodeWithType
      [types.NodeTypeAfterSuite; types.NodeTypeSynchronizedAfterSuite]
      (suiteNodes (suite_ st)) in
  if negb (IsZero afterSuiteNode) && (numSpecsThatWillBeRun >? 0) then
    let suite :=
      withCurrentSpecReport
        (suiteNodeReport afterSuiteNode EmptyString suiteConfig)
        (suite_ st) in
    let '(status, w) := Status (world st) in
    let '(suite, w) :=
      runSuiteNode afterSuiteNode (Channel status) suiteConfig suite w in
    let '(report, w) :=
      processSpecReport suiteConfig (currentSpecReport suite) (report st) w in
    {| report := report; suiteAborted := suiteAborted st; suite_ := suite;
       world := w |}
  else st.

(** [for _, node := range suite.suiteNodes.WithType(ReportAfterSuite)] *)
Fixpoint runReportAfterSuiteNodes (nodes : Nodes)
  (suiteConfig : types.SuiteConfig.t) (st : LoopState) : LoopState :=
  match nodes with
  | [] => st
  | node :: rest =>
      let suite :=
        withCurrentSpecReport (suiteNodeReport node (Text node) suiteConfig)
                              (suite_ st) in
      let '(suite, w) :=
        runReportAfterSuiteNode node (report st) suiteConfig suite
                                (world st) in
      let '(report, w) :=
        processSpecReport suiteConfig (currentSpecReport suite) (report st) w
      in
      runReportAfterSuiteNodes rest suiteConfig
        {| report := report; suiteAborted := suiteAborted st;
           suite_ := suite; world := w |}
  end.

(** [suite.runSpecs], up to its [return]: the final report with the suite
    and the world it leaves. *)
Definition runSpecsState (description suitePath : string)
  (hasProgrammaticFocus : bool) (specs : Specs)
  (suiteConfig : types.SuiteConfig.t) (suite : Suite) (w : World)
  : LoopState :=
  let numSpecsThatWillBeRun := CountWithoutSkip specs in
  let initialReport :=
    {| types.Report.SuitePath := suitePath;
       types.Report.SuiteDescription := description;
       types.Report.SuiteConfig := suiteConfig;
       types.Report.SuiteHasProgrammaticFocus := hasProgrammaticFocus;
       types.Report.PreRunStats :=
         {| types.PreRunStats.TotalSpecs := Z.of_nat (List.length specs);
            types.PreRunStats.SpecsThatWillRun := numSpecsThatWillBeRun |};
       types.Report.SuiteSucceeded := false;
       types.Report.SpecialSuiteFailureReasons := [];
       types.Report.SpecReports := [] |} in
  let w :=
    if types.SuiteConfig.ParallelTotal suiteConfig >? 1
    then Client_Post (PostSuiteWillBegin initialReport) w
    else w in
  let st :=
    runBeforeSuite numSpecsThatWillBeRun suiteConfig
      {| report := types.Report.withSuiteSucceeded true initialReport;
         suiteAborted := false; suite_ := suite;
         world := w |} in
  let st :=
    if types.Report.SuiteSucceeded (report st) then
      let st := runLoop (S (List.length specs)) specs suiteConfig 0 st in
      if HasAnySpecsMarkedPending specs
         && types.SuiteConfig.FailOnPending suiteConfig
      then
        withReport
          (types.Report.withSuiteSucceeded false
             (types.Report.withSpecialSuiteFailureReasons
                (types.Report.SpecialSuiteFailureReasons (report st)
                 ++ ["Detected pending specs and --fail-on-pending is set"
                       %string])
                (report st))) st
      else st
    else st in
  let st := runAfterSuite numSpecsThatWillBeRun suiteConfig st in
  let '(interruptStatus, w) := Status (world st) in
  let st := withWorld w st in
  let st :=
    if Interrupted interruptStatus then
      withReport
        (types.Report.withSuiteSucceeded false
           (types.Report.withSpecialSuiteFailureReasons
              (types.Report.SpecialSuiteFailureReasons (report st)
               ++ [Environment.interruptCause (env w)])
              (report st))) st
    else st in
  let st :=
    if types.SuiteConfig.ParallelNode suiteConfig =? 1 then
      runReportAfterSuiteNodes
        (WithType [types.NodeTypeReportAfterSuite] (suiteNodes (suite_ st)))
        suiteConfig st
    else st in
  let w :=
    if types.SuiteConfig.ParallelTotal suiteConfig >? 1
    then Client_Post (PostSuiteDidEnd (report st)) (world st)
    else world st in
  withWorld w st.

Definition runSpecs (description suitePath : string)
  (hasProgrammaticFocus : bool) (specs : Specs)
  (suiteConfig : types.SuiteConfig.t) (suite : Suite) (w : World) : bool :=
  types.Report.SuiteSucceeded
    (report (runSpecsState description suitePath hasProgrammaticFocus specs
                           suiteConfig suite w)).

(** *** Tree construction: [pushSuiteNode] *)

Definition pushSuiteNode (node : Node) (suite : Suite)
  : option types.GinkgoError * Suite :=
  match phase suite with
  | PhaseBuildTree =>
      (Some (types.SuiteNodeInNestedContext (NodeType node)
                                            (CodeLocation node)), suite)
  | PhaseRun =>
      (Some (types.SuiteNodeDuringRunPhase (NodeType node)
                                           (CodeLocation node)), suite)
  | PhaseBuildTopLevel =>
      let duplicate :=
        match NodeType node with
        | types.NodeTypeBeforeSuite | types.NodeTypeSynchronizedBeforeSuite =>
            let existingBefores :=
              WithType [types.NodeTypeBeforeSuite;
                        types.NodeTypeSynchronizedBeforeSuite]
                       (suiteNodes suite) in
            match existingBefores with
            | first :: _ =>
                Some (types.MultipleBeforeSuiteNodes
                        (NodeType node) (CodeLocation node)
                        (NodeType first) (CodeLocation first))
            | [] => None
            end
        | types.NodeTypeAfterSuite | types.NodeTypeSynchronizedAfterSuite =>
            let existingAfters :=
              WithType [types.NodeTypeAfterSuite;
                        types.NodeTypeSynchronizedAfterSuite]
                       (suiteNodes suite) in
            match existingAfters with
            | first :: _ =>
                Some (types.MultipleAfterSuiteNodes
                        (NodeType node) (CodeLocation node)
                        (NodeType first) (CodeLocation first))
            | [] => None
            end
        | _ => None
        end in
      match duplicate with
      | Some err => (Some err, suite)
      | None => (None, withSuiteNodes (suiteNodes suite ++ [node]) suite)
      end
  end.

(** *** Tree construction: [PushNode], [BuildTree] *)

(** Modelled from the spec: [TreeNode] and [AppendTreeNodeChild], declared
    in package [internal] outside the sources at hand.  A tree node is a
    node with its children, in the order they were appended. *)
#[warnings="-register-all"]
Inductive TreeNode : Type :=
| MakeTreeNode (node : Node) (children : list TreeNode).

Definition TreeNode_Node (t : TreeNode) : Node :=
  match t with MakeTreeNode node _ => node end.

Definition Children (t : TreeNode) : list TreeNode :=
  match t with MakeTreeNode _ children => children end.

Definition AppendTreeNodeChild (parent child : TreeNode) : TreeNode :=
  MakeTreeNode (TreeNode_Node parent) (Children parent ++ [child]).

(** The errors [PushNode] returns: those of [types.GinkgoErrors] listed
    above and [CaughtPanicDuringABuildPhase], which carries the recovered
    panic value. *)
Inductive BuildError : Type :=
| GinkgoError_ (err : types.GinkgoError)
| CaughtPanicDuringABuildPhase
    (caughtPanic : types.PanicValue) (cl : types.CodeLocation.t).

(** What the body of a container does to the suite when it is entered: it
    returns, it panics, or it pushes a node, itself with the body it has
    as a container, and goes on according to the error the push returns.
    The bodies of the other nodes are not run while the tree is built. *)
Inductive ContainerBody : Type :=
| Returns
| Panics (e : types.PanicValue)
| Pushes (node : Node) (body : ContainerBody)
         (next : option BuildError -> ContainerBody).

(** The suite under construction: the [Suite] fields above, the [tree]
    field, and for each node of [topLevelContainers], in the same order,
    what its body does. *)
Record Construction : Type := {
  built : Suite;
  tree : TreeNode;
  topLevelBodies : list ContainerBody
}.

(** [NewSuite], with the zero [TreeNode] as tree *)
Definition NewConstruction : Construction :=
  {| built := NewSuite; tree := MakeTreeNode zeroNode [];
     topLevelBodies := [] |}.

Definition withBuilt (suite : Suite) (c : Construction) : Construction :=
  {| built := suite; tree := tree c; topLevelBodies := topLevelBodies c |}.

Definition withTree (t : TreeNode) (c : Construction) : Construction :=
  {| built := built c; tree := t; topLevelBodies := topLevelBodies c |}.

Definition withTopLevelContainer (node : Node) (body : ContainerBody)
  (c : Construction) : Construction :=
  {| built :=
       {| topLevelContainers := topLevelContainers (built c) ++ [node];
          phase := phase (built c); suiteNodes := suiteNodes (built c);
          currentSpecReport := currentSpecReport (built c) |};
     tree := tree c;
     topLevelBodies := topLevelBodies c ++ [body] |}.

Definition liftError (err : option types.GinkgoError) : option BuildError :=
  match err with Some e => Some (GinkgoError_ e) | None => None end.

(** [suite.PushNode(node)], with the run of [node.Body()] given as
    [enterBody]. *)
Definition pushNodeWith
  (enterBody : Construction -> option types.PanicValue * Construction)
  (node : Node) (body : ContainerBody) (c : Construction)
  : option BuildError * Construction :=
  if types.NodeType_Is (NodeType node)
       [types.NodeTypeBeforeSuite; types.NodeTypeAfterSuite;
        types.NodeTypeSynchronizedBeforeSuite;
        types.NodeTypeSynchronizedAfterSuite;
        types.NodeTypeReportAfterSuite]
  then
    let '(err, suite) := pushSuiteNode node (built c) in
    (liftError err, withBuilt suite c)
  else
    match phase (built c) with
    | PhaseRun =>
        (Some (GinkgoError_
                 (types.PushingNodeInRunPhase (NodeType node)
                                              (CodeLocation node))), c)
    | PhaseBuildTopLevel =>
        if types.NodeType_eqb (NodeType node) types.NodeTypeContainer
        then (None, withTopLevelContainer node body c)
        else
          (None,
           withTree (AppendTreeNodeChild (tree c) (MakeTreeNode node [])) c)
    | PhaseBuildTree =>
        if types.NodeType_eqb (NodeType node) types.NodeTypeContainer
        then
          let parentTree := tree c in
          let c := withTree (MakeTreeNode node []) c in
          let '(e, c) := enterBody c in
          let err :=
            match e with
            | Some e =>
                Some (CaughtPanicDuringABuildPhase e (CodeLocation node))
            | None => None
            end in
          (err, withTree (AppendTreeNodeChild parentTree (tree c)) c)
        else
          (None,
           withTree (AppendTreeNodeChild (tree c) (MakeTreeNode node [])) c)
    end.

(** The run of a container body: the panic it ends with, if any, and the
    construction it leaves. *)
Fixpoint enter (body : ContainerBody) (c : Construction)
  : option types.PanicValue * Construction :=
  match body with
  | Returns => (None, c)
  | Panics e => (Some e, c)
  | Pushes node nodeBody next =>
      let '(err, c) := pushNodeWith (enter nodeBody) node nodeBody c in
      enter (next err) c
  end.

(** [suite.PushNode(node)], for a node whose body does [body] *)
Definition PushNode (node : Node) (body : ContainerBody) (c : Construction)
  : option BuildError * Construction :=
  pushNodeWith (enter body) node body c.

(** [for _, topLevelContainer := range suite.topLevelContainers] *)
Fixpoint pushContainers (containers : list (Node * ContainerBody))
  (c : Construction) : option BuildError * Construction :=
  match containers with
  | [] => (None, c)
  | (topLevelContainer, body) :: rest =>
      let '(err, c) := PushNode topLevelContainer body c in
      match err with
      | Some err => (Some err, c)
      | None => pushContainers rest c
      end
  end.

(** [suite.BuildTree] *)
Definition BuildTree (c : Construction) : option BuildError * Construction :=
  let c := withBuilt (withPhase PhaseBuildTree (built c)) c in
  pushContainers
    (combine (topLevelContainers (built c)) (topLevelBodies c)) c.

(** *** [Run] *)

(** The pipeline from the tree to the specs, declared in package
    [internal] outside the sources at hand. *)
Variable ApplyNestedFocusPolicyToTree : TreeNode -> TreeNode.
Variable GenerateSpecsFromTreeRoot : TreeNode -> Specs.
Variable ShuffleSpecs : Specs -> types.SuiteConfig.t -> Specs.
Variable ApplyFocusToSpecs :
  Specs -> string -> types.SuiteConfig.t -> Specs * bool.

(** What a call of [Run] comes to: a panic, or the two results with the
    construction and the world it leaves. *)
Inductive RunResult : Type :=
| RunPanics (message : string)
| Ran (success hasProgrammaticFocus : bool) (c : Construction) (w : World).

(** [suite.Run] *)
Definition Run (description suitePath : string)
  (suiteConfig : types.SuiteConfig.t) (c : Construction) (w : World)
  : RunResult :=
  match phase (built c) with
  | PhaseBuildTree =>
      let tree := ApplyNestedFocusPolicyToTree (tree c) in
      let specs := GenerateSpecsFromTreeRoot tree in
      let specs := ShuffleSpecs specs suiteConfig in
      let '(specs, hasProgrammaticFocus) :=
        ApplyFocusToSpecs specs description suiteConfig in
      let suite := withPhase PhaseRun (built c) in
      let st :=
        runSpecsState description suitePath hasProgrammaticFocus specs
                      suiteConfig suite w in
      Ran (types.Report.SuiteSucceeded (report st)) hasProgrammaticFocus
          (withBuilt (suite_ st) c) (world st)
  | _ =>
      RunPanics
        "cannot run before building the tree = call suite.BuildTree() first"
  end.

End Engine.

End internal.

(** ** Package [ginkgo]: the table DSL *)

Module ginkgo.

(** The decorations a node can be given; [OtherDecoration] stands for any
    further argument that [internal.NewNode] accepts. *)
Inductive Decoration : Type :=
| Focus
| Pending
| FlakeAttempts (n : Z)
| OtherDecoration (name : string).

Section Table.

Variable U : Type.

(** [actual.AssignableTo(expected)] of package [reflect] *)
Variable AssignableTo : reflect.Type_ -> reflect.Type_ -> bool.

(** [types.NewCodeLocationWithStackTrace(2)] as the task of [runNode] takes
    it when the body of a generated It panics *)
Variable panicLocation : types.CodeLocation.t.

(** A Go function value: its type, and what a call does from a given user
    state (how it runs, and the values it returns). *)
Record Func : Type := {
  funcType : reflect.Type_;
  Call : list reflect.Value -> U -> internal.BodyRun U * list reflect.Value
}.

(** An [interface{}]: nil, a value with its dynamic type, or a function. *)
Inductive Interface_ : Type :=
| Nil
| Plain (t : reflect.Type_) (d : reflect.Data)
| Function (f : Func).

(** [reflect.TypeOf(x)]: nil for the nil interface *)
Definition TypeOf (x : Interface_) : option reflect.Type_ :=
  match x with
  | Nil => None
  | Plain t _ => Some t
  | Function f => Some (funcType f)
  end.

(** [reflect.ValueOf(x)] *)
Definition ValueOf (x : Interface_) : reflect.Value :=
  match x with
  | Nil => reflect.Invalid
  | Plain t d => reflect.Valid t d
  | Function f => reflect.Valid (funcType f) (reflect.OtherData "func")
  end.

Record TableEntry : Type := {
  description : Interface_;
  decorations : list Decoration;
  parameters : list Interface_;
  codeLocation : types.CodeLocation.t
}.

(** An argument of [Entry]: a decoration or a parameter. *)
Inductive EntryArg : Type :=
| WithDecoration (d : Decoration)
| WithParameter (x : Interface_).

(** Modelled from the spec: [internal.PartitionDecorations], which is
    declared outside the sources at hand and splits the arguments into the
    decorations and the remaining parameters, each in order. *)
Fixpoint PartitionDecorations (args : list EntryArg)
  : list Decoration * list Interface_ :=
  match args with
  | [] => ([], [])
  | WithDecoration d :: rest =>
      let '(ds, ps) := PartitionDecorations rest in (d :: ds, ps)
  | WithParameter x :: rest =>
      let '(ds, ps) := PartitionDecorations rest in (ds, x :: ps)
  end.

(** [Entry], [FEntry], [PEntry], [XEntry]; [cl] is
    [types.NewCodeLocation(1)], the place of the call. *)
Definition Entry (cl : types.CodeLocation.t) (description : Interface_)
  (args : list EntryArg) : TableEntry :=
  let '(decorations, parameters) := PartitionDecorations args in
  {| description := description; decorations := decorations;
     parameters := parameters; codeLocation := cl |}.

Definition FEntry (cl : types.CodeLocation.t) (description : Interface_)
  (args : list EntryArg) : TableEntry :=
  let '(decorations, parameters) := PartitionDecorations args in
  {| description := description; decorations := decorations ++ [Focus];
     parameters := parameters; codeLocation := cl |}.

Definition PEntry (cl : types.CodeLocation.t) (description : Interface_)
  (args : list EntryArg) : TableEntry :=
  let '(decorations, parameters) := PartitionDecorations args in
  {| description := description; decorations := decorations ++ [Pending];
     parameters := parameters; codeLocation := cl |}.

Definition XEntry := PEntry.

(** *** [computeValue], [invokeFunction], [validateParameters] *)

Definition computeValue (parameter : Interface_) (t : reflect.Type_)
  : reflect.Value :=
  match parameter with
  | Nil => reflect.Zero t
  | _ => ValueOf parameter
  end.

(** [limit := funcType.NumIn(); if funcType.IsVariadic() { limit = limit - 1 }] *)
Definition limitOf (funcType : reflect.Type_) : nat :=
  let limit := reflect.NumIn funcType in
  if reflect.IsVariadic funcType then (limit - 1)%nat else limit.

(** [inValues[i] = v] *)
Fixpoint setAt (i : nat) (v : reflect.Value) (inValues : list reflect.Value)
  : list reflect.Value :=
  match inValues, i with
  | [], _ => []
  | _ :: rest, O => v :: rest
  | x :: rest, S i => x :: setAt i v rest
  end.

(** [for ; i < bound; i++ { inValues[i] = computeValue(parameters[i], typeAt i) }],
    with [count] the number of rounds left. *)
Fixpoint fill (typeAt : nat -> reflect.Type_) (parameters : list Interface_)
  (count i : nat) (inValues : list reflect.Value) : list reflect.Value :=
  match count with
  | O => inValues
  | S count =>
      fill typeAt parameters count (S i)
           (setAt i (computeValue (nth i parameters Nil) (typeAt i)) inValues)
  end.

(** The argument values [invokeFunction] builds. *)
Definition inValuesFor (funcType : reflect.Type_)
  (parameters : list Interface_) : list reflect.Value :=
  let inValues := repeat reflect.Invalid (List.length parameters) in
  let limit := limitOf funcType in
  let inValues :=
    fill (reflect.In_ funcType) parameters
         (Nat.min limit (List.length parameters)) O inValues in
  if reflect.IsVariadic funcType then
    let variadicType := reflect.Elem (reflect.In_ funcType limit) in
    fill (fun _ => variadicType) parameters
         (List.length parameters - limit) limit inValues
  else inValues.

Definition invokeFunction (function : Func) (parameters : list Interface_)
  (u : U) : internal.BodyRun U * list reflect.Value :=
  Call function (inValuesFor (funcType function) parameters) u.

(** [for ; i < limit; i++ { ... }] of [validateParameters] *)
Fixpoint validateFixed (funcType : reflect.Type_)
  (parameters : list Interface_) (kind : string) (cl : types.CodeLocation.t)
  (count i : nat) : option types.GinkgoError :=
  match count with
  | O => None
  | S count =>
      let actual := TypeOf (nth i parameters Nil) in
      let expected := reflect.In_ funcType i in
      match actual with
      | Some actual =>
          if negb (AssignableTo actual expected)
          then Some (types.IncorrectParameterTypeToTableFunction
                       (Z.of_nat i + 1) expected actual kind cl)
          else validateFixed funcType parameters kind cl count (S i)
      | None => validateFixed funcType parameters kind cl count (S i)
      end
  end.

(** [for ; i < len(parameters); i++ { ... }] of [validateParameters] *)
Fixpoint validateVariadic (expected : reflect.Type_)
  (parameters : list Interface_) (kind : string) (cl : types.CodeLocation.t)
  (count i : nat) : option types.GinkgoError :=
  match count with
  | O => None
  | S count =>
      let actual := TypeOf (nth i parameters Nil) in
      match actual with
      | Some actual =>
          if negb (AssignableTo actual expected)
          then Some (types.IncorrectVariadicParameterTypeToTableFunction
                       expected actual kind cl)
          else validateVariadic expected parameters kind cl count (S i)
      | None => validateVariadic expected parameters kind cl count (S i)
      end
  end.

Definition validateParameters (function : Func)
  (parameters : list Interface_) (kind : string) (cl : types.CodeLocation.t)
  : option types.GinkgoError :=
  let funcType := funcType function in
  let limit := limitOf funcType in
  let len := List.length parameters in
  if (len <? limit)%nat then
    Some (types.TooFewParametersToTableFunction
            (Z.of_nat limit) (Z.of_nat len) kind cl)
  else if (limit <? len)%nat && negb (reflect.IsVariadic funcType) then
    Some (types.TooManyParametersToTableFunction
            (Z.of_nat limit) (Z.of_nat len) kind cl)
  else
    match validateFixed funcType parameters kind cl limit O with
    | Some err => Some err
    | None =>
        if reflect.IsVariadic funcType then
          validateVariadic (reflect.Elem (reflect.In_ funcType limit))
                           parameters kind cl (len - limit) limit
        else None
    end.

(** *** [generateTable] *)

(** Modelled from the spec: [internal.NewNode], declared outside the
    sources at hand.  The node takes its code location, decorations and
    body from the arguments; its nesting level is assigned when it enters
    the tree. *)
Definition NewNode (nodeType : types.NodeType) (text : string)
  (cl : types.CodeLocation.t) (decorations : list Decoration)
  (body : U -> internal.BodyRun U) : internal.Node U :=
  {| internal.NodeType := nodeType;
     internal.Text := text;
     internal.CodeLocation := cl;
     internal.NestingLevel := 0;
     internal.MarkedFocus :=
       existsb (fun d => match d with Focus => true | _ => false end)
               decorations;
     internal.MarkedPending :=
       existsb (fun d => match d with Pending => true | _ => false end)
               decorations;
     internal.FlakeAttempts :=
       fold_left (fun n d => match d with FlakeAttempts m => m | _ => n end)
                 decorations 0;
     internal.Body := body;
     internal.SynchronizedBeforeSuiteNode1Body := @internal.noBody U;
     internal.SynchronizedBeforeSuiteAllNodesBody :=
       fun _ => @internal.noBody U;
     internal.SynchronizedAfterSuiteAllNodesBody := @internal.noBody U;
     internal.SynchronizedAfterSuiteNode1Body := @internal.noBody U;
     internal.ReportAfterEachBody := fun _ => @internal.noBody U;
     internal.ReportAfterSuiteBody := fun _ => @internal.noBody U |}.

(** The outcome of code that runs while the tree is built: a value, or a
    panic. *)
Inductive Build (A : Type) : Type :=
| Built (a : A)
| BuildPanic (e : types.PanicValue).

Arguments Built {A} a.
Arguments BuildPanic {A} e.

(** The panic of a method call on a nil [reflect.Type]. *)
Definition nilDereference : types.PanicValue :=
  types.PanicOther
    "runtime error: invalid memory address or nil pointer dereference".

(** The closure [func() { if err != nil { panic(err) };
    invokeFunction(itBody, entry.parameters) }] that becomes the body of
    the generated It. *)
Definition entryBody (err : option types.GinkgoError) (itBody : option Func)
  (parameters : list Interface_) (u : U) : internal.BodyRun U :=
  match err with
  | Some err =>
      {| internal.exit :=
           internal.Panicked (types.PanicError err) panicLocation;
         internal.recorded := None; internal.output := [];
         internal.returned := []; internal.after := u;
         internal.midway := u |}
  | None =>
      match itBody with
      | Some function => fst (invokeFunction function parameters u)
      | None =>
          {| internal.exit := internal.Panicked nilDereference panicLocation;
             internal.recorded := None; internal.output := [];
             internal.returned := []; internal.after := u;
             internal.midway := u |}
      end
  end.

(** The [switch] on [reflect.TypeOf(entry.description)]: the description
    of the It and the error found so far. *)
Definition describeEntry (entry : TableEntry) (u : U)
  : Build (string * option types.GinkgoError) * U :=
  match TypeOf (description entry) with
  | None => (BuildPanic nilDereference, u)
  | Some t =>
      if reflect.isString t then
        (Built (reflect.Value_String (ValueOf (description entry)), None), u)
      else if reflect.isFunc t && (reflect.NumOut t =? 1)%nat
              && reflect.isString (reflect.Out t 0)
      then
        match description entry with
        | Function f =>
            match
              validateParameters f (parameters entry)
                                 "Entry Description function"
                                 (codeLocation entry)
            with
            | Some err => (Built (EmptyString, Some err), u)
            | None =>
                let '(run, results) :=
                  invokeFunction f (parameters entry) u in
                match internal.exit run with
                | internal.Returned =>
                    (Built (reflect.Value_String
                              (nth 0 results reflect.Invalid), None),
                     internal.after run)
                | internal.Panicked e _ => (BuildPanic e, internal.after run)
                | internal.Exited _ =>
                    (BuildPanic nilDereference, internal.after run)
                end
            end
        | _ =>
            (Built (EmptyString,
                    Some (types.InvalidEntryDescription (codeLocation entry))),
             u)
        end
      else
        (Built (EmptyString,
                Some (types.InvalidEntryDescription (codeLocation entry))), u)
  end.

(** One round of [for _, entry := range entries] in the container body:
    the It node pushed for the entry. *)
Definition entryNode (itBody : option Func) (entry : TableEntry) (u : U)
  : Build (internal.Node U) * U :=
  match describeEntry entry u with
  | (BuildPanic e, u) => (BuildPanic e, u)
  | (Built (text, err), u) =>
      let err :=
        match err with
        | Some err => Built (Some err)
        | None =>
            match itBody with
            | Some function =>
                Built (validateParameters function (parameters entry)
                                          "Table Body function"
                                          (codeLocation entry))
            | None => BuildPanic nilDereference
            end
        end in
      match err with
      | BuildPanic e => (BuildPanic e, u)
      | Built err =>
          (Built (NewNode types.NodeTypeIt text (codeLocation entry)
                          (decorations entry)
                          (entryBody err itBody (parameters entry))), u)
      end
  end.

(** The body of the generated container: the It nodes it pushes, in the
    order of the entries, unless a round panics. *)
Fixpoint tableBody (itBody : option Func) (entries : list TableEntry) (u : U)
  : Build (list (internal.Node U)) * U :=
  match entries with
  | [] => (Built [], u)
  | entry :: rest =>
      match entryNode itBody entry u with
      | (BuildPanic e, u) => (BuildPanic e, u)
      | (Built node, u) =>
          match tableBody itBody rest u with
          | (BuildPanic e, u) => (BuildPanic e, u)
          | (Built nodes, u) => (Built (node :: nodes), u)
          end
      end
  end.

(** An argument of [DescribeTable]: an entry, a function, nil, or anything
    else, which goes to the container node. *)
Inductive TableArg : Type :=
| ArgEntry (entry : TableEntry)
| ArgFunction (f : Func)
| ArgNil
| ArgDecoration (d : Decoration).

(** What registering a table comes to: the process exits with an error
    ([exitIfErr]), it crashes on a panic, or the container node is pushed,
    with the body that generates its It nodes when the tree is built. *)
Inductive Registration : Type :=
| ExitWith (err : types.GinkgoError)
| Crash (e : types.PanicValue)
| Pushed (container : internal.Node U)
         (body : U -> Build (list (internal.Node U)) * U).

(** [for _, arg := range args { switch ... }] *)
Fixpoint collectArgs (cl : types.CodeLocation.t) (args : list TableArg)
  (containerNodeArgs : list Decoration) (entries : list TableEntry)
  (itBody : option Func)
  : types.GinkgoError + types.PanicValue
    + (list Decoration * list TableEntry * option Func) :=
  match args with
  | [] => inr (containerNodeArgs, entries, itBody)
  | ArgEntry entry :: rest =>
      collectArgs cl rest containerNodeArgs (entries ++ [entry]) itBody
  | ArgFunction f :: rest =>
      match itBody with
      | Some _ => inl (inl (types.MultipleEntryBodyFunctionsForTable cl))
      | None => collectArgs cl rest containerNodeArgs entries (Some f)
      end
  | ArgNil :: _ => inl (inr nilDereference)
  | ArgDecoration d :: rest =>
      collectArgs cl rest (containerNodeArgs ++ [d]) entries itBody
  end.

(** [generateTable]; [cl] is [types.NewCodeLocation(2)], the place of the
    call of [DescribeTable]. *)
Definition generateTable (cl : types.CodeLocation.t) (description : string)
  (args : list TableArg) : Registration :=
  match collectArgs cl args [] [] None with
  | inl (inl err) => ExitWith err
  | inl (inr e) => Crash e
  | inr (containerNodeArgs, entries, itBody) =>
      Pushed (NewNode types.NodeTypeContainer description cl
                      containerNodeArgs (@internal.noBody U))
             (tableBody itBody entries)
  end.

(** [DescribeTable], [FDescribeTable], [PDescribeTable], [XDescribeTable] *)
Definition DescribeTable (cl : types.CodeLocation.t) (description : string)
  (args : list TableArg) : Registration :=
  generateTable cl description args.

Definition FDescribeTable (cl : types.CodeLocation.t) (description : string)
  (args : list TableArg) : Registration :=
  generateTable cl description (args ++ [ArgDecoration Focus]).

Definition PDescribeTable (cl : types.CodeLocation.t) (description : string)
  (args : list TableArg) : Registration :=
  generateTable cl description (args ++ [ArgDecoration Pending]).

Definition XDescribeTable := PDescribeTable.

End Table.

End ginkgo.

(** * Example suites *)

Module examples.

Import internal.

Definition at_ (line : Z) : types.CodeLocation.t :=
  {| types.CodeLocation.FileName := "suite_test.go";
     types.CodeLocation.LineNumber := line |}.

Definition emptyReport : types.Report.t :=
  {| types.Report.SuitePath := EmptyString;
     types.Report.SuiteDescription := EmptyString;
     types.Report.SuiteConfig :=
       {| types.SuiteConfig.DryRun := false;
          types.SuiteConfig.FailFast := false;
          types.SuiteConfig.FailOnPending := false;
          types.SuiteConfig.EmitSpecProgress := false;
          types.SuiteConfig.FlakeAttempts := 0;
          types.SuiteConfig.ParallelNode := 1;
          types.SuiteConfig.ParallelTotal := 1 |};
     types.Report.SuiteHasProgrammaticFocus := false;
     types.Report.PreRunStats :=
       {| types.PreRunStats.TotalSpecs := 0;
          types.PreRunStats.SpecsThatWillRun := 0 |};
     types.Report.SuiteSucceeded := true;
     types.Report.SpecialSuiteFailureReasons := [];
     types.Report.SpecReports := [] |}.

(** No interrupt, no communication error, no other worker. *)
Definition quiet : Environment.t :=
  {| Environment.interruptSignal := fun _ => false;
     Environment.interruptMessage := fun _ => EmptyString;
     Environment.interruptCause := EmptyString;
     Environment.commError := fun _ => None;
     Environment.peerClaims := fun _ => O;
     Environment.aggregatedNonprimaryNodesReport := fun _ => emptyReport |}.

(** The user state of the examples is a counter of the bodies run. *)
Definition start : World nat :=
  {| env := quiet; now := O; user := O; writer := []; invoked := [];
     server := Server.initial |}.

Definition passing (u : nat) : BodyRun nat :=
  {| exit := Returned; recorded := None; output := ["ok"%string];
     returned := []; after := S u; midway := u |}.

Definition failing (u : nat) : BodyRun nat :=
  {| exit := Panicked (types.PanicOther "GINKGO_PANIC") (at_ 99);
     recorded := Some (Failer_Fail "expected true" (at_ 99));
     output := []; returned := []; after := S u; midway := u |}.

(** Fails on its first [n] runs, then passes. *)
Definition flaky (n : nat) (u : nat) : BodyRun nat :=
  if (u <? n)%nat then failing u else passing u.

Definition node (t : types.NodeType) (line level : Z)
  (body : nat -> BodyRun nat) : Node nat :=
  {| NodeType := t; Text := EmptyString; CodeLocation := at_ line;
     NestingLevel := level; MarkedFocus := false; MarkedPending := false;
     FlakeAttempts := 0; Body := body;
     SynchronizedBeforeSuiteNode1Body := body;
     SynchronizedBeforeSuiteAllNodesBody := fun _ => body;
     SynchronizedAfterSuiteAllNodesBody := body;
     SynchronizedAfterSuiteNode1Body := body;
     ReportAfterEachBody := fun _ => body;
     ReportAfterSuiteBody := fun _ => body |}.

Definition config (dryRun failFast : bool) (parallelNode parallelTotal : Z)
  : types.SuiteConfig.t :=
  {| types.SuiteConfig.DryRun := dryRun;
     types.SuiteConfig.FailFast := failFast;
     types.SuiteConfig.FailOnPending := false;
     types.SuiteConfig.EmitSpecProgress := false;
     types.SuiteConfig.FlakeAttempts := 0;
     types.SuiteConfig.ParallelNode := parallelNode;
     types.SuiteConfig.ParallelTotal := parallelTotal |}.

Definition serial : types.SuiteConfig.t := config false false 1 1.

Definition failureStates : list types.SpecState :=
  [types.SpecStateFailed; types.SpecStateAborted; types.SpecStateInterrupted].

(** outer, middle and inner container levels, the middle BeforeEach fails *)
Definition nested : Spec nat :=
  {| Nodes_ :=
       [node types.NodeTypeBeforeEach 10 0 passing;
        node types.NodeTypeAfterEach 11 0 passing;
        node types.NodeTypeBeforeEach 20 1 failing;
        node types.NodeTypeJustAfterEach 21 1 passing;
        node types.NodeTypeAfterEach 22 1 passing;
        node types.NodeTypeBeforeEach 30 2 passing;
        node types.NodeTypeJustAfterEach 31 2 passing;
        node types.NodeTypeAfterEach 32 2 passing;
        node types.NodeTypeIt 33 2 passing];
     Skip := false |}.

Definition withFlakeAttempts (n : Z) (x : Node nat) : Node nat :=
  {| NodeType := NodeType x; Text := Text x; CodeLocation := CodeLocation x;
     NestingLevel := NestingLevel x; MarkedFocus := MarkedFocus x;
     MarkedPending := MarkedPending x; FlakeAttempts := n; Body := Body x;
     SynchronizedBeforeSuiteNode1Body := SynchronizedBeforeSuiteNode1Body x;
     SynchronizedBeforeSuiteAllNodesBody :=
       SynchronizedBeforeSuiteAllNodesBody x;
     SynchronizedAfterSuiteAllNodesBody :=
       SynchronizedAfterSuiteAllNodesBody x;
     SynchronizedAfterSuiteNode1Body := SynchronizedAfterSuiteNode1Body x;
     ReportAfterEachBody := ReportAfterEachBody x;
     ReportAfterSuiteBody := ReportAfterSuiteBody x |}.

Definition markedPending (x : Node nat) : Node nat :=
  {| NodeType := NodeType x; Text := Text x; CodeLocation := CodeLocation x;
     NestingLevel := NestingLevel x; MarkedFocus := MarkedFocus x;
     MarkedPending := true; FlakeAttempts := FlakeAttempts x;
     Body := Body x;
     SynchronizedBeforeSuiteNode1Body := SynchronizedBeforeSuiteNode1Body x;
     SynchronizedBeforeSuiteAllNodesBody :=
       SynchronizedBeforeSuiteAllNodesBody x;
     SynchronizedAfterSuiteAllNodesBody :=
       SynchronizedAfterSuiteAllNodesBody x;
     SynchronizedAfterSuiteNode1Body := SynchronizedAfterSuiteNode1Body x;
     ReportAfterEachBody := ReportAfterEachBody x;
     ReportAfterSuiteBody := ReportAfterSuiteBody x |}.

(** an It allowed three attempts that fails twice, then passes *)
Definition retried : Spec nat :=
  {| Nodes_ := [withFlakeAttempts 3 (node types.NodeTypeIt 40 0 (flaky 2))];
     Skip := false |}.

Definition failingSpec : Spec nat :=
  {| Nodes_ := [node types.NodeTypeIt 50 0 failing]; Skip := false |}.

Definition passingSpec : Spec nat :=
  {| Nodes_ := [node types.NodeTypeIt 51 0 passing]; Skip := false |}.

(** a pending It, which the focus policy has marked Skip *)
Definition pendingSpec : Spec nat :=
  {| Nodes_ := [markedPending (node types.NodeTypeIt 52 0 passing)];
     Skip := true |}.

(** an It with a ReportAfterEach hook that fails *)
Definition reportedSpec : Spec nat :=
  {| Nodes_ := [node types.NodeTypeReportAfterEach 60 0 failing;
                node types.NodeTypeIt 61 0 passing];
     Skip := false |}.

Definition blob : Bytes := [Byte.x01; Byte.x02].

Definition producing (u : nat) : BodyRun nat :=
  {| exit := Returned; recorded := None; output := [];
     returned := blob; after := S u; midway := u |}.

Definition synchronizedBeforeSuite : Node nat :=
  {| NodeType := types.NodeTypeSynchronizedBeforeSuite; Text := EmptyString;
     CodeLocation := at_ 5; NestingLevel := 0; MarkedFocus := false;
     MarkedPending := false; FlakeAttempts := 0; Body := @noBody nat;
     SynchronizedBeforeSuiteNode1Body := producing;
     SynchronizedBeforeSuiteAllNodesBody := fun _ => passing;
     SynchronizedAfterSuiteAllNodesBody := @noBody nat;
     SynchronizedAfterSuiteNode1Body := @noBody nat;
     ReportAfterEachBody := fun _ => @noBody nat;
     ReportAfterSuiteBody := fun _ => @noBody nat |}.

(** a suite whose tree is being built, with one BeforeSuite registered *)
Definition building : Suite nat :=
  {| topLevelContainers := []; phase := PhaseBuildTree;
     suiteNodes := [node types.NodeTypeBeforeSuite 1 0 passing];
     currentSpecReport := types.SpecReport.zero |}.

Definition registering : Suite nat :=
  {| topLevelContainers := []; phase := PhaseBuildTopLevel;
     suiteNodes := [node types.NodeTypeBeforeSuite 1 0 passing];
     currentSpecReport := types.SpecReport.zero |}.

(** the assignability of the basic types and of the empty interface *)
Definition assignable (actual expected : reflect.Type_) : bool :=
  match actual, expected with
  | reflect.Bool, reflect.Bool
  | reflect.Int, reflect.Int
  | reflect.String, reflect.String
  | _, reflect.Interface => true
  | _, _ => false
  end.

(** [func(x int, y int, expected bool)] *)
Definition compare : ginkgo.Func nat :=
  {| ginkgo.funcType :=
       reflect.Func [reflect.Int; reflect.Int; reflect.Bool] false [];
     ginkgo.Call := fun _ u => (passing u, []) |}.

Definition int (z : Z) : ginkgo.Interface_ nat :=
  ginkgo.Plain nat reflect.Int (reflect.IntData z).

Definition text (s : string) : ginkgo.Interface_ nat :=
  ginkgo.Plain nat reflect.String (reflect.StringData s).

(** [Entry("x > y", 1, 0)]: one parameter short *)
Definition tooFew : ginkgo.TableEntry nat :=
  ginkgo.Entry (at_ 70) (text "x > y")
               [ginkgo.WithParameter (int 1); ginkgo.WithParameter (int 0)].

(** [Entry("x == y", 0, nil, nil)] *)
Definition withNil : ginkgo.TableEntry nat :=
  ginkgo.Entry (at_ 71) (text "x == y")
               [ginkgo.WithParameter (int 0);
                ginkgo.WithParameter (ginkgo.Nil nat);
                ginkgo.WithParameter (ginkgo.Nil nat)].

(** an It allowed three attempts that fails every time *)
Definition exhausted : Spec nat :=
  {| Nodes_ := [withFlakeAttempts 3 (node types.NodeTypeIt 41 0 failing)];
     Skip := false |}.

(** An interrupt signal is delivered during the first tick. *)
Definition interruptedAtStart : Environment.t :=
  {| Environment.interruptSignal := fun t => (t =? 0)%nat;
     Environment.interruptMessage := fun _ => "interrupted by user"%string;
     Environment.interruptCause := "Interrupted by User";
     Environment.commError := fun _ => None;
     Environment.peerClaims := fun _ => O;
     Environment.aggregatedNonprimaryNodesReport := fun _ => emptyReport |}.

Definition interrupted : World nat :=
  {| env := interruptedAtStart; now := O; user := O; writer := [];
     invoked := []; server := Server.initial |}.

Definition failOnPending : types.SuiteConfig.t :=
  {| types.SuiteConfig.DryRun := false;
     types.SuiteConfig.FailFast := false;
     types.SuiteConfig.FailOnPending := true;
     types.SuiteConfig.EmitSpecProgress := false;
     types.SuiteConfig.FlakeAttempts := 0;
     types.SuiteConfig.ParallelNode := 1;
     types.SuiteConfig.ParallelTotal := 1 |}.

(** a suite about to run, with a BeforeSuite that fails and an AfterSuite *)
Definition brokenSetup : Suite nat :=
  {| topLevelContainers := []; phase := PhaseRun;
     suiteNodes := [node types.NodeTypeBeforeSuite 1 0 failing;
                    node types.NodeTypeAfterSuite 2 0 passing];
     currentSpecReport := types.SpecReport.zero |}.

Definition synchronizedAfterSuite : Node nat :=
  node types.NodeTypeSynchronizedAfterSuite 6 0 passing.

Definition reportAfterSuite : Node nat :=
  node types.NodeTypeReportAfterSuite 7 0 passing.

(** [Describe(func() { It(...); panic("boom") })] *)
Definition innerBody : ContainerBody nat :=
  Pushes (node types.NodeTypeIt 83 2 passing) (Returns nat)
         (fun _ => Panics nat (types.PanicOther "boom")).

(** [Describe(func() { BeforeEach(...); Describe(...) })], with the
    container above inside *)
Definition outerBody : ContainerBody nat :=
  Pushes (node types.NodeTypeBeforeEach 81 1 passing) (Returns nat)
         (fun _ =>
            Pushes (node types.NodeTypeContainer 82 1 (@noBody nat))
                   innerBody (fun _ => Returns nat)).

(** a container, an It and a BeforeSuite declared at top level *)
Definition declarations : list (Node nat * ContainerBody nat) :=
  [(node types.NodeTypeContainer 80 0 (@noBody nat), outerBody);
   (node types.NodeTypeIt 85 0 passing, Returns nat);
   (node types.NodeTypeBeforeSuite 1 0 passing, Returns nat)].

(** a suite whose tree is being built, inside a first container *)
Definition entered : Construction nat :=
  {| built := building;
     tree := MakeTreeNode (node types.NodeTypeContainer 80 0 (@noBody nat))
                          [MakeTreeNode (node types.NodeTypeIt 84 1 passing)
                                        []];
     topLevelBodies := [] |}.

Definition boolean (b : bool) : ginkgo.Interface_ nat :=
  ginkgo.Plain nat reflect.Bool (reflect.BoolData b).


(** [Entry("1 > 0", 1, 0, true)] *)
Definition fitting : ginkgo.TableEntry nat :=
  ginkgo.Entry (at_ 73) (text "1 > 0")
               [ginkgo.WithParameter (int 1); ginkgo.WithParameter (int 0);
                ginkgo.WithParameter (boolean true)].

(** [Entry(nil, 1, 0, true)] *)
Definition undescribed : ginkgo.TableEntry nat :=
  ginkgo.Entry (at_ 74) (ginkgo.Nil nat)
               [ginkgo.WithParameter (int 1); ginkgo.WithParameter (int 0);
                ginkgo.WithParameter (boolean true)].

(** the arguments of [DescribeTable("compare", compare, Entry(...), Entry(...))] *)
Definition tableArgs : list (ginkgo.TableArg nat) :=
  [ginkgo.ArgFunction compare; ginkgo.ArgEntry fitting;
   ginkgo.ArgEntry tooFew].


End examples.

(** * Properties

    The statements below are about the definitions above.  The section
    first fixes the vocabulary they use, then proves the properties of the
    suite engine and of the table DSL. *)

Unset Implicit Arguments.

Section Properties.

Import internal ginkgo.

Variable U : Type.
Variable SpecStateFailureStates : list types.SpecState.
Variable AssignableTo : reflect.Type_ -> reflect.Type_ -> bool.
Variable panicLocation : types.CodeLocation.t.

Implicit Types (node : Node U) (spec : Spec U) (suite : Suite U)
  (w : World U) (st : LoopState U) (suiteConfig : types.SuiteConfig.t)
  (function : Func U) (parameters : list (Interface_ U))
  (entry : TableEntry U) (cl : types.CodeLocation.t) (kind : string).

Local Abbreviation Func := (Func U).
Local Abbreviation Interface_ := (Interface_ U).
Local Abbreviation TableEntry := (TableEntry U).
Local Abbreviation validateParameters := (validateParameters AssignableTo).
Local Abbreviation entryNode := (entryNode AssignableTo panicLocation).

(** ** Vocabulary *)

Definition descending (a b : Node U) : Prop := NestingLevel a >= NestingLevel b.

Definition retryNotices (l : list types.WriterChunk) : list Z :=
  flat_map (fun c => match c with types.RetryNotice a => [a] | _ => [] end) l.

Definition bodyOf (n : Node U) : Node U * BodyCall := (n, CallBody).

Definition Failure_ (suite : Suite U) : types.Failure.t :=
  types.SpecReport.Failure (currentSpecReport suite).

(** [after] is [prior] with the outcome [(state, failure)] folded in: the
    outcome replaces the recorded one when the recorded state is Passed or
    the outcome is Aborted, and the recorded one is kept otherwise. *)
Definition foldedInto (prior : Suite U) (state : types.SpecState)
  (failure : types.Failure.t) (after : Suite U) : Prop :=
  (State_ prior = types.SpecStatePassed \/ state = types.SpecStateAborted ->
   State_ after = state /\ Failure_ after = failure)
  /\ (State_ prior <> types.SpecStatePassed
      /\ state <> types.SpecStateAborted ->
      State_ after = State_ prior /\ Failure_ after = Failure_ prior).

Definition deepestOf (executed : Nodes U) (start : Z) : Z :=
  fold_left (fun d n => Z.max d (NestingLevel n)) executed start.

(** The cleanup nodes of one type that an attempt runs, as [runSpec] selects
    them: exactly the nodes of that type no deeper than [d], deepest
    first. *)
Definition cleanupOfType (t : types.NodeType) (d : Z) (spec : Spec U)
  (l : Nodes U) : Prop :=
  Permutation l
    (filter (fun n => types.NodeType_eqb (NodeType n) t
                      && (NestingLevel n <=? d)) (Nodes_ spec))
  /\ StronglySorted descending l.

(** The suite and the world at the end of the [i]-th attempt counted from
    [attempt], when the attempts are run one after the other (the interrupt
    status is read between two attempts). *)
Fixpoint afterAttemptFrom (spec : Spec U) (suiteConfig : types.SuiteConfig.t)
  (attempt : Z) (i : nat) (suite : Suite U) (w : World U)
  : Suite U * World U :=
  match i with
  | O => runAttempt spec suiteConfig attempt suite w
  | S j =>
      let '(suite, w) := runAttempt spec suiteConfig attempt suite w in
      afterAttemptFrom spec suiteConfig (attempt + 1) j suite (snd (Status w))
  end.

(** The attempt ends neither passed nor interrupted. *)
Definition failedUninterrupted (end_ : Suite U * World U) : Prop :=
  State_ (fst end_) <> types.SpecStatePassed
  /\ Interrupted (fst (Status (snd end_))) = false.

Definition beforeSuiteFamily : list types.NodeType :=
  [types.NodeTypeBeforeSuite; types.NodeTypeSynchronizedBeforeSuite].

Definition afterSuiteFamily : list types.NodeType :=
  [types.NodeTypeAfterSuite; types.NodeTypeSynchronizedAfterSuite].

(** The error a push of [node] gets when [first] is the registered node of
    its family: in the top-level build phase the duplicate error built by
    [duplicate], which names [first]; in the later phases the error of that
    phase. *)
Definition rejection
  (duplicate : types.NodeType -> types.CodeLocation.t ->
               types.NodeType -> types.CodeLocation.t -> types.GinkgoError)
  (node first : Node U) (p : Phase) : types.GinkgoError :=
  match p with
  | PhaseBuildTopLevel =>
      duplicate (NodeType node) (CodeLocation node)
                (NodeType first) (CodeLocation first)
  | PhaseBuildTree =>
      types.SuiteNodeInNestedContext (NodeType node) (CodeLocation node)
  | PhaseRun =>
      types.SuiteNodeDuringRunPhase (NodeType node) (CodeLocation node)
  end.

(** The primary worker's produce step went well: the produce body passed
    and, in a parallel run, the broadcast of its data reached the server. *)
Definition produceSucceeded (node : Node U) (ch : nat)
  (suiteConfig : types.SuiteConfig.t) (w : World U) : bool :=
  let produce :=
    runNode node CallSynchronizedBeforeSuiteNode1Body (Some ch) EmptyString
            suiteConfig (Writer_Truncate w) in
  types.SpecState_eqb (outcome (fst produce)) types.SpecStatePassed
  && (negb (types.SuiteConfig.ParallelTotal suiteConfig >? 1)
      || isNil (commErrorNow (snd produce))).

(** From [w] to [w'] the engine has started bodies that all satisfy [P],
    and the server's counter has not moved. *)
Definition advances (P : Node U * BodyCall -> Prop) (w w' : World U) : Prop :=
  Server.counter (server w') = Server.counter (server w)
  /\ exists l, invoked w' = invoked w ++ l /\ Forall P l.

(** The body of a ReportAfterEach node, called with some report. *)
Definition isReportAfterEachCall (x : Node U * BodyCall) : Prop :=
  NodeType (fst x) = types.NodeTypeReportAfterEach
  /\ exists report, snd x = CallReportAfterEachBody report.

Definition anyCall (x : Node U * BodyCall) : Prop := True.

(** The run loop skips the spec it is about to handle without asking
    whether it was skipped beforehand: the run is a dry run, or fail-fast
    is on and the suite has already failed. *)
Definition bodiesOff (suiteConfig : types.SuiteConfig.t) (st : LoopState U)
  : Prop :=
  types.SuiteConfig.DryRun suiteConfig = true
  \/ (types.SuiteConfig.FailFast suiteConfig = true
      /\ types.Report.SuiteSucceeded (report st) = false).

(** The report the loop body appends for a spec it skips, and what it
    leaves in the suite-wide report. *)
Definition reportedSkipped (spec : Spec U) (r : types.SpecReport.t) : Prop :=
  types.SpecReport.State r = skippedState spec
  \/ (types.SpecReport.State r = types.SpecStateAborted
      /\ WithType [types.NodeTypeReportAfterEach] (Nodes_ spec) <> []).

(** From [w] to [w'] the engine has started bodies that all satisfy [P]. *)
Definition invokes (P : Node U * BodyCall -> Prop) (w w' : World U) : Prop :=
  exists l, invoked w' = invoked w ++ l /\ Forall P l.

Definition skippedLike (r : types.SpecReport.t) : Prop :=
  types.SpecReport.State r = types.SpecStateSkipped
  \/ types.SpecReport.State r = types.SpecStatePending
  \/ types.SpecReport.State r = types.SpecStateAborted.

(** In the list of reports a fail-fast run loop appends, every report that
    follows a report in a failure state is that of a skipped spec. *)
Definition skippedAfterFailure (rs : list types.SpecReport.t) : Prop :=
  forall pre r post,
    rs = pre ++ r :: post ->
    types.SpecState_Is (types.SpecReport.State r) SpecStateFailureStates
    = true ->
    Forall skippedLike post.

Definition nextBound (suiteConfig : types.SuiteConfig.t) (calls : nat)
  (w : World U) : nat :=
  if types.SuiteConfig.ParallelTotal suiteConfig >? 1
  then Server.counter (server w) else calls.

Definition sameLeaf (suite suite' : Suite U) : Prop :=
  types.SpecReport.LeafNodeType (currentSpecReport suite')
  = types.SpecReport.LeafNodeType (currentSpecReport suite)
  /\ types.SpecReport.LeafNodeLocation (currentSpecReport suite')
     = types.SpecReport.LeafNodeLocation (currentSpecReport suite).

(** The first body [runSuiteNode] starts for a before- or after-suite
    node on this worker. *)
Definition firstCall (node : Node U) (suiteConfig : types.SuiteConfig.t)
  : option BodyCall :=
  match NodeType node with
  | types.NodeTypeBeforeSuite | types.NodeTypeAfterSuite => Some CallBody
  | types.NodeTypeSynchronizedBeforeSuite =>
      if types.SuiteConfig.ParallelNode suiteConfig =? 1
      then Some CallSynchronizedBeforeSuiteNode1Body else None
  | types.NodeTypeSynchronizedAfterSuite =>
      Some CallSynchronizedAfterSuiteAllNodesBody
  | _ => None
  end.

(** The report of a suite-level hook that has run: it carries the hook's
    node type and code location. *)
Definition hookReport (node : Node U) (r : types.SpecReport.t) : Prop :=
  types.SpecReport.LeafNodeType r = NodeType node
  /\ types.SpecReport.LeafNodeLocation r = CodeLocation node.


(** The type a parameter at index [j] is checked against and converted to:
    the type of the [j]-th fixed parameter of the function, or the element
    type of its variadic parameter. *)
Definition expectedAt (funcType : reflect.Type_) (j : nat) : reflect.Type_ :=
  if (j <? limitOf funcType)%nat then reflect.In_ funcType j
  else reflect.Elem (reflect.In_ funcType (limitOf funcType)).

(** The parameters fit the function: enough of them, no more than the
    fixed ones unless the function is variadic, and every parameter that is
    not nil is assignable to the type expected at its place. *)
Definition accepts (function : Func) (parameters : list Interface_) : Prop :=
  let funcType := funcType function in
  (limitOf funcType <= List.length parameters)%nat
  /\ (reflect.IsVariadic funcType = false ->
      (List.length parameters <= limitOf funcType)%nat)
  /\ forall j actual,
       (j < List.length parameters)%nat ->
       TypeOf (nth j parameters (Nil U)) = Some actual ->
       AssignableTo actual (expectedAt funcType j) = true.

Definition isTypeError (err : types.GinkgoError) : bool :=
  match err with
  | types.IncorrectParameterTypeToTableFunction _ _ _ _ _
  | types.IncorrectVariadicParameterTypeToTableFunction _ _ _ _ => true
  | _ => false
  end.

(** Two spec reports are about the same spec or hook. *)
Definition sameSubject (r r' : types.SpecReport.t) : Prop :=
  types.SpecReport.ContainerHierarchyTexts r'
  = types.SpecReport.ContainerHierarchyTexts r
  /\ types.SpecReport.ContainerHierarchyLocations r'
     = types.SpecReport.ContainerHierarchyLocations r
  /\ types.SpecReport.LeafNodeType r' = types.SpecReport.LeafNodeType r
  /\ types.SpecReport.LeafNodeLocation r'
     = types.SpecReport.LeafNodeLocation r
  /\ types.SpecReport.LeafNodeText r' = types.SpecReport.LeafNodeText r
  /\ types.SpecReport.GinkgoParallelNode r'
     = types.SpecReport.GinkgoParallelNode r.

(** The registrations of a suite: its phase and the nodes pushed so far. *)
Definition sameRegistrations (suite suite' : Suite U) : Prop :=
  topLevelContainers suite' = topLevelContainers suite
  /\ phase suite' = phase suite
  /\ suiteNodes suite' = suiteNodes suite.

(** From [suite] to [suite'] only the outcome recorded in the current
    spec report has changed: its state, failure, number of attempts and
    captured output. *)
Definition keeps (suite suite' : Suite U) : Prop :=
  sameRegistrations suite suite'
  /\ sameSubject (currentSpecReport suite) (currentSpecReport suite').

(** From [w] to [w'] time has passed in the same environment. *)
Definition later (w w' : World U) : Prop :=
  env w' = env w /\ (now w <= now w')%nat.

(** The spec report is outside the failure states. *)
Definition passes (r : types.SpecReport.t) : bool :=
  negb (types.SpecState_Is (types.SpecReport.State r) SpecStateFailureStates).

Definition isEmpty (A : Type) (l : list A) : bool :=
  match l with [] => true | _ :: _ => false end.

(** [r'] is [r] with the spec reports [rs] and the special failure reasons
    [reasons] appended; it still says that the suite succeeded when [r]
    did, every report of [rs] is outside the failure states and no reason
    was added. *)
Definition extendedBy (rs : list types.SpecReport.t) (reasons : list string)
  (r r' : types.Report.t) : Prop :=
  types.Report.SpecReports r' = types.Report.SpecReports r ++ rs
  /\ types.Report.SpecialSuiteFailureReasons r'
     = types.Report.SpecialSuiteFailureReasons r ++ reasons
  /\ types.Report.SuiteSucceeded r'
     = types.Report.SuiteSucceeded r && forallb passes rs
       && isEmpty string reasons.

(** What every step of [runSpecs] keeps between the state it starts from
    and the state it leaves. *)
Definition follows (st st' : LoopState U) : Prop :=
  (exists rs reasons, extendedBy rs reasons (report st) (report st'))
  /\ sameRegistrations (suite_ st) (suite_ st')
  /\ later (world st) (world st')
  /\ (suiteAborted st = true -> suiteAborted st' = true).

(** The run loop is to skip what is left: the suite has been aborted, or an
    interrupt has been observed. *)
Definition stopping (st : LoopState U) : Prop :=
  suiteAborted st = true
  \/ signalledWithin (env (world st)) 0 (S (now (world st))) = true.

(** The body of a suite-level node, in any of its variants. *)
Definition isSuiteLevelCall (x : Node U * BodyCall) : Prop :=
  types.NodeType_Is (NodeType (fst x)) types.NodeTypesForSuiteLevelNodes
  = true.

(** The report is that of a node of one of the types [family]. *)
Definition reportOfType (family : list types.NodeType)
  (r : types.SpecReport.t) : Prop :=
  types.NodeType_Is (types.SpecReport.LeafNodeType r) family = true.

(** The report of a ReportAfterSuite node: it carries the type, the code
    location and the text of the node. *)
Definition reportAfterSuiteReport (node : Node U) (r : types.SpecReport.t)
  : Prop :=
  hookReport node r /\ types.SpecReport.LeafNodeText r = Text node.

(** The report [r] is the one of the spec at index [i]. *)
Definition reportsSpecAt (specs : Specs U)
  (suiteConfig : types.SuiteConfig.t) (i : nat) (r : types.SpecReport.t)
  : Prop :=
  exists spec,
    nth_error specs i = Some spec
    /\ sameSubject (specReportFor spec suiteConfig) r.

(** No node of the family of [node] is registered yet. *)
Definition familyFree (node : Node U) (suite : Suite U) : Prop :=
  (types.NodeType_Is (NodeType node) beforeSuiteFamily = true ->
   WithType beforeSuiteFamily (suiteNodes suite) = [])
  /\ (types.NodeType_Is (NodeType node) afterSuiteFamily = true ->
      WithType afterSuiteFamily (suiteNodes suite) = []).

(** At most one node of the BeforeSuite family and at most one of the
    AfterSuite family are registered. *)
Definition oneHookPerFamily (suite : Suite U) : Prop :=
  (List.length (WithType beforeSuiteFamily (suiteNodes suite)) <= 1)%nat
  /\ (List.length (WithType afterSuiteFamily (suiteNodes suite)) <= 1)%nat.

(** The outcome of [validateParameters], case by case. *)
Inductive Validation (function : Func) (parameters : list Interface_)
  (kind : string) (cl : types.CodeLocation.t)
  : option types.GinkgoError -> Prop :=
| TooFew :
    (List.length parameters < limitOf (funcType function))%nat ->
    Validation function parameters kind cl
      (Some (types.TooFewParametersToTableFunction
               (Z.of_nat (limitOf (funcType function)))
               (Z.of_nat (List.length parameters)) kind cl))
| TooMany :
    (limitOf (funcType function) < List.length parameters)%nat ->
    reflect.IsVariadic (funcType function) = false ->
    Validation function parameters kind cl
      (Some (types.TooManyParametersToTableFunction
               (Z.of_nat (limitOf (funcType function)))
               (Z.of_nat (List.length parameters)) kind cl))
| WrongFixed (j : nat) (actual : reflect.Type_) :
    (limitOf (funcType function) <= List.length parameters)%nat ->
    (reflect.IsVariadic (funcType function) = false ->
     List.length parameters = limitOf (funcType function)) ->
    (j < limitOf (funcType function))%nat ->
    TypeOf (nth j parameters (Nil U)) = Some actual ->
    AssignableTo actual (reflect.In_ (funcType function) j) = false ->
    (forall k a,
       (k < j)%nat ->
       TypeOf (nth k parameters (Nil U)) = Some a ->
       AssignableTo a (reflect.In_ (funcType function) k) = true) ->
    Validation function parameters kind cl
      (Some (types.IncorrectParameterTypeToTableFunction
               (Z.of_nat j + 1) (reflect.In_ (funcType function) j) actual
               kind cl))
| WrongVariadic (j : nat) (actual : reflect.Type_) :
    reflect.IsVariadic (funcType function) = true ->
    (limitOf (funcType function) <= j < List.length parameters)%nat ->
    TypeOf (nth j parameters (Nil U)) = Some actual ->
    AssignableTo actual (expectedAt (funcType function) j) = false ->
    (forall k a,
       (k < j)%nat ->
       TypeOf (nth k parameters (Nil U)) = Some a ->
       AssignableTo a (expectedAt (funcType function) k) = true) ->
    Validation function parameters kind cl
      (Some (types.IncorrectVariadicParameterTypeToTableFunction
               (reflect.Elem
                  (reflect.In_ (funcType function)
                               (limitOf (funcType function))))
               actual kind cl))
| Valid_ :
    accepts function parameters ->
    Validation function parameters kind cl None.

(** The entries, the functions and the other arguments among the arguments
    of [DescribeTable], each in the order given. *)
Definition entriesOf (args : list (TableArg U)) : list TableEntry :=
  flat_map (fun arg => match arg with ArgEntry entry => [entry] | _ => [] end)
           args.

Definition functionsOf (args : list (TableArg U)) : list Func :=
  flat_map (fun arg => match arg with ArgFunction f => [f] | _ => [] end)
           args.

Definition decorationsOf (args : list (TableArg U)) : list Decoration :=
  flat_map (fun arg => match arg with ArgDecoration _ d => [d] | _ => [] end)
           args.

Definition notNil (arg : TableArg U) : Prop := arg <> ArgNil U.

Definition optionToList (A : Type) (o : option A) : list A :=
  match o with Some a => [a] | None => [] end.

(** The It node the container body generates for an entry: an It at the
    code location of the entry, with the decorations of the entry, whose
    body panics with the error found when the node was generated, if any,
    and calls the table body with the parameters of the entry
    otherwise. *)
Definition generatedFrom (itBody : option Func) (entry : TableEntry)
  (node : Node U) : Prop :=
  exists text err,
    node = NewNode types.NodeTypeIt text (codeLocation entry)
                   (decorations entry)
                   (entryBody panicLocation err itBody (parameters entry)).

(** The node types [PushNode] hands over to [pushSuiteNode]. *)
Definition isSuiteNode node : bool :=
  types.NodeType_Is (NodeType node)
    [types.NodeTypeBeforeSuite; types.NodeTypeAfterSuite;
     types.NodeTypeSynchronizedBeforeSuite;
     types.NodeTypeSynchronizedAfterSuite; types.NodeTypeReportAfterSuite].

Definition isContainer node : bool :=
  types.NodeType_eqb (NodeType node) types.NodeTypeContainer.

(** Neither a suite-level node nor a container. *)
Definition isPlain node : bool := negb (isSuiteNode node || isContainer node).

(** [c'] is [c] with the trees [more] appended to the children of its
    tree, and nothing else changed. *)
Definition grownBy (more : list (TreeNode U)) (c c' : Construction U)
  : Prop :=
  built c' = built c
  /\ topLevelBodies c' = topLevelBodies c
  /\ tree c'
     = MakeTreeNode (TreeNode_Node (tree c)) (Children (tree c) ++ more).

(** Every node recorded at top level is a container and has its body
    recorded. *)
Definition topLevelRecorded (c : Construction U) : Prop :=
  List.length (topLevelBodies c)
  = List.length (topLevelContainers (built c))
  /\ Forall (fun node => NodeType node = types.NodeTypeContainer)
            (topLevelContainers (built c)).

(** The pushes of the nodes [nodes], each with the body it has as a
    container, one after the other. *)
Definition declareAll (nodes : list (Node U * ContainerBody U))
  (c : Construction U) : Construction U :=
  fold_left (fun c x => snd (PushNode (fst x) (snd x) c)) nodes c.

Definition leaf node : TreeNode U := MakeTreeNode node [].

(** ** The suite engine *)

(** ** Eliminating the enumerations' equality tests *)

Lemma SpecState_eqb_eq (a b : types.SpecState) :
  types.SpecState_eqb a b = true <-> a = b.
Proof. destruct a, b; simpl; split; congruence. Qed.

Lemma SpecState_eqb_neq (a b : types.SpecState) :
  types.SpecState_eqb a b = false <-> a <> b.
Proof. destruct a, b; simpl; split; congruence. Qed.

Lemma NodeType_eqb_eq (a b : types.NodeType) :
  types.NodeType_eqb a b = true <-> a = b.
Proof. destruct a, b; simpl; split; congruence. Qed.

Lemma max_spec (a b : Z) : max a b = Z.max a b.
Proof. unfold max. destruct (Z.gtb_spec a b); lia. Qed.

(** ** Stable sorting by nesting level *)

Lemma insertBefore_perm before (x : Node U) l :
  Permutation (insertBefore before x l) (x :: l).
Proof.
  induction l as [|y l IH]; simpl; [reflexivity|].
  destruct (before y x); [|reflexivity].
  rewrite IH. apply perm_swap.
Qed.

Lemma sortStable_perm before (l : Nodes U) :
  Permutation (sortStable before l) l.
Proof.
  induction l as [|x l IH]; simpl; [constructor|].
  unfold sortStable in *. rewrite insertBefore_perm. now constructor.
Qed.

Lemma insertBefore_descending (x : Node U) l :
  StronglySorted descending l ->
  StronglySorted descending
    (insertBefore (fun a b => NestingLevel a >? NestingLevel b) x l).
Proof.
  induction 1 as [|y l Hs IH Hall]; simpl.
  - repeat constructor.
  - destruct (Z.gtb_spec (NestingLevel y) (NestingLevel x)) as [Hgt|Hle].
    + constructor; [exact IH|].
      rewrite (insertBefore_perm _ x l). constructor; [|exact Hall].
      unfold descending. lia.
    + constructor; [now constructor|].
      constructor; [unfold descending; lia|].
      eapply Forall_impl; [|exact Hall].
      unfold descending. intros; lia.
Qed.

Lemma SortedByDescendingNestingLevel_sorted (l : Nodes U) :
  StronglySorted descending (SortedByDescendingNestingLevel l).
Proof.
  unfold SortedByDescendingNestingLevel, sortStable.
  induction l as [|x l IH]; simpl; [constructor|].
  now apply insertBefore_descending.
Qed.

Lemma StronglySorted_filter (A : Type) (R : A -> A -> Prop) (p : A -> bool)
  (l : list A) :
  StronglySorted R l -> StronglySorted R (filter p l).
Proof.
  induction 1 as [|x l Hs IH Hall]; simpl; [constructor|].
  destruct (p x); [|exact IH].
  constructor; [exact IH|].
  rewrite Forall_forall in *. intros y Hy.
  apply filter_In in Hy. now apply Hall.
Qed.

Lemma filter_perm (A : Type) (p : A -> bool) (l l' : list A) :
  Permutation l l' -> Permutation (filter p l) (filter p l').
Proof.
  induction 1; simpl.
  - constructor.
  - destruct (p x); [now constructor|assumption].
  - destruct (p x), (p y); try reflexivity. apply perm_swap.
  - etransitivity; eassumption.
Qed.

Lemma filter_twice (A : Type) (p q : A -> bool) (l : list A) :
  filter p (filter q l) = filter (fun x => q x && p x) l.
Proof.
  induction l as [|x l IH]; simpl; [reflexivity|].
  destruct (q x); simpl; [destruct (p x)|]; now rewrite IH.
Qed.

(** ** What one node execution changes *)

Lemma retryNotices_app l l' :
  retryNotices (l ++ l') = retryNotices l ++ retryNotices l'.
Proof. unfold retryNotices. now rewrite flat_map_app. Qed.

Lemma retryNotices_BodyOutput (l : list string) :
  retryNotices (map types.BodyOutput l) = [].
Proof. induction l; simpl; auto. Qed.

Ltac run_node_cases :=
  unfold runNode;
  repeat match goal with
  | |- context [if ?b then _ else _] => destruct b eqn:?
  | |- context [let '(_, _) := ?p in _] => destruct p eqn:?
  end; simpl.

Lemma runNode_invoked node call ch text suiteConfig w :
  invoked (snd (runNode node call ch text suiteConfig w))
  = invoked w ++ [(node, call)].
Proof. run_node_cases; reflexivity. Qed.

Lemma runNode_now node call ch text suiteConfig w :
  now (snd (runNode node call ch text suiteConfig w)) = S (now w).
Proof. run_node_cases; reflexivity. Qed.

Lemma runNode_env node call ch text suiteConfig w :
  env (snd (runNode node call ch text suiteConfig w)) = env w.
Proof. run_node_cases; reflexivity. Qed.

Lemma runNode_server node call ch text suiteConfig w :
  server (snd (runNode node call ch text suiteConfig w)) = server w.
Proof. run_node_cases; reflexivity. Qed.

Lemma runNode_retryNotices node call ch text suiteConfig w :
  retryNotices (writer (snd (runNode node call ch text suiteConfig w)))
  = retryNotices (writer w).
Proof.
  run_node_cases;
    rewrite ?retryNotices_app, ?retryNotices_BodyOutput; simpl;
    now rewrite ?app_nil_r.
Qed.

(** ** Folding an outcome into the current spec report *)

Lemma foldedInto_intro (prior : Suite U) state failure :
  foldedInto prior state failure
    (if types.SpecState_eqb (State_ prior) types.SpecStatePassed
        || types.SpecState_eqb state types.SpecStateAborted
     then withOutcome state failure prior
     else prior).
Proof.
  unfold foldedInto.
  destruct (types.SpecState_eqb (State_ prior) types.SpecStatePassed) eqn:Hp;
    destruct (types.SpecState_eqb state types.SpecStateAborted) eqn:Ha;
    simpl;
    rewrite ?SpecState_eqb_eq, ?SpecState_eqb_neq in *;
    split; intros; try tauto; try (split; reflexivity).
Qed.

Lemma runCleanUpNode_folds spec suiteConfig node suite w :
  let r :=
    fst (runNode node CallBody (Some (Channel (fst (Status w))))
                 (BestTextFor (Nodes_ spec) node) suiteConfig
                 (snd (Status w))) in
  foldedInto suite (outcome r) (failure r)
             (fst (runCleanUpNode spec suiteConfig node suite w)).
Proof.
  unfold runCleanUpNode. simpl.
  destruct (runNode _ _ _ _ _ _) as [r w2]. simpl.
  apply foldedInto_intro.
Qed.

Lemma runReportAfterEachNode_folds spec suiteConfig node suite w :
  let r :=
    fst (runNode node (CallReportAfterEachBody (currentSpecReport suite))
                 None (BestTextFor (Nodes_ spec) node) suiteConfig
                 (Writer_Truncate w)) in
  foldedInto suite (outcome r) (failure r)
             (fst (runReportAfterEachNode spec suiteConfig node suite w)).
Proof.
  unfold runReportAfterEachNode.
  destruct (runNode _ _ _ _ _ _) as [r w2]. simpl.
  pose proof (foldedInto_intro suite (outcome r) (failure r)) as H.
  destruct (types.SpecState_eqb (State_ suite) types.SpecStatePassed
            || types.SpecState_eqb (outcome r) types.SpecStateAborted);
    exact H.
Qed.

(** An outcome that is not Passed is only ever replaced by Aborted, so an
    abort recorded once stays to the end of the loop. *)
Lemma runCleanUpNodes_state spec suiteConfig nodes suite w :
  State_ suite <> types.SpecStatePassed ->
  State_ (fst (runCleanUpNodes spec suiteConfig nodes suite w)) = State_ suite
  \/ State_ (fst (runCleanUpNodes spec suiteConfig nodes suite w))
     = types.SpecStateAborted.
Proof.
  revert suite w. induction nodes as [|n nodes IH]; intros suite w Hne; simpl.
  - now left.
  - pose proof (runCleanUpNode_folds spec suiteConfig n suite w) as Hfold.
    cbv zeta in Hfold.
    set (r := fst (runNode n CallBody (Some (Channel (fst (Status w))))
                           (BestTextFor (Nodes_ spec) n) suiteConfig
                           (snd (Status w)))) in *.
    destruct (runCleanUpNode spec suiteConfig n suite w) as [s1 w1] eqn:E.
    cbn [fst] in Hfold. destruct Hfold as [Hrep Hkeep].
    destruct (types.SpecState_eqb (outcome r) types.SpecStateAborted) eqn:Ha.
    + apply SpecState_eqb_eq in Ha.
      destruct (Hrep (or_intror Ha)) as [Hs _].
      destruct (IH s1 w1) as [H|H]; [rewrite Hs, Ha; discriminate| |];
        right; congruence.
    + apply SpecState_eqb_neq in Ha.
      destruct (Hkeep (conj Hne Ha)) as [Hs _].
      destruct (IH s1 w1) as [H|H]; [congruence| |].
      * left. congruence.
      * right. exact H.
Qed.

Lemma runReportAfterEachNodes_state spec suiteConfig nodes suite w :
  State_ suite <> types.SpecStatePassed ->
  State_ (fst (runReportAfterEachNodes spec suiteConfig nodes suite w))
  = State_ suite
  \/ (State_ (fst (runReportAfterEachNodes spec suiteConfig nodes suite w))
      = types.SpecStateAborted /\ nodes <> []).
Proof.
  revert suite w. induction nodes as [|n nodes IH]; intros suite w Hne; simpl.
  - now left.
  - pose proof (runReportAfterEachNode_folds spec suiteConfig n suite w)
      as Hfold.
    cbv zeta in Hfold.
    destruct (runReportAfterEachNode spec suiteConfig n suite w)
      as [s1 w1] eqn:E.
    simpl in Hfold. destruct Hfold as [Hrep Hkeep].
    set (r := fst (runNode n (CallReportAfterEachBody
                                (currentSpecReport suite)) None
                           (BestTextFor (Nodes_ spec) n) suiteConfig
                           (Writer_Truncate w))) in *.
    destruct (types.SpecState_eqb (outcome r) types.SpecStateAborted) eqn:Ha.
    + apply SpecState_eqb_eq in Ha.
      destruct (Hrep (or_intror Ha)) as [Hs _].
      destruct (IH s1 w1) as [H|[H _]]; [rewrite Hs, Ha; discriminate| |];
        right; split; try discriminate; congruence.
    + apply SpecState_eqb_neq in Ha.
      destruct (Hkeep (conj Hne Ha)) as [Hs _].
      destruct (IH s1 w1) as [H|[H _]]; [congruence| |].
      * left. congruence.
      * right. split; [exact H|discriminate].
Qed.

(** C2.  Folding a cleanup node's or a ReportAfterEach hook's outcome
    into the current spec report: the new state and failure replace the
    recorded ones when the recorded state is Passed or the new outcome is
    Aborted, and in every other case the recorded state and failure are
    kept.  Hence a recorded Aborted stays through the rest of either
    loop. *)
Theorem outcome_folding spec suiteConfig node suite w :
  (let r :=
     fst (runNode node CallBody (Some (Channel (fst (Status w))))
                  (BestTextFor (Nodes_ spec) node) suiteConfig
                  (snd (Status w))) in
   foldedInto suite (outcome r) (failure r)
              (fst (runCleanUpNode spec suiteConfig node suite w)))
  /\ (let r :=
        fst (runNode node (CallReportAfterEachBody (currentSpecReport suite))
                     None (BestTextFor (Nodes_ spec) node) suiteConfig
                     (Writer_Truncate w)) in
      foldedInto suite (outcome r) (failure r)
                 (fst (runReportAfterEachNode spec suiteConfig node suite w)))
  /\ (forall nodes,
        State_ suite = types.SpecStateAborted ->
        State_ (fst (runCleanUpNodes spec suiteConfig nodes suite w))
        = types.SpecStateAborted
        /\ State_ (fst (runReportAfterEachNodes spec suiteConfig nodes suite
                                                w))
           = types.SpecStateAborted).
Proof.
  split; [apply runCleanUpNode_folds|].
  split; [apply runReportAfterEachNode_folds|].
  intros nodes Hab.
  assert (Hne : State_ suite <> types.SpecStatePassed)
    by (rewrite Hab; discriminate).
  split.
  - destruct (runCleanUpNodes_state spec suiteConfig nodes suite w Hne)
      as [H|H]; congruence.
  - destruct (runReportAfterEachNodes_state spec suiteConfig nodes suite w Hne)
      as [H|[H _]]; congruence.
Qed.

(** ** The nodes an attempt runs *)

Lemma deepestOf_ge executed start : start <= deepestOf executed start.
Proof.
  revert start. induction executed as [|n l IH]; simpl; intros; [lia|].
  specialize (IH (Z.max start (NestingLevel n))). lia.
Qed.

Lemma deepestOf_bound executed start :
  Forall (fun n => NestingLevel n <= deepestOf executed start) executed.
Proof.
  revert start. induction executed as [|n l IH]; simpl; intros; constructor.
  - pose proof (deepestOf_ge l (Z.max start (NestingLevel n))). lia.
  - apply IH.
Qed.

Lemma deepestOf_attained executed start :
  deepestOf executed start = start
  \/ exists n, In n executed /\ NestingLevel n = deepestOf executed start.
Proof.
  revert start. induction executed as [|n l IH]; simpl; intros; [now left|].
  destruct (IH (Z.max start (NestingLevel n))) as [H|[m [Hin Hm]]].
  - rewrite H. destruct (Z.max_spec start (NestingLevel n)) as [[_ E]|[_ E]];
      rewrite E; [right; exists n; auto | now left].
  - right. exists m. auto.
Qed.

Lemma runSetupNodes_invoked spec suiteConfig ch nodes d suite w :
  exists executed rest,
    nodes = executed ++ rest
    /\ (nodes <> [] -> executed <> [])
    /\ fst (fst (runSetupNodes spec suiteConfig ch nodes d suite w))
       = deepestOf executed d
    /\ invoked (snd (runSetupNodes spec suiteConfig ch nodes d suite w))
       = invoked w ++ map bodyOf executed.
Proof.
  revert d suite w. induction nodes as [|n nodes IH]; intros d suite w.
  - exists [], []. simpl. rewrite app_nil_r. auto.
  - simpl.
    pose proof (runNode_invoked n CallBody (Some ch)
                  (BestTextFor (Nodes_ spec) n) suiteConfig w) as Hinv.
    destruct (runNode n CallBody (Some ch) _ suiteConfig w) as [r w1].
    simpl in Hinv.
    destruct (negb _).
    + exists [n], nodes. simpl. rewrite max_spec.
      repeat split; auto. discriminate.
    + destruct (IH (max d (NestingLevel n))
                   (withOutcome (outcome r) (failure r) suite) w1)
        as (executed & rest & Hsplit & _ & Hd & Hi).
      exists (n :: executed), rest. simpl.
      rewrite Hd, Hi, Hinv, Hsplit, max_spec, <- app_assoc.
      repeat split; auto. discriminate.
Qed.

Lemma runCleanUpNodes_invoked spec suiteConfig nodes suite w :
  invoked (snd (runCleanUpNodes spec suiteConfig nodes suite w))
  = invoked w ++ map bodyOf nodes.
Proof.
  revert suite w. induction nodes as [|n nodes IH]; intros suite w; simpl.
  - now rewrite app_nil_r.
  - unfold runCleanUpNode. simpl.
    pose proof (runNode_invoked n CallBody (Some (S (now w)))
                  (BestTextFor (Nodes_ spec) n) suiteConfig (tick w)) as Hinv.
    destruct (runNode n CallBody _ _ suiteConfig (tick w)) as [r w1].
    simpl in Hinv. rewrite IH, Hinv, <- app_assoc. reflexivity.
Qed.

Lemma WithType_single (t : types.NodeType) (l : Nodes U) :
  WithType [t] l = filter (fun n => types.NodeType_eqb (NodeType n) t) l.
Proof.
  unfold WithType. apply filter_ext. intro n.
  unfold types.NodeType_Is. simpl. apply orb_false_r.
Qed.

Lemma cleanupOfType_intro t d spec :
  cleanupOfType t d spec
    (WithinNestingLevel d
       (SortedByDescendingNestingLevel (WithType [t] (Nodes_ spec)))).
Proof.
  split.
  - unfold WithinNestingLevel.
    rewrite <- filter_twice, <- WithType_single.
    apply filter_perm, sortStable_perm.
  - apply StronglySorted_filter, SortedByDescendingNestingLevel_sorted.
Qed.

(** C1.  Cleanup scoping.  In every attempt of a spec whose nodes have
    non-negative nesting levels and which has its It node, the bodies the
    attempt starts are those of a non-empty prefix [executed] of the setup
    nodes, then of the JustAfterEach nodes and then of the AfterEach nodes
    whose nesting level is at most [d], each group deepest first, where [d]
    is the nesting level of the deepest node of [executed]: exactly these
    cleanup nodes run, and none deeper than [d]. *)
Theorem cleanup_scoping spec suiteConfig attempt suite w :
  Forall (fun n => 0 <= NestingLevel n) (Nodes_ spec) ->
  WithType [types.NodeTypeIt] (Nodes_ spec) <> [] ->
  exists (executed justAfterEach afterEach : Nodes U) (d : Z),
    (exists rest, setupNodes spec = executed ++ rest)
    /\ (exists n, In n executed /\ NestingLevel n = d)
    /\ Forall (fun n => NestingLevel n <= d) executed
    /\ cleanupOfType types.NodeTypeJustAfterEach d spec justAfterEach
    /\ cleanupOfType types.NodeTypeAfterEach d spec afterEach
    /\ invoked (snd (runAttempt spec suiteConfig attempt suite w))
       = invoked w
         ++ map bodyOf executed
         ++ map bodyOf justAfterEach ++ map bodyOf afterEach.
Proof.
  intros Hlevels HIt.
  unfold runAttempt. simpl.
  set (suite0 := withCurrentSpecReport _ suite).
  set (w0 := tick _).
  destruct (runSetupNodes_invoked spec suiteConfig (S (now
              (if attempt >? 0
               then Writer_Write [types.RetryNotice attempt] w else w)))
              (setupNodes spec) (-1) suite0 w0)
    as (executed & rest & Hsplit & Hne & Hd & Hinv).
  destruct (runSetupNodes spec suiteConfig _ (setupNodes spec) (-1) suite0 w0)
    as [[d suite1] w1].
  simpl in Hd, Hinv. subst d.
  pose proof (runCleanUpNodes_invoked spec suiteConfig
                (cleanUpNodesFor spec (deepestOf executed (-1))) suite1 w1)
    as Hclean.
  destruct (runCleanUpNodes spec suiteConfig _ suite1 w1) as [suite2 w2].
  simpl in Hclean |- *.
  assert (Hex : executed <> []).
  { apply Hne. unfold setupNodes, CopyAppend. intro E.
    apply app_eq_nil in E. tauto. }
  assert (Hin : Forall (fun n => 0 <= NestingLevel n) executed).
  { rewrite Forall_forall in *. intros n Hn. apply Hlevels.
    assert (In n (setupNodes spec)) as Hs
      by (rewrite Hsplit; apply in_or_app; auto).
    unfold setupNodes, CopyAppend, SortedByAscendingNestingLevel in Hs.
    repeat (apply in_app_or in Hs; destruct Hs as [Hs|Hs]);
      try (eapply Permutation_in in Hs; [|apply sortStable_perm]);
      unfold WithType in Hs; apply filter_In in Hs; tauto. }
  exists executed,
    (WithinNestingLevel (deepestOf executed (-1))
       (SortedByDescendingNestingLevel
          (WithType [types.NodeTypeJustAfterEach] (Nodes_ spec)))),
    (WithinNestingLevel (deepestOf executed (-1))
       (SortedByDescendingNestingLevel
          (WithType [types.NodeTypeAfterEach] (Nodes_ spec)))),
    (deepestOf executed (-1)).
  repeat split.
  - now exists rest.
  - destruct (deepestOf_attained executed (-1)) as [E|H]; [|exact H].
    destruct executed as [|n l]; [congruence|].
    exists n. split; [now left|].
    pose proof (deepestOf_bound (n :: l) (-1)) as Hb.
    inversion Hb; subst. inversion Hin; subst. lia.
  - apply deepestOf_bound.
  - apply cleanupOfType_intro.
  - apply cleanupOfType_intro.
  - apply cleanupOfType_intro.
  - apply cleanupOfType_intro.
  - rewrite Hclean, Hinv.
    unfold cleanUpNodesFor, CopyAppend, WithinNestingLevel.
    rewrite filter_app, map_app, <- !app_assoc.
    destruct (attempt >? 0); reflexivity.
Qed.

(** ** Retrying a spec *)

Lemma runAttempts_first_pass spec suiteConfig (k : nat) :
  forall (remaining : nat) (attempt : Z) suite w,
    (k < remaining)%nat ->
    (forall i, (i < k)%nat ->
       failedUninterrupted (afterAttemptFrom spec suiteConfig attempt i suite w)) ->
    State_ (fst (afterAttemptFrom spec suiteConfig attempt k suite w))
    = types.SpecStatePassed ->
    runAttempts spec suiteConfig remaining attempt suite w
    = afterAttemptFrom spec suiteConfig attempt k suite w.
Proof.
  induction k as [|k IH]; intros remaining attempt suite w Hlt Hfail Hpass;
    (destruct remaining as [|remaining]; [lia|]); simpl in *.
  - destruct (runAttempt spec suiteConfig attempt suite w) as [s1 w1].
    simpl in Hpass. apply SpecState_eqb_eq in Hpass. now rewrite Hpass.
  - pose proof (Hfail 0%nat ltac:(lia)) as [Hs Hi]. simpl in Hs, Hi.
    destruct (runAttempt spec suiteConfig attempt suite w) as [s1 w1] eqn:E.
    simpl in Hs, Hi. apply SpecState_eqb_neq in Hs. rewrite Hs, Hi.
    apply IH; [lia| |exact Hpass].
    intros i Hi'. specialize (Hfail (S i) ltac:(lia)). simpl in Hfail.
    now rewrite E in Hfail.
Qed.

Lemma runSetupNodes_frame spec suiteConfig ch nodes d suite w :
  let res := runSetupNodes spec suiteConfig ch nodes d suite w in
  types.SpecReport.NumAttempts (currentSpecReport (snd (fst res)))
  = types.SpecReport.NumAttempts (currentSpecReport suite)
  /\ retryNotices (writer (snd res)) = retryNotices (writer w).
Proof.
  revert d suite w. induction nodes as [|n nodes IH]; intros d suite w; simpl;
    [auto|].
  pose proof (runNode_retryNotices n CallBody (Some ch)
                (BestTextFor (Nodes_ spec) n) suiteConfig w) as Hn.
  destruct (runNode n CallBody (Some ch) _ suiteConfig w) as [r w1].
  simpl in Hn. destruct (negb _); simpl; [auto|].
  destruct (IH (max d (NestingLevel n))
               (withOutcome (outcome r) (failure r) suite) w1) as [H1 H2].
  simpl in H1, H2. rewrite H1, H2. auto.
Qed.

Lemma runCleanUpNodes_frame spec suiteConfig nodes suite w :
  let res := runCleanUpNodes spec suiteConfig nodes suite w in
  types.SpecReport.NumAttempts (currentSpecReport (fst res))
  = types.SpecReport.NumAttempts (currentSpecReport suite)
  /\ retryNotices (writer (snd res)) = retryNotices (writer w).
Proof.
  revert suite w. induction nodes as [|n nodes IH]; intros suite w; simpl;
    [auto|].
  unfold runCleanUpNode. simpl.
  pose proof (runNode_retryNotices n CallBody (Some (S (now w)))
                (BestTextFor (Nodes_ spec) n) suiteConfig (tick w)) as Hn.
  destruct (runNode n CallBody _ _ suiteConfig (tick w)) as [r w1].
  simpl in Hn.
  match goal with
  | |- context [runCleanUpNodes _ _ _ ?s _] =>
      destruct (IH s w1) as [H1 H2]
  end.
  simpl in H1, H2. rewrite H1, H2. split; [|exact Hn].
  destruct (_ || _); reflexivity.
Qed.

Lemma runAttempt_report spec suiteConfig attempt suite w :
  let res := runAttempt spec suiteConfig attempt suite w in
  types.SpecReport.NumAttempts (currentSpecReport (fst res)) = attempt + 1
  /\ types.SpecReport.CapturedGinkgoWriterOutput (currentSpecReport (fst res))
     = writer (snd res)
  /\ retryNotices (writer (snd res))
     = retryNotices (writer w) ++ (if attempt >? 0 then [attempt] else []).
Proof.
  unfold runAttempt. simpl.
  set (suite0 := withCurrentSpecReport _ suite).
  set (w0 := tick _).
  pose proof (runSetupNodes_frame spec suiteConfig
                (S (now (if attempt >? 0
                         then Writer_Write [types.RetryNotice attempt] w
                         else w)))
                (setupNodes spec) (-1) suite0 w0) as [H1 H2].
  destruct (runSetupNodes spec suiteConfig _ (setupNodes spec) (-1) suite0 w0)
    as [[d suite1] w1].
  pose proof (runCleanUpNodes_frame spec suiteConfig
                (cleanUpNodesFor spec d) suite1 w1) as [H3 H4].
  destruct (runCleanUpNodes spec suiteConfig _ suite1 w1) as [suite2 w2].
  simpl in *. rewrite H3, H1, H4, H2. repeat split.
  subst w0. destruct (attempt >? 0); simpl.
  - now rewrite retryNotices_app.
  - now rewrite app_nil_r.
Qed.

Lemma afterAttemptFrom_report spec suiteConfig (k : nat) :
  forall attempt suite w,
    0 <= attempt ->
    let res := afterAttemptFrom spec suiteConfig attempt k suite w in
    types.SpecReport.NumAttempts (currentSpecReport (fst res))
    = attempt + Z.of_nat k + 1
    /\ types.SpecReport.CapturedGinkgoWriterOutput
         (currentSpecReport (fst res))
       = writer (snd res)
    /\ retryNotices (writer (snd res))
       = retryNotices (writer w)
         ++ (if attempt >? 0 then [attempt] else [])
         ++ map (fun j => attempt + 1 + Z.of_nat j) (seq 0 k).
Proof.
  induction k as [|k IH]; intros attempt suite w Hge; simpl.
  - destruct (runAttempt_report spec suiteConfig attempt suite w)
      as (H1 & H2 & H3).
    rewrite H1, H2, H3, app_nil_r. repeat split. lia.
  - destruct (runAttempt_report spec suiteConfig attempt suite w)
      as (_ & _ & H3).
    destruct (runAttempt spec suiteConfig attempt suite w) as [s1 w1].
    simpl in H3.
    destruct (IH (attempt + 1) s1 (tick w1) ltac:(lia)) as (I1 & I2 & I3).
    simpl in I1, I2, I3. rewrite I1, I2, I3. simpl. rewrite H3.
    repeat split; [lia|].
    destruct (Z.gtb_spec (attempt + 1) 0); [|lia].
    rewrite <- !app_assoc. do 2 f_equal.
    change (seq 0 (S k)) with (0%nat :: seq 1 k).
    cbn [map app]. f_equal; [lia|].
    rewrite <- seq_shift, map_map. apply map_ext. intros; lia.
Qed.

(** C3.  Retries.  [maxAttempts] is the suite-wide flake-attempt setting
    when it is positive, else the spec's own decoration, at least 1.  When
    the run is not a dry run and the spec passes on attempt [k], with
    [k < maxAttempts], after failing every earlier attempt without an
    interrupt being observed, [runSpec] stops at the end of attempt [k]:
    the report is Passed, [NumAttempts] is [k + 1], and the captured writer
    output holds exactly the [k] retry notices, numbered 1 to [k]. *)
Theorem retry_until_first_pass spec suiteConfig suite w (k : nat) :
  let attemptEnd i :=
    afterAttemptFrom spec suiteConfig 0 i suite (Writer_Truncate w) in
  types.SuiteConfig.DryRun suiteConfig = false ->
  Z.of_nat k < maxAttemptsFor spec suiteConfig ->
  (forall i, (i < k)%nat -> failedUninterrupted (attemptEnd i)) ->
  State_ (fst (attemptEnd k)) = types.SpecStatePassed ->
  maxAttemptsFor spec suiteConfig
  = (if types.SuiteConfig.FlakeAttempts suiteConfig >? 0
     then types.SuiteConfig.FlakeAttempts suiteConfig
     else Z.max 1 (Spec_FlakeAttempts spec))
  /\ runSpec spec suiteConfig suite w = attemptEnd k
  /\ State_ (fst (runSpec spec suiteConfig suite w)) = types.SpecStatePassed
  /\ types.SpecReport.NumAttempts
       (currentSpecReport (fst (runSpec spec suiteConfig suite w)))
     = Z.of_nat k + 1
  /\ retryNotices
       (types.SpecReport.CapturedGinkgoWriterOutput
          (currentSpecReport (fst (runSpec spec suiteConfig suite w))))
     = map Z.of_nat (seq 1 k).
Proof.
  intros attemptEnd Hdry Hk Hfail Hpass.
  assert (Hrun : runSpec spec suiteConfig suite w = attemptEnd k).
  { unfold runSpec. rewrite Hdry.
    apply runAttempts_first_pass; [lia|exact Hfail|exact Hpass]. }
  split; [unfold maxAttemptsFor; now rewrite max_spec|].
  split; [exact Hrun|]. rewrite Hrun. split; [exact Hpass|].
  destruct (afterAttemptFrom_report spec suiteConfig k 0 suite
              (Writer_Truncate w) ltac:(lia)) as (H1 & H2 & H3).
  subst attemptEnd. cbv beta in *. rewrite H1, H2, H3. split; [lia|].
  change (retryNotices (writer (Writer_Truncate w))) with (@nil Z).
  change (0 >? 0) with false. cbn [app].
  rewrite <- seq_shift, map_map. apply map_ext. intros; lia.
Qed.

(** ** Duplicate suite-level nodes *)

(** C8, as amended.  When a node of the BeforeSuite family (or of the
    AfterSuite family) is already registered, the push of a second node of
    that family is rejected and the suite, its suite-node list included, is
    left as it was.  In the top-level build phase the error names the type
    and code location of the node registered first; once the tree is being
    built, or during the run, the error is that of the phase. *)
Theorem second_suite_node_rejected node suite first others :
  (types.NodeType_Is (NodeType node) beforeSuiteFamily = true
   /\ WithType beforeSuiteFamily (suiteNodes suite) = first :: others
   -> pushSuiteNode node suite
      = (Some (rejection types.MultipleBeforeSuiteNodes node first
                         (phase suite)), suite))
  /\ (types.NodeType_Is (NodeType node) afterSuiteFamily = true
      /\ WithType afterSuiteFamily (suiteNodes suite) = first :: others
      -> pushSuiteNode node suite
         = (Some (rejection types.MultipleAfterSuiteNodes node first
                            (phase suite)), suite)).
Proof.
  unfold pushSuiteNode, rejection, beforeSuiteFamily, afterSuiteFamily.
  split; intros [Hfam Hfirst]; destruct (phase suite); try reflexivity;
    destruct (NodeType node); try discriminate Hfam; now rewrite Hfirst.
Qed.

(** ** SynchronizedBeforeSuite across workers *)

Lemma taskOutcome_passed (r : BodyRun U) :
  fst (taskOutcome r) = types.SpecStatePassed ->
  exit r = Returned /\ recorded r = None.
Proof.
  unfold taskOutcome.
  destruct (exit r), (recorded r) as [[]|]; simpl; intro H;
    try discriminate H; auto.
Qed.

Lemma runNode_passed_data node ch text suiteConfig w :
  outcome (fst (runNode node CallSynchronizedBeforeSuiteNode1Body ch text
                        suiteConfig w))
  = types.SpecStatePassed ->
  data (fst (runNode node CallSynchronizedBeforeSuiteNode1Body ch text
                     suiteConfig w))
  = returned (SynchronizedBeforeSuiteNode1Body node (user w)).
Proof.
  unfold runNode.
  set (w0 := if types.SuiteConfig.EmitSpecProgress suiteConfig then _ else w).
  assert (Hu : user w0 = user w)
    by (subst w0; destruct (types.SuiteConfig.EmitSpecProgress suiteConfig);
        reflexivity).
  simpl. rewrite Hu.
  destruct (channelFires _ ch _); simpl; [discriminate|].
  pose proof (taskOutcome_passed
                (SynchronizedBeforeSuiteNode1Body node (user w))) as Hp.
  destruct (taskOutcome _) as [o f]. simpl in Hp.
  destruct (types.SpecState_eqb o types.SpecStatePassed) eqn:E; simpl;
    intro H.
  - apply SpecState_eqb_eq in E. destruct (Hp E) as [He _].
    unfold capturedData. now rewrite He.
  - apply SpecState_eqb_neq in E. contradiction.
Qed.

Lemma SpecState_Is_Passed (s : types.SpecState) :
  types.SpecState_Is s [types.SpecStatePassed]
  = types.SpecState_eqb s types.SpecStatePassed.
Proof. unfold types.SpecState_Is. simpl. apply orb_false_r. Qed.

Lemma runSuiteNode_synchronizedBeforeSuite_world node ch suiteConfig suite w :
  NodeType node = types.NodeTypeSynchronizedBeforeSuite ->
  types.SuiteConfig.DryRun suiteConfig = false ->
  snd (runSuiteNode node ch suiteConfig suite w)
  = snd (runSynchronizedBeforeSuite node ch suiteConfig suite
           (Writer_Truncate w)).
Proof.
  intros Htype Hdry. unfold runSuiteNode. rewrite Hdry, Htype.
  destruct (runSynchronizedBeforeSuite node ch suiteConfig suite
              (Writer_Truncate w)) as [[err suite1] w1].
  reflexivity.
Qed.

Lemma primary_runs node ch suiteConfig suite w :
  types.SuiteConfig.ParallelNode suiteConfig = 1 ->
  Server.beforeSuiteState (server w) = BeforeSuitePending ->
  let produced := returned (SynchronizedBeforeSuiteNode1Body node (user w)) in
  let primary := runSynchronizedBeforeSuite node ch suiteConfig suite w in
  let ok :=
    types.SpecState_eqb
      (outcome (fst (runNode node CallSynchronizedBeforeSuiteNode1Body
                             (Some ch) EmptyString suiteConfig w)))
      types.SpecStatePassed
    && (negb (types.SuiteConfig.ParallelTotal suiteConfig >? 1)
        || isNil (commErrorNow
                    (snd (runNode node CallSynchronizedBeforeSuiteNode1Body
                                  (Some ch) EmptyString suiteConfig w)))) in
  invoked (snd primary)
  = invoked w
    ++ (node, CallSynchronizedBeforeSuiteNode1Body)
    :: (if ok
        then [(node, CallSynchronizedBeforeSuiteAllNodesBody produced)]
        else [])
  /\ match Server.beforeSuiteState (server (snd primary)) with
     | BeforeSuiteSucceeded d =>
         d = produced
         /\ ok && (types.SuiteConfig.ParallelTotal suiteConfig >? 1) = true
     | _ => ok && (types.SuiteConfig.ParallelTotal suiteConfig >? 1) = false
     end.
Proof.
  intros Hnode Hpending produced primary ok.
  subst primary ok. unfold runSynchronizedBeforeSuite.
  rewrite Hnode. change (1 =? 1) with true. cbv iota.
  pose proof (runNode_passed_data node (Some ch) EmptyString suiteConfig w)
    as Hdata.
  pose proof (runNode_invoked node CallSynchronizedBeforeSuiteNode1Body
                (Some ch) EmptyString suiteConfig w) as Hinv.
  pose proof (runNode_server node CallSynchronizedBeforeSuiteNode1Body
                (Some ch) EmptyString suiteConfig w) as Hsrv.
  destruct (runNode node CallSynchronizedBeforeSuiteNode1Body (Some ch)
                    EmptyString suiteConfig w) as [r w1].
  cbn [fst snd] in *.
  change (State_ (withOutcome (outcome r) (failure r) suite))
    with (outcome r).
  rewrite SpecState_Is_Passed.
  unfold Client_PostSynchronizedBeforeSuiteSucceeded,
    Client_PostSynchronizedBeforeSuiteFailed.
  destruct (types.SuiteConfig.ParallelTotal suiteConfig >? 1);
    destruct (types.SpecState_eqb (outcome r) types.SpecStatePassed) eqn:Hp;
    destruct (commErrorNow w1) eqn:Hc; cbn -[runNode];
    try (apply SpecState_eqb_eq in Hp; rewrite (Hdata Hp));
    repeat match goal with
    | |- context [runNode ?n ?c ?i ?t ?cfg ?x] =>
        let H := fresh "H" in let H' := fresh "H" in
        pose proof (runNode_invoked n c i t cfg x) as H;
        pose proof (runNode_server n c i t cfg x) as H';
        destruct (runNode n c i t cfg x); cbn [fst snd] in H, H' |- *;
        rewrite ?H, ?H'
    end; cbn;
    rewrite ?Hinv, ?Hsrv, ?Hpending, <- ?app_assoc; cbn; auto.
Qed.

Lemma other_runs node ch suiteConfig suite w :
  types.SuiteConfig.ParallelNode suiteConfig <> 1 ->
  invoked (snd (runSynchronizedBeforeSuite node ch suiteConfig suite w))
  = invoked w
    ++ match commErrorNow w, Server.beforeSuiteState (server w) with
       | None, BeforeSuiteSucceeded d =>
           [(node, CallSynchronizedBeforeSuiteAllNodesBody d)]
       | _, _ => []
       end.
Proof.
  intro Hnode. unfold runSynchronizedBeforeSuite.
  destruct (Z.eqb_spec (types.SuiteConfig.ParallelNode suiteConfig) 1);
    [contradiction|].
  unfold Client_BlockUntilSynchronizedBeforeSuiteData.
  destruct (commErrorNow w);
    [|destruct (Server.beforeSuiteState (server w))];
    cbn -[runNode]; rewrite ?app_nil_r; try reflexivity.
  pose proof (runNode_invoked node
                (CallSynchronizedBeforeSuiteAllNodesBody data0) (Some ch)
                EmptyString suiteConfig (tick w)) as H.
  destruct (runNode _ _ _ _ _ _). exact H.
Qed.

(** C5.  SynchronizedBeforeSuite.  On the primary worker (parallel node 1)
    with nothing posted to the server yet, [runSuiteNode] starts the
    produce body, and then the consume body, with the data the produce body
    returned, exactly when the produce step went well (the body passed and,
    in a parallel run, its broadcast reached the server).  Any other worker
    that then runs the node against the server the primary left never
    starts the produce body; it starts the consume body, with that same
    data, exactly when the primary's produce step went well in a parallel
    run and its own request to the server does not fail. *)
Theorem synchronized_before_suite node ch suiteConfig suite w :
  NodeType node = types.NodeTypeSynchronizedBeforeSuite ->
  types.SuiteConfig.DryRun suiteConfig = false ->
  types.SuiteConfig.ParallelNode suiteConfig = 1 ->
  Server.beforeSuiteState (server w) = BeforeSuitePending ->
  let produced := returned (SynchronizedBeforeSuiteNode1Body node (user w)) in
  let consume := (node, CallSynchronizedBeforeSuiteAllNodesBody produced) in
  let ok := produceSucceeded node ch suiteConfig w in
  let primary := runSuiteNode node ch suiteConfig suite w in
  invoked (snd primary)
  = invoked w
    ++ (node, CallSynchronizedBeforeSuiteNode1Body)
    :: (if ok then [consume] else [])
  /\ forall ch' suiteConfig' suite' w',
       types.SuiteConfig.DryRun suiteConfig' = false ->
       types.SuiteConfig.ParallelNode suiteConfig' <> 1 ->
       server w' = server (snd primary) ->
       invoked (snd (runSuiteNode node ch' suiteConfig' suite' w'))
       = invoked w'
         ++ (if ok && (types.SuiteConfig.ParallelTotal suiteConfig >? 1)
                && isNil (commErrorNow w')
             then [consume] else []).
Proof.
  intros Htype Hdry Hnode Hpending produced consume ok primary.
  subst primary.
  rewrite (runSuiteNode_synchronizedBeforeSuite_world _ _ _ _ _ Htype Hdry).
  destruct (primary_runs node ch suiteConfig suite (Writer_Truncate w)
              Hnode Hpending) as [Hinv Hsrv].
  split; [exact Hinv|].
  intros ch' suiteConfig' suite' w' Hdry' Hnode' Hserver.
  rewrite (runSuiteNode_synchronizedBeforeSuite_world _ _ _ _ _ Htype Hdry').
  rewrite (other_runs node ch' suiteConfig' suite' (Writer_Truncate w')
             Hnode').
  change (commErrorNow (Writer_Truncate w')) with (commErrorNow w').
  change (server (Writer_Truncate w')) with (server w').
  change (invoked (Writer_Truncate w')) with (invoked w').
  rewrite Hserver. clear Hserver Hinv.
  change (user (Writer_Truncate w)) with (user w) in Hsrv.
  fold produced in Hsrv. cbv zeta in Hsrv.
  change (types.SpecState_eqb _ _ && (negb _ || isNil _))
    with ok in Hsrv.
  destruct (Server.beforeSuiteState
              (server (snd (runSynchronizedBeforeSuite node ch suiteConfig
                              suite (Writer_Truncate w)))));
    destruct (commErrorNow w');
    cbn [isNil]; rewrite ?andb_true_r, ?andb_false_r; try reflexivity;
    try (now rewrite Hsrv).
  destruct Hsrv as [-> ->]. reflexivity.
Qed.

(** ** What a run invokes *)

Lemma advances_refl P w : advances P w w.
Proof. split; [reflexivity|]. exists []. now rewrite app_nil_r. Qed.

Lemma advances_trans P w1 w2 w3 :
  advances P w1 w2 -> advances P w2 w3 -> advances P w1 w3.
Proof.
  intros [C1 (l1 & E1 & F1)] [C2 (l2 & E2 & F2)]. split; [congruence|].
  exists (l1 ++ l2). rewrite E2, E1, app_assoc. split; [reflexivity|].
  now apply Forall_app.
Qed.

Lemma advances_weaken (P Q : Node U * BodyCall -> Prop) w w' :
  (forall x, P x -> Q x) -> advances P w w' -> advances Q w w'.
Proof.
  intros HPQ [C (l & E & F)]. split; [exact C|]. exists l. split; [exact E|].
  eapply Forall_impl; eauto.
Qed.

Lemma advances_same P w w' :
  Server.counter (server w') = Server.counter (server w) ->
  invoked w' = invoked w -> advances P w w'.
Proof.
  intros Hs Hi. split; [exact Hs|]. exists [].
  now rewrite app_nil_r.
Qed.

Lemma runNode_advances (P : Node U * BodyCall -> Prop) node call ch text
  suiteConfig w :
  P (node, call) ->
  advances P w (snd (runNode node call ch text suiteConfig w)).
Proof.
  intro HP. split.
  - now rewrite runNode_server.
  - exists [(node, call)]. rewrite runNode_invoked. auto.
Qed.

Lemma Client_Post_advances P p w : advances P w (Client_Post p w).
Proof.
  unfold Client_Post. destruct (commErrorNow w); now apply advances_same.
Qed.

Lemma processSpecReport_advances P suiteConfig specReport r w :
  advances P w
    (snd (processSpecReport SpecStateFailureStates suiteConfig specReport r w)).
Proof.
  unfold processSpecReport. simpl.
  destruct (_ >? _); [apply Client_Post_advances|apply advances_refl].
Qed.

Lemma runReportAfterEachNodes_advances spec suiteConfig nodes suite w :
  Forall (fun n => NodeType n = types.NodeTypeReportAfterEach) nodes ->
  advances isReportAfterEachCall w
    (snd (runReportAfterEachNodes spec suiteConfig nodes suite w)).
Proof.
  intro Hall. revert suite w.
  induction Hall as [|n nodes Hn Hall IH]; intros suite w; simpl.
  - apply advances_refl.
  - unfold runReportAfterEachNode.
    pose proof (runNode_advances isReportAfterEachCall n
                  (CallReportAfterEachBody (currentSpecReport suite)) None
                  (BestTextFor (Nodes_ spec) n) suiteConfig
                  (Writer_Truncate w)) as Hrun.
    destruct (runNode n _ None _ suiteConfig (Writer_Truncate w)) as [r w1].
    eapply advances_trans; [|apply IH].
    eapply advances_trans; [|apply Hrun; split; simpl; eauto].
    now apply advances_same.
Qed.

Lemma WithType_Forall (t : types.NodeType) (l : Nodes U) :
  Forall (fun n => NodeType n = t) (WithType [t] l).
Proof.
  rewrite WithType_single, Forall_forall. intros n Hn.
  apply filter_In in Hn. now apply NodeType_eqb_eq.
Qed.

Lemma reportAfterEach_advances spec suiteConfig suite w :
  advances isReportAfterEachCall w
    (snd (reportAfterEach spec suiteConfig suite w)).
Proof.
  unfold reportAfterEach. apply runReportAfterEachNodes_advances.
  rewrite Forall_forall. intros n Hn.
  eapply Permutation_in in Hn; [|apply sortStable_perm].
  pose proof (WithType_Forall types.NodeTypeReportAfterEach (Nodes_ spec))
    as Hall.
  rewrite Forall_forall in Hall. auto.
Qed.

Lemma tick_advances P w : advances P w (tick w).
Proof. now apply advances_same. Qed.

Lemma runSetupNodes_advances spec suiteConfig ch nodes d suite w :
  advances anyCall w (snd (runSetupNodes spec suiteConfig ch nodes d suite w)).
Proof.
  revert d suite w. induction nodes as [|n nodes IH]; intros d suite w; simpl.
  - apply advances_refl.
  - pose proof (runNode_advances anyCall n CallBody (Some ch)
                  (BestTextFor (Nodes_ spec) n) suiteConfig w I) as Hrun.
    destruct (runNode n CallBody (Some ch) _ suiteConfig w) as [r w1].
    destruct (negb _); [exact Hrun|].
    eapply advances_trans; [exact Hrun|apply IH].
Qed.

Lemma runCleanUpNodes_advances spec suiteConfig nodes suite w :
  advances anyCall w (snd (runCleanUpNodes spec suiteConfig nodes suite w)).
Proof.
  revert suite w. induction nodes as [|n nodes IH]; intros suite w; simpl.
  - apply advances_refl.
  - unfold runCleanUpNode. simpl.
    pose proof (runNode_advances anyCall n CallBody (Some (S (now w)))
                  (BestTextFor (Nodes_ spec) n) suiteConfig (tick w) I)
      as Hrun.
    destruct (runNode n CallBody _ _ suiteConfig (tick w)) as [r w1].
    eapply advances_trans; [apply tick_advances|].
    eapply advances_trans; [exact Hrun|apply IH].
Qed.

Lemma runAttempt_advances spec suiteConfig attempt suite w :
  advances anyCall w (snd (runAttempt spec suiteConfig attempt suite w)).
Proof.
  unfold runAttempt. simpl.
  set (suite0 := withCurrentSpecReport _ suite).
  set (w0 := tick _).
  assert (H0 : advances anyCall w w0).
  { subst w0. destruct (attempt >? 0); now apply advances_same. }
  pose proof (runSetupNodes_advances spec suiteConfig
                (S (now (if attempt >? 0
                         then Writer_Write [types.RetryNotice attempt] w
                         else w)))
                (setupNodes spec) (-1) suite0 w0) as H1.
  destruct (runSetupNodes spec suiteConfig _ (setupNodes spec) (-1) suite0 w0)
    as [[d suite1] w1].
  pose proof (runCleanUpNodes_advances spec suiteConfig
                (cleanUpNodesFor spec d) suite1 w1) as H2.
  destruct (runCleanUpNodes spec suiteConfig _ suite1 w1) as [suite2 w2].
  simpl in *. eauto using advances_trans.
Qed.

Lemma runAttempts_advances spec suiteConfig remaining :
  forall attempt suite w,
    advances anyCall w
      (snd (runAttempts spec suiteConfig remaining attempt suite w)).
Proof.
  induction remaining as [|remaining IH]; intros attempt suite w; simpl.
  - apply advances_refl.
  - pose proof (runAttempt_advances spec suiteConfig attempt suite w) as H1.
    destruct (runAttempt spec suiteConfig attempt suite w) as [s1 w1].
    destruct (types.SpecState_eqb _ _); [exact H1|]. simpl.
    destruct (signalledWithin _ _ _); simpl.
    + eapply advances_trans; [exact H1|apply tick_advances].
    + eapply advances_trans; [exact H1|].
      eapply advances_trans; [apply tick_advances|apply IH].
Qed.

Lemma runSpec_advances spec suiteConfig suite w :
  advances anyCall w (snd (runSpec spec suiteConfig suite w)).
Proof.
  unfold runSpec. destruct (types.SuiteConfig.DryRun suiteConfig).
  - apply advances_refl.
  - eapply advances_trans; [|apply runAttempts_advances].
    now apply advances_same.
Qed.

Lemma runSpec_dry_run spec suiteConfig suite w :
  types.SuiteConfig.DryRun suiteConfig = true ->
  runSpec spec suiteConfig suite w
  = (withCurrentSpecReport
       (types.SpecReport.withState types.SpecStatePassed
          (currentSpecReport suite)) suite, w).
Proof. intro H. unfold runSpec. now rewrite H. Qed.

Lemma runSuiteNode_dry_run node ch suiteConfig suite w :
  types.SuiteConfig.DryRun suiteConfig = true ->
  runSuiteNode node ch suiteConfig suite w
  = (withCurrentSpecReport
       (types.SpecReport.withState types.SpecStatePassed
          (currentSpecReport suite)) suite, w).
Proof. intro H. unfold runSuiteNode. now rewrite H. Qed.

Lemma runReportAfterSuiteNode_dry_run node r suiteConfig suite w :
  types.SuiteConfig.DryRun suiteConfig = true ->
  runReportAfterSuiteNode node r suiteConfig suite w
  = (withCurrentSpecReport
       (types.SpecReport.withState types.SpecStatePassed
          (currentSpecReport suite)) suite, w).
Proof. intro H. unfold runReportAfterSuiteNode. now rewrite H. Qed.

Lemma runLoopSpec_world (P : Node U * BodyCall -> Prop) spec suiteConfig st :
  (forall x, isReportAfterEachCall x -> P x) ->
  (forall suite w, advances P w (snd (runSpec spec suiteConfig suite w))
   \/ (types.SuiteConfig.FailFast suiteConfig = true
       /\ types.Report.SuiteSucceeded (report st) = false)) ->
  advances P (world st)
    (world (runLoopSpec SpecStateFailureStates spec suiteConfig st)).
Proof.
  intros HP Hspec. unfold runLoopSpec.
  set (suite0 := withCurrentSpecReport _ (suite_ st)).
  match goal with
  | |- context [let '(skip, w) := ?e in _] =>
      assert (Hskip : advances P (world st) (snd e)
                      /\ (fst e = true
                          \/ forall suite w,
                               advances P w
                                 (snd (runSpec spec suiteConfig suite w))));
      [|destruct e as [skip w0]]
  end.
  { destruct (types.SuiteConfig.FailFast suiteConfig) eqn:Hff;
      destruct (types.Report.SuiteSucceeded (report st)) eqn:Hss; simpl;
      try (split; [apply advances_refl|now left]);
      (destruct (_ || _); simpl;
       (split; [apply tick_advances|]);
       [now left|right; intros suite w;
                 destruct (Hspec suite w) as [H|[H1 H2]];
                 [exact H|congruence]]). }
  destruct Hskip as [H0 Hrun]. simpl in H0, Hrun.
  set (suite1 := if skip then _ else suite0).
  assert (H1 : exists s1 w1,
             (if negb skip then runSpec spec suiteConfig suite1 w0
              else (suite1, w0)) = (s1, w1)
             /\ advances P w0 w1).
  { destruct skip; simpl.
    - exists suite1, w0. split; [reflexivity|apply advances_refl].
    - destruct Hrun as [Hrun|Hrun]; [discriminate|].
      specialize (Hrun suite1 w0).
      destruct (runSpec spec suiteConfig suite1 w0) as [s1 w1].
      exists s1, w1. auto. }
  destruct H1 as (s1 & w1 & -> & H1).
  pose proof (reportAfterEach_advances spec suiteConfig s1 w1) as H2.
  destruct (reportAfterEach spec suiteConfig s1 w1) as [s2 w2].
  pose proof (processSpecReport_advances P suiteConfig (currentSpecReport s2)
                (report st) w2) as H3.
  destruct (processSpecReport _ suiteConfig (currentSpecReport s2)
              (report st) w2) as [r3 w3].
  simpl in *.
  apply (advances_weaken _ P) in H2; [|exact HP].
  assert (H4 : advances P (world st) w3) by eauto using advances_trans.
  destruct (_ && _); [|exact H4].
  eapply advances_trans; [exact H4|apply Client_Post_advances].
Qed.

Lemma runLoopSpec_advances spec suiteConfig st :
  advances anyCall (world st)
    (world (runLoopSpec SpecStateFailureStates spec suiteConfig st)).
Proof.
  apply runLoopSpec_world; [now intros|].
  intros suite w. left. apply runSpec_advances.
Qed.

Lemma runLoopSpec_bodiesOff spec suiteConfig st :
  bodiesOff suiteConfig st ->
  advances isReportAfterEachCall (world st)
    (world (runLoopSpec SpecStateFailureStates spec suiteConfig st)).
Proof.
  intros [Hdry|Hff]; apply runLoopSpec_world; auto.
  intros suite w. left. rewrite (runSpec_dry_run _ _ _ _ Hdry).
  apply advances_refl.
Qed.

(** ** What the run loop reports *)

Lemma runLoopSpec_report spec suiteConfig st :
  exists r,
    types.Report.SpecReports
      (report (runLoopSpec SpecStateFailureStates spec suiteConfig st))
    = types.Report.SpecReports (report st) ++ [r]
    /\ types.Report.SuiteSucceeded
         (report (runLoopSpec SpecStateFailureStates spec suiteConfig st))
       = types.Report.SuiteSucceeded (report st)
         && negb (types.SpecState_Is (types.SpecReport.State r)
                                     SpecStateFailureStates)
    /\ (types.SuiteConfig.FailFast suiteConfig = true ->
        types.Report.SuiteSucceeded (report st) = false ->
        reportedSkipped spec r).
Proof.
  unfold runLoopSpec.
  set (suite0 := withCurrentSpecReport _ (suite_ st)).
  destruct (types.SuiteConfig.FailFast suiteConfig
            && negb (types.Report.SuiteSucceeded (report st))) eqn:Hforce.
  - cbv iota beta. cbn [negb].
    set (suite1 := withCurrentSpecReport _ suite0).
    assert (Hne : State_ suite1 <> types.SpecStatePassed).
    { subst suite1. unfold State_, skippedState. cbn.
      destruct (HasNodeMarkedPending (Nodes_ spec)); discriminate. }
    pose proof (runReportAfterEachNodes_state spec suiteConfig
                  (SortedByDescendingNestingLevel
                     (WithType [types.NodeTypeReportAfterEach] (Nodes_ spec)))
                  suite1 (world st) Hne) as Hst.
    fold (reportAfterEach spec suiteConfig suite1 (world st)) in Hst.
    destruct (reportAfterEach spec suiteConfig suite1 (world st))
      as [s2 w2].
    unfold processSpecReport. cbn [fst snd] in *.
    exists (currentSpecReport s2).
    destruct (types.SpecState_Is (types.SpecReport.State (currentSpecReport s2))
                                 SpecStateFailureStates) eqn:Hfail;
      cbn; rewrite ?andb_false_r, ?andb_true_r;
      (split; [reflexivity|split; [reflexivity|]]); intros _ _;
      (destruct Hst as [Hst|[Hst Hnodes]];
       [left; exact Hst
       |right; split; [exact Hst|];
        intro E; apply Hnodes; unfold SortedByDescendingNestingLevel;
        now rewrite E]).
  - match goal with
    | |- context [let '(skip, w) := ?e in _] => destruct e as [skip w0]
    end.
    cbv iota beta.
    match goal with
    | |- context [let '(suite, w) := ?e in _] => destruct e as [s1 w1]
    end.
    destruct (reportAfterEach spec suiteConfig s1 w1) as [s2 w2].
    unfold processSpecReport. cbn [fst snd].
    exists (currentSpecReport s2).
    destruct (types.SpecState_Is (types.SpecReport.State (currentSpecReport s2))
                                 SpecStateFailureStates) eqn:Hfail;
      cbn; rewrite ?andb_false_r, ?andb_true_r;
      (split; [reflexivity|split; [reflexivity|]]); intros Hff Hss;
      rewrite Hff, Hss in Hforce; discriminate.
Qed.

Lemma advances_invokes P w w' : advances P w w' -> invokes P w w'.
Proof. now intros [_ H]. Qed.

Lemma invokes_refl P w : invokes P w w.
Proof. exists []. now rewrite app_nil_r. Qed.

Lemma invokes_trans P w1 w2 w3 :
  invokes P w1 w2 -> invokes P w2 w3 -> invokes P w1 w3.
Proof.
  intros (l1 & E1 & F1) (l2 & E2 & F2).
  exists (l1 ++ l2). rewrite E2, E1, app_assoc. split; [reflexivity|].
  now apply Forall_app.
Qed.

Lemma invokes_same P w w' : invoked w' = invoked w -> invokes P w w'.
Proof. intro H. exists []. now rewrite app_nil_r. Qed.

Lemma nextIndex_invoked suiteConfig calls w :
  invoked (snd (nextIndex suiteConfig calls w)) = invoked w.
Proof.
  unfold nextIndex, Client_FetchNextCounter.
  destruct (_ >? _); [|reflexivity].
  destruct (commErrorNow w); reflexivity.
Qed.

Lemma bodiesOff_runLoopSpec spec suiteConfig st :
  bodiesOff suiteConfig st ->
  bodiesOff suiteConfig
    (runLoopSpec SpecStateFailureStates spec suiteConfig st).
Proof.
  intros [Hdry|[Hff Hss]]; [now left|right]. split; [exact Hff|].
  destruct (runLoopSpec_report spec suiteConfig st) as (r & _ & Hs & _).
  now rewrite Hs, Hss.
Qed.

Lemma runLoop_bodiesOff fuel specs suiteConfig :
  forall calls st,
    bodiesOff suiteConfig st ->
    invokes isReportAfterEachCall (world st)
      (world (runLoop SpecStateFailureStates fuel specs suiteConfig calls st)).
Proof.
  induction fuel as [|fuel IH]; intros calls st Hoff; simpl.
  - apply invokes_refl.
  - pose proof (nextIndex_invoked suiteConfig calls (world st)) as Hn.
    destruct (nextIndex suiteConfig calls (world st))
      as [[[idx err] calls'] w1].
    simpl in Hn.
    destruct err as [e|]; [now apply invokes_same|].
    destruct (nth_error specs idx) as [spec|]; [|now apply invokes_same].
    eapply invokes_trans; [|apply IH; apply bodiesOff_runLoopSpec; exact Hoff].
    eapply invokes_trans;
      [|apply advances_invokes, runLoopSpec_bodiesOff; exact Hoff].
    now apply invokes_same.
Qed.

Lemma reportedSkipped_skippedLike spec r :
  reportedSkipped spec r -> skippedLike r.
Proof.
  unfold reportedSkipped, skippedLike, skippedState.
  intros [H|[H _]]; rewrite H; [|auto].
  destruct (HasNodeMarkedPending (Nodes_ spec)); auto.
Qed.

Lemma runLoop_after_failure fuel specs suiteConfig :
  types.SuiteConfig.FailFast suiteConfig = true ->
  forall calls st,
    types.Report.SuiteSucceeded (report st) = false ->
    exists rs,
      types.Report.SpecReports
        (report (runLoop SpecStateFailureStates fuel specs suiteConfig calls
                         st))
      = types.Report.SpecReports (report st) ++ rs
      /\ Forall skippedLike rs.
Proof.
  intro Hff. induction fuel as [|fuel IH]; intros calls st Hss; simpl.
  - exists []. now rewrite app_nil_r.
  - destruct (nextIndex suiteConfig calls (world st))
      as [[[idx err] calls'] w1].
    destruct err as [e|]; [exists []; now rewrite app_nil_r|].
    destruct (nth_error specs idx) as [spec|];
      [|exists []; now rewrite app_nil_r].
    destruct (runLoopSpec_report spec suiteConfig (withWorld w1 st))
      as (r & Hr & Hs & Hskip).
    destruct (IH calls'
                 (runLoopSpec SpecStateFailureStates spec suiteConfig
                              (withWorld w1 st)))
      as (rs & Hrs & Hall).
    { rewrite Hs. simpl. now rewrite Hss. }
    exists (r :: rs). rewrite Hrs, Hr. simpl. rewrite <- app_assoc.
    split; [reflexivity|]. constructor; [|exact Hall].
    eapply reportedSkipped_skippedLike, Hskip; auto.
Qed.

Lemma runLoop_fail_fast fuel specs suiteConfig :
  types.SuiteConfig.FailFast suiteConfig = true ->
  forall calls st,
    exists rs,
      types.Report.SpecReports
        (report (runLoop SpecStateFailureStates fuel specs suiteConfig calls
                         st))
      = types.Report.SpecReports (report st) ++ rs
      /\ skippedAfterFailure rs.
Proof.
  intro Hff. induction fuel as [|fuel IH]; intros calls st; simpl.
  - exists []. rewrite app_nil_r. split; [reflexivity|].
    intros [|? ?] r post E; discriminate.
  - destruct (nextIndex suiteConfig calls (world st))
      as [[[idx err] calls'] w1].
    assert (Hnil : skippedAfterFailure [])
      by (intros [|? ?] r post E; discriminate).
    destruct err as [e|]; [exists []; now rewrite app_nil_r|].
    destruct (nth_error specs idx) as [spec|];
      [|exists []; now rewrite app_nil_r].
    destruct (runLoopSpec_report spec suiteConfig (withWorld w1 st))
      as (r & Hr & Hs & _).
    set (st1 := runLoopSpec SpecStateFailureStates spec suiteConfig
                            (withWorld w1 st)) in *.
    destruct (IH calls' st1) as (rs & Hrs & Hord).
    exists (r :: rs). rewrite Hrs, Hr. simpl. rewrite <- app_assoc.
    split; [reflexivity|].
    intros pre r' post E Hfail. destruct pre as [|p pre]; simpl in E.
    + injection E as <- <-.
      destruct (runLoop_after_failure fuel specs suiteConfig Hff calls' st1)
        as (rs' & Hrs' & Hall).
      { rewrite Hs, Hfail. apply andb_false_r. }
      rewrite Hrs in Hrs'. apply app_inv_head in Hrs'. now subst rs'.
    + injection E as <- E. eapply Hord; eauto.
Qed.

(** ** The run loop ends *)

Lemma nextIndex_bound suiteConfig calls w :
  let '(idx, err, calls', w') := nextIndex suiteConfig calls w in
  err = None ->
  (nextBound suiteConfig calls w <= idx)%nat
  /\ nextBound suiteConfig calls' w' = S idx.
Proof.
  unfold nextIndex, nextBound, Client_FetchNextCounter.
  destruct (_ >? _).
  - destruct (commErrorNow w); [discriminate|]. simpl. intros _. lia.
  - intros _. lia.
Qed.

Lemma runLoopSpec_bound spec suiteConfig calls st :
  nextBound suiteConfig calls
    (world (runLoopSpec SpecStateFailureStates spec suiteConfig st))
  = nextBound suiteConfig calls (world st).
Proof.
  unfold nextBound. destruct (_ >? _); [|reflexivity].
  apply (runLoopSpec_advances spec suiteConfig st).
Qed.

(** Fuel beyond [len(specs)] rounds is never used. *)
Lemma runLoop_enough_fuel specs suiteConfig (f : nat) :
  forall (extra calls : nat) st,
    (List.length specs <= f + nextBound suiteConfig calls (world st))%nat ->
    runLoop SpecStateFailureStates (S f + extra) specs suiteConfig calls st
    = runLoop SpecStateFailureStates (S f) specs suiteConfig calls st.
Proof.
  induction f as [|f IH]; intros extra calls st Hlen;
    cbn [Nat.add runLoop];
    pose proof (nextIndex_bound suiteConfig calls (world st)) as Hb;
    destruct (nextIndex suiteConfig calls (world st))
      as [[[idx err] calls'] w1];
    (destruct err as [e|]; [reflexivity|]);
    destruct (Hb eq_refl) as [Hle Hnext];
    destruct (nth_error specs idx) as [spec|] eqn:Hnth; try reflexivity.
  - assert (idx < List.length specs)%nat
      by (apply nth_error_Some; congruence).
    lia.
  - apply (IH extra). rewrite runLoopSpec_bound. simpl.
    assert (idx < List.length specs)%nat
      by (apply nth_error_Some; congruence).
    lia.
Qed.

(** In a serial run the loop reports every spec, in order. *)
Lemma runLoop_serial_reports_all specs suiteConfig (fuel : nat) :
  (types.SuiteConfig.ParallelTotal suiteConfig >? 1) = false ->
  forall (calls : nat) st,
    (List.length specs < fuel + calls)%nat ->
    exists rs,
      types.Report.SpecReports
        (report (runLoop SpecStateFailureStates fuel specs suiteConfig calls
                         st))
      = types.Report.SpecReports (report st) ++ rs
      /\ List.length rs = (List.length specs - calls)%nat.
Proof.
  intro Hserial.
  induction fuel as [|fuel IH]; intros calls st Hlen; cbn [runLoop].
  - exists []. rewrite app_nil_r. split; [reflexivity|simpl; lia].
  - unfold nextIndex. rewrite Hserial.
    destruct (nth_error specs calls) as [spec|] eqn:Hnth.
    + assert (calls < List.length specs)%nat
        by (apply nth_error_Some; congruence).
      destruct (runLoopSpec_report spec suiteConfig (withWorld (world st) st))
        as (r & Hr & _).
      destruct (IH (S calls)
                   (runLoopSpec SpecStateFailureStates spec suiteConfig
                                (withWorld (world st) st)) ltac:(lia))
        as (rs & Hrs & Hlength).
      exists (r :: rs). rewrite Hrs, Hr. simpl. rewrite <- app_assoc.
      split; [reflexivity|]. simpl. lia.
    + assert (List.length specs <= calls)%nat
        by (apply nth_error_None; assumption).
      exists []. rewrite app_nil_r. split; [reflexivity|simpl; lia].
Qed.

(** ** The suite-level hooks *)

Ltac run_node_step :=
  match goal with
  | |- context [runNode ?n ?c ?i ?t ?cfg ?x] =>
      let H := fresh "Hinv" in
      pose proof (runNode_invoked n c i t cfg x) as H;
      destruct (runNode n c i t cfg x); cbn [fst snd] in H |- *
  end.

Lemma runSuiteNode_leaf node ch suiteConfig suite w :
  sameLeaf suite (fst (runSuiteNode node ch suiteConfig suite w)).
Proof.
  unfold runSuiteNode, runSynchronizedBeforeSuite, runSynchronizedAfterSuite,
    Client_PostSynchronizedBeforeSuiteSucceeded,
    Client_PostSynchronizedBeforeSuiteFailed,
    Client_BlockUntilSynchronizedBeforeSuiteData,
    Client_BlockUntilNonprimaryNodesHaveFinished, sameLeaf.
  destruct (types.SuiteConfig.DryRun suiteConfig); [split; reflexivity|].
  destruct (NodeType node);
    repeat first
      [ run_node_step
      | match goal with
        | |- context [if ?b then _ else _] => destruct b
        | |- context [match ?e with Some _ => _ | None => _ end] =>
            destruct e
        | |- context [match Server.beforeSuiteState ?e with _ => _ end] =>
            destruct (Server.beforeSuiteState e)
        end; cbn -[runNode] ];
    split; reflexivity.
Qed.

Lemma runSuiteNode_first node ch suiteConfig suite w call :
  types.SuiteConfig.DryRun suiteConfig = false ->
  firstCall node suiteConfig = Some call ->
  exists l,
    invoked (snd (runSuiteNode node ch suiteConfig suite w))
    = invoked w ++ (node, call) :: l.
Proof.
  intros Hdry Hcall.
  unfold runSuiteNode, runSynchronizedBeforeSuite, runSynchronizedAfterSuite,
    Client_PostSynchronizedBeforeSuiteSucceeded,
    Client_PostSynchronizedBeforeSuiteFailed,
    Client_BlockUntilSynchronizedBeforeSuiteData,
    Client_BlockUntilNonprimaryNodesHaveFinished, firstCall in *.
  rewrite Hdry.
  destruct (NodeType node); try discriminate Hcall;
    try (destruct (types.SuiteConfig.ParallelNode suiteConfig =? 1);
         try discriminate Hcall);
    injection Hcall as <-;
    repeat first
      [ run_node_step
      | match goal with
        | |- context [if ?b then _ else _] => destruct b
        | |- context [match ?e with Some _ => _ | None => _ end] =>
            destruct e
        end; cbn -[runNode] ];
    repeat (cbn;
            match goal with
            | H : invoked _ = _ |- _ => rewrite H; clear H
            end);
    cbn; rewrite <- ?app_assoc; cbn; eauto.
Qed.

Lemma FirstNodeWithType_family (family : list types.NodeType) (l : Nodes U) :
  IsZero (FirstNodeWithType family l) = false ->
  types.NodeType_Is (NodeType (FirstNodeWithType family l)) family = true.
Proof.
  unfold FirstNodeWithType, WithType.
  destruct (filter _ l) as [|n rest] eqn:E; simpl; [discriminate|].
  intros _.
  assert (In n (filter (fun node : Node U =>
                          types.NodeType_Is (NodeType node) family) l))
    as Hin by (rewrite E; now left).
  apply filter_In in Hin. tauto.
Qed.

Lemma runAfterSuite_runs num suiteConfig st :
  let afterSuiteNode :=
    FirstNodeWithType afterSuiteFamily (suiteNodes (suite_ st)) in
  let st' := runAfterSuite SpecStateFailureStates num suiteConfig st in
  IsZero afterSuiteNode = false ->
  num > 0 ->
  (exists r,
     types.Report.SpecReports (report st')
     = types.Report.SpecReports (report st) ++ [r]
     /\ hookReport afterSuiteNode r)
  /\ (types.SuiteConfig.DryRun suiteConfig = false ->
      exists call l,
        firstCall afterSuiteNode suiteConfig = Some call
        /\ invoked (world st')
           = invoked (world st) ++ (afterSuiteNode, call) :: l).
Proof.
  intros afterSuiteNode st' Hzero Hnum. subst st'.
  unfold runAfterSuite. fold afterSuiteFamily. fold afterSuiteNode.
  rewrite Hzero. destruct (Z.gtb_spec num 0) as [_|]; [|lia].
  cbn [negb andb].
  set (suite0 := withCurrentSpecReport _ (suite_ st)).
  cbn [Status fst snd Channel].
  pose proof (runSuiteNode_leaf afterSuiteNode (S (now (world st)))
                suiteConfig suite0 (tick (world st))) as [Ht Hl].
  pose proof (runSuiteNode_first afterSuiteNode (S (now (world st)))
                suiteConfig suite0 (tick (world st))) as Hfirst.
  destruct (runSuiteNode afterSuiteNode _ suiteConfig suite0 _) as [s1 w1].
  cbn [fst snd] in *.
  pose proof (processSpecReport_advances anyCall suiteConfig
                (currentSpecReport s1) (report st) w1) as [_ (l & Hl' & _)].
  unfold processSpecReport in *. cbn [fst snd] in *. split.
  - exists (currentSpecReport s1).
    split; [destruct (types.SpecState_Is _ _); reflexivity|].
    split; [exact Ht|exact Hl].
  - intro Hdry.
    assert (exists call, firstCall afterSuiteNode suiteConfig = Some call)
      as [call Hcall].
    { pose proof (FirstNodeWithType_family afterSuiteFamily
                    (suiteNodes (suite_ st)) Hzero) as Hfam.
      fold afterSuiteNode in Hfam. unfold firstCall.
      destruct (NodeType afterSuiteNode); try discriminate Hfam; eauto. }
    destruct (Hfirst call Hdry Hcall) as [l1 Hl1].
    exists call, (l1 ++ l). split; [exact Hcall|].
    cbn [world]. rewrite Hl', Hl1. cbn. now rewrite <- app_assoc.
Qed.

Lemma runAfterSuite_gate_closed num suiteConfig st :
  IsZero (FirstNodeWithType afterSuiteFamily (suiteNodes (suite_ st))) = true
  \/ num <= 0 ->
  runAfterSuite SpecStateFailureStates num suiteConfig st = st.
Proof.
  unfold runAfterSuite. fold afterSuiteFamily. intros [H|H].
  - now rewrite H.
  - destruct (Z.gtb_spec num 0); [lia|]. now rewrite andb_false_r.
Qed.

Lemma runBeforeSuite_gate_closed num suiteConfig st :
  IsZero (FirstNodeWithType beforeSuiteFamily (suiteNodes (suite_ st))) = true
  \/ Interrupted (fst (Status (world st))) = true
  \/ num <= 0 ->
  runBeforeSuite SpecStateFailureStates num suiteConfig st
  = withWorld (snd (Status (world st))) st.
Proof.
  unfold runBeforeSuite. fold beforeSuiteFamily.
  cbn [Status fst snd Interrupted]. intros [H|[H|H]].
  - now rewrite H.
  - rewrite H. now rewrite andb_false_r.
  - destruct (Z.gtb_spec num 0); [lia|]. now rewrite andb_false_r.
Qed.

Lemma runBeforeSuite_runs num suiteConfig st :
  let beforeSuiteNode :=
    FirstNodeWithType beforeSuiteFamily (suiteNodes (suite_ st)) in
  let st' := runBeforeSuite SpecStateFailureStates num suiteConfig st in
  IsZero beforeSuiteNode = false ->
  Interrupted (fst (Status (world st))) = false ->
  num > 0 ->
  exists r,
    types.Report.SpecReports (report st')
    = types.Report.SpecReports (report st) ++ [r]
    /\ hookReport beforeSuiteNode r.
Proof.
  intros beforeSuiteNode st' Hzero Hint Hnum. subst st'.
  unfold runBeforeSuite. fold beforeSuiteFamily. fold beforeSuiteNode.
  cbn [Status fst snd Interrupted Channel] in *.
  rewrite Hzero, Hint. destruct (Z.gtb_spec num 0) as [_|]; [|lia].
  cbn [negb andb].
  set (suite0 := withCurrentSpecReport _ (suite_ st)).
  pose proof (runSuiteNode_leaf beforeSuiteNode (S (now (world st)))
                suiteConfig suite0 (tick (world st))) as [Ht Hl].
  destruct (runSuiteNode beforeSuiteNode _ suiteConfig suite0 _) as [s1 w1].
  unfold processSpecReport. cbn [fst snd report] in *.
  exists (currentSpecReport s1).
  split; [destruct (types.SpecState_Is _ _); reflexivity|].
  split; [exact Ht|exact Hl].
Qed.

(** C6, as amended.  With fail-fast on: every round of the run loop
    appends one report, and a report in a failure state makes the suite
    fail; in a round that starts with the suite failed the spec is skipped
    ([runSpec] is not called, only bodies of ReportAfterEach nodes are
    started) and its report is Skipped, or Pending when one of its nodes is
    marked pending, or Aborted when one of its ReportAfterEach hooks
    aborts; hence in the reports of the whole loop every report after one
    in a failure state is Skipped, Pending or Aborted.  Whatever state the
    loop leaves, the after-suite step runs its hook when one is registered
    and the count computed before the loop is positive, and leaves the
    state untouched otherwise; the before-suite step requires in addition
    that [Status()] shows no interrupt. *)
Theorem fail_fast_skips_remaining_specs suiteConfig :
  types.SuiteConfig.FailFast suiteConfig = true ->
  (forall spec st,
     exists r,
       types.Report.SpecReports
         (report (runLoopSpec SpecStateFailureStates spec suiteConfig st))
       = types.Report.SpecReports (report st) ++ [r]
       /\ types.Report.SuiteSucceeded
            (report (runLoopSpec SpecStateFailureStates spec suiteConfig st))
          = types.Report.SuiteSucceeded (report st)
            && negb (types.SpecState_Is (types.SpecReport.State r)
                                        SpecStateFailureStates)
       /\ (types.Report.SuiteSucceeded (report st) = false ->
           reportedSkipped spec r
           /\ invokes isReportAfterEachCall (world st)
                (world (runLoopSpec SpecStateFailureStates spec suiteConfig
                                    st))))
  /\ (forall fuel specs calls st,
        exists rs,
          types.Report.SpecReports
            (report (runLoop SpecStateFailureStates fuel specs suiteConfig
                             calls st))
          = types.Report.SpecReports (report st) ++ rs
          /\ skippedAfterFailure rs)
  /\ (forall num st,
        let afterSuiteNode :=
          FirstNodeWithType afterSuiteFamily (suiteNodes (suite_ st)) in
        let st' := runAfterSuite SpecStateFailureStates num suiteConfig st in
        (IsZero afterSuiteNode = false -> num > 0 ->
         (exists r,
            types.Report.SpecReports (report st')
            = types.Report.SpecReports (report st) ++ [r]
            /\ hookReport afterSuiteNode r)
         /\ (types.SuiteConfig.DryRun suiteConfig = false ->
             exists call l,
               firstCall afterSuiteNode suiteConfig = Some call
               /\ invoked (world st')
                  = invoked (world st) ++ (afterSuiteNode, call) :: l))
        /\ (IsZero afterSuiteNode = true \/ num <= 0 -> st' = st))
  /\ (forall num st,
        let beforeSuiteNode :=
          FirstNodeWithType beforeSuiteFamily (suiteNodes (suite_ st)) in
        let st' := runBeforeSuite SpecStateFailureStates num suiteConfig st in
        (IsZero beforeSuiteNode = false ->
         Interrupted (fst (Status (world st))) = false -> num > 0 ->
         exists r,
           types.Report.SpecReports (report st')
           = types.Report.SpecReports (report st) ++ [r]
           /\ hookReport beforeSuiteNode r)
        /\ (IsZero beforeSuiteNode = true
            \/ Interrupted (fst (Status (world st))) = true
            \/ num <= 0 ->
            st' = withWorld (snd (Status (world st))) st)).
Proof.
  intro Hff. repeat apply conj.
  - intros spec st.
    destruct (runLoopSpec_report spec suiteConfig st) as (r & H1 & H2 & H3).
    exists r. repeat apply conj; auto. intro Hss. split; [auto|].
    apply advances_invokes, runLoopSpec_bodiesOff. right. auto.
  - intros. now apply runLoop_fail_fast.
  - intros num st afterSuiteNode st'. split.
    + apply runAfterSuite_runs.
    + apply runAfterSuite_gate_closed.
  - intros num st beforeSuiteNode st'. split.
    + apply runBeforeSuite_runs.
    + apply runBeforeSuite_gate_closed.
Qed.

(** ** Dry runs *)

Lemma runBeforeSuite_dry_run num suiteConfig st :
  types.SuiteConfig.DryRun suiteConfig = true ->
  invokes isReportAfterEachCall (world st)
    (world (runBeforeSuite SpecStateFailureStates num suiteConfig st)).
Proof.
  intro Hdry. unfold runBeforeSuite. cbn [Status fst snd Channel Interrupted].
  destruct (_ && _); [|now apply invokes_same].
  rewrite runSuiteNode_dry_run by exact Hdry.
  pose proof (processSpecReport_advances isReportAfterEachCall suiteConfig
                (currentSpecReport
                   (withCurrentSpecReport
                      (types.SpecReport.withState types.SpecStatePassed
                         (currentSpecReport
                            (withCurrentSpecReport
                               (suiteNodeReport
                                  (FirstNodeWithType
                                     [types.NodeTypeBeforeSuite;
                                      types.NodeTypeSynchronizedBeforeSuite]
                                     (suiteNodes (suite_ st)))
                                  EmptyString suiteConfig) (suite_ st))))
                      (withCurrentSpecReport
                         (suiteNodeReport
                            (FirstNodeWithType
                               [types.NodeTypeBeforeSuite;
                                types.NodeTypeSynchronizedBeforeSuite]
                               (suiteNodes (suite_ st)))
                            EmptyString suiteConfig) (suite_ st))))
                (report st) (tick (world st))) as H.
  destruct (processSpecReport _ _ _ _ _) as [r w1]. cbn [world snd] in *.
  eapply invokes_trans; [|apply advances_invokes; exact H].
  now apply invokes_same.
Qed.

Lemma runAfterSuite_dry_run num suiteConfig st :
  types.SuiteConfig.DryRun suiteConfig = true ->
  invokes isReportAfterEachCall (world st)
    (world (runAfterSuite SpecStateFailureStates num suiteConfig st)).
Proof.
  intro Hdry. unfold runAfterSuite. cbn [Status fst snd Channel].
  destruct (_ && _); [|apply invokes_refl].
  rewrite runSuiteNode_dry_run by exact Hdry.
  match goal with
  | |- context [processSpecReport ?a ?b ?c ?d ?e] =>
      pose proof (processSpecReport_advances isReportAfterEachCall b c d e)
        as H;
      destruct (processSpecReport a b c d e) as [r w1]
  end.
  cbn [world snd] in *.
  eapply invokes_trans; [|apply advances_invokes; exact H].
  now apply invokes_same.
Qed.

Lemma runReportAfterSuiteNodes_dry_run nodes suiteConfig :
  types.SuiteConfig.DryRun suiteConfig = true ->
  forall st,
    invokes isReportAfterEachCall (world st)
      (world (runReportAfterSuiteNodes SpecStateFailureStates nodes
                                       suiteConfig st)).
Proof.
  intro Hdry. induction nodes as [|n nodes IH]; intro st;
    cbn [runReportAfterSuiteNodes].
  - apply invokes_refl.
  - rewrite runReportAfterSuiteNode_dry_run by exact Hdry.
    match goal with
    | |- context [processSpecReport ?a ?b ?c ?d ?e] =>
        pose proof (processSpecReport_advances isReportAfterEachCall b c d e)
          as H;
        destruct (processSpecReport a b c d e) as [r w1]
    end.
    eapply invokes_trans; [|apply IH].
    apply advances_invokes. exact H.
Qed.

Lemma runSpecsState_dry_run description suitePath focus specs suiteConfig
  suite w :
  types.SuiteConfig.DryRun suiteConfig = true ->
  invokes isReportAfterEachCall w
    (world (runSpecsState SpecStateFailureStates description suitePath focus
                          specs suiteConfig suite w)).
Proof.
  intro Hdry. unfold runSpecsState.
  set (initialReport := {| types.Report.SuitePath := suitePath |}).
  set (w0 := if types.SuiteConfig.ParallelTotal suiteConfig >? 1
             then Client_Post (PostSuiteWillBegin initialReport) w else w).
  assert (H0 : invokes isReportAfterEachCall w w0).
  { subst w0. destruct (_ >? _); [|apply invokes_refl].
    apply advances_invokes, Client_Post_advances. }
  set (st0 := {| report := _; suiteAborted := false; suite_ := suite;
                 world := w0 |}).
  pose proof (runBeforeSuite_dry_run (CountWithoutSkip specs) suiteConfig st0
                Hdry) as H1.
  set (st1 := runBeforeSuite _ _ suiteConfig st0) in *.
  set (st2 := if types.Report.SuiteSucceeded (report st1) then _ else st1).
  assert (H2 : invokes isReportAfterEachCall (world st1) (world st2)).
  { subst st2. destruct (types.Report.SuiteSucceeded (report st1));
      [|apply invokes_refl].
    pose proof (runLoop_bodiesOff (S (List.length specs)) specs suiteConfig
                  0%nat st1 (or_introl Hdry)) as H.
    destruct (_ && _); exact H. }
  pose proof (runAfterSuite_dry_run (CountWithoutSkip specs) suiteConfig st2
                Hdry) as H3.
  set (st3 := runAfterSuite _ _ suiteConfig st2) in *.
  cbn [Status fst snd Interrupted].
  set (st4 := if signalledWithin _ _ _ then _ else withWorld _ st3).
  assert (H4 : invokes isReportAfterEachCall (world st3) (world st4)).
  { subst st4. destruct (signalledWithin _ _ _); now apply invokes_same. }
  set (st5 := if types.SuiteConfig.ParallelNode suiteConfig =? 1 then _
              else st4).
  assert (H5 : invokes isReportAfterEachCall (world st4) (world st5)).
  { subst st5. destruct (_ =? _); [|apply invokes_refl].
    now apply runReportAfterSuiteNodes_dry_run. }
  cbn [world withWorld].
  assert (H6 : invokes isReportAfterEachCall w (world st5)).
  { eapply invokes_trans; [exact H0|].
    eapply invokes_trans; [exact H1|].
    eapply invokes_trans; [exact H2|].
    eapply invokes_trans; [exact H3|].
    eapply invokes_trans; [exact H4|exact H5]. }
  destruct (_ >? _); [|exact H6].
  eapply invokes_trans; [exact H6|].
  apply advances_invokes, Client_Post_advances.
Qed.

Lemma runLoopSpec_dry_run_report spec suiteConfig st :
  types.SuiteConfig.DryRun suiteConfig = true ->
  WithType [types.NodeTypeReportAfterEach] (Nodes_ spec) = [] ->
  exists r,
    types.Report.SpecReports
      (report (runLoopSpec SpecStateFailureStates spec suiteConfig st))
    = types.Report.SpecReports (report st) ++ [r]
    /\ (types.SpecReport.State r = types.SpecStatePassed
        \/ types.SpecReport.State r = skippedState spec).
Proof.
  intros Hdry Hnone. unfold runLoopSpec, reportAfterEach.
  rewrite Hnone. cbn [SortedByDescendingNestingLevel sortStable fold_right
                      runReportAfterEachNodes].
  set (suite0 := withCurrentSpecReport _ (suite_ st)).
  match goal with
  | |- context [let '(skip, w) := ?e in _] => destruct e as [skip w0]
  end.
  rewrite runSpec_dry_run by exact Hdry.
  unfold processSpecReport.
  destruct skip; cbn [negb fst snd];
    match goal with
    | |- context [types.SpecState_Is ?s ?l] => destruct (types.SpecState_Is s l)
    end;
    eexists; (split; [reflexivity|]); cbn; auto.
Qed.

(** C7, as amended.  In a dry run [runSpec], [runSuiteNode] and
    [runReportAfterSuiteNode] record Passed and leave the world untouched;
    a spec without ReportAfterEach nodes is reported Passed, or Skipped or
    Pending when it is skipped; and over the whole of [runSpecs] the only
    bodies started are those of ReportAfterEach nodes. *)
Theorem dry_run_short_circuits suiteConfig :
  types.SuiteConfig.DryRun suiteConfig = true ->
  (forall spec suite w,
     runSpec spec suiteConfig suite w
     = (withCurrentSpecReport
          (types.SpecReport.withState types.SpecStatePassed
             (currentSpecReport suite)) suite, w))
  /\ (forall node ch suite w,
        runSuiteNode node ch suiteConfig suite w
        = (withCurrentSpecReport
             (types.SpecReport.withState types.SpecStatePassed
                (currentSpecReport suite)) suite, w))
  /\ (forall node r suite w,
        runReportAfterSuiteNode node r suiteConfig suite w
        = (withCurrentSpecReport
             (types.SpecReport.withState types.SpecStatePassed
                (currentSpecReport suite)) suite, w))
  /\ (forall spec st,
        WithType [types.NodeTypeReportAfterEach] (Nodes_ spec) = [] ->
        exists r,
          types.Report.SpecReports
            (report (runLoopSpec SpecStateFailureStates spec suiteConfig st))
          = types.Report.SpecReports (report st) ++ [r]
          /\ (types.SpecReport.State r = types.SpecStatePassed
              \/ types.SpecReport.State r = skippedState spec))
  /\ (forall description suitePath focus specs suite w,
        invokes isReportAfterEachCall w
          (world (runSpecsState SpecStateFailureStates description suitePath
                                focus specs suiteConfig suite w))).
Proof.
  intro Hdry. repeat apply conj; intros.
  - now apply runSpec_dry_run.
  - now apply runSuiteNode_dry_run.
  - now apply runReportAfterSuiteNode_dry_run.
  - now apply runLoopSpec_dry_run_report.
  - now apply runSpecsState_dry_run.
Qed.

(** ** The table DSL *)

(** ** Where a validation error points *)




(** ** A mismatch surfaces when the generated It runs *)




(** ** Nil parameters *)

Lemma validateFixed_None funcType parameters kind cl count :
  forall i,
    validateFixed AssignableTo funcType parameters kind cl count i = None <->
    (forall j actual,
       (i <= j < i + count)%nat ->
       TypeOf (nth j parameters (Nil U)) = Some actual ->
       AssignableTo actual (reflect.In_ funcType j) = true).
Proof.
  induction count as [|count IH]; intro i; simpl.
  - split; [intros _ j actual Hj; lia|reflexivity].
  - destruct (TypeOf (nth i parameters (Nil U))) as [a|] eqn:Ha.
    + destruct (AssignableTo a (reflect.In_ funcType i)) eqn:Hok; simpl.
      * rewrite (IH (S i)). split; intros H j actual Hj Hty.
        -- destruct (Nat.eq_dec j i) as [->|Hne];
             [congruence|apply H; [lia|exact Hty]].
        -- apply H; [lia|exact Hty].
      * split; [discriminate|]. intro H.
        rewrite (H i a ltac:(lia) Ha) in Hok. discriminate.
    + rewrite (IH (S i)). split; intros H j actual Hj Hty.
      * destruct (Nat.eq_dec j i) as [->|Hne];
          [congruence|apply H; [lia|exact Hty]].
      * apply H; [lia|exact Hty].
Qed.

Lemma validateVariadic_None expected parameters kind cl count :
  forall i,
    validateVariadic AssignableTo expected parameters kind cl count i = None
    <->
    (forall j actual,
       (i <= j < i + count)%nat ->
       TypeOf (nth j parameters (Nil U)) = Some actual ->
       AssignableTo actual expected = true).
Proof.
  induction count as [|count IH]; intro i; simpl.
  - split; [intros _ j actual Hj; lia|reflexivity].
  - destruct (TypeOf (nth i parameters (Nil U))) as [a|] eqn:Ha.
    + destruct (AssignableTo a expected) eqn:Hok; simpl.
      * rewrite (IH (S i)). split; intros H j actual Hj Hty.
        -- destruct (Nat.eq_dec j i) as [->|Hne];
             [congruence|apply (H j); [lia|exact Hty]].
        -- apply (H j); [lia|exact Hty].
      * split; [discriminate|]. intro H.
        rewrite (H i a ltac:(lia) Ha) in Hok. discriminate.
    + rewrite (IH (S i)). split; intros H j actual Hj Hty.
      * destruct (Nat.eq_dec j i) as [->|Hne];
          [congruence|apply (H j); [lia|exact Hty]].
      * apply (H j); [lia|exact Hty].
Qed.

Lemma validateParameters_None function parameters kind cl :
  validateParameters function parameters kind cl = None
  <-> accepts function parameters.
Proof.
  unfold ginkgo.validateParameters, accepts, expectedAt.
  set (ft := funcType function). set (limit := limitOf ft).
  set (len := List.length parameters).
  destruct (Nat.ltb_spec len limit) as [Hfew|Hfew].
  { split; [discriminate|]. intros [H _]. lia. }
  destruct (Nat.ltb_spec limit len) as [Hmany|Hmany];
    destruct (reflect.IsVariadic ft) eqn:Hv; cbn [negb andb].
  - destruct (validateFixed AssignableTo ft parameters kind cl limit 0)
      eqn:Hfixed.
    + split; [discriminate|]. intros (_ & _ & H).
      assert (validateFixed AssignableTo ft parameters kind cl limit 0 = None)
        as E; [|congruence].
      apply validateFixed_None. intros j a Hj Hty.
      specialize (H j a ltac:(lia) Hty).
      destruct (Nat.ltb_spec j limit); [exact H|lia].
    + rewrite validateVariadic_None.
      rewrite validateFixed_None in Hfixed.
      split.
      * intro H. repeat split; [lia|discriminate|].
        intros j a Hj Hty. destruct (Nat.ltb_spec j limit).
        -- apply Hfixed; [lia|exact Hty].
        -- apply (H j); [lia|exact Hty].
      * intros (_ & _ & H) j a Hj Hty.
        specialize (H j a ltac:(lia) Hty).
        destruct (Nat.ltb_spec j limit); [lia|exact H].
  - split; [discriminate|]. intros (_ & H & _). specialize (H eq_refl). lia.
  - destruct (validateFixed AssignableTo ft parameters kind cl limit 0)
      eqn:Hfixed.
    + split; [discriminate|]. intros (_ & _ & H).
      assert (validateFixed AssignableTo ft parameters kind cl limit 0 = None)
        as E; [|congruence].
      apply validateFixed_None. intros j a Hj Hty.
      specialize (H j a ltac:(lia) Hty).
      destruct (Nat.ltb_spec j limit); [exact H|lia].
    + replace (len - limit)%nat with 0%nat by lia. cbn [validateVariadic].
      rewrite validateFixed_None in Hfixed.
      split; [|reflexivity]. intros _. repeat split; [lia|discriminate|].
      intros j a Hj Hty. destruct (Nat.ltb_spec j limit); [|lia].
      apply Hfixed; [lia|exact Hty].
  - destruct (validateFixed AssignableTo ft parameters kind cl limit 0)
      eqn:Hfixed.
    + split; [discriminate|]. intros (_ & _ & H).
      assert (validateFixed AssignableTo ft parameters kind cl limit 0 = None)
        as E; [|congruence].
      apply validateFixed_None. intros j a Hj Hty.
      specialize (H j a ltac:(lia) Hty).
      destruct (Nat.ltb_spec j limit); [exact H|lia].
    + rewrite validateFixed_None in Hfixed.
      split; [|reflexivity]. intros _. repeat split; [lia|lia|].
      intros j a Hj Hty. destruct (Nat.ltb_spec j limit); [|lia].
      apply Hfixed; [lia|exact Hty].
Qed.

Lemma validateFixed_Some funcType parameters kind cl count :
  forall i err,
    validateFixed AssignableTo funcType parameters kind cl count i = Some err ->
    exists j actual,
      (i <= j < i + count)%nat
      /\ TypeOf (nth j parameters (Nil U)) = Some actual
      /\ AssignableTo actual (reflect.In_ funcType j) = false.
Proof.
  induction count as [|count IH]; intros i err; simpl; [discriminate|].
  destruct (TypeOf (nth i parameters (Nil U))) as [a|] eqn:Ha.
  - destruct (AssignableTo a (reflect.In_ funcType i)) eqn:Hok; simpl.
    + intro H. destruct (IH _ _ H) as (j & b & Hj & Hb & Hn).
      exists j, b. repeat split; auto; lia.
    + intros _. exists i, a. repeat split; auto; lia.
  - intro H. destruct (IH _ _ H) as (j & b & Hj & Hb & Hn).
    exists j, b. repeat split; auto; lia.
Qed.

Lemma validateVariadic_Some expected parameters kind cl count :
  forall i err,
    validateVariadic AssignableTo expected parameters kind cl count i
    = Some err ->
    exists j actual,
      (i <= j < i + count)%nat
      /\ TypeOf (nth j parameters (Nil U)) = Some actual
      /\ AssignableTo actual expected = false.
Proof.
  induction count as [|count IH]; intros i err; simpl; [discriminate|].
  destruct (TypeOf (nth i parameters (Nil U))) as [a|] eqn:Ha.
  - destruct (AssignableTo a expected) eqn:Hok; simpl.
    + intro H. destruct (IH _ _ H) as (j & b & Hj & Hb & Hn).
      exists j, b. repeat split; auto; lia.
    + intros _. exists i, a. repeat split; auto; lia.
  - intro H. destruct (IH _ _ H) as (j & b & Hj & Hb & Hn).
    exists j, b. repeat split; auto; lia.
Qed.

Lemma validateParameters_type_error function parameters kind cl err :
  validateParameters function parameters kind cl = Some err ->
  isTypeError err = true ->
  exists j actual,
    (j < List.length parameters)%nat
    /\ TypeOf (nth j parameters (Nil U)) = Some actual
    /\ AssignableTo actual (expectedAt (funcType function) j) = false.
Proof.
  unfold ginkgo.validateParameters, expectedAt.
  set (ft := funcType function). set (limit := limitOf ft).
  destruct (Nat.ltb_spec (List.length parameters) limit) as [Hfew|Hfew];
    [intros [= <-]; discriminate|].
  destruct (_ && _); [intros [= <-]; discriminate|].
  destruct (validateFixed AssignableTo ft parameters kind cl limit 0)
    as [e|] eqn:Hfixed.
  - intros [= <-] _.
    destruct (validateFixed_Some _ _ _ _ _ _ _ Hfixed)
      as (j & a & Hj & Ha & Hn).
    exists j, a. destruct (Nat.ltb_spec j limit); [|lia].
    repeat split; auto; lia.
  - destruct (reflect.IsVariadic ft); [|discriminate].
    intros H _.
    destruct (validateVariadic_Some _ _ _ _ _ _ _ H)
      as (j & a & Hj & Ha & Hn).
    exists j, a. destruct (Nat.ltb_spec j limit); [lia|].
    repeat split; auto; lia.
Qed.

Lemma setAt_length i v (l : list reflect.Value) :
  List.length (setAt i v l) = List.length l.
Proof.
  revert i. induction l as [|x l IH]; intros [|i]; simpl; auto.
Qed.

Lemma setAt_nth_error i v (l : list reflect.Value) j :
  nth_error (setAt i v l) j
  = if (j =? i)%nat && (j <? List.length l)%nat then Some v
    else nth_error l j.
Proof.
  revert i j. induction l as [|x l IH]; intros [|i] [|j]; simpl;
    rewrite ?andb_false_r; auto.
Qed.

Lemma fill_length typeAt parameters count :
  forall i inValues,
    List.length (fill typeAt parameters count i inValues)
    = List.length inValues.
Proof.
  induction count as [|count IH]; intros; simpl; [reflexivity|].
  now rewrite IH, setAt_length.
Qed.

Lemma fill_nth_error typeAt parameters count :
  forall i inValues j,
    nth_error (fill typeAt parameters count i inValues) j
    = if (i <=? j)%nat && (j <? i + count)%nat
         && (j <? List.length inValues)%nat
      then Some (computeValue (nth j parameters (Nil U)) (typeAt j))
      else nth_error inValues j.
Proof.
  induction count as [|count IH]; intros i inValues j; simpl.
  - destruct (Nat.leb_spec i j), (Nat.ltb_spec j (i + 0)); simpl;
      try reflexivity; lia.
  - rewrite IH, setAt_length, setAt_nth_error.
    destruct (Nat.leb_spec (S i) j), (Nat.leb_spec i j),
      (Nat.ltb_spec j (S i + count)), (Nat.ltb_spec j (i + S count)),
      (Nat.ltb_spec j (List.length inValues)), (Nat.eqb_spec j i);
      simpl; try reflexivity; try lia.
    now subst.
Qed.

Lemma inValuesFor_nil funcType parameters j :
  (j < List.length parameters)%nat ->
  nth j parameters (Nil U) = Nil U ->
  (j < limitOf funcType)%nat \/ reflect.IsVariadic funcType = true ->
  nth_error (inValuesFor funcType parameters) j
  = Some (reflect.Zero (expectedAt funcType j)).
Proof.
  intros Hj Hnil Hcovered. unfold inValuesFor, expectedAt.
  set (limit := limitOf funcType).
  destruct (reflect.IsVariadic funcType) eqn:Hv.
  - rewrite fill_nth_error, fill_length, repeat_length, fill_nth_error,
      repeat_length, Hnil.
    destruct (Nat.leb_spec limit j), (Nat.ltb_spec j limit),
      (Nat.ltb_spec j (limit + (List.length parameters - limit))),
      (Nat.ltb_spec j (List.length parameters)),
      (Nat.ltb_spec j (0 + Nat.min limit (List.length parameters)));
      simpl; try reflexivity; lia.
  - destruct Hcovered as [Hlt|]; [|discriminate].
    rewrite fill_nth_error, repeat_length, Hnil.
    destruct (Nat.ltb_spec j limit),
      (Nat.ltb_spec j (List.length parameters)),
      (Nat.ltb_spec j (0 + Nat.min limit (List.length parameters)));
      simpl; try reflexivity; lia.
Qed.

(** C10.  Nil parameters.  [validateParameters] succeeds exactly when
    the number of parameters fits and every parameter that is not nil is
    assignable to the type expected at its place; a type error always
    stems from a parameter that is not nil, so parameters that are all nil
    never give one; and in the values [invokeFunction] calls the function
    with, a nil parameter is replaced by the zero value of the type
    declared at its place. *)
Theorem nil_parameters_pass function parameters kind cl :
  (validateParameters function parameters kind cl = None
   <-> accepts function parameters)
  /\ (forall err,
        validateParameters function parameters kind cl = Some err ->
        isTypeError err = true ->
        exists j actual,
          (j < List.length parameters)%nat
          /\ TypeOf (nth j parameters (Nil U)) = Some actual
          /\ AssignableTo actual (expectedAt (funcType function) j) = false)
  /\ (Forall (fun p => p = Nil U) parameters ->
      forall err,
        validateParameters function parameters kind cl = Some err ->
        isTypeError err = false)
  /\ (forall j,
        (j < List.length parameters)%nat ->
        nth j parameters (Nil U) = Nil U ->
        (j < limitOf (funcType function))%nat
        \/ reflect.IsVariadic (funcType function) = true ->
        nth_error (inValuesFor (funcType function) parameters) j
        = Some (reflect.Zero (expectedAt (funcType function) j)))
  /\ (forall u,
        invokeFunction function parameters u
        = Call function (inValuesFor (funcType function) parameters) u).
Proof.
  repeat apply conj.
  - apply validateParameters_None.
  - apply validateParameters_None.
  - apply validateParameters_type_error.
  - intros Hall err Herr.
    destruct (isTypeError err) eqn:Hty; [|reflexivity].
    destruct (validateParameters_type_error _ _ _ _ _ Herr Hty)
      as (j & a & Hj & Ha & _).
    rewrite Forall_forall in Hall.
    rewrite (Hall (nth j parameters (Nil U))) in Ha by (now apply nth_In).
    discriminate.
  - intros. now apply inValuesFor_nil.
  - reflexivity.
Qed.

(** ** Further properties of the suite engine *)

(** *** Running one node *)

Lemma taskOutcome_states (r : BodyRun U) :
  In (fst (taskOutcome r))
     [types.SpecStatePassed; types.SpecStateFailed; types.SpecStateSkipped;
      types.SpecStateAborted].
Proof.
  unfold taskOutcome.
  destruct (exit r), (recorded r) as [[]|]; simpl; auto 6.
Qed.

Lemma runNode_outcome node call ch text suiteConfig w :
  let r := fst (runNode node call ch text suiteConfig w) in
  (channelFires (env w) ch (now w) = true
   /\ outcome r = types.SpecStateInterrupted)
  \/ (channelFires (env w) ch (now w) = false
      /\ outcome r = fst (taskOutcome (invoke node call (user w)))).
Proof.
  unfold runNode.
  destruct (types.SuiteConfig.EmitSpecProgress suiteConfig);
    cbn -[channelFires taskOutcome];
    cbn [env now user withInvoked Writer_Write withWriter];
    (destruct (channelFires (env w) ch (now w)); [left; auto|right]);
    (split; [reflexivity|]);
    destruct (taskOutcome (invoke node call (user w))) as [o f];
    destruct (types.SpecState_eqb o types.SpecStatePassed); reflexivity.
Qed.

Lemma runNode_failure node call ch text suiteConfig w :
  let r := fst (runNode node call ch text suiteConfig w) in
  (outcome r = types.SpecStatePassed /\ failure r = types.Failure.zero)
  \/ (outcome r <> types.SpecStatePassed
      /\ exists message location forwardedPanic,
           failure r
           = withMessageLocationPanic message location forwardedPanic
               (failureContextFor node)).
Proof.
  unfold runNode.
  destruct (types.SuiteConfig.EmitSpecProgress suiteConfig);
    cbn -[channelFires taskOutcome failureContextFor];
    (destruct (channelFires _ ch _);
     [right; cbn; split; [discriminate|eauto]|]);
    destruct (taskOutcome _) as [o f];
    destruct (types.SpecState_eqb o types.SpecStatePassed) eqn:E;
    cbn -[failureContextFor];
    try (apply SpecState_eqb_eq in E; left; auto);
    apply SpecState_eqb_neq in E; right; eauto.
Qed.

(** X1.  The failure [runNode] returns.  A Passed outcome comes with the
    empty failure.  Every other outcome, an interrupt included, comes with
    a failure that carries the type and the code location of the node and
    its context: leaf node for an It or a suite-level node, top level for
    any other node at nesting level 0 or below, and otherwise in a
    container, with container index [NestingLevel - 1]. *)
Theorem failure_names_the_node node call ch text suiteConfig w :
  let r := fst (runNode node call ch text suiteConfig w) in
  let leaf :=
    types.NodeType_Is (NodeType node)
      (types.NodeTypeIt :: types.NodeTypesForSuiteLevelNodes) in
  (outcome r = types.SpecStatePassed -> failure r = types.Failure.zero)
  /\ (outcome r <> types.SpecStatePassed ->
      types.Failure.FailureNodeType (failure r) = NodeType node
      /\ types.Failure.FailureNodeLocation (failure r) = CodeLocation node
      /\ types.Failure.FailureNodeContext (failure r)
         = (if leaf then types.FailureNodeIsLeafNode
            else if NestingLevel node <=? 0 then types.FailureNodeAtTopLevel
                 else types.FailureNodeInContainer)
      /\ (leaf = false -> 0 < NestingLevel node ->
          types.Failure.FailureNodeContainerIndex (failure r)
          = NestingLevel node - 1)).
Proof.
  intros r leaf.
  destruct (runNode_failure node call ch text suiteConfig w)
    as [[Hp Hz]|(Hne & m & l & p & Hf)].
  - fold r in Hp, Hz. split; [intros _; exact Hz|congruence].
  - fold r in Hne, Hf. split; [congruence|]. intros _. rewrite Hf.
    unfold withMessageLocationPanic, failureContextFor.
    cbn [types.Failure.FailureNodeType types.Failure.FailureNodeLocation
         types.Failure.FailureNodeContext
         types.Failure.FailureNodeContainerIndex].
    assert (Hleaf : types.NodeType_Is (NodeType node) [types.NodeTypeIt]
                    || types.NodeType_Is (NodeType node)
                         types.NodeTypesForSuiteLevelNodes = leaf)
      by (subst leaf; destruct (NodeType node); reflexivity).
    rewrite Hleaf. repeat split. intros -> Hlevel.
    destruct (Z.leb_spec (NestingLevel node) 0); [lia|reflexivity].
Qed.

(** X2.  Report hooks are not interruptible.  [runNode] called without an
    interrupt channel, as [reportAfterEach] and [runReportAfterSuiteNode]
    call it, never gives the Interrupted outcome, whatever signals arrive.
    Hence [reportAfterEach] never turns a report into an Interrupted one,
    and [runReportAfterSuiteNode] never records Interrupted. *)
Theorem report_hooks_are_not_interrupted suiteConfig :
  (forall node call text w,
     outcome (fst (runNode node call None text suiteConfig w))
     <> types.SpecStateInterrupted)
  /\ (forall spec suite w,
        State_ suite <> types.SpecStateInterrupted ->
        State_ (fst (reportAfterEach spec suiteConfig suite w))
        <> types.SpecStateInterrupted)
  /\ (forall node r suite w,
        State_ (fst (runReportAfterSuiteNode node r suiteConfig suite w))
        <> types.SpecStateInterrupted).
Proof.
  assert (Hnode : forall node call text w,
             outcome (fst (runNode node call None text suiteConfig w))
             <> types.SpecStateInterrupted).
  { intros node call text w.
    destruct (runNode_outcome node call None text suiteConfig w)
      as [[Hf _]|[_ Ho]]; [discriminate Hf|].
    rewrite Ho.
    pose proof (taskOutcome_states (invoke node call (user w))) as Hin.
    simpl in Hin. intuition congruence. }
  split; [exact Hnode|]. split.
  - intros spec suite w. unfold reportAfterEach.
    generalize (SortedByDescendingNestingLevel
                  (WithType [types.NodeTypeReportAfterEach] (Nodes_ spec))).
    intro nodes. revert suite w.
    induction nodes as [|n nodes IH]; intros suite w Hs; [exact Hs|].
    cbn [runReportAfterEachNodes]. unfold runReportAfterEachNode.
    pose proof (Hnode n (CallReportAfterEachBody (currentSpecReport suite))
                  (BestTextFor (Nodes_ spec) n) (Writer_Truncate w)) as Hn.
    destruct (runNode n _ None _ suiteConfig (Writer_Truncate w)) as [r w1].
    cbn [fst] in Hn. apply IH.
    destruct (_ || _); cbn; assumption.
  - intros node r suite w. unfold runReportAfterSuiteNode.
    destruct (types.SuiteConfig.DryRun suiteConfig); [cbn; congruence|].
    destruct (types.SuiteConfig.ParallelTotal suiteConfig >? 1).
    + unfold Client_BlockUntilAggregatedNonprimaryNodesReport.
      destruct (commErrorNow (Writer_Truncate w)); [cbn; congruence|].
      pose proof (Hnode node
                    (CallReportAfterSuiteBody
                       (types.Report.Add r
                          (Environment.aggregatedNonprimaryNodesReport
                             (env (Writer_Truncate w))
                             (now (Writer_Truncate w)))))
                    EmptyString (tick (Writer_Truncate w))) as Hn.
      destruct (runNode node _ None _ suiteConfig _) as [r1 w1].
      cbn in *. assumption.
    + pose proof (Hnode node (CallReportAfterSuiteBody r) EmptyString
                    (Writer_Truncate w)) as Hn.
      destruct (runNode node _ None _ suiteConfig _) as [r1 w1].
      cbn in *. assumption.
Qed.

(** *** Attempts *)

(** X3.  The first loop of an attempt stops at the first node that does
    not pass.  The bodies it starts are those of a prefix of the setup
    nodes; when a node is left out, the state recorded is not Passed, so
    the It body is started only after every BeforeEach and JustBeforeEach
    node has passed; and the loop runs at least one node when there is
    one. *)
Theorem setup_stops_at_first_failure spec suiteConfig ch nodes d suite w :
  exists executed rest,
    nodes = executed ++ rest
    /\ invoked (snd (runSetupNodes spec suiteConfig ch nodes d suite w))
       = invoked w ++ map bodyOf executed
    /\ (rest <> [] ->
        State_ (snd (fst (runSetupNodes spec suiteConfig ch nodes d suite w)))
        <> types.SpecStatePassed)
    /\ (executed = [] -> nodes = []).
Proof.
  revert d suite w. induction nodes as [|n nodes IH]; intros d suite w.
  - exists [], []. cbn. rewrite app_nil_r. repeat split; congruence.
  - cbn [runSetupNodes].
    pose proof (runNode_invoked n CallBody (Some ch)
                  (BestTextFor (Nodes_ spec) n) suiteConfig w) as Hinv.
    destruct (runNode n CallBody (Some ch) _ suiteConfig w) as [r w1].
    cbn [snd] in Hinv.
    destruct (negb _) eqn:E.
    + exists [n], nodes. cbn [fst snd map app]. repeat split; auto.
      * intros _. apply negb_true_iff in E. now apply SpecState_eqb_neq.
      * discriminate.
    + destruct (IH (max d (NestingLevel n))
                   (withOutcome (outcome r) (failure r) suite) w1)
        as (executed & rest & Hsplit & Hi & Hstop & _).
      exists (n :: executed), rest. cbn [map app].
      rewrite Hi, Hinv, <- app_assoc. repeat split; auto.
      * now rewrite Hsplit.
      * discriminate.
Qed.

Lemma runAttempts_last spec suiteConfig (k : nat) :
  forall (remaining : nat) (attempt : Z) suite w,
    (k < remaining)%nat ->
    (forall i, (i < k)%nat ->
       failedUninterrupted
         (afterAttemptFrom spec suiteConfig attempt i suite w)) ->
    State_ (fst (afterAttemptFrom spec suiteConfig attempt k suite w))
    <> types.SpecStatePassed ->
    Interrupted
      (fst (Status (snd (afterAttemptFrom spec suiteConfig attempt k suite
                                          w)))) = true
    \/ remaining = S k ->
    runAttempts spec suiteConfig remaining attempt suite w
    = (fst (afterAttemptFrom spec suiteConfig attempt k suite w),
       snd (Status (snd (afterAttemptFrom spec suiteConfig attempt k suite
                                          w)))).
Proof.
  induction k as [|k IH]; intros remaining attempt suite w Hlt Hfail Hne Hend;
    (destruct remaining as [|remaining]; [lia|]);
    cbn [runAttempts afterAttemptFrom] in *.
  - destruct (runAttempt spec suiteConfig attempt suite w) as [s1 w1].
    cbn [fst snd] in *. apply SpecState_eqb_neq in Hne. rewrite Hne.
    destruct Hend as [Hint|Hlast].
    + cbn in Hint |- *. now rewrite Hint.
    + injection Hlast as ->. unfold Status. cbn -[signalledWithin].
      destruct (signalledWithin (env w1) 0 (S (now w1))); reflexivity.
  - pose proof (Hfail 0%nat ltac:(lia)) as [Hs Hi].
    cbn [afterAttemptFrom] in Hs, Hi.
    destruct (runAttempt spec suiteConfig attempt suite w) as [s1 w1] eqn:E.
    cbn [fst snd] in Hs, Hi. apply SpecState_eqb_neq in Hs. rewrite Hs.
    cbn in Hi |- *. rewrite Hi.
    apply IH; [lia| |exact Hne|].
    + intros i Hi'. specialize (Hfail (S i) ltac:(lia)).
      cbn [afterAttemptFrom] in Hfail. now rewrite E in Hfail.
    + destruct Hend as [Hint|Hlast]; [left; exact Hint|right; lia].
Qed.

Lemma maxAttemptsFor_positive spec suiteConfig :
  1 <= maxAttemptsFor spec suiteConfig.
Proof.
  unfold maxAttemptsFor. rewrite max_spec.
  destruct (Z.gtb_spec (types.SuiteConfig.FlakeAttempts suiteConfig) 0); lia.
Qed.

(** X4.  Retries run out.  [runSpec] always allows at least one attempt.
    When the run is not a dry run and every one of the [maxAttempts]
    attempts ends not Passed, with no interrupt observed after it,
    [runSpec] makes exactly [maxAttempts] attempts: the report is the one
    the last attempt left, it is not Passed, [NumAttempts] is
    [maxAttempts], and the captured writer output holds the retry notices
    numbered 1 to [maxAttempts - 1]. *)
Theorem failed_attempts_exhaust_retries spec suiteConfig suite w :
  let attemptEnd i :=
    afterAttemptFrom spec suiteConfig 0 i suite (Writer_Truncate w) in
  let maxAttempts := maxAttemptsFor spec suiteConfig in
  let final := fst (runSpec spec suiteConfig suite w) in
  types.SuiteConfig.DryRun suiteConfig = false ->
  (forall i, Z.of_nat i < maxAttempts -> failedUninterrupted (attemptEnd i)) ->
  1 <= maxAttempts
  /\ final = fst (attemptEnd (Z.to_nat (maxAttempts - 1)))
  /\ State_ final <> types.SpecStatePassed
  /\ types.SpecReport.NumAttempts (currentSpecReport final) = maxAttempts
  /\ retryNotices
       (types.SpecReport.CapturedGinkgoWriterOutput (currentSpecReport final))
     = map Z.of_nat (seq 1 (Z.to_nat (maxAttempts - 1))).
Proof.
  intros attemptEnd maxAttempts final Hdry Hfail.
  pose proof (maxAttemptsFor_positive spec suiteConfig) as Hpos.
  fold maxAttempts in Hpos.
  assert (Hlast : failedUninterrupted
                    (attemptEnd (Z.to_nat (maxAttempts - 1))))
    by (apply Hfail; lia).
  assert (Hrun : final = fst (attemptEnd (Z.to_nat (maxAttempts - 1)))).
  { subst final. unfold runSpec. rewrite Hdry. fold maxAttempts.
    rewrite (runAttempts_last spec suiteConfig (Z.to_nat (maxAttempts - 1)));
      [reflexivity|lia| |apply Hlast|right; lia].
    intros i Hi. apply Hfail. lia. }
  split; [exact Hpos|]. split; [exact Hrun|]. rewrite Hrun.
  split; [apply Hlast|].
  destruct (afterAttemptFrom_report spec suiteConfig
              (Z.to_nat (maxAttempts - 1)) 0 suite (Writer_Truncate w)
              ltac:(lia)) as (H1 & H2 & H3).
  subst attemptEnd. cbv beta in *. rewrite H1, H2, H3. split; [lia|].
  change (retryNotices (writer (Writer_Truncate w))) with (@nil Z).
  change (0 >? 0) with false. cbn [app].
  rewrite <- seq_shift, map_map. apply map_ext. intros; lia.
Qed.

(** X5.  An interrupt ends the retries.  When the run is not a dry run
    and attempt [k], with [k < maxAttempts], ends not Passed and
    [Status()] then shows an interrupt, after earlier attempts that failed
    with no interrupt observed, [runSpec] returns at the end of attempt
    [k] however many attempts are left: [NumAttempts] is [k + 1]. *)
Theorem interrupt_ends_retries spec suiteConfig suite w (k : nat) :
  let attemptEnd i :=
    afterAttemptFrom spec suiteConfig 0 i suite (Writer_Truncate w) in
  let final := fst (runSpec spec suiteConfig suite w) in
  types.SuiteConfig.DryRun suiteConfig = false ->
  Z.of_nat k < maxAttemptsFor spec suiteConfig ->
  (forall i, (i < k)%nat -> failedUninterrupted (attemptEnd i)) ->
  State_ (fst (attemptEnd k)) <> types.SpecStatePassed ->
  Interrupted (fst (Status (snd (attemptEnd k)))) = true ->
  final = fst (attemptEnd k)
  /\ types.SpecReport.NumAttempts (currentSpecReport final) = Z.of_nat k + 1.
Proof.
  intros attemptEnd final Hdry Hk Hfail Hne Hint.
  assert (Hrun : final = fst (attemptEnd k)).
  { subst final. unfold runSpec. rewrite Hdry.
    rewrite (runAttempts_last spec suiteConfig k);
      [reflexivity|lia|exact Hfail|exact Hne|left; exact Hint]. }
  split; [exact Hrun|]. rewrite Hrun.
  destruct (afterAttemptFrom_report spec suiteConfig k 0 suite
              (Writer_Truncate w) ltac:(lia)) as (H1 & _).
  subst attemptEnd. cbv beta in *. rewrite H1. lia.
Qed.

(** *** What the engine leaves alone *)

Lemma keeps_refl suite : keeps suite suite.
Proof. repeat split; reflexivity. Qed.

Lemma keeps_trans suite1 suite2 suite3 :
  keeps suite1 suite2 -> keeps suite2 suite3 -> keeps suite1 suite3.
Proof.
  unfold keeps, sameRegistrations, sameSubject.
  intros (H1 & H2) (H3 & H4). repeat split; intuition congruence.
Qed.

Lemma keeps_withOutcome state failure suite :
  keeps suite (withOutcome state failure suite).
Proof. repeat split; reflexivity. Qed.

Ltac keeps_step :=
  first
    [ match goal with
      | |- context [runNode ?n ?c ?i ?t ?cfg ?x] =>
          destruct (runNode n c i t cfg x)
      end
    | match goal with
      | |- context [if ?b then _ else _] => destruct b
      | |- context [match ?e with Some _ => _ | None => _ end] => destruct e
      | |- context [match Server.beforeSuiteState ?e with _ => _ end] =>
          destruct (Server.beforeSuiteState e)
      end ];
  cbn -[runNode].

Lemma runSetupNodes_keeps spec suiteConfig ch nodes :
  forall d suite w,
    keeps suite
      (snd (fst (runSetupNodes spec suiteConfig ch nodes d suite w))).
Proof.
  induction nodes as [|n nodes IH]; intros d suite w; cbn [runSetupNodes].
  - apply keeps_refl.
  - destruct (runNode n CallBody (Some ch) _ suiteConfig w) as [r w1].
    destruct (negb _); cbn [fst snd].
    + apply keeps_withOutcome.
    + eapply keeps_trans; [apply keeps_withOutcome|apply IH].
Qed.

Lemma runCleanUpNodes_keeps spec suiteConfig nodes :
  forall suite w,
    keeps suite (fst (runCleanUpNodes spec suiteConfig nodes suite w)).
Proof.
  induction nodes as [|n nodes IH]; intros suite w; cbn [runCleanUpNodes].
  - apply keeps_refl.
  - unfold runCleanUpNode. cbn [Status fst snd Channel].
    destruct (runNode n CallBody _ _ suiteConfig (tick w)) as [r w1].
    eapply keeps_trans; [|apply IH].
    destruct (_ || _); [apply keeps_withOutcome|apply keeps_refl].
Qed.

Lemma runAttempt_keeps spec suiteConfig attempt suite w :
  keeps suite (fst (runAttempt spec suiteConfig attempt suite w)).
Proof.
  unfold runAttempt. cbn [Status fst snd Channel].
  match goal with
  | |- context [runSetupNodes ?a ?b ?c ?d ?e ?f ?g] =>
      pose proof (runSetupNodes_keeps a b c d e f g) as H1;
      destruct (runSetupNodes a b c d e f g) as [[d1 s1] w1]
  end.
  match goal with
  | |- context [runCleanUpNodes ?a ?b ?c ?d ?e] =>
      pose proof (runCleanUpNodes_keeps a b c d e) as H2;
      destruct (runCleanUpNodes a b c d e) as [s2 w2]
  end.
  cbn [fst snd] in *.
  assert (H3 : keeps suite s2).
  { eapply keeps_trans; [|eapply keeps_trans; [exact H1|exact H2]].
    repeat split; reflexivity. }
  eapply keeps_trans; [exact H3|]. repeat split; reflexivity.
Qed.

Lemma runAttempts_keeps spec suiteConfig remaining :
  forall attempt suite w,
    keeps suite
      (fst (runAttempts spec suiteConfig remaining attempt suite w)).
Proof.
  induction remaining as [|remaining IH]; intros attempt suite w;
    cbn [runAttempts]; [apply keeps_refl|].
  pose proof (runAttempt_keeps spec suiteConfig attempt suite w) as H1.
  destruct (runAttempt spec suiteConfig attempt suite w) as [s1 w1].
  cbn [fst] in H1. destruct (types.SpecState_eqb _ _); [exact H1|].
  cbn [Status fst snd Interrupted].
  destruct (signalledWithin _ _ _); [exact H1|].
  eapply keeps_trans; [exact H1|apply IH].
Qed.

Lemma runSpec_keeps spec suiteConfig suite w :
  keeps suite (fst (runSpec spec suiteConfig suite w)).
Proof.
  unfold runSpec. destruct (types.SuiteConfig.DryRun suiteConfig).
  - repeat split; reflexivity.
  - apply runAttempts_keeps.
Qed.

Lemma runReportAfterEachNodes_keeps spec suiteConfig nodes :
  forall suite w,
    keeps suite
      (fst (runReportAfterEachNodes spec suiteConfig nodes suite w)).
Proof.
  induction nodes as [|n nodes IH]; intros suite w;
    cbn [runReportAfterEachNodes]; [apply keeps_refl|].
  unfold runReportAfterEachNode.
  destruct (runNode n _ None _ suiteConfig (Writer_Truncate w)) as [r w1].
  eapply keeps_trans; [|apply IH].
  destruct (_ || _); repeat split; reflexivity.
Qed.

Lemma reportAfterEach_keeps spec suiteConfig suite w :
  keeps suite (fst (reportAfterEach spec suiteConfig suite w)).
Proof. apply runReportAfterEachNodes_keeps. Qed.

Lemma runSuiteNode_keeps node ch suiteConfig suite w :
  keeps suite (fst (runSuiteNode node ch suiteConfig suite w)).
Proof.
  unfold runSuiteNode, runSynchronizedBeforeSuite, runSynchronizedAfterSuite,
    Client_PostSynchronizedBeforeSuiteSucceeded,
    Client_PostSynchronizedBeforeSuiteFailed,
    Client_BlockUntilSynchronizedBeforeSuiteData,
    Client_BlockUntilNonprimaryNodesHaveFinished.
  destruct (types.SuiteConfig.DryRun suiteConfig);
    [repeat split; reflexivity|].
  destruct (NodeType node); repeat keeps_step; repeat split; reflexivity.
Qed.

Lemma runReportAfterSuiteNode_keeps node r suiteConfig suite w :
  keeps suite (fst (runReportAfterSuiteNode node r suiteConfig suite w)).
Proof.
  unfold runReportAfterSuiteNode,
    Client_BlockUntilAggregatedNonprimaryNodesReport.
  destruct (types.SuiteConfig.DryRun suiteConfig);
    [repeat split; reflexivity|].
  repeat keeps_step; repeat split; reflexivity.
Qed.

Lemma later_refl w : later w w.
Proof. split; [reflexivity|lia]. Qed.

Lemma later_trans w1 w2 w3 : later w1 w2 -> later w2 w3 -> later w1 w3.
Proof. unfold later. intros [H1 H2] [H3 H4]. split; [congruence|lia]. Qed.

Lemma runNode_later node call ch text suiteConfig w :
  later w (snd (runNode node call ch text suiteConfig w)).
Proof.
  split; [apply runNode_env|rewrite runNode_now; lia].
Qed.

Ltac later_step :=
  first
    [ match goal with
      | |- context [runNode ?n ?c ?i ?t ?cfg ?x] =>
          let H := fresh "Hlater" in
          pose proof (runNode_later n c i t cfg x) as H;
          destruct (runNode n c i t cfg x); cbn [fst snd] in H
      end
    | match goal with
      | |- context [if ?b then _ else _] => destruct b
      | |- context [match ?e with Some _ => _ | None => _ end] => destruct e
      | |- context [match Server.beforeSuiteState ?e with _ => _ end] =>
          destruct (Server.beforeSuiteState e)
      end ];
  cbn -[runNode].

Ltac later_done :=
  unfold later in *; cbn in *;
  repeat match goal with H : _ /\ _ |- _ => destruct H end;
  split; [congruence|lia].

Lemma Client_Post_later p w : later w (Client_Post p w).
Proof. unfold Client_Post. destruct (commErrorNow w); later_done. Qed.

Lemma processSpecReport_later suiteConfig specReport r w :
  later w
    (snd (processSpecReport SpecStateFailureStates suiteConfig specReport r
                            w)).
Proof.
  unfold processSpecReport. cbn [snd].
  destruct (_ >? _); [apply Client_Post_later|apply later_refl].
Qed.

Lemma runSetupNodes_later spec suiteConfig ch nodes :
  forall d suite w,
    later w (snd (runSetupNodes spec suiteConfig ch nodes d suite w)).
Proof.
  induction nodes as [|n nodes IH]; intros d suite w; cbn [runSetupNodes].
  - apply later_refl.
  - pose proof (runNode_later n CallBody (Some ch)
                  (BestTextFor (Nodes_ spec) n) suiteConfig w) as H.
    destruct (runNode n CallBody (Some ch) _ suiteConfig w) as [r w1].
    cbn [snd] in H. destruct (negb _); cbn [snd]; [exact H|].
    eapply later_trans; [exact H|apply IH].
Qed.

Lemma runCleanUpNodes_later spec suiteConfig nodes :
  forall suite w,
    later w (snd (runCleanUpNodes spec suiteConfig nodes suite w)).
Proof.
  induction nodes as [|n nodes IH]; intros suite w; cbn [runCleanUpNodes].
  - apply later_refl.
  - unfold runCleanUpNode. cbn [Status fst snd Channel].
    pose proof (runNode_later n CallBody (Some (S (now w)))
                  (BestTextFor (Nodes_ spec) n) suiteConfig (tick w)) as H.
    destruct (runNode n CallBody _ _ suiteConfig (tick w)) as [r w1].
    cbn [snd] in H. eapply later_trans; [|apply IH].
    later_done.
Qed.

Lemma runAttempt_later spec suiteConfig attempt suite w :
  later w (snd (runAttempt spec suiteConfig attempt suite w)).
Proof.
  unfold runAttempt. cbn [Status fst snd Channel].
  match goal with
  | |- context [runSetupNodes ?a ?b ?c ?d ?e ?f ?g] =>
      pose proof (runSetupNodes_later a b c d e f g) as H1;
      destruct (runSetupNodes a b c d e f g) as [[d1 s1] w1]
  end.
  match goal with
  | |- context [runCleanUpNodes ?a ?b ?c ?d ?e] =>
      pose proof (runCleanUpNodes_later a b c d e) as H2;
      destruct (runCleanUpNodes a b c d e) as [s2 w2]
  end.
  cbn [fst snd] in *. destruct (attempt >? 0); later_done.
Qed.

Lemma runAttempts_later spec suiteConfig remaining :
  forall attempt suite w,
    later w (snd (runAttempts spec suiteConfig remaining attempt suite w)).
Proof.
  induction remaining as [|remaining IH]; intros attempt suite w;
    cbn [runAttempts]; [apply later_refl|].
  pose proof (runAttempt_later spec suiteConfig attempt suite w) as H1.
  destruct (runAttempt spec suiteConfig attempt suite w) as [s1 w1].
  cbn [snd] in H1. destruct (types.SpecState_eqb _ _); [exact H1|].
  cbn [Status fst snd Interrupted].
  assert (H2 : later w (tick w1)) by later_done.
  destruct (signalledWithin _ _ _); [exact H2|].
  eapply later_trans; [exact H2|apply IH].
Qed.

Lemma runSpec_later spec suiteConfig suite w :
  later w (snd (runSpec spec suiteConfig suite w)).
Proof.
  unfold runSpec. destruct (types.SuiteConfig.DryRun suiteConfig).
  - apply later_refl.
  - eapply later_trans; [|apply runAttempts_later]. later_done.
Qed.

Lemma runReportAfterEachNodes_later spec suiteConfig nodes :
  forall suite w,
    later w (snd (runReportAfterEachNodes spec suiteConfig nodes suite w)).
Proof.
  induction nodes as [|n nodes IH]; intros suite w;
    cbn [runReportAfterEachNodes]; [apply later_refl|].
  unfold runReportAfterEachNode.
  pose proof (runNode_later n (CallReportAfterEachBody (currentSpecReport suite))
                None (BestTextFor (Nodes_ spec) n) suiteConfig
                (Writer_Truncate w)) as H.
  destruct (runNode n _ None _ suiteConfig (Writer_Truncate w)) as [r w1].
  cbn [snd] in H. eapply later_trans; [|apply IH]. later_done.
Qed.

Lemma reportAfterEach_later spec suiteConfig suite w :
  later w (snd (reportAfterEach spec suiteConfig suite w)).
Proof. apply runReportAfterEachNodes_later. Qed.

Lemma runSuiteNode_later node ch suiteConfig suite w :
  later w (snd (runSuiteNode node ch suiteConfig suite w)).
Proof.
  unfold runSuiteNode, runSynchronizedBeforeSuite, runSynchronizedAfterSuite,
    Client_PostSynchronizedBeforeSuiteSucceeded,
    Client_PostSynchronizedBeforeSuiteFailed,
    Client_BlockUntilSynchronizedBeforeSuiteData,
    Client_BlockUntilNonprimaryNodesHaveFinished.
  destruct (types.SuiteConfig.DryRun suiteConfig); [apply later_refl|].
  destruct (NodeType node); repeat later_step; later_done.
Qed.

Lemma runReportAfterSuiteNode_later node r suiteConfig suite w :
  later w (snd (runReportAfterSuiteNode node r suiteConfig suite w)).
Proof.
  unfold runReportAfterSuiteNode,
    Client_BlockUntilAggregatedNonprimaryNodesReport.
  destruct (types.SuiteConfig.DryRun suiteConfig); [apply later_refl|].
  repeat later_step; later_done.
Qed.

Lemma nextIndex_later suiteConfig calls w :
  later w (snd (nextIndex suiteConfig calls w)).
Proof.
  unfold nextIndex, Client_FetchNextCounter.
  destruct (_ >? _); [|apply later_refl].
  destruct (commErrorNow w); later_done.
Qed.

(** An interrupt observed once is observed ever after. *)
Lemma signalledWithin_later w w' :
  later w w' ->
  signalledWithin (env w) 0 (S (now w)) = true ->
  signalledWithin (env w') 0 (S (now w')) = true.
Proof.
  unfold later, signalledWithin. intros [-> Hle] H.
  apply existsb_exists in H. destruct H as (t & Hin & Ht).
  apply existsb_exists. exists t. split; [|exact Ht].
  apply in_seq in Hin. apply in_seq. lia.
Qed.

(** *** The report of a run *)

Lemma extendedBy_refl r : extendedBy [] [] r r.
Proof.
  unfold extendedBy. cbn. rewrite !app_nil_r, !andb_true_r. auto.
Qed.

Lemma isEmpty_app (A : Type) (l l' : list A) :
  isEmpty A (l ++ l') = isEmpty A l && isEmpty A l'.
Proof. destruct l; reflexivity. Qed.

Lemma extendedBy_trans rs1 reasons1 rs2 reasons2 r1 r2 r3 :
  extendedBy rs1 reasons1 r1 r2 -> extendedBy rs2 reasons2 r2 r3 ->
  extendedBy (rs1 ++ rs2) (reasons1 ++ reasons2) r1 r3.
Proof.
  unfold extendedBy. intros (H1 & H2 & H3) (H4 & H5 & H6).
  rewrite H4, H5, H6, H1, H2, H3, forallb_app, isEmpty_app, <- !app_assoc.
  repeat split.
  destruct (types.Report.SuiteSucceeded r1), (forallb passes rs1),
    (isEmpty string reasons1), (forallb passes rs2); reflexivity.
Qed.

Lemma sameRegistrations_refl suite : sameRegistrations suite suite.
Proof. repeat split; reflexivity. Qed.

Lemma sameRegistrations_trans suite1 suite2 suite3 :
  sameRegistrations suite1 suite2 -> sameRegistrations suite2 suite3 ->
  sameRegistrations suite1 suite3.
Proof.
  unfold sameRegistrations. intros (H1 & H2 & H3) (H4 & H5 & H6).
  repeat split; congruence.
Qed.

Lemma sameRegistrations_withCurrentSpecReport r suite :
  sameRegistrations suite (withCurrentSpecReport r suite).
Proof. repeat split; reflexivity. Qed.

Lemma follows_refl st : follows st st.
Proof.
  repeat split; try reflexivity; auto.
  exists [], []. apply extendedBy_refl.
Qed.

Lemma follows_trans st1 st2 st3 :
  follows st1 st2 -> follows st2 st3 -> follows st1 st3.
Proof.
  intros ((rs1 & reasons1 & H1) & H2 & H3 & H4)
         ((rs2 & reasons2 & H5) & H6 & H7 & H8).
  split; [|split; [|split]].
  - exists (rs1 ++ rs2), (reasons1 ++ reasons2).
    eapply extendedBy_trans; eassumption.
  - eapply sameRegistrations_trans; eassumption.
  - eapply later_trans; eassumption.
  - auto.
Qed.

Lemma processSpecReport_extendedBy suiteConfig specReport r w :
  extendedBy [specReport] [] r
    (fst (processSpecReport SpecStateFailureStates suiteConfig specReport r
                            w)).
Proof.
  unfold processSpecReport, extendedBy, passes. cbn [fst].
  destruct (types.SpecState_Is _ _) eqn:E; cbn;
    rewrite ?E, ?app_nil_r, ?andb_true_r, ?andb_false_r; auto.
Qed.

(** A step that ends with [processSpecReport]. *)
Lemma follows_processed suiteConfig st suite w aborted :
  sameRegistrations (suite_ st) suite ->
  later (world st) w ->
  (suiteAborted st = true -> aborted = true) ->
  follows st
    {| report :=
         fst (processSpecReport SpecStateFailureStates suiteConfig
                (currentSpecReport suite) (report st) w);
       suiteAborted := aborted; suite_ := suite;
       world :=
         snd (processSpecReport SpecStateFailureStates suiteConfig
                (currentSpecReport suite) (report st) w) |}.
Proof.
  intros H1 H2 H3. split; [|split; [|split]]; cbn [report suite_ world
                                                   suiteAborted].
  - exists [currentSpecReport suite], [].
    apply processSpecReport_extendedBy.
  - exact H1.
  - eapply later_trans; [exact H2|apply processSpecReport_later].
  - exact H3.
Qed.

Lemma follows_withWorld w st :
  later (world st) w -> follows st (withWorld w st).
Proof.
  intro H. repeat split; try reflexivity; try apply H; auto.
  exists [], []. apply extendedBy_refl.
Qed.

(** A step that fails the suite for a special reason. *)
Lemma follows_failed reason st :
  follows st
    (withReport
       (types.Report.withSuiteSucceeded false
          (types.Report.withSpecialSuiteFailureReasons
             (types.Report.SpecialSuiteFailureReasons (report st)
              ++ [reason])
             (report st))) st).
Proof.
  split; [|split; [|split]]; cbn [report suite_ world suiteAborted withReport].
  - exists [], [reason]. unfold extendedBy. cbn.
    rewrite app_nil_r, !andb_false_r. auto.
  - apply sameRegistrations_refl.
  - apply later_refl.
  - auto.
Qed.

Lemma runLoopSpec_follows spec suiteConfig st :
  follows st (runLoopSpec SpecStateFailureStates spec suiteConfig st).
Proof.
  unfold runLoopSpec.
  set (suite0 := withCurrentSpecReport _ (suite_ st)).
  match goal with
  | |- context [let '(skip, w) := ?e in _] =>
      assert (Hskip : later (world st) (snd e)); [|destruct e as [skip w0]]
  end.
  { destruct (_ && _); [apply later_refl|].
    cbn [Status fst snd Interrupted].
    destruct (_ || _); cbn [snd]; later_done. }
  cbn [snd] in Hskip. cbv iota beta.
  set (suite1 := if skip then _ else suite0).
  assert (H1 : sameRegistrations (suite_ st) suite1)
    by (subst suite1 suite0; destruct skip; repeat split; reflexivity).
  match goal with
  | |- context [let '(suite, w) := ?e in _] =>
      assert (Hrun : sameRegistrations suite1 (fst e) /\ later w0 (snd e));
      [|destruct e as [s1 w1]]
  end.
  { destruct (negb skip); cbn [fst snd].
    - split; [apply runSpec_keeps|apply runSpec_later].
    - split; [apply sameRegistrations_refl|apply later_refl]. }
  cbn [fst snd] in Hrun. destruct Hrun as [H2 H3].
  pose proof (reportAfterEach_keeps spec suiteConfig s1 w1) as [H4 _].
  pose proof (reportAfterEach_later spec suiteConfig s1 w1) as H5.
  destruct (reportAfterEach spec suiteConfig s1 w1) as [s2 w2].
  cbn [fst snd] in H4, H5.
  assert (H6 : sameRegistrations (suite_ st) s2)
    by (eapply sameRegistrations_trans;
        [exact H1|eapply sameRegistrations_trans; eassumption]).
  assert (H7 : later (world st) w2)
    by (eapply later_trans; [exact Hskip|eapply later_trans; eassumption]).
  pose proof (follows_processed suiteConfig st s2 w2
                (if types.SpecState_eqb (State_ s2) types.SpecStateAborted
                 then true else suiteAborted st) H6 H7) as H8.
  destruct (processSpecReport _ suiteConfig (currentSpecReport s2)
              (report st) w2) as [r3 w3].
  cbn [fst snd] in H8.
  destruct H8 as (Hr & Hs & Hw & Ha);
    [destruct (types.SpecState_eqb _ _); auto|].
  cbn [report suite_ world suiteAborted] in *.
  split; [exact Hr|split; [|split]];
    cbn [report suite_ world suiteAborted].
  - eapply sameRegistrations_trans;
      [exact Hs|apply sameRegistrations_withCurrentSpecReport].
  - destruct (_ && _); [|exact Hw].
    eapply later_trans; [exact Hw|apply Client_Post_later].
  - exact Ha.
Qed.

Lemma runLoop_follows fuel specs suiteConfig :
  forall calls st,
    follows st (runLoop SpecStateFailureStates fuel specs suiteConfig calls
                        st).
Proof.
  induction fuel as [|fuel IH]; intros calls st; cbn [runLoop];
    [apply follows_refl|].
  pose proof (nextIndex_later suiteConfig calls (world st)) as Hn.
  destruct (nextIndex suiteConfig calls (world st))
    as [[[idx err] calls'] w1].
  cbn [snd] in Hn.
  destruct err as [e|].
  - eapply follows_trans; [apply follows_failed|].
    apply follows_withWorld. exact Hn.
  - destruct (nth_error specs idx) as [spec|].
    + eapply follows_trans; [apply follows_withWorld; exact Hn|].
      eapply follows_trans; [apply runLoopSpec_follows|apply IH].
    + apply follows_withWorld. exact Hn.
Qed.

Lemma runBeforeSuite_follows num suiteConfig st :
  follows st (runBeforeSuite SpecStateFailureStates num suiteConfig st).
Proof.
  unfold runBeforeSuite. cbn [Status fst snd Channel Interrupted].
  destruct (_ && _); [|apply follows_withWorld; later_done].
  match goal with
  | |- context [runSuiteNode ?a ?b ?c ?d ?e] =>
      pose proof (runSuiteNode_keeps a b c d e) as [H1 _];
      pose proof (runSuiteNode_later a b c d e) as H2;
      destruct (runSuiteNode a b c d e) as [s1 w1]
  end.
  cbn [fst snd] in H1, H2.
  pose proof (follows_processed suiteConfig st s1 w1 (suiteAborted st)) as H.
  destruct (processSpecReport _ suiteConfig (currentSpecReport s1)
              (report st) w1) as [r2 w2].
  apply H; [exact H1| |auto]. later_done.
Qed.

Lemma runAfterSuite_follows num suiteConfig st :
  follows st (runAfterSuite SpecStateFailureStates num suiteConfig st).
Proof.
  unfold runAfterSuite. cbn [Status fst snd Channel].
  destruct (_ && _); [|apply follows_refl].
  match goal with
  | |- context [runSuiteNode ?a ?b ?c ?d ?e] =>
      pose proof (runSuiteNode_keeps a b c d e) as [H1 _];
      pose proof (runSuiteNode_later a b c d e) as H2;
      destruct (runSuiteNode a b c d e) as [s1 w1]
  end.
  cbn [fst snd] in H1, H2.
  pose proof (follows_processed suiteConfig st s1 w1 (suiteAborted st)) as H.
  destruct (processSpecReport _ suiteConfig (currentSpecReport s1)
              (report st) w1) as [r2 w2].
  apply H; [exact H1| |auto]. later_done.
Qed.

Lemma runReportAfterSuiteNodes_follows nodes suiteConfig :
  forall st,
    follows st (runReportAfterSuiteNodes SpecStateFailureStates nodes
                                         suiteConfig st).
Proof.
  induction nodes as [|n nodes IH]; intro st;
    cbn [runReportAfterSuiteNodes]; [apply follows_refl|].
  match goal with
  | |- context [runReportAfterSuiteNode ?a ?b ?c ?d ?e] =>
      pose proof (runReportAfterSuiteNode_keeps a b c d e) as [H1 _];
      pose proof (runReportAfterSuiteNode_later a b c d e) as H2;
      destruct (runReportAfterSuiteNode a b c d e) as [s1 w1]
  end.
  cbn [fst snd] in H1, H2.
  pose proof (follows_processed suiteConfig st s1 w1 (suiteAborted st)
                H1 H2 (fun H => H)) as H.
  destruct (processSpecReport _ suiteConfig (currentSpecReport s1)
              (report st) w1) as [r2 w2].
  eapply follows_trans; [exact H|apply IH].
Qed.

Ltac run_specs_stages specs suiteConfig suitePath w suite :=
  unfold runSpecsState;
  set (initialReport := {| types.Report.SuitePath := suitePath |});
  set (w0 := if types.SuiteConfig.ParallelTotal suiteConfig >? 1
             then Client_Post (PostSuiteWillBegin initialReport) w else w);
  set (st0 := {| report := _; suiteAborted := false; suite_ := suite;
                 world := w0 |});
  set (st1 := runBeforeSuite _ (CountWithoutSkip specs) suiteConfig st0);
  set (st2 := if types.Report.SuiteSucceeded (report st1) then _ else st1);
  set (st3 := runAfterSuite _ (CountWithoutSkip specs) suiteConfig st2);
  cbn [Status fst snd Interrupted];
  set (st4 := if signalledWithin _ _ _ then _ else withWorld _ st3);
  set (st5 := if types.SuiteConfig.ParallelNode suiteConfig =? 1 then _
              else st4).

Lemma runSpecsState_follows description suitePath focus specs suiteConfig
  suite w :
  let final :=
    runSpecsState SpecStateFailureStates description suitePath focus specs
                  suiteConfig suite w in
  types.Report.SuiteSucceeded (report final)
  = forallb passes (types.Report.SpecReports (report final))
    && isEmpty string (types.Report.SpecialSuiteFailureReasons (report final))
  /\ sameRegistrations suite (suite_ final)
  /\ later w (world final).
Proof.
  run_specs_stages specs suiteConfig suitePath w suite.
  assert (H0 : later w w0)
    by (subst w0; destruct (_ >? _);
        [apply Client_Post_later|apply later_refl]).
  assert (H1 : follows st0 st1) by apply runBeforeSuite_follows.
  assert (H2 : follows st1 st2).
  { subst st2. destruct (types.Report.SuiteSucceeded (report st1));
      [|apply follows_refl].
    destruct (_ && _).
    - eapply follows_trans; [apply runLoop_follows|apply follows_failed].
    - apply runLoop_follows. }
  assert (H3 : follows st2 st3) by apply runAfterSuite_follows.
  assert (H4 : follows st3 st4).
  { subst st4. destruct (signalledWithin _ _ _).
    - eapply follows_trans; [|apply follows_failed].
      apply follows_withWorld. later_done.
    - apply follows_withWorld. later_done. }
  assert (H5 : follows st4 st5).
  { subst st5. destruct (_ =? _); [|apply follows_refl].
    apply runReportAfterSuiteNodes_follows. }
  assert (H6 : follows st0 st5)
    by (eapply follows_trans; [exact H1|];
        eapply follows_trans; [exact H2|];
        eapply follows_trans; [exact H3|];
        eapply follows_trans; [exact H4|exact H5]).
  destruct H6 as ((rs & reasons & Hr1 & Hr2 & Hr3) & Hs & Hw & _).
  change (types.Report.SpecReports (report st0))
    with (@nil types.SpecReport.t) in Hr1.
  change (types.Report.SpecialSuiteFailureReasons (report st0))
    with (@nil string) in Hr2.
  change (types.Report.SuiteSucceeded (report st0)) with true in Hr3.
  change (suite_ st0) with suite in Hs. change (world st0) with w0 in Hw.
  cbn [app andb] in Hr1, Hr2, Hr3.
  cbn [report suite_ world withWorld].
  rewrite Hr1, Hr2, Hr3.
  split; [reflexivity|]. split; [exact Hs|].
  eapply later_trans; [exact H0|]. eapply later_trans; [exact Hw|].
  destruct (_ >? _); [apply Client_Post_later|apply later_refl].
Qed.

(** X6.  The verdict of a run.  [runSpecs] returns true exactly when no
    spec report of the final report, hooks included, is in a failure state
    and no special suite failure reason has been recorded.  The run
    changes neither the phase of the suite nor its registered nodes. *)
Theorem suite_succeeds_iff_nothing_failed description suitePath focus specs
  suiteConfig suite w :
  let final :=
    runSpecsState SpecStateFailureStates description suitePath focus specs
                  suiteConfig suite w in
  (runSpecs SpecStateFailureStates description suitePath focus specs
            suiteConfig suite w = true
   <-> Forall (fun r =>
                 types.SpecState_Is (types.SpecReport.State r)
                                    SpecStateFailureStates = false)
              (types.Report.SpecReports (report final))
       /\ types.Report.SpecialSuiteFailureReasons (report final) = [])
  /\ sameRegistrations suite (suite_ final).
Proof.
  intro final.
  destruct (runSpecsState_follows description suitePath focus specs
              suiteConfig suite w) as (Hv & Hs & _).
  fold final in Hv, Hs. split; [|exact Hs].
  unfold runSpecs. fold final. rewrite Hv, andb_true_iff, forallb_forall,
    Forall_forall.
  unfold passes. split; intros [H1 H2]; split.
  - intros r Hr. apply negb_true_iff. auto.
  - destruct (types.Report.SpecialSuiteFailureReasons (report final));
      [reflexivity|discriminate].
  - intros r Hr. apply negb_true_iff. auto.
  - now rewrite H2.
Qed.

(** *** Aborts and interrupts *)

Lemma follows_stopping st st' : follows st st' -> stopping st -> stopping st'.
Proof.
  intros (_ & _ & Hl & Ha) [H|H]; [left; auto|right].
  eapply signalledWithin_later; eassumption.
Qed.

Lemma runLoopSpec_stopping spec suiteConfig st :
  stopping st ->
  exists r,
    types.Report.SpecReports
      (report (runLoopSpec SpecStateFailureStates spec suiteConfig st))
    = types.Report.SpecReports (report st) ++ [r]
    /\ reportedSkipped spec r
    /\ advances isReportAfterEachCall (world st)
         (world (runLoopSpec SpecStateFailureStates spec suiteConfig st)).
Proof.
  intro Hstop. unfold runLoopSpec.
  set (suite0 := withCurrentSpecReport _ (suite_ st)).
  match goal with
  | |- context [let '(skip, w) := ?e in _] =>
      assert (Hskip : exists w0,
                 e = (true, w0)
                 /\ advances isReportAfterEachCall (world st) w0)
  end.
  { destruct (_ && _);
      [exists (world st); split; [reflexivity|apply advances_refl]|].
    cbn [Status fst snd Interrupted].
    assert (E : signalledWithin (env (world st)) 0 (S (now (world st)))
                || suiteAborted st = true)
      by (destruct Hstop as [H|H]; rewrite H, ?orb_true_r; reflexivity).
    rewrite E. exists (tick (world st)).
    split; [reflexivity|apply tick_advances]. }
  destruct Hskip as (w0 & -> & H0). cbv iota beta. cbn [negb].
  set (suite1 := withCurrentSpecReport _ suite0).
  assert (Hne : State_ suite1 <> types.SpecStatePassed).
  { subst suite1. unfold State_, skippedState. cbn.
    destruct (HasNodeMarkedPending (Nodes_ spec)); discriminate. }
  pose proof (runReportAfterEachNodes_state spec suiteConfig
                (SortedByDescendingNestingLevel
                   (WithType [types.NodeTypeReportAfterEach] (Nodes_ spec)))
                suite1 w0 Hne) as Hst.
  fold (reportAfterEach spec suiteConfig suite1 w0) in Hst.
  pose proof (reportAfterEach_advances spec suiteConfig suite1 w0) as H2.
  destruct (reportAfterEach spec suiteConfig suite1 w0) as [s2 w2].
  pose proof (processSpecReport_advances isReportAfterEachCall suiteConfig
                (currentSpecReport s2) (report st) w2) as H3.
  pose proof (processSpecReport_extendedBy suiteConfig (currentSpecReport s2)
                (report st) w2) as (H4 & _).
  destruct (processSpecReport _ suiteConfig (currentSpecReport s2)
              (report st) w2) as [r3 w3].
  cbn [fst snd report world] in *.
  exists (currentSpecReport s2). split; [exact H4|]. split.
  - destruct Hst as [Hst|[Hst Hnodes]];
      [left; exact Hst|right; split; [exact Hst|]].
    intro E. apply Hnodes. unfold SortedByDescendingNestingLevel.
    now rewrite E.
  - assert (H5 : advances isReportAfterEachCall (world st) w3)
      by (eapply advances_trans; [exact H0|];
          eapply advances_trans; [exact H2|exact H3]).
    destruct (_ && _); [|exact H5].
    eapply advances_trans; [exact H5|apply Client_Post_advances].
Qed.

Lemma runLoopSpec_aborted spec suiteConfig st r :
  types.Report.SpecReports
    (report (runLoopSpec SpecStateFailureStates spec suiteConfig st))
  = types.Report.SpecReports (report st) ++ [r] ->
  types.SpecReport.State r = types.SpecStateAborted ->
  suiteAborted (runLoopSpec SpecStateFailureStates spec suiteConfig st)
  = true.
Proof.
  unfold runLoopSpec.
  match goal with
  | |- context [let '(skip, w) := ?e in _] => destruct e as [skip w0]
  end.
  cbv iota beta.
  match goal with
  | |- context [let '(suite, w) := ?e in _] => destruct e as [s1 w1]
  end.
  destruct (reportAfterEach spec suiteConfig s1 w1) as [s2 w2].
  pose proof (processSpecReport_extendedBy suiteConfig (currentSpecReport s2)
                (report st) w2) as (H4 & _).
  destruct (processSpecReport _ suiteConfig (currentSpecReport s2)
              (report st) w2) as [r3 w3].
  cbn [fst report suiteAborted] in *. rewrite H4. intros E Hr.
  apply app_inv_head in E. injection E as <-.
  unfold State_. rewrite Hr. reflexivity.
Qed.

Lemma runLoop_stopping suiteConfig fuel :
  forall specs calls st,
    stopping st ->
    exists rs,
      types.Report.SpecReports
        (report (runLoop SpecStateFailureStates fuel specs suiteConfig
                         calls st))
      = types.Report.SpecReports (report st) ++ rs
      /\ Forall skippedLike rs
      /\ invokes isReportAfterEachCall (world st)
           (world (runLoop SpecStateFailureStates fuel specs suiteConfig
                           calls st)).
Proof.
  induction fuel as [|fuel IH]; intros specs calls st Hstop;
    cbn [runLoop].
  - exists []. rewrite app_nil_r.
    repeat split; [constructor|apply invokes_refl].
  - pose proof (nextIndex_invoked suiteConfig calls (world st)) as Hinv.
    pose proof (nextIndex_later suiteConfig calls (world st)) as Hl.
    destruct (nextIndex suiteConfig calls (world st))
      as [[[idx err] calls'] w1].
    cbn [snd] in Hinv, Hl.
    destruct err as [e|].
    + exists []. cbn. rewrite app_nil_r.
      repeat split; [constructor|now apply invokes_same].
    + destruct (nth_error specs idx) as [spec|].
      * assert (Hstop1 : stopping (withWorld w1 st)).
        { apply (follows_stopping st); [|exact Hstop].
          now apply follows_withWorld. }
        destruct (runLoopSpec_stopping spec suiteConfig (withWorld w1 st)
                    Hstop1) as (r & Hr & Hskip & Hadv).
        destruct (IH specs calls'
                     (runLoopSpec SpecStateFailureStates spec suiteConfig
                                  (withWorld w1 st))) as (rs & Hrs & Hall & Hi).
        { eapply follows_stopping; [apply runLoopSpec_follows|exact Hstop1]. }
        exists (r :: rs). rewrite Hrs, Hr. cbn [report withWorld].
        rewrite <- app_assoc. split; [reflexivity|]. split.
        -- constructor; [|exact Hall].
           eapply reportedSkipped_skippedLike; exact Hskip.
        -- eapply invokes_trans; [|exact Hi].
           eapply invokes_trans;
             [|apply advances_invokes; exact Hadv].
           now apply invokes_same.
      * exists []. cbn. rewrite app_nil_r.
        repeat split; [constructor|now apply invokes_same].
Qed.

(** X7.  Aborts and interrupts end the run of specs.  A spec whose report
    ends Aborted marks the suite aborted.  Once the suite is aborted, or an
    interrupt has been observed, the run loop skips every spec that is
    left, whatever the configuration: each is reported Skipped, or Pending
    when one of its nodes is marked pending, or Aborted when one of its
    ReportAfterEach hooks aborts, and the only bodies started are those of
    ReportAfterEach nodes. *)
Theorem abort_or_interrupt_skips_the_rest suiteConfig :
  (forall spec st r,
     types.Report.SpecReports
       (report (runLoopSpec SpecStateFailureStates spec suiteConfig st))
     = types.Report.SpecReports (report st) ++ [r] ->
     types.SpecReport.State r = types.SpecStateAborted ->
     suiteAborted (runLoopSpec SpecStateFailureStates spec suiteConfig st)
     = true)
  /\ (forall fuel specs calls st,
        stopping st ->
        exists rs,
          types.Report.SpecReports
            (report (runLoop SpecStateFailureStates fuel specs suiteConfig
                             calls st))
          = types.Report.SpecReports (report st) ++ rs
          /\ Forall skippedLike rs
          /\ invokes isReportAfterEachCall (world st)
               (world (runLoop SpecStateFailureStates fuel specs suiteConfig
                               calls st))).
Proof.
  split.
  - intros spec st r. apply runLoopSpec_aborted.
  - intros fuel specs calls st. apply runLoop_stopping.
Qed.

(** *** The reports of a run, step by step *)

Lemma runSuiteNode_invokes node ch suiteConfig suite w :
  invokes (fun x => fst x = node) w
    (snd (runSuiteNode node ch suiteConfig suite w)).
Proof.
  unfold runSuiteNode, runSynchronizedBeforeSuite, runSynchronizedAfterSuite,
    Client_PostSynchronizedBeforeSuiteSucceeded,
    Client_PostSynchronizedBeforeSuiteFailed,
    Client_BlockUntilSynchronizedBeforeSuiteData,
    Client_BlockUntilNonprimaryNodesHaveFinished, invokes.
  destruct (types.SuiteConfig.DryRun suiteConfig);
    [exists []; cbn; rewrite app_nil_r; auto|].
  destruct (NodeType node);
    repeat first
      [ run_node_step
      | match goal with
        | |- context [if ?b then _ else _] => destruct b
        | |- context [match ?e with Some _ => _ | None => _ end] =>
            destruct e
        | |- context [match Server.beforeSuiteState ?e with _ => _ end] =>
            destruct (Server.beforeSuiteState e)
        end; cbn -[runNode] ];
    repeat (cbn;
            match goal with
            | H : invoked _ = _ |- _ => rewrite H; clear H
            end);
    cbn; rewrite <- ?app_assoc; cbn;
    eexists; (split; [try reflexivity; symmetry; apply app_nil_r|]);
    repeat constructor.
Qed.

Lemma runReportAfterSuiteNode_invokes node r suiteConfig suite w :
  invokes (fun x => fst x = node) w
    (snd (runReportAfterSuiteNode node r suiteConfig suite w)).
Proof.
  unfold runReportAfterSuiteNode,
    Client_BlockUntilAggregatedNonprimaryNodesReport, invokes.
  destruct (types.SuiteConfig.DryRun suiteConfig);
    [exists []; cbn; rewrite app_nil_r; auto|].
  repeat first
    [ run_node_step
    | match goal with
      | |- context [if ?b then _ else _] => destruct b
      | |- context [match ?e with Some _ => _ | None => _ end] =>
          destruct e
      end; cbn -[runNode] ];
    repeat (cbn;
            match goal with
            | H : invoked _ = _ |- _ => rewrite H; clear H
            end);
    cbn; rewrite <- ?app_assoc; cbn;
    eexists; (split; [try reflexivity; symmetry; apply app_nil_r|]);
    repeat constructor.
Qed.

Lemma invokes_weaken (P Q : Node U * BodyCall -> Prop) w w' :
  (forall x, P x -> Q x) -> invokes P w w' -> invokes Q w w'.
Proof.
  intros HPQ (l & E & F). exists l. split; [exact E|].
  eapply Forall_impl; eauto.
Qed.

Lemma family_suite_level (t : types.NodeType) :
  types.NodeType_Is t beforeSuiteFamily = true
  \/ types.NodeType_Is t afterSuiteFamily = true
  \/ t = types.NodeTypeReportAfterSuite ->
  types.NodeType_Is t types.NodeTypesForSuiteLevelNodes = true.
Proof. destruct t; cbn; intuition congruence. Qed.

(** What a step that runs the suite-level hook [node] from the report
    [suiteNodeReport node text suiteConfig] and then processes the report
    leaves. *)
Lemma hook_processed node text suiteConfig st s1 w0 w1 :
  types.NodeType_Is (NodeType node) types.NodeTypesForSuiteLevelNodes = true ->
  keeps (withCurrentSpecReport (suiteNodeReport node text suiteConfig)
                               (suite_ st)) s1 ->
  invoked w0 = invoked (world st) ->
  invokes (fun x => fst x = node) w0 w1 ->
  let st' :=
    {| report :=
         fst (processSpecReport SpecStateFailureStates suiteConfig
                (currentSpecReport s1) (report st) w1);
       suiteAborted := suiteAborted st; suite_ := s1;
       world :=
         snd (processSpecReport SpecStateFailureStates suiteConfig
                (currentSpecReport s1) (report st) w1) |} in
  exists r,
    extendedBy [r] [] (report st) (report st')
    /\ hookReport node r
    /\ types.SpecReport.LeafNodeText r = text
    /\ invokes isSuiteLevelCall (world st) (world st').
Proof.
  intros Htype [_ (_ & _ & Ht & Hl & Hx & _)] Hsame Hinv st'.
  exists (currentSpecReport s1). subst st'. cbn [report world].
  split; [apply processSpecReport_extendedBy|].
  split; [split; assumption|]. split; [exact Hx|].
  eapply invokes_trans; [apply invokes_same; exact Hsame|].
  eapply invokes_trans.
  - eapply invokes_weaken; [|exact Hinv].
    intros x Hcall. unfold isSuiteLevelCall. rewrite Hcall. exact Htype.
  - apply advances_invokes, processSpecReport_advances.
Qed.

Lemma runBeforeSuite_stage num suiteConfig st :
  let beforeSuiteNode :=
    FirstNodeWithType beforeSuiteFamily (suiteNodes (suite_ st)) in
  let st' := runBeforeSuite SpecStateFailureStates num suiteConfig st in
  exists rs,
    extendedBy rs [] (report st) (report st')
    /\ (List.length rs <= 1)%nat
    /\ Forall (hookReport beforeSuiteNode) rs
    /\ Forall (reportOfType beforeSuiteFamily) rs
    /\ (signalledWithin (env (world st)) 0 (S (now (world st))) = true ->
        rs = [])
    /\ (num <= 0 -> rs = [])
    /\ invokes isSuiteLevelCall (world st) (world st').
Proof.
  intros node st'. subst st'. unfold runBeforeSuite.
  fold beforeSuiteFamily. fold node.
  cbn [Status fst snd Interrupted Channel].
  destruct (negb (IsZero node)
            && negb (signalledWithin (env (world st)) 0 (S (now (world st))))
            && (num >? 0)) eqn:Hgate.
  - apply andb_true_iff in Hgate as [Hg Hnum].
    apply andb_true_iff in Hg as [Hz Hint].
    apply negb_true_iff in Hz, Hint.
    pose proof (FirstNodeWithType_family beforeSuiteFamily
                  (suiteNodes (suite_ st)) Hz) as Hfam.
    fold node in Hfam.
    set (suite0 := withCurrentSpecReport _ (suite_ st)).
    pose proof (runSuiteNode_keeps node (S (now (world st))) suiteConfig
                  suite0 (tick (world st))) as Hk.
    pose proof (runSuiteNode_invokes node (S (now (world st))) suiteConfig
                  suite0 (tick (world st))) as Hi.
    destruct (runSuiteNode node _ suiteConfig suite0 _) as [s1 w1].
    cbn [fst snd] in Hk, Hi.
    destruct (hook_processed node EmptyString suiteConfig st s1
                (tick (world st)) w1) as (r & H1 & H2 & _ & H4);
      [apply family_suite_level; auto|exact Hk|reflexivity|exact Hi|].
    destruct (processSpecReport _ suiteConfig (currentSpecReport s1)
                (report st) w1) as [r2 w2].
    cbn [fst snd report world] in *.
    exists [r]. split; [exact H1|]. split; [cbn; lia|].
    split; [constructor; [exact H2|constructor]|].
    split; [constructor; [|constructor]; unfold reportOfType;
            destruct H2 as [-> _]; exact Hfam|].
    split; [congruence|]. split; [|exact H4].
    destruct (Z.gtb_spec num 0); [lia|discriminate].
  - exists []. cbn [withWorld report world].
    split; [apply extendedBy_refl|]. split; [cbn; lia|].
    repeat split; auto. now apply invokes_same.
Qed.

Lemma runAfterSuite_stage num suiteConfig st :
  let afterSuiteNode :=
    FirstNodeWithType afterSuiteFamily (suiteNodes (suite_ st)) in
  let st' := runAfterSuite SpecStateFailureStates num suiteConfig st in
  exists rs,
    extendedBy rs [] (report st) (report st')
    /\ (List.length rs <= 1)%nat
    /\ Forall (hookReport afterSuiteNode) rs
    /\ Forall (reportOfType afterSuiteFamily) rs
    /\ (num <= 0 -> rs = [])
    /\ invokes isSuiteLevelCall (world st) (world st').
Proof.
  intros node st'. subst st'. unfold runAfterSuite.
  fold afterSuiteFamily. fold node.
  cbn [Status fst snd Channel].
  destruct (negb (IsZero node) && (num >? 0)) eqn:Hgate.
  - apply andb_true_iff in Hgate as [Hz Hnum].
    apply negb_true_iff in Hz.
    pose proof (FirstNodeWithType_family afterSuiteFamily
                  (suiteNodes (suite_ st)) Hz) as Hfam.
    fold node in Hfam.
    set (suite0 := withCurrentSpecReport _ (suite_ st)).
    pose proof (runSuiteNode_keeps node (S (now (world st))) suiteConfig
                  suite0 (tick (world st))) as Hk.
    pose proof (runSuiteNode_invokes node (S (now (world st))) suiteConfig
                  suite0 (tick (world st))) as Hi.
    destruct (runSuiteNode node _ suiteConfig suite0 _) as [s1 w1].
    cbn [fst snd] in Hk, Hi.
    destruct (hook_processed node EmptyString suiteConfig st s1
                (tick (world st)) w1) as (r & H1 & H2 & _ & H4);
      [apply family_suite_level; auto|exact Hk|reflexivity|exact Hi|].
    destruct (processSpecReport _ suiteConfig (currentSpecReport s1)
                (report st) w1) as [r2 w2].
    cbn [fst snd report world] in *.
    exists [r]. split; [exact H1|]. split; [cbn; lia|].
    split; [constructor; [exact H2|constructor]|].
    split; [constructor; [|constructor]; unfold reportOfType;
            destruct H2 as [-> _]; exact Hfam|].
    split; [|exact H4].
    destruct (Z.gtb_spec num 0); [lia|discriminate].
  - exists []. split; [apply extendedBy_refl|]. split; [cbn; lia|].
    repeat split; auto. apply invokes_refl.
Qed.

Lemma runReportAfterSuiteNodes_stage nodes suiteConfig :
  Forall (fun n => NodeType n = types.NodeTypeReportAfterSuite) nodes ->
  forall st,
    let st' :=
      runReportAfterSuiteNodes SpecStateFailureStates nodes suiteConfig st in
    exists rs,
      extendedBy rs [] (report st) (report st')
      /\ Forall2 reportAfterSuiteReport nodes rs
      /\ invokes isSuiteLevelCall (world st) (world st').
Proof.
  induction nodes as [|n nodes IH]; intros Hall st;
    cbn [runReportAfterSuiteNodes].
  - exists []. split; [apply extendedBy_refl|].
    split; [constructor|apply invokes_refl].
  - inversion Hall as [|? ? Hn Hrest]; subst.
    set (suite0 := withCurrentSpecReport _ (suite_ st)).
    pose proof (runReportAfterSuiteNode_keeps n (report st) suiteConfig
                  suite0 (world st)) as Hk.
    pose proof (runReportAfterSuiteNode_invokes n (report st) suiteConfig
                  suite0 (world st)) as Hi.
    destruct (runReportAfterSuiteNode n (report st) suiteConfig suite0
                (world st)) as [s1 w1].
    cbn [fst snd] in Hk, Hi.
    destruct (hook_processed n (Text n) suiteConfig st s1 (world st) w1)
      as (r & H1 & H2 & H3 & H4);
      [apply family_suite_level; auto|exact Hk|reflexivity|exact Hi|].
    destruct (processSpecReport _ suiteConfig (currentSpecReport s1)
                (report st) w1) as [r2 w2].
    cbn [fst snd report world] in *.
    match goal with
    | |- context [runReportAfterSuiteNodes _ _ _ ?x] =>
        destruct (IH Hrest x) as (rs & I1 & I2 & I3)
    end.
    cbn [report world] in I1, I3.
    exists (r :: rs). split; [|split].
    + apply (extendedBy_trans [r] [] rs [] _ r2); assumption.
    + constructor; [split; assumption|exact I2].
    + eapply invokes_trans; eassumption.
Qed.

Lemma runLoopSpec_stage spec suiteConfig st :
  exists r,
    extendedBy [r] []
      (report st)
      (report (runLoopSpec SpecStateFailureStates spec suiteConfig st))
    /\ sameSubject (specReportFor spec suiteConfig) r.
Proof.
  unfold runLoopSpec.
  set (suite0 := withCurrentSpecReport _ (suite_ st)).
  match goal with
  | |- context [let '(skip, w) := ?e in _] => destruct e as [skip w0]
  end.
  cbv iota beta.
  set (suite1 := if skip then _ else suite0).
  assert (H1 : keeps suite0 suite1)
    by (subst suite1; destruct skip; repeat split; reflexivity).
  match goal with
  | |- context [let '(suite, w) := ?e in _] =>
      assert (H2 : keeps suite1 (fst e)); [|destruct e as [s1 w1]]
  end.
  { destruct (negb skip); [apply runSpec_keeps|apply keeps_refl]. }
  cbn [fst] in H2.
  pose proof (reportAfterEach_keeps spec suiteConfig s1 w1) as H3.
  destruct (reportAfterEach spec suiteConfig s1 w1) as [s2 w2].
  cbn [fst] in H3.
  pose proof (processSpecReport_extendedBy suiteConfig (currentSpecReport s2)
                (report st) w2) as H4.
  destruct (processSpecReport _ suiteConfig (currentSpecReport s2)
              (report st) w2) as [r3 w3].
  cbn [fst report] in *.
  exists (currentSpecReport s2). split; [exact H4|].
  apply (keeps_trans _ _ _ H1) in H2. apply (keeps_trans _ _ _ H2) in H3.
  apply H3.
Qed.

Lemma runLoop_stage fuel specs suiteConfig :
  forall calls st,
    exists rs reasons indices,
      extendedBy rs reasons
        (report st)
        (report (runLoop SpecStateFailureStates fuel specs suiteConfig calls
                         st))
      /\ Forall2 (reportsSpecAt specs suiteConfig) indices rs
      /\ StronglySorted lt indices
      /\ Forall (fun i => (nextBound suiteConfig calls (world st) <= i)%nat)
                indices
      /\ ((types.SuiteConfig.ParallelTotal suiteConfig >? 1) = false ->
          reasons = []
          /\ ((List.length specs < fuel + calls)%nat ->
              indices = seq calls (List.length specs - calls))).
Proof.
  induction fuel as [|fuel IH]; intros calls st; cbn [runLoop].
  - exists [], [], []. split; [apply extendedBy_refl|].
    split; [constructor|]. split; [constructor|]. split; [constructor|].
    intros _. split; [reflexivity|].
    intro Hlen. replace (List.length specs - calls)%nat with 0%nat by lia.
    reflexivity.
  - pose proof (nextIndex_bound suiteConfig calls (world st)) as Hb.
    assert (Hserial : (types.SuiteConfig.ParallelTotal suiteConfig >? 1)
                      = false ->
                      nextIndex suiteConfig calls (world st)
                      = (calls, None, S calls, world st))
      by (intro H; unfold nextIndex; now rewrite H).
    destruct (nextIndex suiteConfig calls (world st))
      as [[[idx err] calls'] w1].
    destruct err as [e|].
    + exists [], [("Failed to iterate over specs:" ++ newline ++ e)%string],
        [].
      split.
      { unfold extendedBy. cbn. rewrite app_nil_r, !andb_false_r. auto. }
      split; [constructor|]. split; [constructor|]. split; [constructor|].
      intro H. specialize (Hserial H). discriminate.
    + destruct (Hb eq_refl) as [Hle Hnext].
      destruct (nth_error specs idx) as [spec|] eqn:Hnth.
      * destruct (runLoopSpec_stage spec suiteConfig (withWorld w1 st))
          as (r & Hr & Hsub).
        destruct (IH calls'
                     (runLoopSpec SpecStateFailureStates spec suiteConfig
                                  (withWorld w1 st)))
          as (rs & reasons & indices & I1 & I2 & I3 & I4 & I5).
        rewrite runLoopSpec_bound in I4. cbn [world withWorld] in I4.
        rewrite Hnext in I4.
        exists (r :: rs), reasons, (idx :: indices).
        split; [apply (extendedBy_trans [r] [] rs reasons _ _ _ Hr I1)|].
        split; [constructor; [exists spec; auto|exact I2]|].
        split; [constructor; [exact I3|];
                eapply Forall_impl; [|exact I4]; cbn; intros; lia|].
        split; [constructor; [exact Hle|];
                eapply Forall_impl; [|exact I4]; cbn; intros; lia|].
        intro H. specialize (Hserial H). injection Hserial as -> -> ->.
        destruct (I5 H) as [-> I6]. split; [reflexivity|].
        intro Hlen.
        assert (calls < List.length specs)%nat
          by (apply nth_error_Some; congruence).
        rewrite I6 by lia.
        replace (List.length specs - calls)%nat
          with (S (List.length specs - S calls)) by lia.
        reflexivity.
      * exists [], [], []. split; [apply extendedBy_refl|].
        split; [constructor|]. split; [constructor|]. split; [constructor|].
        intro H. split; [reflexivity|]. intros Hlen.
        specialize (Hserial H). injection Hserial as -> -> ->.
        assert (List.length specs <= calls)%nat
          by (apply nth_error_None; assumption).
        replace (List.length specs - calls)%nat with 0%nat by lia.
        reflexivity.
Qed.

Lemma extendedBy_failed reason r :
  extendedBy [] [reason] r
    (types.Report.withSuiteSucceeded false
       (types.Report.withSpecialSuiteFailureReasons
          (types.Report.SpecialSuiteFailureReasons r ++ [reason]) r)).
Proof.
  unfold extendedBy. cbn. rewrite app_nil_r, !andb_false_r. auto.
Qed.

Lemma extendedBy_reports rs rs' reasons r r' :
  extendedBy rs reasons r r' ->
  types.Report.SpecReports r' = types.Report.SpecReports r ++ rs' ->
  rs' = rs.
Proof.
  intros (H & _) H'. rewrite H in H'. now apply app_inv_head in H'.
Qed.

Lemma reportsSpecAt_It specs suiteConfig i r :
  reportsSpecAt specs suiteConfig i r ->
  types.SpecReport.LeafNodeType r = types.NodeTypeIt.
Proof. intros (spec & _ & (_ & _ & H & _)). exact H. Qed.

Lemma runSpecsState_shape description suitePath focus specs suiteConfig
  suite w :
  let final :=
    runSpecsState SpecStateFailureStates description suitePath focus specs
                  suiteConfig suite w in
  exists before looped after hooks indices,
    types.Report.SpecReports (report final)
    = before ++ looped ++ after ++ hooks
    /\ (List.length before <= 1)%nat
    /\ Forall (hookReport
                 (FirstNodeWithType beforeSuiteFamily (suiteNodes suite)))
              before
    /\ Forall (reportOfType beforeSuiteFamily) before
    /\ Forall2 (reportsSpecAt specs suiteConfig) indices looped
    /\ StronglySorted lt indices
    /\ (List.length after <= 1)%nat
    /\ Forall (hookReport
                 (FirstNodeWithType afterSuiteFamily (suiteNodes suite)))
              after
    /\ Forall (reportOfType afterSuiteFamily) after
    /\ Forall2 reportAfterSuiteReport
         (if types.SuiteConfig.ParallelNode suiteConfig =? 1
          then WithType [types.NodeTypeReportAfterSuite] (suiteNodes suite)
          else [])
         hooks
    /\ (forallb passes before = false ->
        looped = [] /\ invokes isSuiteLevelCall w (world final))
    /\ (signalledWithin (env w) 0 (S (now w)) = true ->
        before = [] /\ Forall skippedLike looped
        /\ In (Environment.interruptCause (env w))
              (types.Report.SpecialSuiteFailureReasons (report final)))
    /\ (CountWithoutSkip specs <= 0 -> before = [] /\ after = [])
    /\ ((types.SuiteConfig.ParallelTotal suiteConfig >? 1) = false ->
        forallb passes before = true ->
        indices = seq 0 (List.length specs))
    /\ (HasAnySpecsMarkedPending specs
        && types.SuiteConfig.FailOnPending suiteConfig = true ->
        types.Report.SuiteSucceeded (report final) = false).
Proof.
  run_specs_stages specs suiteConfig suitePath w suite.
  assert (H0 : later w w0 /\ invoked w0 = invoked w).
  { subst w0. destruct (_ >? _); [|split; [apply later_refl|reflexivity]].
    split; [apply Client_Post_later|].
    unfold Client_Post. destruct (commErrorNow w); reflexivity. }
  destruct H0 as [H0 H0i].
  (* the before-suite step *)
  destruct (runBeforeSuite_stage (CountWithoutSkip specs) suiteConfig st0)
    as (rsB & B1 & B2 & B3 & B4 & B5 & B6 & B7).
  fold st1 in B1, B7.
  change (suiteNodes (suite_ st0)) with (suiteNodes suite) in B3.
  change (world st0) with w0 in B5, B7.
  assert (F1 : follows st0 st1) by apply runBeforeSuite_follows.
  assert (S1 : types.Report.SuiteSucceeded (report st1)
               = forallb passes rsB).
  { destruct B1 as (_ & _ & ->). cbn. now rewrite andb_true_r. }
  (* the loop *)
  assert (HL : exists rsL reasonsL indices,
             extendedBy rsL reasonsL (report st1) (report st2)
             /\ Forall2 (reportsSpecAt specs suiteConfig) indices rsL
             /\ StronglySorted lt indices
             /\ (forallb passes rsB = false ->
                 rsL = [] /\ world st2 = world st1)
             /\ (stopping st1 -> Forall skippedLike rsL)
             /\ ((types.SuiteConfig.ParallelTotal suiteConfig >? 1) = false ->
                 forallb passes rsB = true ->
                 indices = seq 0 (List.length specs))
             /\ (HasAnySpecsMarkedPending specs
                 && types.SuiteConfig.FailOnPending suiteConfig = true ->
                 types.Report.SuiteSucceeded (report st2) = false)
             /\ follows st1 st2).
  { subst st2. rewrite S1.
    destruct (forallb passes rsB) eqn:Hpass.
    - destruct (runLoop_stage (S (List.length specs)) specs suiteConfig
                  0%nat st1)
        as (rsL & reasonsL & indices & L1 & L2 & L3 & _ & L5).
      pose proof (runLoop_stopping suiteConfig (S (List.length specs)) specs
                    0%nat st1) as L6.
      pose proof (runLoop_follows (S (List.length specs)) specs suiteConfig
                    0%nat st1) as L7.
      set (stL := runLoop _ _ specs suiteConfig 0%nat st1) in *.
      assert (L8 : stopping st1 -> Forall skippedLike rsL).
      { intro Hstop. destruct (L6 Hstop) as (rs' & E & Hall & _).
        now rewrite (extendedBy_reports _ _ _ _ _ L1 E) in Hall. }
      assert (L9 : (types.SuiteConfig.ParallelTotal suiteConfig >? 1)
                   = false ->
                   true = true -> indices = seq 0 (List.length specs)).
      { intros H _. destruct (L5 H) as [_ L]. rewrite L by lia.
        now rewrite Nat.sub_0_r. }
      destruct (_ && _).
      + exists rsL,
          (reasonsL
           ++ ["Detected pending specs and --fail-on-pending is set"%string]),
          indices.
        split.
        { rewrite <- (app_nil_r rsL).
          eapply extendedBy_trans; [exact L1|apply extendedBy_failed]. }
        split; [exact L2|]. split; [exact L3|]. split; [discriminate|].
        split; [exact L8|]. split; [exact L9|].
        split; [intros _; reflexivity|].
        eapply follows_trans; [exact L7|apply follows_failed].
      + exists rsL, reasonsL, indices. split; [exact L1|].
        split; [exact L2|]. split; [exact L3|]. split; [discriminate|].
        split; [exact L8|]. split; [exact L9|].
        split; [discriminate|exact L7].
    - exists [], [], []. split; [apply extendedBy_refl|].
      split; [constructor|]. split; [constructor|].
      split; [auto|]. split; [intros _; constructor|].
      split; [discriminate|]. split; [intros _; now rewrite S1|].
      apply follows_refl. }
  destruct HL as (rsL & reasonsL & indices & L1 & L2 & L3 & L4 & L5 & L6
                  & L7 & F2).
  (* the after-suite step *)
  destruct (runAfterSuite_stage (CountWithoutSkip specs) suiteConfig st2)
    as (rsA & A1 & A2 & A3 & A4 & A5 & A6).
  fold st3 in A1, A6.
  assert (F3 : follows st2 st3) by apply runAfterSuite_follows.
  assert (R2 : suiteNodes (suite_ st2) = suiteNodes suite).
  { destruct (follows_trans _ _ _ F1 F2) as (_ & (_ & _ & H) & _).
    exact H. }
  rewrite R2 in A3.
  (* the interrupt status *)
  assert (H4 : exists reasons4,
             extendedBy [] reasons4 (report st3) (report st4)
             /\ invoked (world st4) = invoked (world st3)
             /\ suite_ st4 = suite_ st3
             /\ (signalledWithin (env (world st3)) 0 (S (now (world st3)))
                 = true ->
                 In (Environment.interruptCause (env (world st3)))
                    reasons4)
             /\ follows st3 st4).
  { subst st4. destruct (signalledWithin _ _ _).
    - exists [Environment.interruptCause (env (tick (world st3)))].
      split; [apply extendedBy_failed|].
      split; [reflexivity|]. split; [reflexivity|].
      split; [intros _; now left|].
      eapply follows_trans; [|apply follows_failed].
      apply follows_withWorld. later_done.
    - exists []. split; [apply extendedBy_refl|].
      split; [reflexivity|]. split; [reflexivity|].
      split; [discriminate|].
      apply follows_withWorld. later_done. }
  destruct H4 as (reasons4 & I1 & I2 & I3 & I4 & F4).
  (* the ReportAfterSuite nodes *)
  assert (R4 : suiteNodes (suite_ st4) = suiteNodes suite).
  { rewrite I3. destruct F3 as (_ & (_ & _ & H) & _). congruence. }
  assert (H5 : exists rsR,
             extendedBy rsR [] (report st4) (report st5)
             /\ Forall2 reportAfterSuiteReport
                  (if types.SuiteConfig.ParallelNode suiteConfig =? 1
                   then WithType [types.NodeTypeReportAfterSuite]
                                 (suiteNodes suite)
                   else [])
                  rsR
             /\ invokes isSuiteLevelCall (world st4) (world st5)
             /\ follows st4 st5).
  { subst st5. destruct (_ =? _).
    - rewrite R4.
      destruct (runReportAfterSuiteNodes_stage
                  (WithType [types.NodeTypeReportAfterSuite]
                            (suiteNodes suite))
                  suiteConfig
                  (WithType_Forall types.NodeTypeReportAfterSuite
                                   (suiteNodes suite)) st4)
        as (rsR & H1 & H2 & H3).
      exists rsR. split; [exact H1|]. split; [exact H2|].
      split; [exact H3|apply runReportAfterSuiteNodes_follows].
    - exists []. split; [apply extendedBy_refl|].
      split; [constructor|]. split; [apply invokes_refl|apply follows_refl]. }
  destruct H5 as (rsR & P1 & P2 & P3 & F5).
  (* putting the steps together *)
  cbn [report withWorld world].
  pose proof (extendedBy_trans _ _ _ _ _ _ _ B1 L1) as E1.
  pose proof (extendedBy_trans _ _ _ _ _ _ _ E1 A1) as E2.
  pose proof (extendedBy_trans _ _ _ _ _ _ _ E2 I1) as E3.
  pose proof (extendedBy_trans _ _ _ _ _ _ _ E3 P1) as (E4 & E5 & E6).
  change (types.Report.SpecReports (report st0))
    with (@nil types.SpecReport.t) in E4.
  change (types.Report.SpecialSuiteFailureReasons (report st0))
    with (@nil string) in E5.
  cbn [app] in E4, E5. rewrite app_nil_r, <- !app_assoc in E4.
  exists rsB, rsL, rsA, rsR, indices.
  split; [exact E4|]. split; [exact B2|]. split; [exact B3|].
  split; [exact B4|]. split; [exact L2|]. split; [exact L3|].
  split; [exact A2|]. split; [exact A3|]. split; [exact A4|].
  split; [exact P2|].
  assert (Hl3 : later w (world st3)).
  { eapply later_trans; [exact H0|].
    destruct (follows_trans _ _ _ F1 (follows_trans _ _ _ F2 F3))
      as (_ & _ & H & _). exact H. }
  split; [|split; [|split; [|split]]].
  - intro Hfail. destruct (L4 Hfail) as [-> Hw]. split; [reflexivity|].
    eapply invokes_trans; [apply invokes_same; exact H0i|].
    eapply invokes_trans; [exact B7|]. rewrite <- Hw.
    eapply invokes_trans; [exact A6|].
    eapply invokes_trans; [apply invokes_same; exact I2|].
    eapply invokes_trans; [exact P3|].
    destruct (_ >? _); [|apply invokes_refl].
    apply advances_invokes, Client_Post_advances.
  - intro Hsig.
    assert (Hsig0 : signalledWithin (env w0) 0 (S (now w0)) = true)
      by (eapply signalledWithin_later; eassumption).
    specialize (B5 Hsig0). subst rsB. split; [reflexivity|].
    split.
    + apply L5. eapply follows_stopping; [exact F1|]. right. exact Hsig0.
    + rewrite E5. apply in_or_app. left. apply in_or_app. right.
      pose proof (signalledWithin_later _ _ Hl3 Hsig) as Hsig3.
      destruct Hl3 as [He _]. rewrite <- He. apply I4. exact Hsig3.
  - intro Hnum. split; [apply B6|apply A5]; exact Hnum.
  - exact L6.
  - intro Hp. specialize (L7 Hp).
    destruct (follows_trans _ _ _ F3 (follows_trans _ _ _ F4 F5))
      as ((rs' & reasons' & _ & _ & H) & _).
    rewrite H, L7. reflexivity.
Qed.

Lemma reportAfterSuiteReports_typed nodes hooks :
  Forall (fun n : Node U => NodeType n = types.NodeTypeReportAfterSuite)
         nodes ->
  Forall2 reportAfterSuiteReport nodes hooks ->
  Forall (reportOfType [types.NodeTypeReportAfterSuite]) hooks.
Proof.
  intros Hall H. induction H as [|n r nodes hooks [[Ht _] _] _ IH];
    [constructor|].
  inversion Hall as [|? ? Hn Hrest]; subst. constructor; [|auto].
  unfold reportOfType. now rewrite Ht, Hn.
Qed.

Lemma hooks_typed suiteConfig suite hooks :
  Forall2 reportAfterSuiteReport
    (if types.SuiteConfig.ParallelNode suiteConfig =? 1
     then WithType [types.NodeTypeReportAfterSuite] (suiteNodes suite)
     else [])
    hooks ->
  Forall (reportOfType [types.NodeTypeReportAfterSuite]) hooks.
Proof.
  intro H. eapply reportAfterSuiteReports_typed; [|exact H].
  destruct (_ =? _); [apply WithType_Forall|constructor].
Qed.

Lemma looped_typed specs suiteConfig indices looped :
  Forall2 (reportsSpecAt specs suiteConfig) indices looped ->
  Forall (reportOfType [types.NodeTypeIt]) looped.
Proof.
  intro H. induction H as [|i r indices looped Hr _ IH]; constructor; auto.
  unfold reportOfType. now rewrite (reportsSpecAt_It _ _ _ _ Hr).
Qed.

(** X8.  The reports of a run, in order.  The final report lists at most
    one report of the before-suite hook, then the reports of the specs this
    worker ran, in increasing index order and none twice, each carrying the
    container hierarchy, leaf location and leaf text of its spec, then at
    most one report of the after-suite hook, then one report for each
    ReportAfterSuite node in registration order, these on parallel node 1
    only.  No hook of the suite is reported when no spec is to run.  In a
    serial run whose before-suite hook did not fail every spec is reported,
    in the order of the spec list. *)
Theorem reports_of_a_run description suitePath focus specs suiteConfig
  suite w :
  let final :=
    runSpecsState SpecStateFailureStates description suitePath focus specs
                  suiteConfig suite w in
  exists before looped after hooks indices,
    types.Report.SpecReports (report final)
    = before ++ looped ++ after ++ hooks
    /\ (List.length before <= 1)%nat
    /\ Forall (hookReport
                 (FirstNodeWithType beforeSuiteFamily (suiteNodes suite)))
              before
    /\ Forall2 (reportsSpecAt specs suiteConfig) indices looped
    /\ StronglySorted lt indices
    /\ (List.length after <= 1)%nat
    /\ Forall (hookReport
                 (FirstNodeWithType afterSuiteFamily (suiteNodes suite)))
              after
    /\ Forall2 reportAfterSuiteReport
         (if types.SuiteConfig.ParallelNode suiteConfig =? 1
          then WithType [types.NodeTypeReportAfterSuite] (suiteNodes suite)
          else [])
         hooks
    /\ (CountWithoutSkip specs <= 0 -> before = [] /\ after = [])
    /\ ((types.SuiteConfig.ParallelTotal suiteConfig >? 1) = false ->
        forallb passes before = true ->
        indices = seq 0 (List.length specs)).
Proof.
  intro final.
  destruct (runSpecsState_shape description suitePath focus specs suiteConfig
              suite w)
    as (before & looped & after & hooks & indices & H1 & H2 & H3 & _ & H5
        & H6 & H7 & H8 & _ & H10 & _ & _ & H13 & H14 & _).
  exists before, looped, after, hooks, indices. repeat split; auto; tauto.
Qed.

(** X9.  A failed before-suite hook.  When the first report of a run is
    that of a BeforeSuite or SynchronizedBeforeSuite node and is in a
    failure state, the run loop is not entered: [runSpecs] returns false,
    no spec is reported, and every body started in the whole run is that
    of a suite-level node, the after-suite hook and the ReportAfterSuite
    nodes being run as usual. *)
Theorem failed_before_suite_skips_the_specs description suitePath focus specs
  suiteConfig suite w (r : types.SpecReport.t)
  (rest : list types.SpecReport.t) :
  let final :=
    runSpecsState SpecStateFailureStates description suitePath focus specs
                  suiteConfig suite w in
  types.Report.SpecReports (report final) = r :: rest ->
  reportOfType beforeSuiteFamily r ->
  types.SpecState_Is (types.SpecReport.State r) SpecStateFailureStates
  = true ->
  runSpecs SpecStateFailureStates description suitePath focus specs
           suiteConfig suite w = false
  /\ Forall (fun r' =>
               types.SpecReport.LeafNodeType r' <> types.NodeTypeIt) rest
  /\ invokes isSuiteLevelCall w (world final).
Proof.
  intros final Hreports Htype Hfail.
  destruct (runSpecsState_follows description suitePath focus specs
              suiteConfig suite w) as (Hv & _).
  destruct (runSpecsState_shape description suitePath focus specs suiteConfig
              suite w)
    as (before & looped & after & hooks & indices & H1 & H2 & _ & _ & H5
        & _ & _ & _ & H9 & H10 & H11 & _).
  fold final in Hv, H1, H11. rewrite Hreports in H1.
  apply looped_typed in H5. apply hooks_typed in H10.
  assert (Hother : forall l,
             Forall (reportOfType [types.NodeTypeIt]) looped ->
             r :: l = looped ++ after ++ hooks -> False).
  { intros l Hl E. unfold reportOfType in *.
    destruct looped as [|x looped]; [|injection E as <- _;
      inversion Hl as [|? ? Hx _]; subst;
      destruct (types.SpecReport.LeafNodeType r); discriminate].
    destruct after as [|x after]; [|injection E as <- _;
      inversion H9 as [|? ? Hx _]; subst;
      destruct (types.SpecReport.LeafNodeType r); discriminate].
    destruct hooks as [|x hooks]; [discriminate|]. injection E as <- _.
    inversion H10 as [|? ? Hx _]; subst.
    destruct (types.SpecReport.LeafNodeType r); discriminate. }
  destruct before as [|r0 [|? ?]]; [|cbn [app] in H1|cbn in H2; lia].
  { exfalso. exact (Hother rest H5 H1). }
  injection H1 as <- Hrest.
  destruct H11 as [-> Hinv].
  { unfold passes. cbn. now rewrite Hfail. }
  split; [|split; [|exact Hinv]].
  - unfold runSpecs. fold final. rewrite Hv, Hreports. unfold passes at 1.
    cbn. now rewrite Hfail.
  - rewrite Hrest. cbn [app]. apply Forall_app. unfold reportOfType in *.
    split; (eapply Forall_impl; [|eassumption]); cbn; intros a Ha E;
      rewrite E in Ha; discriminate.
Qed.

(** X10.  A run that starts interrupted.  When an interrupt has been
    delivered by the time [runSpecs] starts, the before-suite hook is not
    run, every spec is skipped (its report is Skipped, Pending, or Aborted
    by a ReportAfterEach hook), and [runSpecs] returns false with the
    cause of the interrupt among the special suite failure reasons. *)
Theorem interrupted_run_skips_and_fails description suitePath focus specs
  suiteConfig suite w :
  let final :=
    runSpecsState SpecStateFailureStates description suitePath focus specs
                  suiteConfig suite w in
  signalledWithin (env w) 0 (S (now w)) = true ->
  runSpecs SpecStateFailureStates description suitePath focus specs
           suiteConfig suite w = false
  /\ In (Environment.interruptCause (env w))
        (types.Report.SpecialSuiteFailureReasons (report final))
  /\ Forall (fun r =>
               ~ reportOfType beforeSuiteFamily r
               /\ (types.SpecReport.LeafNodeType r = types.NodeTypeIt ->
                   skippedLike r))
            (types.Report.SpecReports (report final)).
Proof.
  intros final Hsig.
  destruct (runSpecsState_follows description suitePath focus specs
              suiteConfig suite w) as (Hv & _).
  destruct (runSpecsState_shape description suitePath focus specs suiteConfig
              suite w)
    as (before & looped & after & hooks & indices & H1 & _ & _ & _ & H5
        & _ & _ & _ & H9 & H10 & _ & H12 & _).
  fold final in Hv, H1, H12.
  destruct (H12 Hsig) as (-> & Hskipped & Hcause).
  apply looped_typed in H5. apply hooks_typed in H10.
  split; [|split; [exact Hcause|]].
  - unfold runSpecs. fold final. rewrite Hv.
    destruct (types.Report.SpecialSuiteFailureReasons (report final));
      [destruct Hcause|apply andb_false_r].
  - rewrite H1. cbn [app]. unfold reportOfType in *.
    apply Forall_app; split; [|apply Forall_app; split].
    + rewrite Forall_forall in *. intros r Hr.
      specialize (H5 r Hr). specialize (Hskipped r Hr).
      split; [|auto]. intro H.
      destruct (types.SpecReport.LeafNodeType r); discriminate.
    + eapply Forall_impl; [|exact H9]. cbn. intros r Hr.
      split; intro H; destruct (types.SpecReport.LeafNodeType r);
        discriminate.
    + eapply Forall_impl; [|exact H10]. cbn. intros r Hr.
      split; intro H; destruct (types.SpecReport.LeafNodeType r);
        discriminate.
Qed.

(** X11.  Pending specs and fail-on-pending.  When some spec has a node
    marked pending and [FailOnPending] is set, [runSpecs] returns false,
    whatever the specs and the hooks do. *)
Theorem pending_specs_fail_the_suite description suitePath focus specs
  suiteConfig suite w :
  HasAnySpecsMarkedPending specs = true ->
  types.SuiteConfig.FailOnPending suiteConfig = true ->
  runSpecs SpecStateFailureStates description suitePath focus specs
           suiteConfig suite w = false.
Proof.
  intros Hpending Hflag.
  destruct (runSpecsState_shape description suitePath focus specs suiteConfig
              suite w)
    as (before & looped & after & hooks & indices & _ & _ & _ & _ & _
        & _ & _ & _ & _ & _ & _ & _ & _ & _ & H15).
  apply H15. now rewrite Hpending, Hflag.
Qed.

(** *** The synchronized hooks and the report hooks of the suite *)

Lemma runNode_outcome_not_Invalid node call ch text suiteConfig w :
  outcome (fst (runNode node call ch text suiteConfig w))
  <> types.SpecStateInvalid.
Proof.
  destruct (runNode_outcome node call ch text suiteConfig w)
    as [[_ ->]|[_ ->]]; [discriminate|].
  pose proof (taskOutcome_states (invoke node call (user w))) as Hin.
  simpl in Hin. intuition congruence.
Qed.

Lemma not_Passed_not_fresh (s : types.SpecState) :
  s <> types.SpecStateInvalid -> s <> types.SpecStatePassed ->
  types.SpecState_Is s [types.SpecStateInvalid; types.SpecStatePassed]
  = false.
Proof. destruct s; cbn; congruence. Qed.

(** X12.  SynchronizedAfterSuite.  Every worker starts the all-nodes body
    first.  Only the primary worker (parallel node 1) goes on to the
    node-1 body, and in a parallel run only once its wait for the other
    workers has returned without error.  An outcome of the all-nodes body
    that is not Passed is the one reported, whatever follows; when the
    all-nodes body passed and the wait fails, the hook is reported Failed
    with the error as message, at the location of the node. *)
Theorem synchronized_after_suite node ch suiteConfig suite w :
  NodeType node = types.NodeTypeSynchronizedAfterSuite ->
  types.SuiteConfig.DryRun suiteConfig = false ->
  let all :=
    runNode node CallSynchronizedAfterSuiteAllNodesBody (Some ch) EmptyString
            suiteConfig (Writer_Truncate w) in
  let primary := types.SuiteConfig.ParallelNode suiteConfig =? 1 in
  let finished :=
    negb (types.SuiteConfig.ParallelTotal suiteConfig >? 1)
    || isNil (commErrorNow (snd all)) in
  let res := runSuiteNode node ch suiteConfig suite w in
  invoked (snd res)
  = invoked w
    ++ (node, CallSynchronizedAfterSuiteAllNodesBody)
    :: (if primary && finished
        then [(node, CallSynchronizedAfterSuiteNode1Body)] else [])
  /\ (outcome (fst all) <> types.SpecStatePassed ->
      State_ (fst res) = outcome (fst all)
      /\ Failure_ (fst res) = failure (fst all))
  /\ (forall e,
        primary = true ->
        (types.SuiteConfig.ParallelTotal suiteConfig >? 1) = true ->
        commErrorNow (snd all) = Some e ->
        outcome (fst all) = types.SpecStatePassed ->
        State_ (fst res) = types.SpecStateFailed
        /\ Failure_ (fst res) = snd (failureForLeafNodeWithError node e)).
Proof.
  intros Htype Hdry all primary finished res.
  subst res. unfold runSuiteNode. rewrite Hdry, Htype.
  unfold runSynchronizedAfterSuite. fold all. fold primary.
  pose proof (runNode_invoked node CallSynchronizedAfterSuiteAllNodesBody
                (Some ch) EmptyString suiteConfig (Writer_Truncate w))
    as Hinv.
  pose proof (runNode_outcome_not_Invalid node
                CallSynchronizedAfterSuiteAllNodesBody (Some ch) EmptyString
                suiteConfig (Writer_Truncate w)) as Hvalid.
  fold all in Hinv, Hvalid. subst finished.
  destruct all as [r w1]. cbn [fst snd] in *.
  change (invoked (Writer_Truncate w)) with (invoked w) in Hinv.
  destruct primary; cbn [andb].
  - unfold Client_BlockUntilNonprimaryNodesHaveFinished.
    destruct (types.SuiteConfig.ParallelTotal suiteConfig >? 1);
      cbn [negb orb].
    + destruct (commErrorNow w1) as [e|] eqn:Herr; cbn [isNil].
      * cbn [fst snd invoked tick]. rewrite Hinv.
        change (State_ (withOutcome (outcome r) (failure r) suite))
          with (outcome r).
        split; [reflexivity|]. split.
        -- intro Hne. rewrite (not_Passed_not_fresh _ Hvalid Hne).
           split; reflexivity.
        -- intros e' _ _ E Hpass. injection E as <-.
           unfold State_, Failure_. cbn. rewrite Hpass. cbn. auto.
      * pose proof (runNode_invoked node CallSynchronizedAfterSuiteNode1Body
                      (Some ch) EmptyString suiteConfig (tick w1)) as Hinv1.
        destruct (runNode node CallSynchronizedAfterSuiteNode1Body _ _ _ _)
          as [r1 w2].
        cbn [fst snd] in *. rewrite Hinv1. cbn. rewrite Hinv, <- app_assoc.
        split; [reflexivity|]. split; [|discriminate].
        intro Hne. apply SpecState_eqb_neq in Hne. rewrite Hne.
        cbn. auto.
    + pose proof (runNode_invoked node CallSynchronizedAfterSuiteNode1Body
                    (Some ch) EmptyString suiteConfig w1) as Hinv1.
      destruct (runNode node CallSynchronizedAfterSuiteNode1Body _ _ _ _)
        as [r1 w2].
      cbn [fst snd isNil] in *. rewrite Hinv1, Hinv, <- app_assoc.
      split; [reflexivity|]. split; [|discriminate].
      cbn. intro Hne. apply SpecState_eqb_neq in Hne. rewrite Hne.
      cbn. auto.
  - cbn [fst snd]. rewrite Hinv. split; [reflexivity|].
    split; [|discriminate]. intros _. unfold State_, Failure_. cbn. auto.
Qed.

(** X13.  The outcome of SynchronizedBeforeSuite.  On the primary worker
    an outcome of the produce body that is not Passed is the one reported;
    when the produce body passed and, in a parallel run, posting its data
    fails, the hook is reported Failed with the error as message, at the
    location of the node, and the consume body is not started.  On any
    other worker that starts from a fresh report, an error in place of the
    data is reported the same way and no body is started; with the data,
    the outcome of the consume body is the one reported. *)
Theorem synchronized_before_suite_outcome node ch suiteConfig suite w :
  NodeType node = types.NodeTypeSynchronizedBeforeSuite ->
  types.SuiteConfig.DryRun suiteConfig = false ->
  let res := runSuiteNode node ch suiteConfig suite w in
  let produce :=
    runNode node CallSynchronizedBeforeSuiteNode1Body (Some ch) EmptyString
            suiteConfig (Writer_Truncate w) in
  let fetch :=
    Client_BlockUntilSynchronizedBeforeSuiteData (Writer_Truncate w) in
  (types.SuiteConfig.ParallelNode suiteConfig = 1 ->
   (outcome (fst produce) <> types.SpecStatePassed ->
    State_ (fst res) = outcome (fst produce)
    /\ Failure_ (fst res) = failure (fst produce))
   /\ (forall e,
         outcome (fst produce) = types.SpecStatePassed ->
         (types.SuiteConfig.ParallelTotal suiteConfig >? 1) = true ->
         commErrorNow (snd produce) = Some e ->
         State_ (fst res) = types.SpecStateFailed
         /\ Failure_ (fst res) = snd (failureForLeafNodeWithError node e)
         /\ invoked (snd res)
            = invoked w ++ [(node, CallSynchronizedBeforeSuiteNode1Body)]))
  /\ (types.SuiteConfig.ParallelNode suiteConfig <> 1 ->
      (forall e,
         snd (fst fetch) = Some e ->
         types.SpecState_Is (State_ suite)
           [types.SpecStateInvalid; types.SpecStatePassed] = true ->
         State_ (fst res) = types.SpecStateFailed
         /\ Failure_ (fst res) = snd (failureForLeafNodeWithError node e)
         /\ invoked (snd res) = invoked w)
      /\ (snd (fst fetch) = None ->
          let consume :=
            runNode node
                    (CallSynchronizedBeforeSuiteAllNodesBody
                       (fst (fst fetch)))
                    (Some ch) EmptyString suiteConfig (snd fetch) in
          State_ (fst res) = outcome (fst consume)
          /\ Failure_ (fst res) = failure (fst consume))).
Proof.
  intros Htype Hdry res produce fetch.
  subst res. unfold runSuiteNode. rewrite Hdry, Htype.
  unfold runSynchronizedBeforeSuite. fold produce. fold fetch. split.
  - intro Hprimary. rewrite Hprimary. cbn [Z.eqb Pos.eqb].
    pose proof (runNode_invoked node CallSynchronizedBeforeSuiteNode1Body
                  (Some ch) EmptyString suiteConfig (Writer_Truncate w))
      as Hinv.
    pose proof (runNode_outcome_not_Invalid node
                  CallSynchronizedBeforeSuiteNode1Body (Some ch) EmptyString
                  suiteConfig (Writer_Truncate w)) as Hvalid.
    fold produce in Hinv, Hvalid.
    destruct produce as [r w1]. cbn [fst snd] in *.
    change (invoked (Writer_Truncate w)) with (invoked w) in Hinv.
    change (State_ (withOutcome (outcome r) (failure r) suite))
      with (outcome r).
    rewrite !SpecState_Is_Passed.
    destruct (types.SpecState_eqb (outcome r) types.SpecStatePassed) eqn:Ep.
    + apply SpecState_eqb_eq in Ep. split; [intro; contradiction|].
      intros e _ Hpar Herr. rewrite Hpar. cbn [andb].
      unfold Client_PostSynchronizedBeforeSuiteSucceeded. rewrite Herr.
      cbn. rewrite Ep. cbn. rewrite Hinv. auto.
    + apply SpecState_eqb_neq in Ep. split; [|intros e Hp; contradiction].
      intros _. cbn [andb].
      unfold Client_PostSynchronizedBeforeSuiteFailed.
      destruct (outcome r) eqn:Eo; try congruence;
        (destruct (types.SuiteConfig.ParallelTotal suiteConfig >? 1);
         [destruct (commErrorNow w1)|]); cbn; rewrite ?Eo; auto.
  - intro Hother.
    destruct (Z.eqb_spec (types.SuiteConfig.ParallelNode suiteConfig) 1)
      as [E|_]; [contradiction|].
    assert (Hfetch : invoked (snd fetch) = invoked w).
    { subst fetch. unfold Client_BlockUntilSynchronizedBeforeSuiteData.
      destruct (commErrorNow _);
        [|destruct (Server.beforeSuiteState _)]; reflexivity. }
    destruct fetch as [[data err] w1]. cbn [fst snd] in *. split.
    + intros e -> Hfresh. cbn [isNil].
      unfold State_, Failure_ in *. rewrite Hfresh. cbn. auto.
    + intros ->. cbn [isNil].
      destruct (runNode node (CallSynchronizedBeforeSuiteAllNodesBody data)
                  (Some ch) EmptyString suiteConfig w1) as [r2 w2].
      cbn. auto.
Qed.

(** X14.  What a ReportAfterSuite node is given.  In a serial run the
    body is called with the report of the run as it stands.  In a parallel
    run it is called with that report and the aggregated report of the
    other workers added to it; when fetching the aggregated report fails,
    the body is not started, the node is recorded Failed with the error as
    message at the location of the node, and the captured writer output of
    the current report is left as it was. *)
Theorem report_after_suite_sees_the_whole_run node (r : types.Report.t)
  suiteConfig suite w :
  types.SuiteConfig.DryRun suiteConfig = false ->
  let res := runReportAfterSuiteNode node r suiteConfig suite w in
  let fetch :=
    Client_BlockUntilAggregatedNonprimaryNodesReport (Writer_Truncate w) in
  ((types.SuiteConfig.ParallelTotal suiteConfig >? 1) = false ->
   invoked (snd res) = invoked w ++ [(node, CallReportAfterSuiteBody r)])
  /\ ((types.SuiteConfig.ParallelTotal suiteConfig >? 1) = true ->
      snd (fst fetch) = None ->
      invoked (snd res)
      = invoked w
        ++ [(node,
             CallReportAfterSuiteBody
               (types.Report.Add r (fst (fst fetch))))])
  /\ (forall e,
        (types.SuiteConfig.ParallelTotal suiteConfig >? 1) = true ->
        snd (fst fetch) = Some e ->
        invoked (snd res) = invoked w
        /\ State_ (fst res) = types.SpecStateFailed
        /\ Failure_ (fst res) = snd (failureForLeafNodeWithError node e)
        /\ types.SpecReport.CapturedGinkgoWriterOutput
             (currentSpecReport (fst res))
           = types.SpecReport.CapturedGinkgoWriterOutput
               (currentSpecReport suite)).
Proof.
  intros Hdry res fetch. subst res. unfold runReportAfterSuiteNode.
  rewrite Hdry. fold fetch.
  assert (Hfetch : invoked (snd fetch) = invoked w) by reflexivity.
  destruct fetch as [[aggregated err] w1]. cbn [fst snd] in *.
  destruct (types.SuiteConfig.ParallelTotal suiteConfig >? 1).
  - split; [discriminate|]. split.
    + intros _ ->.
      pose proof (runNode_invoked node
                    (CallReportAfterSuiteBody (types.Report.Add r aggregated))
                    None EmptyString suiteConfig w1) as Hinv.
      destruct (runNode node _ None _ suiteConfig w1) as [r1 w2].
      cbn [fst snd] in *. now rewrite Hinv, Hfetch.
    + intros e _ ->. cbn. auto.
  - split; [|split; [discriminate|intros e H; discriminate]]. intros _.
    pose proof (runNode_invoked node (CallReportAfterSuiteBody r) None
                  EmptyString suiteConfig (Writer_Truncate w)) as Hinv.
    destruct (runNode node _ None _ suiteConfig _) as [r1 w2].
    cbn [fst snd] in *. exact Hinv.
Qed.

(** *** Registering suite-level nodes *)

Lemma pushSuiteNode_cases node suite :
  (phase suite = PhaseBuildTopLevel /\ familyFree node suite
   /\ pushSuiteNode node suite
      = (None, withSuiteNodes (suiteNodes suite ++ [node]) suite))
  \/ ((phase suite <> PhaseBuildTopLevel \/ ~ familyFree node suite)
      /\ exists err, pushSuiteNode node suite = (Some err, suite)).
Proof.
  unfold pushSuiteNode, familyFree. fold beforeSuiteFamily afterSuiteFamily.
  destruct (phase suite);
    [|right; split; [left; discriminate|eauto]..].
  destruct (NodeType node) eqn:Et; cbn;
    try (left; repeat split; try reflexivity; discriminate);
    (match goal with
     | |- context [match WithType ?f (suiteNodes ?s) with
                   | [] => _ | _ :: _ => _ end] =>
         destruct (WithType f (suiteNodes s)) as [|first others] eqn:E
     end;
     [left; repeat split; try reflexivity; try discriminate; auto
     |right; split; [right; intros [H1 H2]|eauto];
      first [specialize (H1 eq_refl); discriminate
            |specialize (H2 eq_refl); discriminate]]).
Qed.

Lemma WithType_app (family : list types.NodeType) (l l' : Nodes U) :
  WithType family (l ++ l') = WithType family l ++ WithType family l'.
Proof. apply filter_app. Qed.

Lemma pushSuiteNode_oneHookPerFamily node suite :
  oneHookPerFamily suite -> oneHookPerFamily (snd (pushSuiteNode node suite)).
Proof.
  intros [Hb Ha].
  destruct (pushSuiteNode_cases node suite)
    as [(_ & [Fb Fa] & ->)|(_ & err & ->)]; [|split; assumption].
  unfold oneHookPerFamily. cbn [snd suiteNodes withSuiteNodes].
  rewrite !WithType_app, !length_app. cbn [WithType filter].
  split.
  - destruct (types.NodeType_Is (NodeType node) beforeSuiteFamily) eqn:E;
      cbn [List.length]; [rewrite (Fb eq_refl); cbn; lia|lia].
  - destruct (types.NodeType_Is (NodeType node) afterSuiteFamily) eqn:E;
      cbn [List.length]; [rewrite (Fa eq_refl); cbn; lia|lia].
Qed.

(** X15.  Registering suite-level nodes.  [pushSuiteNode] accepts a node
    exactly when the suite is in the top-level build phase and no node of
    the node's family (BeforeSuite or AfterSuite, each with its
    synchronized variant) is registered; the node is then appended to the
    suite nodes, and otherwise the suite is left as it was.
    ReportAfterSuite nodes belong to no family: any number of them is
    accepted.  Hence, whatever nodes are pushed on a new suite, it holds at
    most one node of either family. *)
Theorem suite_nodes_are_registered_once node suite (nodes : list (Node U)) :
  (fst (pushSuiteNode node suite) = None
   <-> phase suite = PhaseBuildTopLevel /\ familyFree node suite)
  /\ (fst (pushSuiteNode node suite) = None ->
      snd (pushSuiteNode node suite)
      = withSuiteNodes (suiteNodes suite ++ [node]) suite)
  /\ (fst (pushSuiteNode node suite) <> None ->
      snd (pushSuiteNode node suite) = suite)
  /\ (NodeType node = types.NodeTypeReportAfterSuite -> familyFree node suite)
  /\ oneHookPerFamily
       (fold_left (fun suite node => snd (pushSuiteNode node suite)) nodes
                  (NewSuite U)).
Proof.
  split; [|split; [|split; [|split]]].
  - destruct (pushSuiteNode_cases node suite)
      as [(Hp & Hf & ->)|(Hno & err & ->)]; cbn [fst].
    + tauto.
    + split; [discriminate|]. tauto.
  - destruct (pushSuiteNode_cases node suite)
      as [(Hp & Hf & ->)|(Hno & err & ->)]; cbn [fst snd];
      [reflexivity|discriminate].
  - destruct (pushSuiteNode_cases node suite)
      as [(Hp & Hf & ->)|(Hno & err & ->)]; cbn [fst snd];
      [congruence|reflexivity].
  - intro Ht. unfold familyFree. rewrite Ht. split; discriminate.
  - assert (H : forall suite0, oneHookPerFamily suite0 ->
               oneHookPerFamily
                 (fold_left (fun suite node => snd (pushSuiteNode node suite))
                            nodes suite0)).
    { induction nodes as [|n nodes IH]; intros suite0 H0; [exact H0|].
      cbn [fold_left]. apply IH. now apply pushSuiteNode_oneHookPerFamily. }
    apply H. split; cbn; lia.
Qed.

(** ** Further properties of the table DSL *)

(** *** Validating the parameters of an entry *)

Lemma validateFixed_first funcType parameters kind cl count :
  forall i err,
    validateFixed AssignableTo funcType parameters kind cl count i = Some err ->
    exists j actual,
      (i <= j < i + count)%nat
      /\ TypeOf (nth j parameters (Nil U)) = Some actual
      /\ AssignableTo actual (reflect.In_ funcType j) = false
      /\ err = types.IncorrectParameterTypeToTableFunction
                 (Z.of_nat j + 1) (reflect.In_ funcType j) actual kind cl
      /\ forall k a,
           (i <= k < j)%nat ->
           TypeOf (nth k parameters (Nil U)) = Some a ->
           AssignableTo a (reflect.In_ funcType k) = true.
Proof.
  induction count as [|count IH]; intros i err; simpl; [discriminate|].
  destruct (TypeOf (nth i parameters (Nil U))) as [a|] eqn:Ha.
  - destruct (AssignableTo a (reflect.In_ funcType i)) eqn:Hok; simpl.
    + intro H. destruct (IH _ _ H) as (j & b & Hj & Hb & Hn & He & Hbefore).
      exists j, b. repeat split; auto; try lia.
      intros k c Hk Hc. destruct (Nat.eq_dec k i) as [->|Hne];
        [congruence|apply Hbefore; [lia|exact Hc]].
    + intros [= <-]. exists i, a. repeat split; auto; try lia.
  - intro H. destruct (IH _ _ H) as (j & b & Hj & Hb & Hn & He & Hbefore).
    exists j, b. repeat split; auto; try lia.
    intros k c Hk Hc. destruct (Nat.eq_dec k i) as [->|Hne];
      [congruence|apply Hbefore; [lia|exact Hc]].
Qed.

Lemma validateVariadic_first expected parameters kind cl count :
  forall i err,
    validateVariadic AssignableTo expected parameters kind cl count i
    = Some err ->
    exists j actual,
      (i <= j < i + count)%nat
      /\ TypeOf (nth j parameters (Nil U)) = Some actual
      /\ AssignableTo actual expected = false
      /\ err = types.IncorrectVariadicParameterTypeToTableFunction
                 expected actual kind cl
      /\ forall k a,
           (i <= k < j)%nat ->
           TypeOf (nth k parameters (Nil U)) = Some a ->
           AssignableTo a expected = true.
Proof.
  induction count as [|count IH]; intros i err; simpl; [discriminate|].
  destruct (TypeOf (nth i parameters (Nil U))) as [a|] eqn:Ha.
  - destruct (AssignableTo a expected) eqn:Hok; simpl.
    + intro H. destruct (IH _ _ H) as (j & b & Hj & Hb & Hn & He & Hbefore).
      exists j, b. repeat split; auto; try lia.
      intros k c Hk Hc. destruct (Nat.eq_dec k i) as [->|Hne];
        [congruence|apply (Hbefore k); [lia|exact Hc]].
    + intros [= <-]. exists i, a. repeat split; auto; try lia.
  - intro H. destruct (IH _ _ H) as (j & b & Hj & Hb & Hn & He & Hbefore).
    exists j, b. repeat split; auto; try lia.
    intros k c Hk Hc. destruct (Nat.eq_dec k i) as [->|Hne];
      [congruence|apply (Hbefore k); [lia|exact Hc]].
Qed.

(** X16.  [validateParameters], case by case.  The number of parameters
    is checked first: too few of them, or too many for a function that is
    not variadic, is the error reported, with the number expected and the
    number given, whatever the types are.  Otherwise the error is that of
    the first parameter, from the left, that is not nil and not assignable
    to the type expected at its place: for a fixed parameter the error
    carries its position counted from 1, the expected and the actual type;
    for a variadic one the element type of the variadic parameter and the
    actual type.  There is no error exactly when the parameters fit. *)
Theorem validation_reports_the_first_mismatch function parameters kind cl :
  Validation function parameters kind cl
    (validateParameters function parameters kind cl)
  /\ ((List.length parameters < limitOf (funcType function))%nat
      <-> validateParameters function parameters kind cl
          = Some (types.TooFewParametersToTableFunction
                    (Z.of_nat (limitOf (funcType function)))
                    (Z.of_nat (List.length parameters)) kind cl))
  /\ ((limitOf (funcType function) < List.length parameters)%nat
      /\ reflect.IsVariadic (funcType function) = false
      <-> validateParameters function parameters kind cl
          = Some (types.TooManyParametersToTableFunction
                    (Z.of_nat (limitOf (funcType function)))
                    (Z.of_nat (List.length parameters)) kind cl)).
Proof.
  assert (Hcases : Validation function parameters kind cl
                     (validateParameters function parameters kind cl)).
  { destruct (validateParameters function parameters kind cl) as [err|]
      eqn:E;
      [|apply Valid_;
        exact (proj1 (validateParameters_None function parameters kind cl)
                 E)].
    revert E. unfold ginkgo.validateParameters.
    set (ft := funcType function). set (limit := limitOf ft).
    destruct (Nat.ltb_spec (List.length parameters) limit) as [Hfew|Hfew];
      [intros [= <-]; now apply TooFew|].
    destruct (Nat.ltb_spec limit (List.length parameters)) as [Hmany|Hmany];
      destruct (reflect.IsVariadic ft) eqn:Hv; cbn [negb andb];
      try (intros [= <-]; now apply TooMany).
    all: destruct (validateFixed AssignableTo ft parameters kind cl limit 0)
      as [e|] eqn:Hfixed;
      [intros [= <-];
       destruct (validateFixed_first _ _ _ _ _ _ _ Hfixed)
         as (j & a & Hj & Ha & Hn & -> & Hbefore);
       apply WrongFixed; fold ft; fold limit;
       [lia|rewrite Hv; intro; try discriminate; lia|lia|exact Ha|exact Hn
       |intros k b Hk; apply Hbefore; lia]
      |try discriminate].
    all: intro Hvar;
      destruct (validateVariadic_first _ _ _ _ _ _ _ Hvar)
        as (j & a & Hj & Ha & Hn & -> & Hbefore);
      apply (WrongVariadic function parameters kind cl j a);
      fold ft; fold limit;
      [exact Hv|lia|exact Ha
      |unfold expectedAt; fold ft; fold limit;
       destruct (Nat.ltb_spec j limit); [lia|exact Hn]
      |intros k b Hk Hb; unfold expectedAt; fold ft; fold limit;
       destruct (Nat.ltb_spec k limit);
       [apply (proj1 (validateFixed_None ft parameters kind cl limit 0)
                     Hfixed k b); [lia|exact Hb]
       |apply (Hbefore k b); [lia|exact Hb]]]. }
  split; [exact Hcases|]. split; split.
  - intro Hfew. inversion Hcases as [H E|H Hv E|j a H H' Hj Ha Hn Hb E
                                     |j a Hv Hj Ha Hn Hb E|H E];
      try reflexivity; try lia.
    destruct H as (H & _). lia.
  - intro E. rewrite E in Hcases. inversion Hcases. assumption.
  - intros [Hmany Hv]. inversion Hcases as [H E|H Hv' E|j a H H' Hj Ha Hn Hb E
                                     |j a Hv' Hj Ha Hn Hb E|H E];
      try reflexivity; try lia; try congruence.
    + specialize (H' Hv). lia.
    + destruct H as (_ & H & _). specialize (H Hv). lia.
  - intro E. rewrite E in Hcases. inversion Hcases. auto.
Qed.

(** *** The arguments of the call *)

Lemma inValuesFor_length funcType parameters :
  List.length (inValuesFor funcType parameters) = List.length parameters.
Proof.
  unfold inValuesFor. destruct (reflect.IsVariadic funcType);
    rewrite ?fill_length, repeat_length; reflexivity.
Qed.

Lemma inValuesFor_nth funcType parameters j :
  (j < List.length parameters)%nat ->
  nth_error (inValuesFor funcType parameters) j
  = if (j <? limitOf funcType)%nat || reflect.IsVariadic funcType
    then Some (computeValue (nth j parameters (Nil U))
                            (expectedAt funcType j))
    else Some reflect.Invalid.
Proof.
  intros Hj. unfold inValuesFor, expectedAt.
  set (limit := limitOf funcType).
  assert (Hrepeat : nth_error (repeat reflect.Invalid (List.length parameters))
                              j = Some reflect.Invalid).
  { rewrite nth_error_repeat by exact Hj. reflexivity. }
  destruct (reflect.IsVariadic funcType) eqn:Hv.
  - rewrite fill_nth_error, fill_length, repeat_length, fill_nth_error,
      repeat_length, Hrepeat.
    destruct (Nat.leb_spec limit j), (Nat.ltb_spec j limit),
      (Nat.ltb_spec j (limit + (List.length parameters - limit))),
      (Nat.ltb_spec j (List.length parameters)),
      (Nat.ltb_spec j (0 + Nat.min limit (List.length parameters)));
      simpl; try reflexivity; lia.
  - rewrite fill_nth_error, repeat_length, Hrepeat.
    destruct (Nat.ltb_spec j limit),
      (Nat.ltb_spec j (List.length parameters)),
      (Nat.ltb_spec j (0 + Nat.min limit (List.length parameters)));
      simpl; try reflexivity; lia.
Qed.

Lemma computeValue_valid (p : Interface_) (t : reflect.Type_) :
  computeValue p t <> reflect.Invalid.
Proof. destruct p; discriminate. Qed.

(** X17.  The arguments [invokeFunction] calls the function with.  There
    is one argument for each parameter.  The argument at the place of a
    fixed parameter of the function, or at any place when the function is
    variadic, is the parameter itself, or the zero value of the type
    expected there when the parameter is nil.  A parameter beyond the
    fixed ones of a function that is not variadic is left as the zero
    [reflect.Value].  Hence, for parameters that [validateParameters]
    accepts, every argument is a valid value. *)
Theorem arguments_of_the_call function parameters :
  let ft := funcType function in
  let inValues := inValuesFor ft parameters in
  List.length inValues = List.length parameters
  /\ (forall j,
        (j < List.length parameters)%nat ->
        (j < limitOf ft)%nat \/ reflect.IsVariadic ft = true ->
        nth_error inValues j
        = Some (match TypeOf (nth j parameters (Nil U)) with
                | Some _ => ValueOf (nth j parameters (Nil U))
                | None => reflect.Zero (expectedAt ft j)
                end))
  /\ (forall j,
        (limitOf ft <= j < List.length parameters)%nat ->
        reflect.IsVariadic ft = false ->
        nth_error inValues j = Some reflect.Invalid)
  /\ (accepts function parameters ->
      Forall (fun v => v <> reflect.Invalid) inValues).
Proof.
  intros ft inValues. subst inValues.
  split; [apply inValuesFor_length|]. split; [|split].
  - intros j Hj Hcovered. rewrite inValuesFor_nth by exact Hj.
    replace ((j <? limitOf ft)%nat || reflect.IsVariadic ft) with true.
    + unfold computeValue. destruct (nth j parameters (Nil U)); reflexivity.
    + destruct Hcovered as [H| ->]; [|now rewrite orb_true_r].
      apply Nat.ltb_lt in H. now rewrite H.
  - intros j Hj Hv. rewrite inValuesFor_nth by lia. rewrite Hv.
    destruct (Nat.ltb_spec j (limitOf ft)); [lia|reflexivity].
  - intros (Hfew & Hmany & _). apply Forall_forall. intros v Hin.
    apply In_nth_error in Hin. destruct Hin as [j Hj].
    assert (Hlt : (j < List.length parameters)%nat).
    { rewrite <- (inValuesFor_length ft parameters).
      apply nth_error_Some. congruence. }
    rewrite inValuesFor_nth in Hj by exact Hlt.
    destruct (reflect.IsVariadic ft) eqn:Hv.
    + rewrite orb_true_r in Hj. injection Hj as <-.
      apply computeValue_valid.
    + specialize (Hmany Hv).
      destruct (Nat.ltb_spec j (limitOf ft)); [|subst ft; lia].
      cbn in Hj. injection Hj as <-. apply computeValue_valid.
Qed.

(** *** Generating the table *)

Lemma collectArgs_spec cl (args : list (TableArg U)) :
  Forall notNil args ->
  forall containerNodeArgs entries itBody,
    collectArgs cl args containerNodeArgs entries itBody
    = match optionToList Func itBody ++ functionsOf args with
      | _ :: _ :: _ => inl (inl (types.MultipleEntryBodyFunctionsForTable cl))
      | functions =>
          inr (containerNodeArgs ++ decorationsOf args,
               entries ++ entriesOf args, hd_error functions)
      end.
Proof.
  induction 1 as [|arg args Harg _ IH]; intros containerNodeArgs entries itBody.
  - cbn. rewrite !app_nil_r. destruct itBody; reflexivity.
  - destruct arg as [entry|f| |d]; cbn [collectArgs].
    + rewrite IH. cbn. rewrite <- !app_assoc. reflexivity.
    + destruct itBody as [g|]; cbn; [reflexivity|].
      rewrite IH. cbn. reflexivity.
    + now contradiction Harg.
    + rewrite IH. cbn. rewrite <- !app_assoc. reflexivity.
Qed.

(** X18.  The arguments of a table.  When no argument is nil,
    [DescribeTable] exits with the error for multiple body functions as
    soon as two functions are among the arguments; otherwise it pushes one
    container node, at the code location of the call, decorated with the
    arguments that are neither entries nor functions, in the order given,
    whose body generates the It nodes of the entries, in the order given,
    from the function given, if any.  [FDescribeTable] and
    [PDescribeTable] do the same with the Focus or the Pending decoration
    added last.  A nil argument that comes before a second function makes
    the call panic. *)
Theorem table_arguments cl (text : string) (args : list (TableArg U)) :
  Forall notNil args ->
  let table decorations :=
    match functionsOf args with
    | _ :: _ :: _ =>
        ExitWith U (types.MultipleEntryBodyFunctionsForTable cl)
    | functions =>
        Pushed (NewNode types.NodeTypeContainer text cl decorations
                        (@noBody U))
               (tableBody AssignableTo panicLocation (hd_error functions)
                          (entriesOf args))
    end in
  DescribeTable AssignableTo panicLocation cl text args
  = table (decorationsOf args)
  /\ FDescribeTable AssignableTo panicLocation cl text args
     = table (decorationsOf args ++ [Focus])
  /\ PDescribeTable AssignableTo panicLocation cl text args
     = table (decorationsOf args ++ [Pending])
  /\ (forall before after,
        (List.length (functionsOf before) <= 1)%nat ->
        Forall notNil before ->
        DescribeTable AssignableTo panicLocation cl text
                      (before ++ ArgNil U :: after)
        = Crash U nilDereference).
Proof.
  intros Hargs table.
  assert (Hgen : forall extra,
             generateTable AssignableTo panicLocation cl text
                           (args ++ map (@ArgDecoration U) extra)
             = table (decorationsOf args ++ extra)).
  { intro extra. unfold generateTable. rewrite collectArgs_spec.
    - cbn [optionToList app]. unfold functionsOf, entriesOf, decorationsOf.
      rewrite !flat_map_app.
      assert (E1 : flat_map (fun arg : TableArg U =>
                               match arg with ArgFunction f => [f] | _ => [] end)
                            (map (@ArgDecoration U) extra) = [])
        by (induction extra; auto).
      assert (E2 : flat_map (fun arg : TableArg U =>
                               match arg with ArgEntry e => [e] | _ => [] end)
                            (map (@ArgDecoration U) extra) = [])
        by (induction extra; auto).
      assert (E3 : flat_map (fun arg : TableArg U =>
                               match arg with
                               | ArgDecoration _ d => [d] | _ => [] end)
                            (map (@ArgDecoration U) extra) = extra)
        by (induction extra as [|d extra IHextra]; cbn;
            [reflexivity|now rewrite IHextra]).
      rewrite E1, E2, E3, !app_nil_r. subst table. cbv beta.
      fold (functionsOf args).
      destruct (functionsOf args) as [|f [|g fs]]; reflexivity.
    - apply Forall_app. split; [exact Hargs|].
      apply Forall_forall. intros a Ha. apply in_map_iff in Ha.
      destruct Ha as (d & <- & _). discriminate. }
  split; [|split; [|split]].
  - unfold DescribeTable. specialize (Hgen []). cbn [map] in Hgen.
    now rewrite !app_nil_r in Hgen.
  - unfold FDescribeTable. exact (Hgen [Focus]).
  - unfold PDescribeTable. exact (Hgen [Pending]).
  - intros before after Hone Hbefore. unfold DescribeTable, generateTable.
    assert (H : forall containerNodeArgs entries itBody,
               (List.length (optionToList Func itBody ++ functionsOf before)
                <= 1)%nat ->
               collectArgs cl (before ++ ArgNil U :: after) containerNodeArgs
                           entries itBody
               = inl (inr nilDereference)).
    { clear Hone. induction Hbefore as [|arg before Harg _ IH];
        intros containerNodeArgs entries itBody Hone; [reflexivity|].
      destruct arg as [entry|f| |d]; cbn [collectArgs app].
      - apply IH. exact Hone.
      - destruct itBody as [g|]; [cbn in Hone; lia|].
        apply IH. exact Hone.
      - reflexivity.
      - apply IH. exact Hone. }
    rewrite H; [reflexivity|exact Hone].
Qed.

Lemma entryNode_generatedFrom itBody entry u node u' :
  entryNode itBody entry u = (Built node, u') ->
  generatedFrom itBody entry node.
Proof.
  unfold ginkgo.entryNode, generatedFrom.
  destruct (describeEntry AssignableTo entry u) as [[[text err]|e] u1];
    [|discriminate].
  destruct err as [err|].
  - intros [= <- _]. eauto.
  - destruct itBody as [function|]; [|discriminate].
    intros [= <- _]. eauto.
Qed.

(** X19.  One It for each entry.  When the body of the container of a
    table returns, it has pushed exactly one node for each entry, in the
    order of the entries: an It at the code location of the entry, with
    the decorations of the entry.  A table with no entry pushes nothing. *)
Theorem one_It_per_entry (itBody : option Func) (entries : list TableEntry)
  (u : U) :
  (forall nodes u',
     tableBody AssignableTo panicLocation itBody entries u = (Built nodes, u')
     -> Forall2 (generatedFrom itBody) entries nodes)
  /\ (forall entry node,
        generatedFrom itBody entry node ->
        NodeType node = types.NodeTypeIt
        /\ CodeLocation node = codeLocation entry)
  /\ tableBody AssignableTo panicLocation itBody [] u = (Built [], u).
Proof.
  split; [|split; [|reflexivity]].
  - revert u. induction entries as [|entry entries IH]; intros u nodes u'.
    + intros [= <- _]. constructor.
    + cbn [tableBody].
      destruct (ginkgo.entryNode AssignableTo panicLocation itBody entry u)
        as [[node|e] u1] eqn:E; [|discriminate].
      destruct (tableBody AssignableTo panicLocation itBody entries u1)
        as [[rest|e] u2] eqn:E'; [|discriminate].
      intros [= <- _]. constructor.
      * eapply entryNode_generatedFrom. exact E.
      * eapply IH. exact E'.
  - intros entry node (text & err & ->). split; reflexivity.
Qed.

(** *** The It of an entry *)


(** X21.  An entry whose parameters fit.  When the parameters of an entry
    pass the validation against the table body, the It generated for it
    calls the table body with the arguments built from the parameters, and
    does nothing else.  Its text is the description when the description
    is a string; when the description is a function that returns one
    string, accepts the parameters and returns, the text is the string it
    returns for the parameters, and the call is made while the tree is
    built. *)
Theorem valid_entry_runs_the_table_body (itBody : Func) entry (u : U) :
  validateParameters itBody (parameters entry) "Table Body function"
                     (codeLocation entry) = None ->
  let body :=
    entryBody panicLocation None (Some itBody) (parameters entry) in
  (forall u0,
     body u0
     = fst (Call itBody (inValuesFor (funcType itBody) (parameters entry))
                 u0))
  /\ (TypeOf (description entry) = Some reflect.String ->
      entryNode (Some itBody) entry u
      = (Built (NewNode types.NodeTypeIt
                        (reflect.Value_String (ValueOf (description entry)))
                        (codeLocation entry) (decorations entry) body), u))
  /\ (forall f,
        description entry = Function f ->
        reflect.isFunc (funcType f) = true ->
        reflect.NumOut (funcType f) = 1%nat ->
        reflect.Out (funcType f) 0 = reflect.String ->
        validateParameters f (parameters entry) "Entry Description function"
                           (codeLocation entry) = None ->
        let described := invokeFunction f (parameters entry) u in
        exit (fst described) = Returned ->
        entryNode (Some itBody) entry u
        = (Built (NewNode types.NodeTypeIt
                          (reflect.Value_String
                             (nth 0 (snd described) reflect.Invalid))
                          (codeLocation entry) (decorations entry) body),
           after (fst described))).
Proof.
  intros Hvalid body. split; [reflexivity|]. split.
  - intro Hstring. unfold ginkgo.entryNode, describeEntry.
    rewrite Hstring. cbn [reflect.isString]. rewrite Hvalid. reflexivity.
  - intros f Hf Hfunc Hout Hstr Hdesc described Hret.
    unfold ginkgo.entryNode, describeEntry. rewrite Hf. cbn [TypeOf].
    rewrite Hfunc, Hout, Hstr.
    destruct (funcType f) eqn:Eft; try discriminate Hfunc.
    cbn [reflect.isString Nat.eqb andb]. rewrite Hdesc.
    subst described.
    destruct (invokeFunction f (parameters entry) u) as [run results].
    cbn [fst snd] in *. rewrite Hret, Hvalid. reflexivity.
Qed.

(** X22.  What makes the container body of a table panic.  The body
    panics, on a nil [reflect.Type], at the first entry whose description
    is nil, and at the first entry with a string description when the
    table was given no body function; the entries before it have been
    processed, the entries after it are not. *)
Theorem table_body_panics (itBody : option Func) (entry : TableEntry)
  (before after : list TableEntry) (u : U) :
  description entry = Nil U
  \/ (TypeOf (description entry) = Some reflect.String /\ itBody = None) ->
  (entryNode itBody entry u = (BuildPanic _ nilDereference, u))
  /\ (forall nodes u',
        tableBody AssignableTo panicLocation itBody before u
        = (Built nodes, u') ->
        tableBody AssignableTo panicLocation itBody
                  (before ++ entry :: after) u
        = (BuildPanic _ nilDereference, u')).
Proof.
  intro Hcase.
  assert (Hentry : forall u0,
             ginkgo.entryNode AssignableTo panicLocation itBody entry u0
             = (BuildPanic _ nilDereference, u0)).
  { intro u0. unfold ginkgo.entryNode, describeEntry.
    destruct Hcase as [Hnil|[Hstring ->]].
    - rewrite Hnil. reflexivity.
    - rewrite Hstring. reflexivity. }
  split; [apply Hentry|].
  revert u. induction before as [|first before IH]; intros u nodes u'.
  - intros [= <- <-]. cbn [app tableBody]. now rewrite Hentry.
  - cbn [app tableBody].
    destruct (ginkgo.entryNode AssignableTo panicLocation itBody first u)
      as [[node|e] u1]; [|discriminate].
    destruct (tableBody AssignableTo panicLocation itBody before u1)
      as [[rest|e] u2] eqn:E; [|discriminate].
    intros [= _ <-]. now rewrite (IH u1 rest u2 E).
Qed.

(** ** Building the tree *)

Lemma grownBy_refl c : grownBy [] c c.
Proof.
  unfold grownBy. rewrite app_nil_r. destruct (tree c); auto.
Qed.

Lemma grownBy_trans more more' c c' c'' :
  grownBy more c c' -> grownBy more' c' c'' -> grownBy (more ++ more') c c''.
Proof.
  intros (H1 & H2 & H3) (H4 & H5 & H6). unfold grownBy.
  rewrite H4, H5, H6, H3. cbn. rewrite app_assoc. auto.
Qed.

Lemma isContainer_not_suite node :
  isContainer node = true -> isSuiteNode node = false.
Proof.
  unfold isContainer, isSuiteNode. intro H.
  apply NodeType_eqb_eq in H. rewrite H. reflexivity.
Qed.

Lemma pushNodeWith_building
  (enterBody : Construction U -> option types.PanicValue * Construction U)
  node (body : ContainerBody U) c :
  phase (built c) = PhaseBuildTree ->
  (forall c0, phase (built c0) = PhaseBuildTree ->
     exists more, grownBy more c0 (snd (enterBody c0))) ->
  let r := pushNodeWith enterBody node body c in
  if isSuiteNode node then
    fst r = Some (GinkgoError_
                    (types.SuiteNodeInNestedContext (NodeType node)
                                                    (CodeLocation node)))
    /\ grownBy [] c (snd r)
  else
    exists t, grownBy [t] c (snd r) /\ TreeNode_Node t = node
      /\ if isContainer node then
           let inner := enterBody (withTree (leaf node) c) in
           t = tree (snd inner)
           /\ fst r
              = match fst inner with
                | Some e =>
                    Some (CaughtPanicDuringABuildPhase e (CodeLocation node))
                | None => None
                end
         else t = leaf node /\ fst r = None.
Proof.
  intros Hp Henter. unfold pushNodeWith, isSuiteNode, isContainer.
  destruct (types.NodeType_Is (NodeType node) _).
  - unfold pushSuiteNode. rewrite Hp. cbn. split; [reflexivity|].
    unfold grownBy. cbn. rewrite app_nil_r. destruct (tree c); auto.
  - rewrite Hp.
    destruct (types.NodeType_eqb (NodeType node) types.NodeTypeContainer).
    + destruct (Henter (withTree (leaf node) c) Hp) as (more & H1 & H2 & H3).
      fold (leaf node).
      destruct (enterBody (withTree (leaf node) c)) as [e c1] eqn:E.
      cbn [fst snd] in *. exists (tree c1).
      split; [|split; [|split]].
      * unfold grownBy. cbn. auto.
      * rewrite H3. reflexivity.
      * reflexivity.
      * destruct e; reflexivity.
    + exists (leaf node). cbn.
      split; [|auto]. unfold grownBy. cbn. auto.
Qed.

Lemma pushNodeWith_grows
  (enterBody : Construction U -> option types.PanicValue * Construction U)
  node (body : ContainerBody U) c :
  phase (built c) = PhaseBuildTree ->
  (forall c0, phase (built c0) = PhaseBuildTree ->
     exists more, grownBy more c0 (snd (enterBody c0))) ->
  exists more, grownBy more c (snd (pushNodeWith enterBody node body c)).
Proof.
  intros Hp Henter.
  pose proof (pushNodeWith_building enterBody node body c Hp Henter) as H.
  cbv zeta in H. destruct (isSuiteNode node).
  - exists []. apply H.
  - destruct H as (t & H & _). eauto.
Qed.

Lemma enter_grows (body : ContainerBody U) :
  forall c, phase (built c) = PhaseBuildTree ->
    exists more, grownBy more c (snd (enter body c)).
Proof.
  induction body as [|e|node nodeBody IHbody next IHnext]; intros c Hp.
  - exists []. apply grownBy_refl.
  - exists []. apply grownBy_refl.
  - cbn [enter].
    destruct (pushNodeWith_grows (enter nodeBody) node nodeBody c Hp IHbody)
      as (more & Hg).
    destruct (pushNodeWith (enter nodeBody) node nodeBody c) as [err c1].
    cbn [snd] in Hg.
    assert (Hp1 : phase (built c1) = PhaseBuildTree)
      by (destruct Hg as (-> & _); exact Hp).
    destruct (IHnext err c1 Hp1) as (more' & Hg').
    exists (more ++ more'). eapply grownBy_trans; eauto.
Qed.

(** X23.  A push while the tree is built ([PhaseBuildTree]).  A
    suite-level node is refused with [SuiteNodeInNestedContext] and nothing
    changes.  Any other node adds exactly one child, rooted at the node, at
    the end of the children of the current tree node; the current node, its
    earlier children, the registered suite nodes, the top-level containers
    and the phase stay as they were, whatever the body of a container
    pushes.  A node that is not a container is added as a leaf, without an
    error.  A container is added with what its body built, also when the
    body panics, and the push returns [CaughtPanicDuringABuildPhase] with
    the panic value and the code location of the container exactly when the
    body panics. *)
Theorem push_while_building_the_tree node (body : ContainerBody U) c :
  phase (built c) = PhaseBuildTree ->
  let r := PushNode node body c in
  if isSuiteNode node then
    fst r = Some (GinkgoError_
                    (types.SuiteNodeInNestedContext (NodeType node)
                                                    (CodeLocation node)))
    /\ grownBy [] c (snd r)
  else
    exists t, grownBy [t] c (snd r) /\ TreeNode_Node t = node
      /\ if isContainer node then
           let inner := enter body (withTree (leaf node) c) in
           t = tree (snd inner)
           /\ fst r
              = match fst inner with
                | Some e =>
                    Some (CaughtPanicDuringABuildPhase e (CodeLocation node))
                | None => None
                end
         else t = leaf node /\ fst r = None.
Proof.
  intro Hp. unfold PushNode.
  apply pushNodeWith_building; [exact Hp|].
  intros c0 Hp0. apply enter_grows. exact Hp0.
Qed.

Lemma pushContainers_entered (containers : list (Node U * ContainerBody U)) :
  forall c, phase (built c) = PhaseBuildTree ->
    Forall (fun x => NodeType (fst x) = types.NodeTypeContainer) containers ->
    let r := pushContainers containers c in
    exists entered, grownBy entered c (snd r)
      /\ match fst r with
         | None => map (@TreeNode_Node U) entered = map fst containers
         | Some err =>
             exists before failed rest e,
               containers = before ++ failed :: rest
               /\ map (@TreeNode_Node U) entered
                  = map fst before ++ [fst failed]
               /\ err = CaughtPanicDuringABuildPhase
                          e (CodeLocation (fst failed))
         end.
Proof.
  induction containers as [|[node body] rest IH]; intros c Hp Hall.
  - exists []. split; [apply grownBy_refl|reflexivity].
  - inversion Hall as [|x l Hnode Hrest]; subst. cbn [fst] in Hnode.
    unfold PushNode in *. cbn [pushContainers].
    pose proof (pushNodeWith_building (enter body) node body c Hp
                  (fun c0 H0 => enter_grows body c0 H0)) as H.
    cbv zeta in H. unfold PushNode.
    assert (Hc : isContainer node = true)
      by (unfold isContainer; rewrite Hnode; reflexivity).
    rewrite (isContainer_not_suite node Hc), Hc in H.
    destruct H as (t & Hg & Ht & _ & Herr).
    destruct (pushNodeWith (enter body) node body c) as [err c1].
    cbn [fst snd] in *.
    destruct err as [err|].
    + exists [t]. split; [exact Hg|].
      destruct (fst (enter body (withTree (leaf node) c))) as [e|];
        [|discriminate].
      exists [], (node, body), rest, e. cbn. rewrite Ht.
      repeat split. congruence.
    + assert (Hp1 : phase (built c1) = PhaseBuildTree)
        by (destruct Hg as (-> & _); exact Hp).
      destruct (IH c1 Hp1 Hrest) as (entered & Hg' & Hres).
      exists ([t] ++ entered). split; [eapply grownBy_trans; eauto|].
      destruct (fst (pushContainers rest c1)) as [err|].
      * destruct Hres as (before & failed & rest' & e & -> & Hm & ->).
        exists ((node, body) :: before), failed, rest', e.
        cbn. rewrite Ht, Hm. auto.
      * cbn. rewrite Ht, Hres. reflexivity.
Qed.

Lemma map_fst_combine (A B : Type) (l : list A) :
  forall l' : list B,
    List.length l' = List.length l -> map fst (combine l l') = l.
Proof.
  induction l as [|a l IH]; intros [|b l'] H; cbn in *;
    try discriminate; [reflexivity|].
  rewrite IH by congruence. reflexivity.
Qed.

Lemma combine_split_at (A B : Type) (l : list A) :
  forall (l' : list B) before failed rest,
    combine l l' = before ++ failed :: rest ->
    exists rest', l = map fst before ++ fst failed :: rest'.
Proof.
  induction l as [|a l IH]; intros [|b l'] before failed rest H; cbn in H;
    try (destruct before; discriminate).
  destruct before as [|x before]; cbn in H; inversion H; subst.
  - exists l. reflexivity.
  - destruct (IH _ _ _ _ H2) as (rest' & ->).
    exists rest'. reflexivity.
Qed.

(** X24.  [BuildTree] enters the containers recorded at top level in the
    order of their registration.  It sets the phase to [PhaseBuildTree] and
    changes nothing else of the suite but the tree, to whose root it adds
    one child for each container entered.  Without an error every recorded
    container has been entered.  An error is the panic of the body of one
    of them, [failed], with its code location: the containers before it and
    [failed] itself are in the tree, those after it have not been
    entered. *)
Theorem BuildTree_enters_in_registration_order c :
  topLevelRecorded c ->
  let r := BuildTree c in
  built (snd r) = withPhase PhaseBuildTree (built c)
  /\ topLevelBodies (snd r) = topLevelBodies c
  /\ exists entered,
       tree (snd r)
       = MakeTreeNode (TreeNode_Node (tree c)) (Children (tree c) ++ entered)
       /\ match fst r with
          | None =>
              map (@TreeNode_Node U) entered = topLevelContainers (built c)
          | Some err =>
              exists before failed rest e,
                topLevelContainers (built c) = before ++ failed :: rest
                /\ map (@TreeNode_Node U) entered = before ++ [failed]
                /\ err = CaughtPanicDuringABuildPhase e (CodeLocation failed)
          end.
Proof.
  intros [Hlen Hall]. unfold BuildTree. cbn [built withBuilt topLevelBodies
    withPhase topLevelContainers].
  set (c1 := withBuilt (withPhase PhaseBuildTree (built c)) c).
  set (containers := combine (topLevelContainers (built c))
                             (topLevelBodies c)).
  assert (Hfst : map fst containers = topLevelContainers (built c))
    by (apply map_fst_combine; exact Hlen).
  assert (Hc : Forall (fun x => NodeType (fst x) = types.NodeTypeContainer)
                      containers).
  { apply Forall_forall. intros [node body] Hin. cbn.
    apply in_combine_l in Hin.
    exact (proj1 (Forall_forall _ _) Hall node Hin). }
  destruct (pushContainers_entered containers c1 eq_refl Hc)
    as (entered & (Hb & Ht & Htree) & Hres).
  split; [exact Hb|]. split; [exact Ht|].
  exists entered. split; [exact Htree|].
  destruct (fst (pushContainers containers c1)) as [err|].
  - destruct Hres as (before & failed & rest & e & Hsplit & Hm & ->).
    destruct (combine_split_at _ _ _ _ _ _ _ Hsplit) as (rest' & Hl).
    exists (map fst before), (fst failed), rest', e. auto.
  - congruence.
Qed.

Lemma PushNode_top_level node (body : ContainerBody U) c :
  phase (built c) = PhaseBuildTopLevel ->
  let c' := snd (PushNode node body c) in
  phase (built c') = PhaseBuildTopLevel
  /\ topLevelContainers (built c')
     = topLevelContainers (built c)
       ++ (if isContainer node then [node] else [])
  /\ topLevelBodies c'
     = topLevelBodies c ++ (if isContainer node then [body] else [])
  /\ tree c'
     = MakeTreeNode (TreeNode_Node (tree c))
         (Children (tree c) ++ (if isPlain node then [leaf node] else [])).
Proof.
  intro Hp. unfold PushNode, pushNodeWith, isPlain.
  fold (isSuiteNode node). fold (isContainer node).
  destruct (isSuiteNode node) eqn:Es.
  - assert (Hc : isContainer node = false).
    { destruct (isContainer node) eqn:Ec; [|reflexivity].
      rewrite (isContainer_not_suite node Ec) in Es. discriminate. }
    rewrite Hc. cbn [orb negb].
    destruct (pushSuiteNode_cases node (built c))
      as [(_ & _ & ->)|(_ & err & ->)];
      cbn; rewrite !app_nil_r; destruct (tree c); auto.
  - rewrite Hp. destruct (isContainer node); cbn;
      rewrite ?app_nil_r; repeat split; auto; destruct (tree c); auto.
Qed.

Lemma declareAll_top_level (nodes : list (Node U * ContainerBody U)) :
  forall c, phase (built c) = PhaseBuildTopLevel ->
    let c' := declareAll nodes c in
    phase (built c') = PhaseBuildTopLevel
    /\ topLevelContainers (built c')
       = topLevelContainers (built c) ++ filter isContainer (map fst nodes)
    /\ topLevelBodies c'
       = topLevelBodies c
         ++ map snd (filter (fun x => isContainer (fst x)) nodes)
    /\ tree c'
       = MakeTreeNode (TreeNode_Node (tree c))
           (Children (tree c) ++ map leaf (filter isPlain (map fst nodes))).
Proof.
  induction nodes as [|[node body] rest IH]; intros c Hp.
  - cbn. rewrite !app_nil_r. destruct (tree c); auto.
  - cbn [declareAll fold_left fst snd].
    destruct (PushNode_top_level node body c Hp) as (H1 & H2 & H3 & H4).
    destruct (IH _ H1) as (H5 & H6 & H7 & H8).
    unfold declareAll in *. cbv zeta in *.
    rewrite H5, H6, H7, H8, H2, H3, H4. cbn [map filter fst snd].
    cbn [TreeNode_Node Children].
    rewrite <- !app_assoc.
    destruct (isContainer node), (isPlain node); cbn; auto.
Qed.

Lemma filter_map_fst (A B : Type) (f : A -> bool) (l : list (A * B)) :
  filter f (map fst l) = map fst (filter (fun x => f (fst x)) l).
Proof.
  induction l as [|x l IH]; cbn; [reflexivity|].
  destruct (f (fst x)); cbn; rewrite IH; reflexivity.
Qed.

(** X25.  Declarations at top level, from a new suite.  Whatever nodes are
    pushed before [BuildTree], no body is entered: the suite stays in
    [PhaseBuildTopLevel], the containers are recorded in the order of their
    declaration, and every node that is neither a container nor a
    suite-level node becomes at once a leaf under the root of the tree.
    So, when [BuildTree] then returns without an error, the children of the
    root are first the plain nodes declared at top level and after them the
    top-level containers, each group in the order of its declarations,
    wherever the plain nodes were declared among the containers. *)
Theorem top_level_declarations (nodes : list (Node U * ContainerBody U)) :
  let c := declareAll nodes (NewConstruction U) in
  phase (built c) = PhaseBuildTopLevel
  /\ topLevelContainers (built c) = filter isContainer (map fst nodes)
  /\ tree c
     = MakeTreeNode (zeroNode U) (map leaf (filter isPlain (map fst nodes)))
  /\ (fst (BuildTree c) = None ->
      map (@TreeNode_Node U) (Children (tree (snd (BuildTree c))))
      = filter isPlain (map fst nodes) ++ filter isContainer (map fst nodes)).
Proof.
  destruct (declareAll_top_level nodes (NewConstruction U) eq_refl)
    as (H1 & H2 & H3 & H4).
  cbv zeta in *. cbn [NewConstruction built tree topLevelBodies NewSuite
    topLevelContainers TreeNode_Node Children app] in *.
  split; [exact H1|]. split; [exact H2|]. split; [exact H4|].
  set (c := declareAll nodes (NewConstruction U)) in *.
  assert (Hrec : topLevelRecorded c).
  { split.
    - rewrite H2, H3, filter_map_fst, !length_map. reflexivity.
    - rewrite H2. apply Forall_forall. intros node Hin.
      apply filter_In in Hin. destruct Hin as [_ Hc].
      apply NodeType_eqb_eq. exact Hc. }
  intro Hok.
  unfold BuildTree in *.
  set (c1 := withBuilt (withPhase PhaseBuildTree (built c)) c) in *.
  cbn [built withBuilt topLevelBodies withPhase topLevelContainers c1]
    in *.
  set (containers := combine (topLevelContainers (built c))
                             (topLevelBodies c)) in *.
  assert (Hc : Forall (fun x => NodeType (fst x) = types.NodeTypeContainer)
                      containers).
  { apply Forall_forall. intros [node body] Hin. cbn.
    apply in_combine_l in Hin.
    exact (proj1 (Forall_forall _ _) (proj2 Hrec) node Hin). }
  destruct (pushContainers_entered containers c1 eq_refl Hc)
    as (entered & (_ & _ & Htree) & Hres).
  rewrite Hok in Hres. rewrite Htree. cbn [Children tree withBuilt c1].
  rewrite H4. cbn [Children]. rewrite map_app, Hres, map_map. cbn.
  rewrite map_id. f_equal.
  unfold containers. rewrite map_fst_combine by apply Hrec. exact H2.
Qed.

Lemma PushNode_in_run_phase node (body : ContainerBody U) c :
  phase (built c) = PhaseRun ->
  exists err, PushNode node body c = (Some err, c).
Proof.
  intro Hp. unfold PushNode, pushNodeWith, pushSuiteNode. rewrite Hp.
  destruct c as [suite t bodies].
  destruct (types.NodeType_Is (NodeType node) _); cbn; eauto.
Qed.

(** X26.  [Run] runs a suite once.  It panics exactly when the phase is not
    [PhaseBuildTree], that is before [BuildTree] or after a first [Run].
    Otherwise it returns the focus flag of [ApplyFocusToSpecs] and leaves
    the suite in [PhaseRun] with its tree, its top-level containers and its
    suite nodes as they were: from then on a second [Run] panics, and every
    push, of any node, returns an error and changes nothing. *)
Theorem Run_runs_once
  (ApplyNestedFocusPolicyToTree : TreeNode U -> TreeNode U)
  (GenerateSpecsFromTreeRoot : TreeNode U -> Specs U)
  (ShuffleSpecs : Specs U -> types.SuiteConfig.t -> Specs U)
  (ApplyFocusToSpecs :
     Specs U -> string -> types.SuiteConfig.t -> Specs U * bool)
  (description suitePath : string) suiteConfig c w :
  let run :=
    Run SpecStateFailureStates ApplyNestedFocusPolicyToTree
        GenerateSpecsFromTreeRoot ShuffleSpecs ApplyFocusToSpecs in
  match run description suitePath suiteConfig c w with
  | RunPanics _ _ => phase (built c) <> PhaseBuildTree
  | Ran success hasProgrammaticFocus c' w' =>
      phase (built c) = PhaseBuildTree
      /\ hasProgrammaticFocus
         = snd (ApplyFocusToSpecs
                  (ShuffleSpecs
                     (GenerateSpecsFromTreeRoot
                        (ApplyNestedFocusPolicyToTree (tree c)))
                     suiteConfig)
                  description suiteConfig)
      /\ phase (built c') = PhaseRun
      /\ tree c' = tree c
      /\ topLevelContainers (built c') = topLevelContainers (built c)
      /\ suiteNodes (built c') = suiteNodes (built c)
      /\ later w w'
      /\ (forall description' suitePath' suiteConfig' w'',
            exists message,
              run description' suitePath' suiteConfig' c' w''
              = RunPanics U message)
      /\ (forall node (body : ContainerBody U),
            exists err, PushNode node body c' = (Some err, c'))
  end.
Proof.
  intro run. unfold run, Run.
  destruct (phase (built c)) eqn:Hp; try discriminate.
  destruct (ApplyFocusToSpecs _ description suiteConfig)
    as [specs hasProgrammaticFocus] eqn:Ef.
  destruct (runSpecsState_follows description suitePath hasProgrammaticFocus
              specs suiteConfig (withPhase PhaseRun (built c)) w)
    as (_ & (H1 & H2 & H3) & Hl).
  cbn [withPhase topLevelContainers phase suiteNodes] in H1, H2, H3.
  cbn [built tree withBuilt snd].
  repeat (split; [solve [auto]|]).
  split.
  - intros d p cfg w''. cbn [built withBuilt]. rewrite H2. eauto.
  - intros node body. apply PushNode_in_run_phase. exact H2.
Qed.

End Properties.

(** * The properties on the example suites *)

Import internal ginkgo examples.

(** The interrupt branch of [runNode], for the record: when the channel
    fires first the node is Interrupted, with the handler's message at the
    node's location, whatever the body does. *)
Lemma runNode_interrupted (U : Type) (node : Node U) (call : BodyCall)
  (ch : option nat) (text : string) (suiteConfig : types.SuiteConfig.t)
  (w : World U) :
  channelFires (env w) ch (now w) = true ->
  let r := fst (runNode node call ch text suiteConfig w) in
  outcome r = types.SpecStateInterrupted
  /\ types.Failure.Message (failure r)
     = Environment.interruptMessage (env w) (now w)
  /\ types.Failure.Location (failure r) = CodeLocation node.
Proof.
  intro Hfires. unfold runNode.
  destruct (types.SuiteConfig.EmitSpecProgress suiteConfig);
    cbn -[channelFires];
    cbn [env now withInvoked Writer_Write withWriter] in *;
    rewrite Hfires; cbn; repeat split; reflexivity.
Qed.

Lemma cleanup_scoping_witness :
  Forall (fun n : Node nat => 0 <= NestingLevel n) (Nodes_ nested)
  /\ WithType [types.NodeTypeIt] (Nodes_ nested) <> []
  /\ exists (executed justAfterEach afterEach : Nodes nat) (d : Z),
       (exists rest, setupNodes nested = executed ++ rest)
       /\ (exists n, In n executed /\ NestingLevel n = d)
       /\ Forall (fun n => NestingLevel n <= d) executed
       /\ cleanupOfType nat types.NodeTypeJustAfterEach d nested justAfterEach
       /\ cleanupOfType nat types.NodeTypeAfterEach d nested afterEach
       /\ invoked (snd (runAttempt nested serial 0 (NewSuite nat) start))
          = invoked start
            ++ map (bodyOf nat) executed
            ++ map (bodyOf nat) justAfterEach ++ map (bodyOf nat) afterEach.
Proof.
  assert (H1 : Forall (fun n : Node nat => 0 <= NestingLevel n)
                      (Nodes_ nested))
    by (repeat constructor; simpl; lia).
  assert (H2 : WithType [types.NodeTypeIt] (Nodes_ nested) <> [])
    by (vm_compute; discriminate).
  exact (conj H1 (conj H2 (cleanup_scoping nat nested serial 0 (NewSuite nat)
                                           start H1 H2))).
Defined.

Lemma retry_until_first_pass_witness :
  types.SuiteConfig.DryRun serial = false
  /\ Z.of_nat 2 < maxAttemptsFor retried serial
  /\ State_ (fst (runSpec retried serial (NewSuite nat) start))
     = types.SpecStatePassed
  /\ types.SpecReport.NumAttempts
       (currentSpecReport (fst (runSpec retried serial (NewSuite nat) start)))
     = 3
  /\ retryNotices
       (types.SpecReport.CapturedGinkgoWriterOutput
          (currentSpecReport
             (fst (runSpec retried serial (NewSuite nat) start))))
     = [1; 2].
Proof.
  assert (Hfail : forall i, (i < 2)%nat ->
            failedUninterrupted nat
              (afterAttemptFrom nat retried serial 0 i (NewSuite nat)
                                (Writer_Truncate start))).
  { intros [|[|i]] Hi; [| |lia];
      (split; vm_compute; [discriminate|reflexivity]). }
  destruct (retry_until_first_pass nat retried serial (NewSuite nat) start 2
              eq_refl eq_refl Hfail eq_refl)
    as (_ & _ & H1 & H2 & H3).
  repeat split; assumption.
Defined.

Lemma synchronized_before_suite_witness :
  NodeType synchronizedBeforeSuite = types.NodeTypeSynchronizedBeforeSuite
  /\ types.SuiteConfig.DryRun (config false false 1 3) = false
  /\ types.SuiteConfig.ParallelNode (config false false 1 3) = 1
  /\ Server.beforeSuiteState (server start) = BeforeSuitePending
  /\ invoked (snd (runSuiteNode synchronizedBeforeSuite 0
                                (config false false 1 3) (NewSuite nat)
                                start))
     = invoked start
       ++ (synchronizedBeforeSuite, CallSynchronizedBeforeSuiteNode1Body)
       :: (if produceSucceeded nat synchronizedBeforeSuite 0
                               (config false false 1 3) start
           then [(synchronizedBeforeSuite,
                  CallSynchronizedBeforeSuiteAllNodesBody
                    (returned (SynchronizedBeforeSuiteNode1Body
                                 synchronizedBeforeSuite (user start))))]
           else []).
Proof.
  repeat (split; [reflexivity|]).
  exact (proj1 (synchronized_before_suite nat synchronizedBeforeSuite 0
                  (config false false 1 3) (NewSuite nat) start
                  eq_refl eq_refl eq_refl eq_refl)).
Defined.

(** Counterexample to C6 as first stated: with fail-fast on, the pending
    spec that follows the failed one is reported Pending, not Skipped. *)
Lemma fail_fast_reports_pending :
  let final :=
    runSpecsState failureStates EmptyString EmptyString false
                  [passingSpec; failingSpec; passingSpec; pendingSpec]
                  (config false true 1 1) (NewSuite nat) start in
  map types.SpecReport.State (types.Report.SpecReports (report final))
  = [types.SpecStatePassed; types.SpecStateFailed; types.SpecStateSkipped;
     types.SpecStatePending]
  /\ ~ Forall (fun r => types.SpecReport.State r = types.SpecStateSkipped)
              (skipn 2 (types.Report.SpecReports (report final))).
Proof.
  split; [vm_compute; reflexivity|].
  vm_compute. intro H. apply Forall_inv_tail, Forall_inv in H.
  discriminate H.
Qed.

Lemma fail_fast_skips_remaining_specs_witness :
  types.SuiteConfig.FailFast (config false true 1 1) = true
  /\ exists rs,
       types.Report.SpecReports
         (report (runLoop failureStates 5
                          [passingSpec; failingSpec; passingSpec; pendingSpec]
                          (config false true 1 1) 0
                          {| report := emptyReport; suiteAborted := false;
                             suite_ := NewSuite nat; world := start |}))
       = types.Report.SpecReports emptyReport ++ rs
       /\ skippedAfterFailure failureStates rs.
Proof.
  split; [reflexivity|].
  exact (proj1 (proj2 (fail_fast_skips_remaining_specs nat failureStates
                         (config false true 1 1) eq_refl))
               5%nat [passingSpec; failingSpec; passingSpec; pendingSpec]
               0%nat
               {| report := emptyReport; suiteAborted := false;
                  suite_ := NewSuite nat; world := start |}).
Defined.

(** Counterexample to C7 as first stated: in a dry run the body of the
    ReportAfterEach node is invoked, and the spec is recorded Failed
    because that body fails. *)
Lemma dry_run_invokes_report_hook :
  let final :=
    runSpecsState failureStates EmptyString EmptyString false [reportedSpec]
                  (config true false 1 1) (NewSuite nat) start in
  map types.SpecReport.State (types.Report.SpecReports (report final))
  = [types.SpecStateFailed]
  /\ map (fun x => (NodeType (fst x),
                    types.CodeLocation.LineNumber (CodeLocation (fst x))))
         (invoked (world final))
     = [(types.NodeTypeReportAfterEach, 60)].
Proof. split; vm_compute; reflexivity. Qed.

Lemma dry_run_short_circuits_witness :
  types.SuiteConfig.DryRun (config true false 1 1) = true
  /\ invokes nat (isReportAfterEachCall nat) start
       (world (runSpecsState failureStates EmptyString EmptyString false
                             [reportedSpec; passingSpec]
                             (config true false 1 1) (NewSuite nat) start)).
Proof.
  split; [reflexivity|].
  exact (proj2 (proj2 (proj2 (proj2
           (dry_run_short_circuits nat failureStates (config true false 1 1)
                                   eq_refl))))
               EmptyString EmptyString false [reportedSpec; passingSpec]
               (NewSuite nat) start).
Defined.

(** Counterexample to C8 as first stated: while the tree is being built,
    the push of a second BeforeSuite is rejected with the error of that
    phase, which names the pushed node and not the one registered first. *)
Lemma nested_push_names_no_earlier_node :
  let second := node types.NodeTypeBeforeSuite 2 0 passing in
  WithType beforeSuiteFamily (suiteNodes building)
  = [node types.NodeTypeBeforeSuite 1 0 passing]
  /\ pushSuiteNode second building
     = (Some (types.SuiteNodeInNestedContext types.NodeTypeBeforeSuite
                                             (at_ 2)), building)
  /\ forall nodeType cl,
       fst (pushSuiteNode second building)
       <> Some (types.MultipleBeforeSuiteNodes
                  nodeType cl types.NodeTypeBeforeSuite (at_ 1)).
Proof.
  repeat split; try reflexivity.
  intros nodeType cl. cbn. discriminate.
Qed.

Lemma second_suite_node_rejected_witness :
  types.NodeType_Is types.NodeTypeSynchronizedBeforeSuite beforeSuiteFamily
  = true
  /\ WithType beforeSuiteFamily (suiteNodes registering)
     = [node types.NodeTypeBeforeSuite 1 0 passing]
  /\ pushSuiteNode (node types.NodeTypeSynchronizedBeforeSuite 2 0 passing)
                   registering
     = (Some (types.MultipleBeforeSuiteNodes
                types.NodeTypeSynchronizedBeforeSuite (at_ 2)
                types.NodeTypeBeforeSuite (at_ 1)), registering).
Proof.
  repeat (split; [reflexivity|]).
  exact (proj1 (second_suite_node_rejected nat
                  (node types.NodeTypeSynchronizedBeforeSuite 2 0 passing)
                  registering (node types.NodeTypeBeforeSuite 1 0 passing) [])
               (conj eq_refl eq_refl)).
Defined.


Lemma outcome_folding_witness :
  let aborted :=
    withOutcome types.SpecStateAborted types.Failure.zero (NewSuite nat) in
  State_ aborted = types.SpecStateAborted
  /\ State_ (fst (runCleanUpNodes nested serial (Nodes_ nested) aborted start))
     = types.SpecStateAborted.
Proof.
  split; [reflexivity|].
  exact (proj1 (proj2 (proj2 (outcome_folding nat nested serial
                                (node types.NodeTypeAfterEach 11 0 passing)
                                (withOutcome types.SpecStateAborted
                                             types.Failure.zero
                                             (NewSuite nat)) start))
                      (Nodes_ nested) eq_refl)).
Defined.

Lemma nil_parameters_pass_witness :
  (1 < List.length (parameters withNil))%nat
  /\ nth 1 (parameters withNil) (Nil nat) = Nil nat
  /\ nth_error (inValuesFor (funcType compare) (parameters withNil)) 1
     = Some (reflect.Zero reflect.Int).
Proof.
  assert (H1 : (1 < List.length (parameters withNil))%nat)
    by (vm_compute; lia).
  assert (H2 : (1 < limitOf (funcType compare))%nat) by (vm_compute; lia).
  split; [exact H1|]. split; [reflexivity|].
  exact (proj1 (proj2 (proj2 (proj2
           (nil_parameters_pass nat assignable compare (parameters withNil)
                                "Table Body function" (at_ 71)))))
               1%nat H1 eq_refl (or_introl H2)).
Defined.

Lemma failed_attempts_exhaust_retries_witness :
  types.SuiteConfig.DryRun serial = false
  /\ (forall i, Z.of_nat i < maxAttemptsFor exhausted serial ->
        failedUninterrupted nat
          (afterAttemptFrom nat exhausted serial 0 i (NewSuite nat)
                            (Writer_Truncate start)))
  /\ State_ (fst (runSpec exhausted serial (NewSuite nat) start))
     <> types.SpecStatePassed
  /\ types.SpecReport.NumAttempts
       (currentSpecReport (fst (runSpec exhausted serial (NewSuite nat) start)))
     = 3.
Proof.
  assert (Hfail : forall i, Z.of_nat i < maxAttemptsFor exhausted serial ->
            failedUninterrupted nat
              (afterAttemptFrom nat exhausted serial 0 i (NewSuite nat)
                                (Writer_Truncate start))).
  { change (maxAttemptsFor exhausted serial) with 3.
    intros [|[|[|i]]] Hi; [| | |lia];
      (split; vm_compute; [discriminate|reflexivity]). }
  destruct (failed_attempts_exhaust_retries nat exhausted serial
              (NewSuite nat) start eq_refl Hfail)
    as (_ & _ & H1 & H2 & _).
  split; [reflexivity|]. split; [exact Hfail|]. split; assumption.
Defined.

Lemma interrupt_ends_retries_witness :
  types.SuiteConfig.DryRun serial = false
  /\ Z.of_nat 0 < maxAttemptsFor exhausted serial
  /\ State_ (fst (afterAttemptFrom nat exhausted serial 0 0 (NewSuite nat)
                                   (Writer_Truncate interrupted)))
     <> types.SpecStatePassed
  /\ Interrupted
       (fst (Status (snd (afterAttemptFrom nat exhausted serial 0 0
                                           (NewSuite nat)
                                           (Writer_Truncate interrupted)))))
     = true
  /\ types.SpecReport.NumAttempts
       (currentSpecReport
          (fst (runSpec exhausted serial (NewSuite nat) interrupted)))
     = 1.
Proof.
  assert (H0 : forall i, (i < 0)%nat ->
            failedUninterrupted nat
              (afterAttemptFrom nat exhausted serial 0 i (NewSuite nat)
                                (Writer_Truncate interrupted)))
    by (intros i Hi; lia).
  assert (H1 : State_ (fst (afterAttemptFrom nat exhausted serial 0 0
                              (NewSuite nat) (Writer_Truncate interrupted)))
               <> types.SpecStatePassed)
    by (vm_compute; discriminate).
  assert (H2 : Interrupted
                 (fst (Status (snd (afterAttemptFrom nat exhausted serial 0 0
                                      (NewSuite nat)
                                      (Writer_Truncate interrupted)))))
               = true)
    by (vm_compute; reflexivity).
  destruct (interrupt_ends_retries nat exhausted serial (NewSuite nat)
              interrupted 0 eq_refl eq_refl H0 H1 H2) as [_ H].
  split; [reflexivity|]. split; [reflexivity|]. split; [exact H1|].
  split; [exact H2|exact H].
Defined.

Lemma failed_before_suite_skips_the_specs_witness :
  let final :=
    runSpecsState failureStates "suite" "/suite" false [passingSpec] serial
                  brokenSetup start in
  let reports := types.Report.SpecReports (report final) in
  reports = hd types.SpecReport.zero reports :: tl reports
  /\ reportOfType beforeSuiteFamily (hd types.SpecReport.zero reports)
  /\ types.SpecState_Is
       (types.SpecReport.State (hd types.SpecReport.zero reports))
       failureStates = true
  /\ runSpecs failureStates "suite" "/suite" false [passingSpec] serial
              brokenSetup start = false
  /\ Forall (fun r' =>
               types.SpecReport.LeafNodeType r' <> types.NodeTypeIt)
            (tl reports).
Proof.
  intros final reports.
  assert (H1 : reports = hd types.SpecReport.zero reports :: tl reports)
    by (vm_compute; reflexivity).
  assert (H2 : reportOfType beforeSuiteFamily
                 (hd types.SpecReport.zero reports))
    by (vm_compute; reflexivity).
  assert (H3 : types.SpecState_Is
                 (types.SpecReport.State (hd types.SpecReport.zero reports))
                 failureStates = true)
    by (vm_compute; reflexivity).
  destruct (failed_before_suite_skips_the_specs nat failureStates "suite"
              "/suite" false [passingSpec] serial brokenSetup start
              (hd types.SpecReport.zero reports) (tl reports) H1 H2 H3)
    as (H4 & H5 & _).
  split; [exact H1|]. split; [exact H2|]. split; [exact H3|].
  split; [exact H4|exact H5].
Defined.

Lemma interrupted_run_skips_and_fails_witness :
  signalledWithin (env interrupted) 0 (S (now interrupted)) = true
  /\ runSpecs failureStates "suite" "/suite" false [passingSpec] serial
              (NewSuite nat) interrupted = false
  /\ In (Environment.interruptCause (env interrupted))
        (types.Report.SpecialSuiteFailureReasons
           (report (runSpecsState failureStates "suite" "/suite" false
                                  [passingSpec] serial (NewSuite nat)
                                  interrupted))).
Proof.
  destruct (interrupted_run_skips_and_fails nat failureStates "suite"
              "/suite" false [passingSpec] serial (NewSuite nat) interrupted
              eq_refl) as (H1 & H2 & _).
  split; [reflexivity|]. split; [exact H1|exact H2].
Defined.

Lemma pending_specs_fail_the_suite_witness :
  HasAnySpecsMarkedPending [pendingSpec; passingSpec] = true
  /\ types.SuiteConfig.FailOnPending failOnPending = true
  /\ runSpecs failureStates "suite" "/suite" false [pendingSpec; passingSpec]
              failOnPending (NewSuite nat) start = false.
Proof.
  split; [reflexivity|]. split; [reflexivity|].
  exact (pending_specs_fail_the_suite nat failureStates "suite" "/suite"
           false [pendingSpec; passingSpec] failOnPending (NewSuite nat)
           start eq_refl eq_refl).
Defined.

Lemma synchronized_after_suite_witness :
  NodeType synchronizedAfterSuite = types.NodeTypeSynchronizedAfterSuite
  /\ types.SuiteConfig.DryRun serial = false
  /\ invoked (snd (runSuiteNode synchronizedAfterSuite 0 serial
                                (NewSuite nat) start))
     = [(synchronizedAfterSuite, CallSynchronizedAfterSuiteAllNodesBody);
        (synchronizedAfterSuite, CallSynchronizedAfterSuiteNode1Body)].
Proof.
  split; [reflexivity|]. split; [reflexivity|].
  exact (proj1 (synchronized_after_suite nat synchronizedAfterSuite 0%nat
                  serial (NewSuite nat) start eq_refl eq_refl)).
Defined.

Lemma synchronized_before_suite_outcome_witness :
  let hook := node types.NodeTypeSynchronizedBeforeSuite 5 0 failing in
  NodeType hook = types.NodeTypeSynchronizedBeforeSuite
  /\ types.SuiteConfig.DryRun serial = false
  /\ State_ (fst (runSuiteNode hook 0 serial (NewSuite nat) start))
     = types.SpecStateFailed.
Proof.
  intro hook.
  destruct (synchronized_before_suite_outcome nat hook 0%nat serial
              (NewSuite nat) start eq_refl eq_refl) as [H _].
  destruct (H eq_refl) as [H1 _].
  assert (Hfailed :
            outcome (fst (runNode hook CallSynchronizedBeforeSuiteNode1Body
                                  (Some 0%nat) EmptyString serial
                                  (Writer_Truncate start)))
            = types.SpecStateFailed)
    by (vm_compute; reflexivity).
  destruct H1 as [Hs _]; [rewrite Hfailed; discriminate|].
  split; [reflexivity|]. split; [reflexivity|].
  rewrite Hs. exact Hfailed.
Defined.

Lemma report_after_suite_sees_the_whole_run_witness :
  types.SuiteConfig.DryRun serial = false
  /\ invoked (snd (runReportAfterSuiteNode reportAfterSuite emptyReport serial
                                           (NewSuite nat) start))
     = [(reportAfterSuite, CallReportAfterSuiteBody emptyReport)].
Proof.
  split; [reflexivity|].
  exact (proj1 (report_after_suite_sees_the_whole_run nat reportAfterSuite
                  emptyReport serial (NewSuite nat) start eq_refl)
               eq_refl).
Defined.

Lemma table_arguments_witness :
  Forall (notNil nat) tableArgs
  /\ DescribeTable assignable (at_ 0) (at_ 60) "compare" tableArgs
     = Pushed (NewNode types.NodeTypeContainer "compare" (at_ 60) []
                       (@noBody nat))
              (tableBody assignable (at_ 0) (Some compare) [fitting; tooFew]).
Proof.
  assert (H : Forall (notNil nat) tableArgs)
    by (repeat constructor; discriminate).
  split; [exact H|].
  exact (proj1 (table_arguments nat assignable (at_ 0) (at_ 60) "compare"
                  tableArgs H)).
Defined.


Lemma valid_entry_runs_the_table_body_witness :
  validateParameters assignable compare (parameters fitting)
                     "Table Body function" (codeLocation fitting) = None
  /\ exists body,
       entryNode assignable (at_ 0) (Some compare) fitting 0%nat
       = (Built (NewNode types.NodeTypeIt "1 > 0" (at_ 73) [] body), 0%nat)
       /\ forall u,
            body u = fst (Call compare
                               (inValuesFor (funcType compare)
                                            (parameters fitting)) u).
Proof.
  destruct (valid_entry_runs_the_table_body nat assignable (at_ 0) compare
              fitting 0%nat eq_refl) as (H1 & H2 & _).
  split; [reflexivity|].
  eexists. split; [exact (H2 eq_refl)|exact H1].
Defined.

Lemma table_body_panics_witness :
  (description undescribed = Nil nat
   \/ (TypeOf (description undescribed) = Some reflect.String
       /\ Some compare = None))
  /\ entryNode assignable (at_ 0) (Some compare) undescribed 0%nat
     = (BuildPanic _ nilDereference, 0%nat)
  /\ tableBody assignable (at_ 0) (Some compare)
               ([fitting] ++ undescribed :: [tooFew]) 0%nat
     = (BuildPanic _ nilDereference, 0%nat).
Proof.
  assert (H : description undescribed = Nil nat
              \/ (TypeOf (description undescribed) = Some reflect.String
                  /\ Some compare = None))
    by (left; reflexivity).
  destruct (table_body_panics nat assignable (at_ 0) (Some compare)
              undescribed [fitting] [tooFew] 0%nat H) as [H1 H2].
  split; [exact H|]. split; [exact H1|].
  eapply H2. reflexivity.
Defined.

Lemma push_while_building_the_tree_witness :
  let container := node types.NodeTypeContainer 82 1 (@noBody nat) in
  phase (built entered) = PhaseBuildTree
  /\ fst (PushNode container innerBody entered)
     = Some (CaughtPanicDuringABuildPhase (types.PanicOther "boom")
                                          (at_ 82))
  /\ tree (snd (PushNode container innerBody entered))
     = MakeTreeNode
         (node types.NodeTypeContainer 80 0 (@noBody nat))
         [MakeTreeNode (node types.NodeTypeIt 84 1 passing) [];
          MakeTreeNode container
                       [MakeTreeNode (node types.NodeTypeIt 83 2 passing)
                                     []]].
Proof.
  intro container.
  pose proof (push_while_building_the_tree nat container innerBody entered
                eq_refl) as H.
  cbv zeta in H.
  change (isSuiteNode nat container) with false in H.
  change (isContainer nat container) with true in H.
  cbv iota in H.
  destruct H as (t & (_ & _ & Ht) & _ & Hsub & Herr).
  split; [reflexivity|]. split; [exact Herr|].
  rewrite Ht, Hsub. reflexivity.
Defined.

Lemma BuildTree_enters_in_registration_order_witness :
  let c := declareAll nat declarations (NewConstruction nat) in
  topLevelRecorded nat c
  /\ fst (BuildTree c) = None
  /\ map (@TreeNode_Node nat) (Children (tree (snd (BuildTree c))))
     = [node types.NodeTypeIt 85 0 passing;
        node types.NodeTypeContainer 80 0 (@noBody nat)].
Proof.
  intro c.
  assert (H : topLevelRecorded nat c)
    by (split; [reflexivity|repeat constructor]).
  destruct (BuildTree_enters_in_registration_order nat c H)
    as (_ & _ & more & Ht & Hres).
  assert (E : fst (BuildTree c) = None) by reflexivity.
  rewrite E in Hres.
  split; [exact H|]. split; [exact E|].
  rewrite Ht. cbn [Children]. rewrite map_app, Hres. reflexivity.
Defined.
